(** * ResourcesManager of neo-one-server: a shallow embedding

    Source: packages/neo-one-server/src/ResourcesManager.js.

    One [Manager] record per [(plugin, resourceType)] holds the fields of
    the JavaScript class.  All managers of a server live in a [World]
    together with the heap of [TaskList] objects (so that object identity
    of task lists is a reference), the list of task lists that were
    started fire-and-forget, and the log.  Methods are state-passing
    functions on [World]; a [throw] is the [Throws] result.

    JavaScript objects used as dictionaries are [gmap string _]; a key
    whose value is [undefined] is a key bound to [None]. *)

From Stdlib Require Import Ascii String.
From stdpp Require Import base option list gmap strings.

Local Open Scope string_scope.
Local Open Scope list_scope.

(** ** Data model *)

(** [ResourceDependency]: the triple [{plugin, resourceType, name}]. *)
Record ResourceDependency := mkDep {
  dep_plugin : string;
  dep_resourceType : string;
  dep_name : string;
}.

#[global] Instance ResourceDependency_eq_dec : EqDecision ResourceDependency.
Proof. solve_decision. Defined.

(** A manager is found through [(plugin, resourceType)]. *)
Abbreviation ManagerKey := (string * string)%type.

(** Adapters and task lists are objects: they are known by reference. *)
Abbreviation ResourceAdapter := nat.
Abbreviation TaskListRef := nat.
Abbreviation CreateHook := nat.

(** [ResourceOptions] travel unchanged from the caller to the adapter. *)
Abbreviation ResourceOptions := string.

(** The literal [{}] handed to delegated operations. *)
Definition emptyOptions : ResourceOptions := "{}".

Inductive Error :=
  | ResourceNoStartError (plugin resourceType : string)
  | ResourceNoStopError (plugin resourceType : string)
  | UnknownResourcesManager (plugin resourceType : string)
  | ForFlow
  | TypeError
  | AbortedError
  | DuplicateResourceName (name : string)
  | DoesNotExist (name : string)
  | ExternalError (code : option string) (message : string).

#[global] Instance Error_eq_dec : EqDecision Error.
Proof. solve_decision. Defined.

(** [error.code] of a caught error. *)
Definition error_code (e : Error) : option string :=
  match e with
  | ExternalError c _ => c
  | _ => None
  end.

(** The result of a call that may throw. *)
Inductive Result (A : Type) :=
  | Returns (a : A)
  | Throws (e : Error).
Arguments Returns {A} a.
Arguments Throws {A} e.

(** The four operations that own an in-flight slot. *)
Inductive Op := Create | Delete | Start | Stop.

#[global] Instance Op_eq_dec : EqDecision Op.
Proof. solve_decision. Defined.

(** [resourceType.getCRUD()]: [start] and [stop] are optional entries; an
    entry is known here by its command name.  Display names are only
    used in titles and messages. *)
Record CRUD := {
  create_startOnCreate : bool;
  crud_start : option string;
  crud_stop : option string;
}.

Record ResourceType := {
  rt_plugin : string;        (* resourceType.plugin.name *)
  rt_name : string;          (* resourceType.name *)
  rt_names_lower : string;   (* resourceType.names.lower *)
  getCRUD : CRUD;
}.

(** The fields of the class that the operations read or write. *)
Record Manager := mkManager {
  resourceType : ResourceType;
  _dataPath : string;
  _resourceAdapters : gmap string (option ResourceAdapter);
  _directResourceDependents : gmap string (list ResourceDependency);
  _resourceDependents : gmap string (list ResourceDependency);
  _createHooks : list CreateHook;
  _createTaskList : gmap string TaskListRef;
  _deleteTaskList : gmap string TaskListRef;
  _startTaskList : gmap string TaskListRef;
  _stopTaskList : gmap string TaskListRef;
  _resourceAdaptersStarted : gmap string bool;
}.

Definition with_resourceAdapters (v : gmap string (option ResourceAdapter))
    (m : Manager) : Manager :=
  mkManager (resourceType m) (_dataPath m) v (_directResourceDependents m)
    (_resourceDependents m) (_createHooks m) (_createTaskList m)
    (_deleteTaskList m) (_startTaskList m) (_stopTaskList m)
    (_resourceAdaptersStarted m).

Definition with_directResourceDependents
    (v : gmap string (list ResourceDependency)) (m : Manager) : Manager :=
  mkManager (resourceType m) (_dataPath m) (_resourceAdapters m) v
    (_resourceDependents m) (_createHooks m) (_createTaskList m)
    (_deleteTaskList m) (_startTaskList m) (_stopTaskList m)
    (_resourceAdaptersStarted m).

Definition with_resourceDependents
    (v : gmap string (list ResourceDependency)) (m : Manager) : Manager :=
  mkManager (resourceType m) (_dataPath m) (_resourceAdapters m)
    (_directResourceDependents m) v (_createHooks m) (_createTaskList m)
    (_deleteTaskList m) (_startTaskList m) (_stopTaskList m)
    (_resourceAdaptersStarted m).

Definition with_createHooks (v : list CreateHook) (m : Manager) : Manager :=
  mkManager (resourceType m) (_dataPath m) (_resourceAdapters m)
    (_directResourceDependents m) (_resourceDependents m) v
    (_createTaskList m) (_deleteTaskList m) (_startTaskList m)
    (_stopTaskList m) (_resourceAdaptersStarted m).

Definition with_resourceAdaptersStarted (v : gmap string bool)
    (m : Manager) : Manager :=
  mkManager (resourceType m) (_dataPath m) (_resourceAdapters m)
    (_directResourceDependents m) (_resourceDependents m) (_createHooks m)
    (_createTaskList m) (_deleteTaskList m) (_startTaskList m)
    (_stopTaskList m) v.

(** The in-flight map of an operation, read and written by kind. *)
Definition taskLists (op : Op) (m : Manager) : gmap string TaskListRef :=
  match op with
  | Create => _createTaskList m
  | Delete => _deleteTaskList m
  | Start => _startTaskList m
  | Stop => _stopTaskList m
  end.

Definition with_taskLists (op : Op) (v : gmap string TaskListRef)
    (m : Manager) : Manager :=
  match op with
  | Create =>
      mkManager (resourceType m) (_dataPath m) (_resourceAdapters m)
        (_directResourceDependents m) (_resourceDependents m)
        (_createHooks m) v (_deleteTaskList m) (_startTaskList m)
        (_stopTaskList m) (_resourceAdaptersStarted m)
  | Delete =>
      mkManager (resourceType m) (_dataPath m) (_resourceAdapters m)
        (_directResourceDependents m) (_resourceDependents m)
        (_createHooks m) (_createTaskList m) v (_startTaskList m)
        (_stopTaskList m) (_resourceAdaptersStarted m)
  | Start =>
      mkManager (resourceType m) (_dataPath m) (_resourceAdapters m)
        (_directResourceDependents m) (_resourceDependents m)
        (_createHooks m) (_createTaskList m) (_deleteTaskList m) v
        (_stopTaskList m) (_resourceAdaptersStarted m)
  | Stop =>
      mkManager (resourceType m) (_dataPath m) (_resourceAdapters m)
        (_directResourceDependents m) (_resourceDependents m)
        (_createHooks m) (_createTaskList m) (_deleteTaskList m)
        (_startTaskList m) v (_resourceAdaptersStarted m)
  end.

(** The constructor: every map starts empty. *)
Definition newManager (rt : ResourceType) (dataPath : string) : Manager :=
  mkManager rt dataPath ∅ ∅ ∅ [] ∅ ∅ ∅ ∅ ∅.

(** [this._resourceAdapters[name]], with [undefined] and a missing key
    both read as [None] (the source tests it with [!= null]). *)
Definition adapterOf (m : Manager) (name : string) : option ResourceAdapter :=
  mjoin (_resourceAdapters m !! name).

(** Truthiness of [this._resourceAdaptersStarted[name]], as [if (started)]
    and [enabled] read it: a flag that was never set counts as
    [false]. *)
Definition startedOf (m : Manager) (name : string) : bool :=
  default false (_resourceAdaptersStarted m !! name).

(** ** [_uniqueDeps]

    [_.uniqBy(deps, key)] keeps, in order, the first element of each
    key. *)
Fixpoint uniqByFrom {A : Type} (key : A → string) (seen : list string)
    (l : list A) : list A :=
  match l with
  | [] => []
  | x :: l' =>
      if decide (key x ∈ seen) then uniqByFrom key seen l'
      else x :: uniqByFrom key (key x :: seen) l'
  end.

Definition uniqBy {A : Type} (key : A → string) (l : list A) : list A :=
  uniqByFrom key [] l.

(** The iteratee [`${plugin}:${resourceType}:${name}`]. *)
Definition depKey (d : ResourceDependency) : string :=
  dep_plugin d +:+ ":" +:+ dep_resourceType d +:+ ":" +:+ dep_name d.

(** Whether a string contains the separator of [depKey]. *)
Fixpoint hasColon (s : string) : bool :=
  match s with
  | EmptyString => false
  | String c s' => if decide (c = ":"%char) then true else hasColon s'
  end.

Definition _uniqueDeps (deps : list ResourceDependency)
    : list ResourceDependency :=
  uniqBy depKey deps.

(** ** [_readDeps]

    [fs.readJSON] either yields the parsed list or rejects. *)
Section ReadDeps.
Variable readJSON : string → Result (list ResourceDependency).

Definition _readDeps (depsPath : string) : Result (list ResourceDependency) :=
    match readJSON depsPath with
    | Returns deps => Returns deps
    | Throws error =>
        if decide (error_code error = Some "ENOENT") then Returns []
        else Throws error
    end.
End ReadDeps.

(** ** Task lists as objects

    A [new TaskList({...})] in the source builds closures over the
    constants of the call.  A [Closure] records which method built the
    task list and the constants it captured; [set] is the one captured
    variable that is assigned later (by [setFromContext]). *)
Inductive Closure :=
  | CreateTL (k : ManagerKey) (name : string) (options : ResourceOptions)
      (shouldSkip : bool) (resourceAdapter : option ResourceAdapter)
      (startOnCreate : bool) (start : option string) (set : bool)
  | DeleteTL (k : ManagerKey) (name : string) (options : ResourceOptions)
      (shouldSkip : bool) (start stop : option string)
      (startTaskList createTaskList : option TaskListRef)
      (resourceAdapter : option ResourceAdapter)
      (dependents : list ResourceDependency)
  | StartTL (k : ManagerKey) (name : string) (options : ResourceOptions)
      (shouldSkip : bool) (stopTaskList : option TaskListRef)
      (resourceAdapter : option ResourceAdapter) (started : option bool)
      (directDependents : list ResourceDependency)
  | StopTL (k : ManagerKey) (name : string) (options : ResourceOptions)
      (shouldSkip : bool) (startTaskList : option TaskListRef)
      (resourceAdapter : option ResourceAdapter)
      (dependents directDependents : list ResourceDependency)
  | DepsTL (op : Op) (targets : list (ManagerKey * string))
  | HooksTL (k : ManagerKey) (name : string) (options : ResourceOptions)
      (hooks : list CreateHook).

Inductive Status :=
  | Pending
  | Settled (failed : bool).

Record TaskList := {
  tl_closure : Closure;
  tl_status : Status;
}.

(** The context bag of a task list; the three keys the manager uses. *)
Record Ctx := {
  ctx_resourceAdapter : option ResourceAdapter;
  ctx_dependencies : option (list ResourceDependency);
  ctx_dependents : option (list ResourceDependency);
}.

Definition freshCtx : Ctx :=
  {| ctx_resourceAdapter := None; ctx_dependencies := None;
     ctx_dependents := None |}.

(** Calls that leave the manager: adapters, the master adapter, the file
    system, the port allocator, the resource stream, plugin hooks. *)
Inductive ExtCall :=
  | CreateResourceAdapter (k : ManagerKey) (name dataPath : string)
      (options : ResourceOptions)
  | AdapterStart (a : ResourceAdapter) (options : ResourceOptions)
  | AdapterStop (a : ResourceAdapter) (options : ResourceOptions)
  | AdapterDelete (a : ResourceAdapter) (options : ResourceOptions)
  | AdapterDestroy (a : ResourceAdapter)
  | AwaitResource (k : ManagerKey) (name : string)
  | WriteReady (k : ManagerKey) (name : string)
      (dependencies dependents : list ResourceDependency)
  | RemoveReady (k : ManagerKey) (name : string)
  | ReleasePort (plugin resourceType resource : string)
  | RunHook (h : CreateHook) (name : string) (options : ResourceOptions).

(** What is observable of a run: the [_log] calls of the source, the
    [_update$.next()] signals, the calls to collaborators, and the moment
    the runtime settles a task list. *)
Inductive Event :=
  | RESOURCES_MANAGER (op : Op) (k : ManagerKey) (name : string)
  | RESOURCE_ADAPTER_ERROR (op : Op) (k : ManagerKey) (name : string)
      (error : Error)
  | RESOURCE_ADAPTER_COMPLETE (op : Op) (k : ManagerKey) (name : string)
  | RESOURCE_ADAPTER_DESTROY (k : ManagerKey) (name : string)
  | RESOURCE_ADAPTER_INIT (k : ManagerKey) (name : string)
  | RESOURCES_MANAGER_INIT (k : ManagerKey)
  | UPDATE (k : ManagerKey)
  | EXT (c : ExtCall)
  | DONE (r : TaskListRef) (failed : bool).

#[global] Instance ExtCall_eq_dec : EqDecision ExtCall.
Proof. solve_decision. Defined.

#[global] Instance Event_eq_dec : EqDecision Event.
Proof. solve_decision. Defined.

(** A task list started with [.toPromise()] and left alone; [caught]
    says that a [.catch(() => {})] is attached. *)
Record Detached := {
  detached_taskList : TaskListRef;
  detached_caught : bool;
}.

Record World := mkWorld {
  managers : gmap (string * string) Manager;
  heap : gmap nat TaskList;
  nextRef : nat;
  background : list Detached;
  trace : list Event;
}.

Definition emit (e : Event) (w : World) : World :=
  mkWorld (managers w) (heap w) (nextRef w) (background w) (trace w ++ [e]).

(** Modelled from the spec: [logInvoke(log, event, data, func)] is
    imported from [@neo-one/utils] and is not among the sources, and the
    spec leaves the logging backend out of its scope (section 1).  The
    bodies of [init], [_init] and [_destroy] run inside it.  The model
    records the entry the wrapper is called with, where it is entered;
    what else the wrapper writes to the log, such as an entry for a
    body that throws, is not recorded, and no statement is about it. *)
Definition logInvoke (entry : Event) (w : World) : World := emit entry w.

Definition updManager (k : ManagerKey) (f : Manager → Manager) (w : World)
    : World :=
  mkWorld (alter f k (managers w)) (heap w) (nextRef w) (background w)
    (trace w).

Definition updHeap (f : gmap nat TaskList → gmap nat TaskList) (w : World)
    : World :=
  mkWorld (managers w) (f (heap w)) (nextRef w) (background w) (trace w).

Definition detach (r : TaskListRef) (w : World) : World :=
  mkWorld (managers w) (heap w) (nextRef w)
    (background w ++ [{| detached_taskList := r; detached_caught := true |}])
    (trace w).

(** [new TaskList(...)]: a fresh object. *)
Definition newTaskList (cl : Closure) (w : World) : World * TaskListRef :=
  let r := nextRef w in
  (mkWorld (managers w)
     (<[r := {| tl_closure := cl; tl_status := Pending |}]> (heap w))
     (S r) (background w) (trace w), r).

(** [pluginManager.getResourcesManager({plugin, resourceType})]; [None]
    when it fails. *)
Definition getResourcesManager (w : World) (plugin resourceType : string)
    : option Manager :=
  managers w !! (plugin, resourceType).

Definition setTaskList (op : Op) (k : ManagerKey) (name : string)
    (r : TaskListRef) : World → World :=
  updManager k (λ m, with_taskLists op (<[name := r]> (taskLists op m)) m).

Definition deleteTaskList (op : Op) (k : ManagerKey) (name : string)
    : World → World :=
  updManager k (λ m, with_taskLists op (delete name (taskLists op m)) m).

(** ** Dependency propagation *)

Definition addDependent (k : ManagerKey) (name : string)
    (dependent : ResourceDependency) : World → World :=
  updManager k (λ m,
    with_resourceDependents
      (<[name :=
           (default [] (_resourceDependents m !! name) ++ [dependent])%list]>
         (_resourceDependents m)) m).

(** [_addDependents({name, dependencies})]: [forEach] stops at the first
    dependency whose manager cannot be found. *)
Fixpoint _addDependents (self : ResourceDependency)
    (dependencies : list ResourceDependency) (w : World)
    : World * option Error :=
  match dependencies with
  | [] => (w, None)
  | d :: rest =>
      match getResourcesManager w (dep_plugin d) (dep_resourceType d) with
      | None =>
          (w, Some (UnknownResourcesManager (dep_plugin d)
                      (dep_resourceType d)))
      | Some _ =>
          _addDependents self rest
            (addDependent (dep_plugin d, dep_resourceType d) (dep_name d)
               self w)
      end
  end.

(** [(deps || []).filter(...)] of [_getStartDeps] and [_getStopDeps]. *)
Fixpoint filterDeps (supported : CRUD → bool) (w : World)
    (deps : list ResourceDependency) : Result (list ResourceDependency) :=
  match deps with
  | [] => Returns []
  | d :: rest =>
      match getResourcesManager w (dep_plugin d) (dep_resourceType d) with
      | None =>
          Throws (UnknownResourcesManager (dep_plugin d) (dep_resourceType d))
      | Some m =>
          match filterDeps supported w rest with
          | Throws e => Throws e
          | Returns l =>
              Returns (if supported (getCRUD (resourceType m)) then d :: l
                       else l)
          end
      end
  end.

Definition _getStartDeps (w : World) (deps : option (list ResourceDependency))
    : Result (list ResourceDependency) :=
  filterDeps (λ c, bool_decide (is_Some (crud_start c))) w (default [] deps).

Definition _getStopDeps (w : World) (deps : option (list ResourceDependency))
    : Result (list ResourceDependency) :=
  filterDeps (λ c, bool_decide (is_Some (crud_stop c))) w (default [] deps).

(** ** The four operations: the synchronous part

    Each one logs, reads the constants its closures capture, builds the
    task list and, unless the call is a re-entry, stores it in the
    in-flight map.  The value returned is the task list just built. *)

Definition noManager {A : Type} (k : ManagerKey) (w : World)
    : World * Result A :=
  (w, Throws (UnknownResourcesManager k.1 k.2)).

Definition create (k : ManagerKey) (name : string) (options : ResourceOptions)
    (w : World) : World * Result TaskListRef :=
  match managers w !! k with
  | None => noManager k w
  | Some m =>
      let w := emit (RESOURCES_MANAGER Create k name) w in
      let crud := getCRUD (resourceType m) in
      let shouldSkip := bool_decide (is_Some (_createTaskList m !! name)) in
      let resourceAdapter := adapterOf m name in
      let '(w, createTaskList) :=
        newTaskList
          (CreateTL k name options shouldSkip resourceAdapter
             (create_startOnCreate crud) (crud_start crud) false) w in
      let w :=
        if shouldSkip then w else setTaskList Create k name createTaskList w in
      (w, Returns createTaskList)
  end.

Definition delete_ (k : ManagerKey) (name : string) (options : ResourceOptions)
    (w : World) : World * Result TaskListRef :=
  match managers w !! k with
  | None => noManager k w
  | Some m =>
      let w := emit (RESOURCES_MANAGER Delete k name) w in
      let shouldSkip := bool_decide (is_Some (_deleteTaskList m !! name)) in
      let crud := getCRUD (resourceType m) in
      let startTaskList := _startTaskList m !! name in
      let createTaskList := _createTaskList m !! name in
      let resourceAdapter := adapterOf m name in
      let dependents :=
        _uniqueDeps
          (default [] (_resourceDependents m !! name)
             ++ default [] (_directResourceDependents m !! name))%list in
      let '(w, deleteTaskList) :=
        newTaskList
          (DeleteTL k name options shouldSkip (crud_start crud)
             (crud_stop crud) startTaskList createTaskList resourceAdapter
             dependents) w in
      let w :=
        if shouldSkip then w else setTaskList Delete k name deleteTaskList w in
      (w, Returns deleteTaskList)
  end.

Definition start (k : ManagerKey) (name : string) (options : ResourceOptions)
    (w : World) : World * Result TaskListRef :=
  match managers w !! k with
  | None => noManager k w
  | Some m =>
      let w := emit (RESOURCES_MANAGER Start k name) w in
      let crud := getCRUD (resourceType m) in
      let rt := resourceType m in
      match crud_start crud, crud_stop crud with
      | None, _ =>
          (w, Throws (ResourceNoStartError (rt_plugin rt) (rt_names_lower rt)))
      | Some _, None =>
          (w, Throws (ResourceNoStopError (rt_plugin rt) (rt_names_lower rt)))
      | Some _, Some _ =>
          let shouldSkip := bool_decide (is_Some (_startTaskList m !! name)) in
          let stopTaskList := _stopTaskList m !! name in
          let resourceAdapter := adapterOf m name in
          let started := _resourceAdaptersStarted m !! name in
          match _getStartDeps w (_directResourceDependents m !! name) with
          | Throws e => (w, Throws e)
          | Returns directDependents =>
              let '(w, startTaskList) :=
                newTaskList
                  (StartTL k name options shouldSkip stopTaskList
                     resourceAdapter started directDependents) w in
              let w :=
                if shouldSkip then w
                else setTaskList Start k name startTaskList w in
              (w, Returns startTaskList)
          end
      end
  end.

Definition stop (k : ManagerKey) (name : string) (options : ResourceOptions)
    (w : World) : World * Result TaskListRef :=
  match managers w !! k with
  | None => noManager k w
  | Some m =>
      let w := emit (RESOURCES_MANAGER Stop k name) w in
      let crud := getCRUD (resourceType m) in
      let rt := resourceType m in
      match crud_start crud, crud_stop crud with
      | None, _ =>
          (w, Throws (ResourceNoStartError (rt_plugin rt) (rt_names_lower rt)))
      | Some _, None =>
          (w, Throws (ResourceNoStopError (rt_plugin rt) (rt_names_lower rt)))
      | Some _, Some _ =>
          let shouldSkip := bool_decide (is_Some (_stopTaskList m !! name)) in
          let startTaskList := _startTaskList m !! name in
          let resourceAdapter := adapterOf m name in
          match _getStopDeps w (_resourceDependents m !! name) with
          | Throws e => (w, Throws e)
          | Returns dependents =>
              match _getStopDeps w (_directResourceDependents m !! name) with
              | Throws e => (w, Throws e)
              | Returns directDependents =>
                  let '(w, stopTaskList) :=
                    newTaskList
                      (StopTL k name options shouldSkip startTaskList
                         resourceAdapter dependents directDependents) w in
                  let w :=
                    if shouldSkip then w
                    else setTaskList Stop k name stopTaskList w in
                  (w, Returns stopTaskList)
              end
          end
      end
  end.

(** [manager.<op>(name, options)]. *)
Definition invoke (op : Op) : ManagerKey → string → ResourceOptions →
    World → World * Result TaskListRef :=
  match op with
  | Create => create
  | Delete => delete_
  | Start => start
  | Stop => stop
  end.

(** ** Tasks

    A task has an optional [enabled] predicate, an optional [skip]
    predicate (a reason or [true] skips) and a body.  The predicates of
    the source close over constants except where they read [this]; the
    body is one of the calls below.  Titles are display only and are left
    out. *)
Inductive SkipReason :=
  | AlreadyBeing (op : Op)
  | AlreadyExists
  | NotExisting
  | AlreadyStarted
  | Silent.

Inductive AdapterOp := AStart | AStop | ADelete.

Inductive Action :=
  | Abort (target : option TaskListRef)
  | Call (op : Op) (k : ManagerKey) (name : string)
      (options : ResourceOptions)
  | Deps (op : Op) (deps : list ResourceDependency)
  | CreateAdapter (k : ManagerKey) (name : string) (options : ResourceOptions)
  | FinalSetup (k : ManagerKey) (name : string)
  | Hooks (k : ManagerKey) (name : string) (options : ResourceOptions)
  | AdapterTask (op : AdapterOp) (resourceAdapter : option ResourceAdapter)
      (options : ResourceOptions)
  | FinalCleanup (k : ManagerKey) (name : string)
      (resourceAdapter : option ResourceAdapter)
  | External (c : ExtCall).

Record Task := {
  enabled : World → bool;
  skip : option SkipReason;
  task : Action;
}.

Definition always : World → bool := λ _, true.

Definition nonEmpty {A : Type} (l : list A) : World → bool :=
  λ _, bool_decide (0 < length l).

Definition isSome {A : Type} (o : option A) : bool :=
  match o with Some _ => true | None => false end.

Definition silently (b : bool) : option SkipReason :=
  if b then Some Silent else None.

(** What a [skip] predicate of the source can return: [false], [true],
    a reason, or [undefined]. *)
Inductive SkipValue :=
  | SkipFalse
  | SkipTrue
  | SkipBecause (reason : SkipReason)
  | SkipUndefined.

(** Modelled from the spec: how the absent [TaskList] class reads what
    [skip()] returned.  Section 4.1: [skip()] returns [false] or a reason
    string, and 'if truthy, task is skipped'; [undefined] is not
    truthy, so the task runs as it does for [false]. *)
Definition skipped (v : SkipValue) : option SkipReason :=
  match v with
  | SkipFalse | SkipUndefined => None
  | SkipTrue => Some Silent
  | SkipBecause reason => Some reason
  end.

(** [shouldSkip || resourceAdapter == null || started], the [skip] of the
    task 'Start created resources': [started] is the flag itself, so the
    value is [undefined] for a resource whose flag was never set. *)
Definition startDepsSkip (shouldSkip : bool)
    (resourceAdapter : option ResourceAdapter) (started : option bool)
    : SkipValue :=
  if shouldSkip then SkipTrue
  else if negb (isSome resourceAdapter) then SkipTrue
  else match started with
       | Some true => SkipTrue
       | Some false => SkipFalse
       | None => SkipUndefined
       end.

Definition tasksOf (cl : Closure) : list Task :=
  match cl with
  | CreateTL k name options shouldSkip resourceAdapter startOnCreate start _ =>
      let skip := silently (shouldSkip || isSome resourceAdapter) in
      let mainSkip :=
        if shouldSkip then Some (AlreadyBeing Create)
        else if isSome resourceAdapter then Some AlreadyExists
        else None in
      let startTask :=
        if startOnCreate && isSome start then
          [ {| enabled := λ _, startOnCreate; skip := skip;
               task := Call Start k name options |} ]
        else [] in
      ([ {| enabled := always; skip := mainSkip;
            task := CreateAdapter k name options |};
         {| enabled := always; skip := skip; task := FinalSetup k name |} ]
       ++ startTask
       ++ [ {| enabled := λ w,
                 match managers w !! k with
                 | Some m => bool_decide (0 < length (_createHooks m))
                 | None => false
                 end;
               skip := skip; task := Hooks k name options |} ])%list
  | DeleteTL k name options shouldSkip start stop startTaskList
      createTaskList resourceAdapter dependents =>
      let skip := silently (shouldSkip || negb (isSome resourceAdapter)) in
      let mainSkip :=
        if shouldSkip then Some (AlreadyBeing Delete)
        else if isSome resourceAdapter then None
        else Some NotExisting in
      let abortStart :=
        if isSome start then
          [ {| enabled := λ _, isSome startTaskList; skip := None;
               task := Abort startTaskList |} ]
        else [] in
      let stopFirst :=
        if isSome stop then
          [ {| enabled := λ w,
                 match managers w !! k with
                 | Some m => startedOf m name
                 | None => false
                 end;
               skip := None; task := Call Stop k name options |} ]
        else [] in
      ([ {| enabled := λ _, isSome createTaskList; skip := None;
            task := Abort createTaskList |} ]
       ++ (abortStart ++ stopFirst)
       ++ [ {| enabled := nonEmpty dependents; skip := skip;
               task := Deps Delete dependents |};
            {| enabled := always; skip := skip;
               task := AdapterTask ADelete resourceAdapter options |};
            {| enabled := always; skip := mainSkip;
               task := FinalCleanup k name resourceAdapter |} ])%list
  | StartTL k name options shouldSkip stopTaskList resourceAdapter started
      directDependents =>
      [ {| enabled := λ _, isSome stopTaskList; skip := silently shouldSkip;
           task := Abort stopTaskList |};
        {| enabled := nonEmpty directDependents;
           skip := skipped (startDepsSkip shouldSkip resourceAdapter started);
           task := Deps Start directDependents |};
        {| enabled := always;
           skip :=
             if shouldSkip then Some (AlreadyBeing Start)
             else if negb (isSome resourceAdapter) then Some NotExisting
             else if default false started then Some AlreadyStarted
             else None;
           task := AdapterTask AStart resourceAdapter options |} ]
  | StopTL k name options shouldSkip startTaskList resourceAdapter dependents
      directDependents =>
      let skip := silently (shouldSkip || negb (isSome resourceAdapter)) in
      let mainSkip :=
        if shouldSkip then Some (AlreadyBeing Stop)
        else if isSome resourceAdapter then None
        else Some NotExisting in
      [ {| enabled := λ _, isSome startTaskList; skip := skip;
           task := Abort startTaskList |};
        {| enabled := nonEmpty dependents; skip := mainSkip;
           task := Deps Stop dependents |};
        {| enabled := always; skip := skip;
           task := AdapterTask AStop resourceAdapter options |};
        {| enabled := nonEmpty directDependents; skip := skip;
           task := Deps Stop directDependents |} ]
  | DepsTL op targets =>
      map (λ t : ManagerKey * string,
             {| enabled := always; skip := None;
                task := Call op t.1 t.2 emptyOptions |}) targets
  | HooksTL k name options hooks =>
      map (λ h, {| enabled := always; skip := None;
                   task := External (RunHook h name options) |}) hooks
  end.

(** The [concurrent] and [freshContext] flags given to [new TaskList]. *)
Definition concurrent (cl : Closure) : bool :=
  match cl with
  | DepsTL Delete _ => true
  | DepsTL Stop _ => true
  | DepsTL Start _ => false
  | HooksTL _ _ _ _ => true
  | _ => false
  end.

Definition freshContext (cl : Closure) : bool :=
  match cl with
  | CreateTL _ _ _ _ _ _ _ _ | DeleteTL _ _ _ _ _ _ _ _ _ _
  | StartTL _ _ _ _ _ _ _ _ | StopTL _ _ _ _ _ _ _ _ => true
  | _ => false
  end.

(** [deps.map(...)] of [_deleteDeps], [_startDeps] and [_stopDeps]: the
    manager of each dependent is looked up when the list is built, and
    the two that need an optional entry throw when it is missing. *)
Definition entryDefined (op : Op) (c : CRUD) : bool :=
  match op with
  | Start => isSome (crud_start c)
  | Stop => isSome (crud_stop c)
  | _ => true
  end.

Fixpoint depTargets (op : Op) (w : World) (deps : list ResourceDependency)
    : Result (list (ManagerKey * string)) :=
  match deps with
  | [] => Returns []
  | d :: rest =>
      match getResourcesManager w (dep_plugin d) (dep_resourceType d) with
      | None =>
          Throws (UnknownResourcesManager (dep_plugin d) (dep_resourceType d))
      | Some manager =>
          if entryDefined op (getCRUD (resourceType manager)) then
            match depTargets op w rest with
            | Throws e => Throws e
            | Returns l =>
                Returns (((dep_plugin d, dep_resourceType d), dep_name d) :: l)
            end
          else Throws ForFlow
      end
  end.

Definition depsTaskList (op : Op) (deps : list ResourceDependency) (w : World)
    : World * Result TaskListRef :=
  match depTargets op w deps with
  | Throws e => (w, Throws e)
  | Returns targets =>
      let '(w, r) := newTaskList (DepsTL op targets) w in (w, Returns r)
  end.

Definition _deleteDeps := depsTaskList Delete.
Definition _startDeps := depsTaskList Start.
Definition _stopDeps := depsTaskList Stop.

(** ** The callbacks of the four operations *)

(** The triple under which manager [k] registers its resource [name]
    with the managers it depends on. *)
Definition selfDependency (w : World) (k : ManagerKey) (name : string)
    : ResourceDependency :=
  match managers w !! k with
  | Some m => mkDep (rt_plugin (resourceType m)) (rt_name (resourceType m)) name
  | None => mkDep k.1 k.2 name
  end.

(** [setFromContext(ctx)] of the [create] call that built task list [r].
    The second component is the error [_addDependents] may throw. *)
Definition setFromContext (r : TaskListRef) (ctx : Ctx) (w : World)
    : World * option Error :=
  match heap w !! r with
  | Some {| tl_closure := CreateTL k name options shouldSkip resourceAdapter
                            startOnCreate start set;
            tl_status := status |} =>
      if set then (w, None)
      else
        let w :=
          updHeap
            (<[r := {| tl_closure :=
                         CreateTL k name options shouldSkip resourceAdapter
                           startOnCreate start true;
                       tl_status := status |}]>) w in
        let w :=
          updManager k (λ m,
            with_resourceAdapters
              (<[name := ctx_resourceAdapter ctx]> (_resourceAdapters m)) m)
            w in
        let dependencies := default [] (ctx_dependencies ctx) in
        let dependents := default [] (ctx_dependents ctx) in
        let w :=
          updManager k (λ m,
            with_directResourceDependents
              (<[name := dependents]> (_directResourceDependents m)) m) w in
        match _addDependents (selfDependency w k name) dependencies w with
        | (w, Some e) => (w, Some e)
        | (w, None) => (emit (UPDATE k) w, None)
        end
  | _ => (w, None)
  end.

Definition setStarted (k : ManagerKey) (name : string) (b : bool)
    : World → World :=
  updManager k (λ m,
    with_resourceAdaptersStarted
      (<[name := b]> (_resourceAdaptersStarted m)) m).

(** [.toPromise().catch(() => {})] on the task list an operation
    returns. *)
Definition fireAndForget (res : World * Result TaskListRef) : World :=
  match res with
  | (w, Returns r) => detach r w
  | (w, Throws _) => w
  end.

Definition onError (cl : Closure) (r : TaskListRef) (error : Error)
    (ctx : Ctx) (w : World) : World :=
  match cl with
  | CreateTL k name _ shouldSkip _ _ _ _ =>
      let w := emit (RESOURCE_ADAPTER_ERROR Create k name error) w in
      if shouldSkip then w else (setFromContext r ctx w).1
  | DeleteTL k name _ _ _ _ _ _ _ _ =>
      emit (RESOURCE_ADAPTER_ERROR Delete k name error) w
  | StartTL k name _ _ _ _ _ _ =>
      emit (RESOURCE_ADAPTER_ERROR Start k name error) w
  | StopTL k name _ _ _ _ _ _ =>
      emit (RESOURCE_ADAPTER_ERROR Stop k name error) w
  | _ => w
  end.

Definition onComplete (cl : Closure) (w : World) : World :=
  match cl with
  | CreateTL k name _ _ _ _ _ _ =>
      emit (RESOURCE_ADAPTER_COMPLETE Create k name) w
  | DeleteTL k name _ _ _ _ _ _ _ _ =>
      emit (RESOURCE_ADAPTER_COMPLETE Delete k name) w
  | StartTL k name _ _ _ _ _ _ =>
      emit (RESOURCE_ADAPTER_COMPLETE Start k name) w
  | StopTL k name _ _ _ _ _ _ =>
      setStarted k name false (emit (RESOURCE_ADAPTER_COMPLETE Stop k name) w)
  | _ => w
  end.

Definition onDone (cl : Closure) (failed : bool) (w : World) : World :=
  match cl with
  | CreateTL k name options shouldSkip _ _ _ _ =>
      if shouldSkip then w
      else
        let w := deleteTaskList Create k name w in
        if failed then fireAndForget (delete_ k name options w) else w
  | DeleteTL k name _ shouldSkip _ _ _ _ _ _ =>
      let w := if shouldSkip then w else deleteTaskList Delete k name w in
      emit (UPDATE k) w
  | StartTL k name options shouldSkip _ _ _ _ =>
      let w :=
        if shouldSkip then w
        else
          let w := setStarted k name true w in
          let w := deleteTaskList Start k name w in
          if failed then fireAndForget (stop k name options w) else w in
      emit (UPDATE k) w
  | StopTL k name _ shouldSkip _ _ _ _ =>
      let w := if shouldSkip then w else deleteTaskList Stop k name w in
      emit (UPDATE k) w
  | _ => w
  end.

(** ** The task-list runtime *)

Inductive Outcome :=
  | Completed
  | Failed (e : Error).

Definition setStatus (r : TaskListRef) (s : Status) : World → World :=
  updHeap (alter (λ t, {| tl_closure := tl_closure t; tl_status := s |}) r).

(** Modelled from the spec: the [TaskList] class is imported from
    [@neo-one/server-plugin] and is not among the sources.  Section 4.1:
    when a task fails, [onError] fires once with the first error and the
    current [ctx], and [onDone(true)] fires afterward; when all tasks
    resolve, [onComplete] fires, then [onDone(false)].  A task list that
    was aborted has settled already and its callbacks do not fire
    again. *)
Definition settle (r : TaskListRef) (out : Outcome) (ctx : Ctx) (w : World)
    : World :=
  match heap w !! r with
  | Some {| tl_closure := cl; tl_status := Pending |} =>
      match out with
      | Completed =>
          let w := onComplete cl w in
          let w := setStatus r (Settled false) w in
          onDone cl false (emit (DONE r false) w)
      | Failed e =>
          let w := onError cl r e ctx w in
          let w := setStatus r (Settled true) w in
          onDone cl true (emit (DONE r true) w)
      end
  | _ => w
  end.

(** Modelled from the spec: [abort()] of the absent [TaskList] class.
Section 4.1: abort marks the list and, after abort, [onDone(true)]
    fires; [onComplete] never fires.  Aborting a settled list does
    nothing. *)
Definition abort (r : TaskListRef) (w : World) : World :=
  match heap w !! r with
  | Some {| tl_closure := cl; tl_status := Pending |} =>
      let w := setStatus r (Settled true) w in
      onDone cl true (emit (DONE r true) w)
  | _ => w
  end.

(** What the collaborators answer.  The first argument is the length of
    the log when the call is made, so that the same call may be answered
    differently at different times. *)
Record Oracle := {
  ext_error : nat → ExtCall → option Error;
  created_ctx : nat → ManagerKey → string → ResourceOptions → Ctx;
}.

Section Runtime.
Variable oracle : Oracle.

Definition external (c : ExtCall) (w : World) : World * Outcome :=
    (emit (EXT c) w,
     match ext_error oracle (length (trace w)) c with
     | None => Completed
     | Some e => Failed e
     end).

  (** [path.resolve(this._resourcesPath, name)] *)
Definition resourcePath (w : World) (k : ManagerKey) (name : string)
      : string :=
    match managers w !! k with
    | Some m => _dataPath m +:+ "/resources/" +:+ name
    | None => name
    end.

  (** The task list of [masterResourceAdapter.createResourceAdapter]
      runs in the context of the create task list and leaves its keys
      there, also when it fails half way. *)
Definition createResourceAdapter (k : ManagerKey) (name : string)
      (options : ResourceOptions) (w : World) : World * Ctx * Outcome :=
    let '(w', out) :=
      external (CreateResourceAdapter k name (resourcePath w k name) options)
        w in
    (w', created_ctx oracle (length (trace w)) k name options, out).

  (** The body of the task 'Execute final setup'. *)
Definition finalSetup (r : TaskListRef) (k : ManagerKey) (name : string)
      (ctx : Ctx) (w : World) : World * Outcome :=
    match setFromContext r ctx w with
    | (w, Some e) => (w, Failed e)
    | (w, None) =>
        match external (AwaitResource k name) w with
        | (w, Failed e) => (w, Failed e)
        | (w, Completed) =>
            external
              (WriteReady k name (default [] (ctx_dependencies ctx))
                 (default [] (ctx_dependents ctx))) w
        end
    end.

  (** [_destroy(name, resourceAdapter)]: the entry is deleted, then
      [resourceAdapter.destroy()] is awaited. *)
Definition _destroy (k : ManagerKey) (name : string)
      (resourceAdapter : option ResourceAdapter) (w : World)
      : World * Outcome :=
    let w := logInvoke (RESOURCE_ADAPTER_DESTROY k name) w in
    let w :=
      updManager k (λ m,
        with_resourceAdapters (delete name (_resourceAdapters m)) m) w in
    match resourceAdapter with
    | None => (w, Failed TypeError)
    | Some a => external (AdapterDestroy a) w
    end.

  (** The body of the task 'Execute final cleanup'. *)
Definition finalCleanup (k : ManagerKey) (name : string)
      (resourceAdapter : option ResourceAdapter) (w : World)
      : World * Outcome :=
    match _destroy k name resourceAdapter w with
    | (w, Failed e) => (w, Failed e)
    | (w, Completed) =>
        let self := selfDependency w k name in
        match
          external (ReleasePort (dep_plugin self) (dep_resourceType self) name)
            w
        with
        | (w, Failed e) => (w, Failed e)
        | (w, Completed) =>
            match external (RemoveReady k name) w with
            | (w, Failed e) => (w, Failed e)
            | (w, Completed) =>
                (updManager k (λ m,
                   with_directResourceDependents
                     (delete name (_directResourceDependents m))
                     (with_resourceDependents
                        (delete name (_resourceDependents m)) m)) w,
                 Completed)
            end
        end
    end.

  (** [destroy()]: every adapter is destroyed, rejections are caught. *)
Definition destroy (k : ManagerKey) (w : World) : World :=
    match managers w !! k with
    | None => w
    | Some m =>
        emit (UPDATE k)
          (foldl (λ w (entry : string * option ResourceAdapter),
                    (_destroy k entry.1 entry.2 w).1)
             w (map_to_list (_resourceAdapters m)))
    end.

Definition adapterCall (op : AdapterOp) (a : ResourceAdapter)
      (options : ResourceOptions) : ExtCall :=
    match op with
    | AStart => AdapterStart a options
    | AStop => AdapterStop a options
    | ADelete => AdapterDelete a options
    end.

  (** Calling the body of a task: it settles at once, or it returns a
      task list that has to run. *)
Definition invokeAction (r : TaskListRef) (a : Action) (ctx : Ctx)
      (w : World) : World * Ctx * (Outcome + TaskListRef) :=
    let settled (res : World * Outcome) := (res.1, ctx, inl res.2) in
    let nested (res : World * Result TaskListRef) :=
      match res with
      | (w, Returns r') => (w, ctx, inr r')
      | (w, Throws e) => (w, ctx, inl (Failed e))
      end in
    match a with
    | Abort None => (w, ctx, inl (Failed TypeError))
    | Abort (Some target) => (abort target w, ctx, inl Completed)
    | Call op k name options => nested (invoke op k name options w)
    | Deps op deps => nested (depsTaskList op deps w)
    | CreateAdapter k name options =>
        let '(w, ctx', out) := createResourceAdapter k name options w in
        (w, ctx', inl out)
    | FinalSetup k name => settled (finalSetup r k name ctx w)
    | Hooks k name options =>
        let hooks :=
          match managers w !! k with
          | Some m => _createHooks m
          | None => []
          end in
        nested
          (let '(w, r') := newTaskList (HooksTL k name options hooks) w in
           (w, Returns r'))
    | AdapterTask _ None _ => (w, ctx, inl (Failed TypeError))
    | AdapterTask op (Some a) options =>
        settled (external (adapterCall op a options) w)
    | FinalCleanup k name resourceAdapter =>
        settled (finalCleanup k name resourceAdapter w)
    | External c => settled (external c w)
    end.

  (** The nested runs go through [rec]; [None] is a run that did not
      finish within the fuel. *)
Section Tasks.
Variable rec : World → TaskListRef → Ctx → option (World * Ctx * Outcome).

Definition runAction (r : TaskListRef) (a : Action) (ctx : Ctx)
        (w : World) : option (World * Ctx * Outcome) :=
      match invokeAction r a ctx w with
      | (w, ctx, inl out) => Some (w, ctx, out)
      | (w, ctx, inr r') => rec w r' ctx
      end.

    (** Modelled from the spec: the sequential run of the absent
        [TaskList] class.  Section 4.1: [enabled] and [skip] are
        evaluated at each task's turn; a task that is not enabled is
        omitted, a skipped one is passed over; a nested task list runs
        until it settles before the next task begins; after a failure
        the remaining tasks are not started. *)
Fixpoint runSequential (r : TaskListRef) (tasks : list Task) (ctx : Ctx)
        (w : World) : option (World * Ctx * Outcome) :=
      match tasks with
      | [] => Some (w, ctx, Completed)
      | t :: rest =>
          if negb (enabled t w) then runSequential r rest ctx w
          else
            match skip t with
            | Some _ => runSequential r rest ctx w
            | None =>
                match runAction r (task t) ctx w with
                | None => None
                | Some (w, ctx, Completed) => runSequential r rest ctx w
                | Some (w, ctx, Failed e) => Some (w, ctx, Failed e)
                end
            end
      end.

    (** Modelled from the spec: the concurrent run of the absent
        [TaskList] class.  Section 4.1: concurrent tasks are started
        without waiting and all must settle before the list settles;
        after a failure the tasks in flight are aborted.  The bodies are
        called in list order; the task lists they returned are then run
        one after the other, which is one of the possible schedules. *)
Fixpoint invokeAll (r : TaskListRef) (tasks : list Task) (ctx : Ctx)
        (w : World) : World * Ctx * list (Outcome + TaskListRef) :=
      match tasks with
      | [] => (w, ctx, [])
      | t :: rest =>
          if negb (enabled t w) then invokeAll r rest ctx w
          else
            match skip t with
            | Some _ => invokeAll r rest ctx w
            | None =>
                let '(w, ctx, s) := invokeAction r (task t) ctx w in
                let '(w, ctx, l) := invokeAll r rest ctx w in
                (w, ctx, s :: l)
            end
      end.

Fixpoint firstFailure (l : list (Outcome + TaskListRef)) : option Error :=
      match l with
      | [] => None
      | inl (Failed e) :: _ => Some e
      | _ :: rest => firstFailure rest
      end.

Definition abortAll (l : list (Outcome + TaskListRef)) (w : World)
        : World :=
      foldl (λ w s, match s with inr r' => abort r' w | inl _ => w end) w l.

Fixpoint settleAll (l : list (Outcome + TaskListRef)) (ctx : Ctx)
        (w : World) : option (World * Ctx * Outcome) :=
      match l with
      | [] => Some (w, ctx, Completed)
      | inl _ :: rest => settleAll rest ctx w
      | inr r' :: rest =>
          match rec w r' ctx with
          | None => None
          | Some (w, ctx, Completed) => settleAll rest ctx w
          | Some (w, ctx, Failed e) => Some (abortAll rest w, ctx, Failed e)
          end
      end.

Definition runConcurrent (r : TaskListRef) (tasks : list Task) (ctx : Ctx)
        (w : World) : option (World * Ctx * Outcome) :=
      let '(w, ctx, l) := invokeAll r tasks ctx w in
      match firstFailure l with
      | Some e => Some (abortAll l w, ctx, Failed e)
      | None => settleAll l ctx w
      end.

    (** Running task list [r] whose parent has context [ctx]: the tasks,
        then the callbacks.  The context returned is the one the task
        list itself ended with. *)
Definition runBody (r : TaskListRef) (ctx : Ctx) (w : World)
        : option (World * Ctx * Outcome) :=
      match heap w !! r with
      | None => Some (w, ctx, Failed TypeError)
      | Some {| tl_closure := cl; tl_status := Settled failed |} =>
          Some (w, ctx, if failed then Failed AbortedError else Completed)
      | Some {| tl_closure := cl; tl_status := Pending |} =>
          let ctx0 := if freshContext cl then freshCtx else ctx in
          match
            (if concurrent cl then runConcurrent else runSequential)
              r (tasksOf cl) ctx0 w
          with
          | None => None
          | Some (w, ctx1, out) => Some (settle r out ctx1 w, ctx1, out)
          end
      end.
End Tasks.

Definition ownContext (w : World) (r : TaskListRef) : bool :=
    match heap w !! r with
    | Some t => freshContext (tl_closure t)
    | None => true
    end.

  (** A nested run: a task list with [freshContext] leaves the context
      of its parent as it was. *)
Fixpoint run (fuel : nat) (w : World) (r : TaskListRef) (ctx : Ctx)
      : option (World * Ctx * Outcome) :=
    match fuel with
    | 0 => None
    | S n =>
        match runBody (run n) r ctx w with
        | None => None
        | Some (w', ctx1, out) =>
            Some (w', if ownContext w r then ctx else ctx1, out)
        end
    end.

  (** [taskList.toPromise()] on the task list an operation returned. *)
Definition runTaskList (fuel : nat) (r : TaskListRef) (w : World)
      : option (World * Ctx * Outcome) :=
    runBody (run fuel) r freshCtx w.

  (** The task lists left running in the background, oldest first; their
      rejections are caught. *)
Fixpoint runBackground (fuel : nat) (w : World) : option World :=
    match fuel with
    | 0 => None
    | S n =>
        match background w with
        | [] => Some w
        | d :: rest =>
            let w :=
              mkWorld (managers w) (heap w) (nextRef w) rest (trace w) in
            match runTaskList n (detached_taskList d) w with
            | None => None
            | Some (w, _, _) => runBackground n w
            end
        end
    end.
End Runtime.

(** ** [init()]

    What the file system and the master adapter answer during [init]. *)
Record InitEnv := {
  ensureDir : option Error;
  ready_getAll : Result (list string);
  initResourceAdapter : string → string → Result ResourceAdapter;
  readJSON : string → Result (list ResourceDependency);
}.

Record InitError := {
  ie_resourceType : string;
  ie_resource : string;
  ie_error : Error;
}.

(** [path.resolve(this._dependenciesPath, `${name}.json`)] and its
    sibling for the direct dependents. *)
Definition _getDependenciesPath (m : Manager) (name : string) : string :=
  _dataPath m +:+ "/dependencies/" +:+ name +:+ ".json".

Definition _getDirectDependentsPath (m : Manager) (name : string) : string :=
  _dataPath m +:+ "/dependents/" +:+ name +:+ ".json".

(** The [forEach] over the ready names that throws at a name seen
    before. *)
Fixpoint firstDuplicate (seen : list string) (resources : list string)
    : option string :=
  match resources with
  | [] => None
  | name :: rest =>
      if decide (name ∈ seen) then Some name
      else firstDuplicate (name :: seen) rest
  end.

Section Init.
Variable env : InitEnv.

(** The body mapped over the ready names: [_init(name)] and the two
    reads are started together, and the first rejection in the order of
    the array is the one that is caught. *)
Definition initOne (k : ManagerKey) (m : Manager) (name : string) (w : World)
    : World * option InitError :=
  let failed (w : World) (error : Error) :=
    (w, Some {| ie_resourceType := rt_name (resourceType m);
                ie_resource := name; ie_error := error |}) in
  let w := logInvoke (RESOURCE_ADAPTER_INIT k name) w in
  let inited :=
    initResourceAdapter env name (_dataPath m +:+ "/resources/" +:+ name) in
  let w :=
    match inited with
    | Returns a =>
        updManager k (λ m,
          with_resourceAdapters (<[name := Some a]> (_resourceAdapters m)) m) w
    | Throws _ => w
    end in
  match inited,
        _readDeps (readJSON env) (_getDependenciesPath m name),
        _readDeps (readJSON env) (_getDirectDependentsPath m name) with
  | Throws e, _, _ => failed w e
  | _, Throws e, _ => failed w e
  | _, _, Throws e => failed w e
  | Returns _, Returns dependencies, Returns dependents =>
      let w :=
        updManager k (λ m,
          with_directResourceDependents
            (<[name := dependents]> (_directResourceDependents m)) m) w in
      match _addDependents (selfDependency w k name) dependencies w with
      | (w, Some e) => failed w e
      | (w, None) => (w, None)
      end
  end.

Fixpoint initAll (k : ManagerKey) (m : Manager) (resources : list string)
    (w : World) : World * list InitError :=
  match resources with
  | [] => (w, [])
  | name :: rest =>
      let '(w, result) := initOne k m name w in
      let '(w, results) := initAll k m rest w in
      (w, match result with Some e => e :: results | None => results end)
  end.

Definition init (k : ManagerKey) (w : World) : World * Result (list InitError) :=
  match managers w !! k with
  | None => noManager k w
  | Some m =>
      let w := logInvoke (RESOURCES_MANAGER_INIT k) w in
      match ensureDir env with
      | Some e => (w, Throws e)
      | None =>
          match ready_getAll env with
          | Throws e => (w, Throws e)
          | Returns resources =>
              match firstDuplicate [] resources with
              | Some name => (w, Throws (DuplicateResourceName name))
              | None =>
                  let w :=
                    updManager k (with_resourceAdapters ∅) w in
                  let '(w, results) := initAll k m resources w in
                  (emit (UPDATE k) w, Returns results)
              end
          end
      end
  end.
End Init.

(** ** The remaining methods of the manager *)

(** [getResourceAdapter(name)]: the adapter under [name], and a throw
    when the entry is null or undefined. *)
Definition getResourceAdapter (m : Manager) (name : string)
    : Result ResourceAdapter :=
  match adapterOf m name with
  | Some adapter => Returns adapter
  | None => Throws (DoesNotExist name)
  end.

(** [addCreateHook(hook)] *)
Definition addCreateHook (k : ManagerKey) (hook : CreateHook)
    : World → World :=
  updManager k (λ m, with_createHooks (_createHooks m ++ [hook]) m).

(** What makes the [try] block of [init] throw for resource [name]: a
    rejection of the master adapter or of one of the two reads, or a
    dependency whose manager [getResourcesManager] does not find. *)
Definition initFails (env : InitEnv) (w : World) (m : Manager)
    (name : string) (e : Error) : Prop :=
  initResourceAdapter env name (_dataPath m +:+ "/resources/" +:+ name)
    = Throws e ∨
  _readDeps (readJSON env) (_getDependenciesPath m name) = Throws e ∨
  _readDeps (readJSON env) (_getDirectDependentsPath m name) = Throws e ∨
  ∃ dependencies d,
    _readDeps (readJSON env) (_getDependenciesPath m name)
      = Returns dependencies ∧
    d ∈ dependencies ∧
    managers w !! (dep_plugin d, dep_resourceType d) = None ∧
    e = UnknownResourcesManager (dep_plugin d) (dep_resourceType d).

(** ** A small server to run the model on *)
Module Demo.
Definition plugin : string := "p".

Definition nodeType : ResourceType :=
    {| rt_plugin := plugin; rt_name := "node"; rt_names_lower := "node";
       getCRUD := {| create_startOnCreate := true;
                     crud_start := Some "start"; crud_stop := Some "stop" |} |}.

Definition walletType : ResourceType :=
    {| rt_plugin := plugin; rt_name := "wallet"; rt_names_lower := "wallet";
       getCRUD := {| create_startOnCreate := false;
                     crud_start := None; crud_stop := None |} |}.

Definition diskType : ResourceType :=
    {| rt_plugin := plugin; rt_name := "disk"; rt_names_lower := "disk";
       getCRUD := {| create_startOnCreate := false;
                     crud_start := Some "start"; crud_stop := Some "stop" |} |}.

Definition node : ManagerKey := (plugin, "node").
Definition wallet : ManagerKey := (plugin, "wallet").
Definition disk : ManagerKey := (plugin, "disk").

Definition world0 : World :=
    mkWorld
      (<[node := newManager nodeType "/data/node"]>
         (<[wallet := newManager walletType "/data/wallet"]>
            (<[disk := newManager diskType "/data/disk"]> ∅)))
      ∅ 0 [] [].

  (** Every collaborator succeeds; a created adapter is numbered by the
      time of its creation. *)
Definition happy : Oracle :=
    {| ext_error := λ _ _, None;
       created_ctx := λ t _ _ _,
         {| ctx_resourceAdapter := Some t; ctx_dependencies := None;
            ctx_dependents := None |} |}.
End Demo.

(** Worlds for the examples. *)
Module Examples.
Import Demo.

(** Resource [name] of manager [k] exists with adapter [a]. *)
Definition withAdapter (k : ManagerKey) (name : string) (a : ResourceAdapter)
    : World → World :=
  updManager k (λ m,
    with_resourceAdapters (<[name := Some a]> (_resourceAdapters m)) m).

Definition withDirectDependents (k : ManagerKey) (name : string)
    (deps : list ResourceDependency) : World → World :=
  updManager k (λ m,
    with_directResourceDependents
      (<[name := deps]> (_directResourceDependents m)) m).

(** Every call succeeds except [adapter.start]. *)
Definition startFails : Oracle :=
  {| ext_error := λ _ c,
       match c with
       | AdapterStart _ _ => Some (ExternalError None "cannot start")
       | _ => None
       end;
     created_ctx := created_ctx happy |}.

(** Neither [adapter.start] nor [adapter.stop] succeeds. *)
Definition startAndStopFail : Oracle :=
  {| ext_error := λ _ c,
       match c with
       | AdapterStart _ _ => Some (ExternalError None "cannot start")
       | AdapterStop _ _ => Some (ExternalError None "cannot stop")
       | _ => None
       end;
     created_ctx := created_ctx happy |}.

(** Every call succeeds except [adapter.destroy]. *)
Definition destroyFails : Oracle :=
  {| ext_error := λ _ c,
       match c with
       | AdapterDestroy _ => Some (ExternalError None "cannot destroy")
       | _ => None
       end;
     created_ctx := created_ctx happy |}.

(** The adapter a create produces depends on disk [x]. *)
Definition dependsOnX : Oracle :=
  {| ext_error := λ _ _, None;
     created_ctx := λ t _ _ _,
       {| ctx_resourceAdapter := Some t;
          ctx_dependencies := Some [mkDep plugin "disk" "x"];
          ctx_dependents := None |} |}.

(** Run an operation to its end, then what it left in the background. *)
Definition perform (oracle : Oracle) (op : Op) (k : ManagerKey)
    (name : string) (w : World) : option World :=
  match invoke op k name emptyOptions w with
  | (w, Returns r) =>
      match runTaskList oracle 8 r w with
      | Some (w, _, _) => runBackground oracle 8 w
      | None => None
      end
  | (_, Throws _) => None
  end.

(** Disk [x] exists; node [n], which depends on it, is created, deleted
    and created again. *)
Definition recreated : option World :=
  w ← perform dependsOnX Create node "n" (withAdapter disk "x" 7 world0);
  w ← perform dependsOnX Delete node "n" w;
  perform dependsOnX Create node "n" w.

(** Two managers whose names contain the separator of [depKey], and a
    node [x] on which one resource of each depends. *)
Definition colonType (plugin name : string) : ResourceType :=
  {| rt_plugin := plugin; rt_name := name; rt_names_lower := name;
     getCRUD := {| create_startOnCreate := false;
                   crud_start := None; crud_stop := None |} |}.

Definition colons : World :=
  addDependent node "x" (mkDep "a" "b:c" "d")
    (addDependent node "x" (mkDep "a:b" "c" "d")
       (withAdapter node "x" 5
          (mkWorld
             (<[("a:b", "c") := newManager (colonType "a:b" "c") "/data/1"]>
                (<[("a", "b:c") := newManager (colonType "a" "b:c") "/data/2"]>
                   (managers world0)))
             ∅ 0 [] []))).

(** Node [x] with two wallets registered as dependents, one of them
    twice, and a wallet it created itself. *)
Definition cascade : World :=
  withDirectDependents node "x" [mkDep plugin "wallet" "x/w1"]
    (addDependent node "x" (mkDep plugin "wallet" "w2")
       (addDependent node "x" (mkDep plugin "wallet" "x/w1")
          (addDependent node "x" (mkDep plugin "wallet" "w2")
             (withAdapter node "x" 5 world0)))).

(** Node [db] exists and has been stopped, so that its started flag is
    [false]; it created disk [d1], wallet [w] and disk [d2], in this
    order; the two disks exist. *)
Definition database : World :=
  setStarted node "db" false
    (withDirectDependents node "db"
       [mkDep plugin "disk" "d1"; mkDep plugin "wallet" "w";
        mkDep plugin "disk" "d2"]
       (withAdapter node "db" 1
          (withAdapter disk "d1" 2 (withAdapter disk "d2" 3 world0)))).

Definition dbManager : Manager :=
  default (newManager nodeType "") (managers database !! node).

(** [start] of [db] was called, and its task list has run. *)
Definition dbStarting : World := (start node "db" emptyOptions database).1.

Definition dbStarted : World * Ctx * Outcome :=
  default (database, freshCtx, Failed TypeError)
    (runTaskList happy 6 0 dbStarting).

(** The master adapter leaves an adapter in the context that depends on
    disk [d] and created wallet [w]; [adapter.start] fails. *)
Definition halfCreated : Oracle :=
  {| ext_error := ext_error startFails;
     created_ctx := λ t _ _ _,
       {| ctx_resourceAdapter := Some t;
          ctx_dependencies := Some [mkDep plugin "disk" "d"];
          ctx_dependents := Some [mkDep plugin "wallet" "w"] |} |}.

(** [create] of node [n] was called, and its task list has run. *)
Definition nCreating : World := (create node "n" emptyOptions world0).1.

Definition nFailed : World * Ctx * Outcome :=
  default (world0, freshCtx, Completed)
    (runTaskList halfCreated 6 0 nCreating).

(** With every collaborator answering well, the task list of that
    [create] has run. *)
Definition nCreated : World * Ctx * Outcome :=
  default (world0, freshCtx, Failed TypeError)
    (runTaskList happy 6 0 nCreating).

(** Two create hooks are registered with the node manager; then node
    [n] is created. *)
Definition hooked : World :=
  addCreateHook node 41 (addCreateHook node 40 world0).

Definition hookedCreating : World :=
  (create node "n" emptyOptions hooked).1.

Definition hookedCreated : World * Ctx * Outcome :=
  default (world0, freshCtx, Failed TypeError)
    (runTaskList happy 6 0 hookedCreating).

(** A create in flight for node [y]. *)
Definition creatingY : World := (create node "y" emptyOptions world0).1.

(** Disk [d] exists, with adapter 7. *)
Definition diskD : World := withAdapter disk "d" 7 world0.

(** [delete] of node [x] of [cascade] was called, and its task list has
    run. *)
Definition cascadeManager : Manager :=
  default (newManager nodeType "") (managers cascade !! node).

Definition cascadeDeleting : World :=
  (delete_ node "x" emptyOptions cascade).1.

Definition cascadeDeleted : World * Ctx * Outcome :=
  default (world0, freshCtx, Failed TypeError)
    (runTaskList happy 6 0 cascadeDeleting).

(** Disk [x] exists; node [n] and wallet [w] depend on it, and it
    created disk [y].  Then [stop] of [x] is called and its task list
    runs. *)
Definition stopScene : World :=
  addDependent disk "x" (mkDep plugin "wallet" "w")
    (addDependent disk "x" (mkDep plugin "node" "n")
       (withDirectDependents disk "x" [mkDep plugin "disk" "y"]
          (withAdapter disk "x" 7
             (withAdapter node "n" 8 (withAdapter disk "y" 9 world0))))).

Definition stopManager : Manager :=
  default (newManager diskType "") (managers stopScene !! disk).

Definition xStopping : World := (stop disk "x" emptyOptions stopScene).1.

Definition xStopped : World * Ctx * Outcome :=
  default (world0, freshCtx, Failed TypeError)
    (runTaskList happy 6 0 xStopping).

(** In the same scene disk [x] is marked started, and [stop] of [x] has
    been called; its task list has not run yet. *)
Definition startedStopping : World :=
  (stop disk "x" emptyOptions (setStarted disk "x" true stopScene)).1.

(** In the same scene [delete] of node [n], which depends on disk [x],
    is called and its task list runs. *)
Definition dependentDeleting : World :=
  (delete_ node "n" emptyOptions stopScene).1.

Definition dependentDeleted : World * Ctx * Outcome :=
  default (world0, freshCtx, Failed TypeError)
    (runTaskList happy 6 0 dependentDeleting).

(** Every call succeeds except [adapter.delete]; with such
    collaborators the task list of that [delete] of node [n] runs. *)
Definition deleteFails : Oracle :=
  {| ext_error := λ _ c,
       match c with
       | AdapterDelete _ _ => Some (ExternalError None "cannot delete")
       | _ => None
       end;
     created_ctx := created_ctx happy |}.

Definition dependentKept : World * Ctx * Outcome :=
  default (world0, freshCtx, Completed)
    (runTaskList deleteFails 6 0 dependentDeleting).

(** A resource type that is started when it is created and defines
    [start], but not [stop]; a server that also has a manager for it. *)
Definition relayType : ResourceType :=
  {| rt_plugin := plugin; rt_name := "relay"; rt_names_lower := "relay";
     getCRUD := {| create_startOnCreate := true;
                   crud_start := Some "start"; crud_stop := None |} |}.

Definition relay : ManagerKey := (plugin, "relay").

Definition relayWorld : World :=
  mkWorld (<[relay := newManager relayType "/data/relay"]> (managers world0))
    ∅ 0 [] [].

Definition diskManager : Manager :=
  default (newManager diskType "") (managers diskD !! disk).

(** [delete] of disk [d] was called, and its task list has run. *)
Definition dDeleting : World := (delete_ disk "d" emptyOptions diskD).1.

Definition dDeleted : World * Ctx * Outcome :=
  default (world0, freshCtx, Failed TypeError)
    (runTaskList happy 6 0 dDeleting).
End Examples.

(** ** Reading the state of one manager *)

Definition adaptersOf (w : World) (k : ManagerKey)
    : gmap string (option ResourceAdapter) :=
  match managers w !! k with
  | Some m => _resourceAdapters m
  | None => ∅
  end.

Definition startedIn (w : World) (k : ManagerKey) (name : string) : bool :=
  match managers w !! k with
  | Some m => startedOf m name
  | None => false
  end.

Definition inFlight (op : Op) (w : World) (k : ManagerKey) (name : string)
    : option TaskListRef :=
  match managers w !! k with
  | Some m => taskLists op m !! name
  | None => None
  end.

Definition closureOf (w : World) (r : TaskListRef) : option Closure :=
  tl_closure <$> heap w !! r.

(** The [shouldSkip] constant a task list of one of the four operations
    captured. *)
Definition shouldSkipOf (cl : Closure) : bool :=
  match cl with
  | CreateTL _ _ _ shouldSkip _ _ _ _ => shouldSkip
  | DeleteTL _ _ _ shouldSkip _ _ _ _ _ _ => shouldSkip
  | StartTL _ _ _ shouldSkip _ _ _ _ => shouldSkip
  | StopTL _ _ _ shouldSkip _ _ _ _ => shouldSkip
  | _ => false
  end.

(** The operation that built a task list. *)
Definition builtBy (cl : Closure) : option (Op * ManagerKey * string) :=
  match cl with
  | CreateTL k name _ _ _ _ _ _ => Some (Create, k, name)
  | DeleteTL k name _ _ _ _ _ _ _ _ => Some (Delete, k, name)
  | StartTL k name _ _ _ _ _ _ => Some (Start, k, name)
  | StopTL k name _ _ _ _ _ _ => Some (Stop, k, name)
  | _ => None
  end.

(** The started flags of manager [k], if there is such a manager. *)
Definition startedFlags (w : World) (k : ManagerKey)
    : option (gmap string bool) :=
  _resourceAdaptersStarted <$> managers w !! k.

(** ** The elementary steps of the model

    Every function of the model changes the world by a sequence of the
    steps below.  A [Permission] says which of them may occur: whether
    the adapters and dependents maps may be written, which task lists
    may settle, which events may be logged. *)
Record Permission := {
  resources : bool;
  settles : TaskListRef → Prop;
  emits : Event → Prop;
}.

(** The parts of a manager that only [setFromContext], [_destroy], the
    final cleanup and [init] write. *)
Definition sameBookkeeping (f : Manager → Manager) : Prop :=
  ∀ m, resourceType (f m) = resourceType m ∧
       _dataPath (f m) = _dataPath m ∧
       _createHooks (f m) = _createHooks m ∧
       _resourceAdaptersStarted (f m) = _resourceAdaptersStarted m ∧
       ∀ op, taskLists op (f m) = taskLists op m.

Inductive Steps (p : Permission) : World → World → Prop :=
  | Steps_refl w : Steps p w w
  | Steps_trans w1 w2 w3 : Steps p w1 w2 → Steps p w2 w3 → Steps p w1 w3
  | Steps_emit e w : emits p e → Steps p w (emit e w)
  | Steps_new cl w : Steps p w (newTaskList cl w).1
  | Steps_detach r w : Steps p w (detach r w)
  | Steps_setTaskList op k name r cl w :
      closureOf w r = Some cl → builtBy cl = Some (op, k, name) →
      Steps p w (setTaskList op k name r w)
  | Steps_deleteTaskList op k name w : Steps p w (deleteTaskList op k name w)
  | Steps_setStarted k name b w : Steps p w (setStarted k name b w)
  | Steps_settled r failed w :
      settles p r →
      Steps p w (emit (DONE r failed) (setStatus r (Settled failed) w))
  | Steps_resources k f w :
      resources p = true → sameBookkeeping f → Steps p w (updManager k f w)
  | Steps_set r k name options shouldSkip resourceAdapter startOnCreate start
      set status w :
      resources p = true →
      heap w !! r
        = Some {| tl_closure :=
                    CreateTL k name options shouldSkip resourceAdapter
                      startOnCreate start set;
                  tl_status := status |} →
      Steps p w
        (updHeap
           (<[r := {| tl_closure :=
                        CreateTL k name options shouldSkip resourceAdapter
                          startOnCreate start true;
                      tl_status := status |}]>) w).

(** The events the manager itself logs, as opposed to calls to
    collaborators and the settling of a task list. *)
Definition isLog (e : Event) : Prop :=
  match e with
  | EXT _ | DONE _ _ => False
  | _ => True
  end.

(** Everything is permitted. *)
Definition anything : Permission :=
  {| resources := true; settles := λ _, True; emits := λ _, True |}.

(** Whether the manager of a dependency is found and its resource type
    defines [start]. *)
Definition supportsStart (w : World) (d : ResourceDependency) : bool :=
  match getResourcesManager w (dep_plugin d) (dep_resourceType d) with
  | Some m => isSome (crud_start (getCRUD (resourceType m)))
  | None => false
  end.

(** Whether the manager of a dependency is found and its resource type
    defines [stop]. *)
Definition supportsStop (w : World) (d : ResourceDependency) : bool :=
  match getResourcesManager w (dep_plugin d) (dep_resourceType d) with
  | Some m => isSome (crud_stop (getCRUD (resourceType m)))
  | None => false
  end.

(** Whether the manager of a dependency is found and its resource type
    has the entry a delegated [op] needs. *)
Definition supports (op : Op) (w : World) (d : ResourceDependency) : bool :=
  match getResourcesManager w (dep_plugin d) (dep_resourceType d) with
  | Some m => entryDefined op (getCRUD (resourceType m))
  | None => false
  end.

(** The two dependents maps of manager [k]. *)
Definition directDependentsOf (w : World) (k : ManagerKey)
    : gmap string (list ResourceDependency) :=
  match managers w !! k with
  | Some m => _directResourceDependents m
  | None => ∅
  end.

Definition dependentsOf (w : World) (k : ManagerKey)
    : gmap string (list ResourceDependency) :=
  match managers w !! k with
  | Some m => _resourceDependents m
  | None => ∅
  end.

(** The create hooks of manager [k]. *)
Definition hooksOf (w : World) (k : ManagerKey) : list CreateHook :=
  match managers w !! k with
  | Some m => _createHooks m
  | None => []
  end.

(** The calls of the create hooks for one resource. *)
Definition hookCalls (name : string) (options : ResourceOptions)
    (hooks : list CreateHook) : list Event :=
  (λ h, EXT (RunHook h name options)) <$> hooks.

(** The log entries of the calls of [op] on a list of dependents. *)
Definition callsOf (op : Op) (deps : list ResourceDependency) : list Event :=
  (λ d, RESOURCES_MANAGER op (dep_plugin d, dep_resourceType d) (dep_name d))
    <$> deps.

(** The target a delegated operation is called on. *)
Definition targetOf (d : ResourceDependency) : ManagerKey * string :=
  ((dep_plugin d, dep_resourceType d), dep_name d).

(** Everything but calls to collaborators is permitted. *)
Definition quiet : Permission :=
  {| resources := true; settles := λ _, True; emits := isLog |}.

(** Task bodies that do not write the adapters or dependents maps. *)
Definition plainAction (a : Action) : Prop :=
  match a with
  | FinalSetup _ _ | FinalCleanup _ _ _ => False
  | _ => True
  end.

(** What may happen while a task of the create task list [r] runs a
    nested start or the create hooks: no adapters or dependents map is
    written and [r] itself does not settle. *)
Definition nested (r : TaskListRef) : Permission :=
  {| resources := false; settles := λ r', r' ≠ r; emits := λ _, True |}.

(** No adapters or dependents map is written; any task list may settle
    and anything may be logged. *)
Definition unwritten : Permission :=
  {| resources := false; settles := λ _, True; emits := λ _, True |}.

(** What was logged between [w] and a later [w']. *)
Definition logSince (w w' : World) : list Event :=
  drop (length (trace w)) (trace w').

(** The created resources [deps] are started one after the other, from
    world [w] on: [start] of the first one is called; when the call
    throws, or when the task list it returned fails, no other one is
    started; when that task list completes, the remaining ones are
    started from the world it left.  Every call is recorded with the
    task list it returned and with what was logged from the call until
    that task list had settled.  [rec] runs a task list until it has
    settled. *)
Inductive startedInOrder
    (rec : World → TaskListRef → Ctx → option (World * Ctx * Outcome))
  : Ctx → list ResourceDependency → World →
    list (option TaskListRef * list Event) → World → Outcome → Prop :=
  | started_none ctx w :
      startedInOrder rec ctx [] w [] w Completed
  | started_threw ctx d deps w w1 e :
      start (dep_plugin d, dep_resourceType d) (dep_name d) emptyOptions w
        = (w1, Throws e) →
      startedInOrder rec ctx (d :: deps) w [(None, logSince w w1)] w1
        (Failed e)
  | started_failed ctx d deps w w1 r w2 ctx2 e :
      start (dep_plugin d, dep_resourceType d) (dep_name d) emptyOptions w
        = (w1, Returns r) →
      rec w1 r ctx = Some (w2, ctx2, Failed e) →
      startedInOrder rec ctx (d :: deps) w [(Some r, logSince w w2)] w2
        (Failed e)
  | started_next ctx d deps w w1 r w2 ctx2 calls w3 out :
      start (dep_plugin d, dep_resourceType d) (dep_name d) emptyOptions w
        = (w1, Returns r) →
      rec w1 r ctx = Some (w2, ctx2, Completed) →
      startedInOrder rec ctx2 deps w2 calls w3 out →
      startedInOrder rec ctx (d :: deps) w ((Some r, logSince w w2) :: calls)
        w3 out.

(** Every dependents list of [w'] begins with the list [w] has for the
    same manager and name. *)
Definition dependentsExtended (w w' : World) : Prop :=
  ∀ k name,
    default [] (dependentsOf w k !! name)
      `prefix_of` default [] (dependentsOf w' k !! name).

(** The same, but for the names whose adapter was destroyed between [w]
    and [w']. *)
Definition dependentsKept (w w' : World) : Prop :=
  ∀ k name,
    RESOURCE_ADAPTER_DESTROY k name ∉ logSince w w' →
    default [] (dependentsOf w k !! name)
      `prefix_of` default [] (dependentsOf w' k !! name).

(** Manager [k] of [w'] has an adapters entry and a direct dependents
    entry for [name] if manager [k] of [w] has one. *)
Definition entryStays (w w' : World) (k : ManagerKey) (name : string)
    : Prop :=
  (is_Some (adaptersOf w k !! name) → is_Some (adaptersOf w' k !! name)) ∧
  (is_Some (directDependentsOf w k !! name) →
   is_Some (directDependentsOf w' k !! name)).

Definition entriesExtended (w w' : World) : Prop :=
  ∀ k name, entryStays w w' k name.

(** The same, but for the names whose adapter was destroyed between [w]
    and [w']. *)
Definition entriesKept (w w' : World) : Prop :=
  ∀ k name,
    RESOURCE_ADAPTER_DESTROY k name ∉ logSince w w' → entryStays w w' k name.

(** The task lists that run nested in a create, and the task bodies
    they call. *)
Definition startLike (r : TaskListRef) (cl : Closure) : Prop :=
  match cl with
  | StartTL _ _ _ _ stopTaskList _ _ _ => stopTaskList ≠ Some r
  | DepsTL Start _ => True
  | HooksTL _ _ _ _ => True
  | _ => False
  end.

Definition startAction (r : TaskListRef) (a : Action) : Prop :=
  match a with
  | Abort (Some target) => target ≠ r
  | Abort None => True
  | Call Start _ _ _ => True
  | Deps Start _ => True
  | AdapterTask AStart _ _ => True
  | External _ => True
  | Hooks _ _ _ => True
  | _ => False
  end.

(** The bodies of the tasks of a create that come after the final
    setup. *)
Definition tailAction (a : Action) : Prop :=
  match a with
  | Call Start _ _ _ | Hooks _ _ _ => True
  | _ => False
  end.

(** Task list [r] was built by a create. *)
Definition isCreate (w : World) (r : TaskListRef) : Prop :=
  ∃ cl k name, closureOf w r = Some cl ∧ builtBy cl = Some (Create, k, name).

(** Every reference in the heap was given out by [newTaskList]. *)
Definition wfHeap (w : World) : Prop :=
  ∀ r, is_Some (heap w !! r) → r < nextRef w.

(** What an in-flight map holds is a task list built by that operation
    for that name. *)
Definition slotsTyped (w : World) : Prop :=
  ∀ op k name r,
    inFlight op w k name = Some r →
    ∃ cl, closureOf w r = Some cl ∧ builtBy cl = Some (op, k, name).

Definition pendingIn (w : World) (r : TaskListRef) : Prop :=
  ∃ cl, heap w !! r = Some {| tl_closure := cl; tl_status := Pending |}.

(** The invariant under which a task of the create task list [r] runs
    its nested task lists. *)
Definition creating (r : TaskListRef) (w : World) : Prop :=
  wfHeap w ∧ slotsTyped w ∧ isCreate w r.

(** The steps of a nested run, taken from a well-formed world. *)
Definition nestedSteps (r : TaskListRef) (w w' : World) : Prop :=
  wfHeap w ∧ Steps (nested r) w w'.

(** Events other than the call of a create hook. *)
Definition notHook (e : Event) : Prop :=
  match e with
  | EXT (RunHook _ _ _) => False
  | _ => True
  end.

(** The task lists a start runs, and the task bodies they call. *)
Definition startOnly (cl : Closure) : Prop :=
  match cl with
  | StartTL _ _ _ _ _ _ _ _ | DepsTL Start _ => True
  | _ => False
  end.

Definition startBody (a : Action) : Prop :=
  match a with
  | Abort _ | Call Start _ _ _ | Deps Start _ | AdapterTask AStart _ _ => True
  | _ => False
  end.

(** From a well-formed world [w] to [w'] without the call of a create
    hook. *)
Definition hookFree (w w' : World) : Prop :=
  wfHeap w ∧ Steps anything w w' ∧ Forall notHook (logSince w w').

(** ** What [setFromContext] leaves in the maps *)

(** The manager of dependency [d] is registered. *)
Definition known (w : World) (d : ResourceDependency) : Prop :=
  is_Some (getResourcesManager w (dep_plugin d) (dep_resourceType d)).

(** [self] is among the dependents the manager of [d] holds for [d]. *)
Definition registeredWith (w : World) (self d : ResourceDependency) : Prop :=
  ∃ m, getResourcesManager w (dep_plugin d) (dep_resourceType d) = Some m ∧
       self ∈ default [] (_resourceDependents m !! dep_name d).

(** [_addDependents] went through [dependencies] as far as the managers
    are registered: [forEach] stops where [getResourcesManager]
    throws. *)
Definition propagated (w : World) (self : ResourceDependency)
    (dependencies : list ResourceDependency) : Prop :=
  ∀ i d, dependencies !! i = Some d →
    Forall (known w) (take (S i) dependencies) → registeredWith w self d.

(** What [ctx] holds for resource [name] of manager [k] is in the maps:
    the adapter, the dependents it created, and the resource itself
    with the managers of its dependencies. *)
Definition installed (ctx : Ctx) (k : ManagerKey) (name : string)
    (w : World) : Prop :=
  ∃ m, managers w !! k = Some m ∧
    _resourceAdapters m !! name = Some (ctx_resourceAdapter ctx) ∧
    _directResourceDependents m !! name
      = Some (default [] (ctx_dependents ctx)) ∧
    propagated w (selfDependency w k name)
      (default [] (ctx_dependencies ctx)).

(** Closures that differ at most in the [set] variable. *)
Definition forgetSet (cl : Closure) : Closure :=
  match cl with
  | CreateTL k name options shouldSkip resourceAdapter startOnCreate start _ =>
      CreateTL k name options shouldSkip resourceAdapter startOnCreate start
        false
  | _ => cl
  end.

(** ** Files of the dependency store

    A directory of JSON files, to run [_readDeps] on: a path that is not
    bound is a missing file, and reading it rejects with code [ENOENT];
    a bound path yields its content or the error reading it raises. *)
Definition readJSONFrom (disk : gmap string (Result (list ResourceDependency)))
    (path : string) : Result (list ResourceDependency) :=
  match disk !! path with
  | Some content => content
  | None => Throws (ExternalError (Some "ENOENT") "no such file or directory")
  end.

Module DemoDisk.
Definition denied : Error := ExternalError (Some "EACCES") "permission denied".
Definition malformed : Error := ExternalError None "Unexpected token".

Definition disk : gmap string (Result (list ResourceDependency)) :=
    <["/data/dependents/a.json" := Returns [mkDep "p" "wallet" "a/w1"]]>
      (<["/data/dependents/b.json" := Throws denied]>
         (<["/data/dependents/c.json" := Throws malformed]> ∅)).
End DemoDisk.


(** The ready directory of the node manager holds [a], [b] and [c]: the
    master adapter cannot initialise [b]; [a] depends on disk [d] and
    created wallet [w]; [c] depends on a resource of a plugin that is
    not loaded. *)
Module DemoInit.
Definition corrupt : Error := ExternalError None "corrupt".

Definition files : gmap string (Result (list ResourceDependency)) :=
  <["/data/node/dependencies/a.json" := Returns [mkDep "p" "disk" "d"]]>
    (<["/data/node/dependents/a.json" := Returns [mkDep "p" "wallet" "w"]]>
       (<["/data/node/dependencies/c.json" := Returns [mkDep "q" "x" "y"]]>
          ∅)).

Definition env : InitEnv :=
  {| ensureDir := None;
     ready_getAll := Returns ["a"; "b"; "c"];
     initResourceAdapter := λ name _,
       if decide (name = "b") then Throws corrupt
       else if decide (name = "a") then Returns 10
       else Returns 12;
     readJSON := readJSONFrom files |}.

End DemoInit.
(** * Theorems *)

(** ** C8: [_readDeps] *)

Lemma _readDeps_returns readJSON depsPath deps :
  readJSON depsPath = Returns deps → _readDeps readJSON depsPath = Returns deps.
Proof. unfold _readDeps. by intros ->. Qed.

(** C8. When reading the file rejects, [_readDeps] returns the empty list
    if the error's code is ENOENT (the file is missing) and rethrows the
    very same error in every other case. *)
Theorem readDeps_missing_is_empty_others_rethrown
    (readJSON : string → Result (list ResourceDependency))
    (depsPath : string) (error : Error) :
  readJSON depsPath = Throws error →
  (error_code error = Some "ENOENT" →
     _readDeps readJSON depsPath = Returns []) ∧
  (error_code error ≠ Some "ENOENT" →
     _readDeps readJSON depsPath = Throws error).
Proof.
  intros Hread. unfold _readDeps. rewrite Hread.
  split; intros Hcode; case_decide; congruence.
Qed.

Lemma readDeps_missing_is_empty_others_rethrown_witness :
  _readDeps (readJSONFrom DemoDisk.disk) "/data/dependents/zz.json"
    = Returns [] ∧
  _readDeps (readJSONFrom DemoDisk.disk) "/data/dependents/b.json"
    = Throws DemoDisk.denied ∧
  _readDeps (readJSONFrom DemoDisk.disk) "/data/dependents/c.json"
    = Throws DemoDisk.malformed.
Proof.
  split; [|split].
  - apply (readDeps_missing_is_empty_others_rethrown
             (readJSONFrom DemoDisk.disk) "/data/dependents/zz.json"
             (ExternalError (Some "ENOENT") "no such file or directory"));
      reflexivity.
  - apply (readDeps_missing_is_empty_others_rethrown
             (readJSONFrom DemoDisk.disk) "/data/dependents/b.json"
             DemoDisk.denied); [reflexivity | discriminate].
  - apply (readDeps_missing_is_empty_others_rethrown
             (readJSONFrom DemoDisk.disk) "/data/dependents/c.json"
             DemoDisk.malformed); [reflexivity | discriminate].
Defined.

(** ** Basic facts about the world *)

Lemma lookup_updManager k f w k' :
  managers (updManager k f w) !! k' =
    if decide (k = k') then f <$> managers w !! k' else managers w !! k'.
Proof.
  unfold updManager; simpl. rewrite lookup_alter.
  case_decide; subst; done.
Qed.

Lemma lookup_updManager_eq k f w :
  managers (updManager k f w) !! k = f <$> managers w !! k.
Proof. rewrite lookup_updManager. by rewrite decide_True. Qed.

Lemma lookup_updManager_ne k f w k' :
  k ≠ k' → managers (updManager k f w) !! k' = managers w !! k'.
Proof. intros. rewrite lookup_updManager. by rewrite decide_False. Qed.

Lemma updManager_id k f w :
  (∀ m, managers w !! k = Some m → f m = m) →
  managers (updManager k f w) = managers w.
Proof.
  intros Hf. apply map_eq. intros k'. rewrite lookup_updManager.
  case_decide; [subst|done].
  destruct (managers w !! k') eqn:E; simpl; [|done]. by rewrite (Hf _ eq_refl).
Qed.

Lemma inFlight_Some op w k name r :
  inFlight op w k name = Some r ↔
  ∃ m, managers w !! k = Some m ∧ taskLists op m !! name = Some r.
Proof.
  unfold inFlight. destruct (managers w !! k) as [m|].
  - split; [by exists m|]. by intros (m' & [= <-] & ?).
  - split; [done|]. by intros (m' & ? & ?).
Qed.

Lemma taskLists_with_taskLists op op' v m :
  taskLists op' (with_taskLists op v m) =
    if decide (op = op') then v else taskLists op' m.
Proof. by destruct op, op'. Qed.

Lemma with_taskLists_id op m : with_taskLists op (taskLists op m) m = m.
Proof. by destruct op, m. Qed.

(** ** C10: [_destroy] *)

Lemma adaptersOf_destroy oracle k name resourceAdapter w :
  adaptersOf (_destroy oracle k name resourceAdapter w).1 k =
    delete name (adaptersOf w k).
Proof.
  unfold _destroy, adaptersOf.
  destruct resourceAdapter; simpl; rewrite lookup_alter, decide_True by done;
    destruct (managers w !! k); simpl; try done; by rewrite delete_empty.
Qed.

Lemma adaptersOf_destroy_all oracle k entries w :
  adaptersOf
    (foldl (λ w (entry : string * option ResourceAdapter),
              (_destroy oracle k entry.1 entry.2 w).1) w entries) k =
    foldl (λ a (entry : string * option ResourceAdapter), delete entry.1 a)
      (adaptersOf w k) entries.
Proof.
  revert w. induction entries as [|entry entries IH]; intros w; simpl; [done|].
  rewrite IH. by rewrite adaptersOf_destroy.
Qed.

Lemma lookup_foldl_delete (entries : list (string * option ResourceAdapter))
    (a : gmap string (option ResourceAdapter)) name :
  foldl (λ a (entry : string * option ResourceAdapter), delete entry.1 a)
    a entries !! name =
    if decide (name ∈ entries.*1) then None else a !! name.
Proof.
  revert a. induction entries as [|[n x] entries IH]; intros a; simpl.
  - done.
  - rewrite IH. clear IH. destruct (decide (name = n)) as [->|Hne].
    + rewrite lookup_delete_eq.
      repeat match goal with
             | |- context [decide ?P] => destruct (decide P)
             end; try done.
      all: exfalso; match goal with H : _ ∉ _ :: _ |- _ => apply H end;
        constructor.
    + rewrite lookup_delete_ne by done.
      repeat match goal with
             | |- context [decide ?P] => destruct (decide P)
             end; try done; exfalso.
      * match goal with H : _ ∉ _ :: _ |- _ => apply H end.
        by constructor.
      * match goal with H : _ ∈ _ :: _ |- _ => inversion H; subst end; done.
Qed.

(** C10. [_destroy(name, adapter)] deletes [name] from the adapters map
    before it calls [adapter.destroy()], so whatever that call answers
    the name is absent afterwards: in [_destroy] itself, after the final
    cleanup of [delete] (which fails when [destroy()] rejects), and, for
    every name, after the manager's [destroy()]. *)
Theorem destroy_removes_adapter_even_if_destroy_rejects
    (oracle : Oracle) (k : ManagerKey) (name : string)
    (resourceAdapter : option ResourceAdapter) (w : World) :
  let w1 :=
    updManager k (λ m,
      with_resourceAdapters (delete name (_resourceAdapters m)) m)
      (emit (RESOURCE_ADAPTER_DESTROY k name) w) in
  adaptersOf w1 k !! name = None ∧
  (∀ a, resourceAdapter = Some a →
     _destroy oracle k name resourceAdapter w
       = external oracle (AdapterDestroy a) w1) ∧
  adaptersOf (_destroy oracle k name resourceAdapter w).1 k !! name = None ∧
  adaptersOf (finalCleanup oracle k name resourceAdapter w).1 k !! name
    = None ∧
  adaptersOf (destroy oracle k w) k !! name = None.
Proof.
  assert (Hd : adaptersOf (_destroy oracle k name resourceAdapter w).1 k
                 !! name = None).
  { rewrite adaptersOf_destroy. apply lookup_delete_eq. }
  split; [|split; [|split; [|split]]].
  - unfold adaptersOf. simpl. rewrite lookup_alter, decide_True by done.
    destruct (managers w !! k); simpl; [apply lookup_delete_eq|done].
  - by intros a ->.
  - done.
  - unfold finalCleanup.
    destruct (_destroy oracle k name resourceAdapter w) as [w1 [|e]] eqn:E;
      simpl in *; [|done].
    unfold external.
    repeat (match goal with
            | |- context [ext_error ?o ?n ?c] => destruct (ext_error o n c)
            end; simpl); try done.
    unfold adaptersOf in *. simpl.
    rewrite lookup_alter, decide_True by done.
    destruct (managers w1 !! k); simpl in *; done.
  - unfold destroy. destruct (managers w !! k) as [m|] eqn:E.
    + unfold adaptersOf at 1. simpl. fold (adaptersOf
        (foldl (λ w (entry : string * option ResourceAdapter),
                  (_destroy oracle k entry.1 entry.2 w).1) w
           (map_to_list (_resourceAdapters m))) k).
      rewrite adaptersOf_destroy_all, lookup_foldl_delete.
      case_decide as Hin; [done|].
      unfold adaptersOf. rewrite E.
      destruct (_resourceAdapters m !! name) as [x|] eqn:Ex; [|done].
      exfalso. apply Hin. apply list_elem_of_fmap.
      exists (name, x). split; [done|]. by apply elem_of_map_to_list.
    + unfold adaptersOf. by rewrite E.
Qed.

Lemma rejecting_destroy_leaves_no_adapter :
  (_destroy Examples.destroyFails Demo.disk "d" (Some 7) Examples.diskD).2
    = Failed (ExternalError None "cannot destroy") ∧
  adaptersOf Examples.diskD Demo.disk !! "d" = Some (Some 7) ∧
  adaptersOf
    (_destroy Examples.destroyFails Demo.disk "d" (Some 7) Examples.diskD).1
    Demo.disk !! "d" = None.
Proof. vm_compute. done. Qed.

(** ** C7: [start] and [stop] without the CRUD entries *)

Lemma filterDeps_Throws supported w deps e :
  filterDeps supported w deps = Throws e →
  ∃ p t, e = UnknownResourcesManager p t.
Proof.
  revert e. induction deps as [|d deps IH]; intros e; simpl; [done|].
  destruct (getResourcesManager w (dep_plugin d) (dep_resourceType d));
    [|intros [= <-]; eauto].
  destruct (filterDeps supported w deps) eqn:E; [done|].
  intros [= <-]. by apply IH.
Qed.

(** C7, as stated, fails: for a resource type that defines neither
    [start] nor [stop], [stop] is not defined and yet both operations
    throw [ResourceNoStartError], not [ResourceNoStopError]. *)
Lemma neither_defined_throws_NoStart_not_NoStop :
  crud_stop (getCRUD Demo.walletType) = None ∧
  (start Demo.wallet "w" emptyOptions Demo.world0).2
    = Throws (ResourceNoStartError "p" "wallet") ∧
  (start Demo.wallet "w" emptyOptions Demo.world0).2
    ≠ Throws (ResourceNoStopError "p" "wallet") ∧
  (stop Demo.wallet "w" emptyOptions Demo.world0).2
    = Throws (ResourceNoStartError "p" "wallet") ∧
  (stop Demo.wallet "w" emptyOptions Demo.world0).2
    ≠ Throws (ResourceNoStopError "p" "wallet").
Proof. vm_compute. repeat split; done. Qed.

(** C7, amended.  [start] and [stop] of manager [k] throw before any task
    list is built: [ResourceNoStartError] when the type does not define
    [start] (whether or not it defines [stop]), [ResourceNoStopError]
    when it defines [start] but not [stop]; when both are defined
    neither of the two errors is thrown. *)
Theorem start_stop_throw_without_crud_entries
    (op : Op) (k : ManagerKey) (name : string) (options : ResourceOptions)
    (w : World) (m : Manager) :
  op = Start ∨ op = Stop →
  managers w !! k = Some m →
  let rt := resourceType m in
  let logged := emit (RESOURCES_MANAGER op k name) w in
  (crud_start (getCRUD rt) = None →
     invoke op k name options w
       = (logged,
          Throws (ResourceNoStartError (rt_plugin rt) (rt_names_lower rt)))) ∧
  (is_Some (crud_start (getCRUD rt)) → crud_stop (getCRUD rt) = None →
     invoke op k name options w
       = (logged,
          Throws (ResourceNoStopError (rt_plugin rt) (rt_names_lower rt)))) ∧
  (is_Some (crud_start (getCRUD rt)) → is_Some (crud_stop (getCRUD rt)) →
     ∀ p t,
       (invoke op k name options w).2 ≠ Throws (ResourceNoStartError p t) ∧
       (invoke op k name options w).2 ≠ Throws (ResourceNoStopError p t)).
Proof.
  intros Hop Hm rt logged. subst rt logged.
  split; [|split].
  - intros Hs. destruct Hop as [-> | ->]; simpl;
      unfold start, stop; rewrite Hm, Hs; done.
  - intros [s Hs] Ht. destruct Hop as [-> | ->]; simpl;
      unfold start, stop; rewrite Hm, Hs, Ht; done.
  - intros [s Hs] [t' Ht] p t.
    pose proof filterDeps_Throws as Hfilter.
    destruct Hop as [-> | ->]; simpl; unfold start, stop;
      rewrite Hm, Hs, Ht; unfold _getStartDeps, _getStopDeps.
    + destruct (filterDeps _ _ _) as [l|e] eqn:E; simpl; [done|].
      apply Hfilter in E as (p' & t'' & ->). done.
    + destruct (filterDeps _ _ (default [] (_resourceDependents m !! name)))
        as [l|e] eqn:E; simpl.
      * destruct
          (filterDeps _ _ (default [] (_directResourceDependents m !! name)))
          as [l'|e] eqn:E'; simpl; [done|].
        apply Hfilter in E' as (p' & t'' & ->). done.
      * apply Hfilter in E as (p' & t'' & ->). done.
Qed.

Lemma start_stop_throw_without_crud_entries_witness :
  invoke Start Demo.wallet "w" emptyOptions Demo.world0
    = (emit (RESOURCES_MANAGER Start Demo.wallet "w") Demo.world0,
       Throws (ResourceNoStartError "p" "wallet")) ∧
  (invoke Stop Demo.disk "d" emptyOptions Examples.diskD).2
    ≠ Throws (ResourceNoStopError "p" "disk").
Proof.
  split.
  - apply (start_stop_throw_without_crud_entries Start Demo.wallet "w"
             emptyOptions Demo.world0 (newManager Demo.walletType "/data/wallet"));
      [by left | reflexivity | reflexivity].
  - apply (start_stop_throw_without_crud_entries Stop Demo.disk "d"
             emptyOptions Examples.diskD
             (with_resourceAdapters (<["d" := Some 7]> ∅)
                (newManager Demo.diskType "/data/disk")));
      [by right | reflexivity | by eexists | by eexists].
Defined.

(** ** C1 and C9: re-entering an operation *)

(** What a call returns when an operation of its kind is in flight for
    the name: a newly allocated task list that captured
    [shouldSkip = true]; nothing else in the world changes but the log. *)
Lemma invoke_duplicate op k name options w m r0 w' r :
  managers w !! k = Some m →
  taskLists op m !! name = Some r0 →
  invoke op k name options w = (w', Returns r) →
  r = nextRef w ∧ managers w' = managers w ∧ background w' = background w ∧
  nextRef w' = S (nextRef w) ∧
  trace w' = trace w ++ [RESOURCES_MANAGER op k name] ∧
  ∃ cl, heap w' = <[r := {| tl_closure := cl; tl_status := Pending |}]> (heap w)
        ∧ shouldSkipOf cl = true ∧ builtBy cl = Some (op, k, name).
Proof.
  intros Hm Hr0.
  destruct op; simpl in Hr0 |- *.
  - unfold create. rewrite Hm. simpl. rewrite Hr0.
    rewrite bool_decide_eq_true_2 by eauto. simpl.
    intros [= <- <-]. simpl. repeat split; eauto.
  - unfold delete_. rewrite Hm. simpl. rewrite Hr0.
    rewrite bool_decide_eq_true_2 by eauto. simpl.
    intros [= <- <-]. simpl. repeat split; eauto.
  - unfold start. rewrite Hm. simpl.
    destruct (crud_start _); [|done]. destruct (crud_stop _); [|done].
    destruct (_getStartDeps _ _); [|done]. simpl. rewrite Hr0.
    rewrite bool_decide_eq_true_2 by eauto. simpl.
    intros [= <- <-]. simpl. repeat split; eauto.
  - unfold stop. rewrite Hm. simpl.
    destruct (crud_start _); [|done]. destruct (crud_stop _); [|done].
    destruct (_getStopDeps _ (_resourceDependents m !! name)); [|done].
    destruct (_getStopDeps _ (_directResourceDependents m !! name)); [|done].
    simpl. rewrite Hr0.
    rewrite bool_decide_eq_true_2 by eauto. simpl.
    intros [= <- <-]. simpl. repeat split; eauto.
Qed.





(** C9. A call made while an operation of the same kind is in flight for
    the name leaves every map of every manager as it was, so the task
    list it returns is in no in-flight map; and whenever that task list
    is done, failed or not, its [onDone] changes no map of any manager
    (the slot of the original operation stays) and starts nothing in the
    background (no compensating delete or stop). *)
Theorem duplicate_invocation_is_inert
    (op : Op) (k : ManagerKey) (name : string) (options : ResourceOptions)
    (w w' : World) (r0 r : TaskListRef) :
  inFlight op w k name = Some r0 →
  (∀ op' k' name' r', inFlight op' w k' name' = Some r' → r' < nextRef w) →
  invoke op k name options w = (w', Returns r) →
  managers w' = managers w ∧
  (∀ op' k' name', inFlight op' w' k' name' ≠ Some r) ∧
  inFlight op w' k name = Some r0 ∧
  ∃ cl, closureOf w' r = Some cl ∧
        ∀ failed w2,
          managers (onDone cl failed w2) = managers w2 ∧
          background (onDone cl failed w2) = background w2 ∧
          heap (onDone cl failed w2) = heap w2.
Proof.
  intros (m & Hm & Hr0)%inFlight_Some Halloc Hinv.
  destruct (invoke_duplicate _ _ _ _ _ _ _ _ _ Hm Hr0 Hinv)
    as (-> & Hms & _ & _ & _ & cl & Hheap & Hskip & Hby).
  split; [done|]. split; [|split].
  - intros op' k' name' Hin.
    assert (nextRef w < nextRef w); [|lia].
    apply (Halloc op' k' name'). revert Hin. unfold inFlight.
    by rewrite Hms.
  - apply inFlight_Some. exists m. by rewrite Hms.
  - exists cl. split.
    + unfold closureOf. by rewrite Hheap, lookup_insert_eq.
    + intros failed w2.
      destruct cl; simpl in *; try done; subst; done.
Qed.

Lemma duplicate_invocation_is_inert_witness :
  managers (create Demo.node "y" emptyOptions Examples.creatingY).1
    = managers Examples.creatingY ∧
  (∀ op' k' name',
     inFlight op' (create Demo.node "y" emptyOptions Examples.creatingY).1
       k' name' ≠ Some 1) ∧
  inFlight Create (create Demo.node "y" emptyOptions Examples.creatingY).1
    Demo.node "y" = Some 0 ∧
  ∃ cl, closureOf (create Demo.node "y" emptyOptions Examples.creatingY).1 1
          = Some cl ∧
        ∀ failed w2,
          managers (onDone cl failed w2) = managers w2 ∧
          background (onDone cl failed w2) = background w2 ∧
          heap (onDone cl failed w2) = heap w2.
Proof.
  apply (duplicate_invocation_is_inert Create Demo.node "y" emptyOptions
           Examples.creatingY
           (create Demo.node "y" emptyOptions Examples.creatingY).1 0 1).
  - reflexivity.
  - intros op' k' name' r'. unfold inFlight.
    change (managers Examples.creatingY) with
      (<[Demo.node :=
           with_taskLists Create {["y" := 0]}
             (newManager Demo.nodeType "/data/node")]>
         (managers Demo.world0)).
    destruct (decide (k' = Demo.node)) as [->|Hne].
    + rewrite lookup_insert_eq.
      destruct op'; simpl; try (by rewrite lookup_empty).
      intros [<- <-]%lookup_singleton_Some. vm_compute. lia.
    + rewrite lookup_insert_ne by done. unfold Demo.world0. simpl.
      destruct (decide (k' = Demo.wallet)) as [->|Hne2];
        [rewrite lookup_insert_ne by done; rewrite lookup_insert_eq;
         destruct op'; simpl; by rewrite lookup_empty|].
      destruct (decide (k' = Demo.disk)) as [->|Hne3];
        [do 2 (rewrite lookup_insert_ne by done); rewrite lookup_insert_eq;
         destruct op'; simpl; by rewrite lookup_empty|].
      rewrite !lookup_insert_ne by done. by rewrite lookup_empty.
  - reflexivity.
Defined.

(** ** The dependents an operation cascades to *)

Section UniqBy.
Context {A : Type} (key : A → string).

Lemma uniqByFrom_subset seen l x : x ∈ uniqByFrom key seen l → x ∈ l.
Proof.
  revert seen. induction l as [|y l IH]; intros seen; simpl; [done|].
  case_decide.
  - intros ?%IH. by right.
  - intros [->|?%IH]%elem_of_cons; [by left|by right].
Qed.

Lemma uniqByFrom_unseen seen l x :
  x ∈ uniqByFrom key seen l → key x ∉ seen.
Proof.
  revert seen. induction l as [|y l IH]; intros seen; simpl.
  - by intros ?%elem_of_nil.
  - case_decide as Hy; [by apply IH|].
    intros [->|Hx%IH]%elem_of_cons; [done|].
    intros Hin. apply Hx. by right.
Qed.

Lemma uniqByFrom_NoDup_keys seen l : NoDup (key <$> uniqByFrom key seen l).
Proof.
  revert seen. induction l as [|y l IH]; intros seen; simpl.
  - constructor.
  - case_decide; [apply IH|].
    rewrite fmap_cons. constructor; [|apply IH].
    intros (x & Hk & Hx%uniqByFrom_unseen)%list_elem_of_fmap.
    apply Hx. rewrite <- Hk. by left.
Qed.

Lemma uniqByFrom_covers seen l x :
  x ∈ l → key x ∈ seen ∨ ∃ y, y ∈ uniqByFrom key seen l ∧ key y = key x.
Proof.
  revert seen. induction l as [|y l IH]; intros seen; simpl.
  - by intros ?%elem_of_nil.
  - intros [->|Hx]%elem_of_cons.
    + case_decide; [by left|]. right. exists y. split; [by left|done].
    + case_decide.
      * by apply IH.
      * destruct (IH (key y :: seen) Hx) as [[Heq|Hin]%elem_of_cons|(z&?&?)].
        -- right. exists y. split; [by left|done].
        -- by left.
        -- right. exists z. split; [by right|done].
Qed.

Lemma uniqBy_NoDup_keys l : NoDup (key <$> uniqBy key l).
Proof. apply uniqByFrom_NoDup_keys. Qed.

Lemma uniqBy_subset l x : x ∈ uniqBy key l → x ∈ l.
Proof. apply uniqByFrom_subset. Qed.

Lemma uniqBy_covers l x :
  x ∈ l → ∃ y, y ∈ uniqBy key l ∧ key y = key x.
Proof.
  intros [Hin|?]%(uniqByFrom_covers []); [|done].
  by apply elem_of_nil in Hin.
Qed.

(** Where the key tells the elements of [l] apart, [uniqBy] removes
    exactly the repetitions. *)
Lemma uniqBy_injective l :
  (∀ x y, x ∈ l → y ∈ l → key x = key y → x = y) →
  NoDup (uniqBy key l) ∧ ∀ x, x ∈ uniqBy key l ↔ x ∈ l.
Proof.
  intros Hinj. split.
  - eapply NoDup_fmap_1. apply uniqBy_NoDup_keys.
  - intros x. split; [apply uniqBy_subset|].
    intros Hx. destruct (uniqBy_covers l x Hx) as (y & Hy & Hk).
    assert (y = x) as <-; [|done].
    apply Hinj; [by apply uniqBy_subset| |]; done.
Qed.
End UniqBy.

Lemma append_colon_inj a b x y :
  hasColon a = false → hasColon b = false →
  a +:+ ":" +:+ x = b +:+ ":" +:+ y → a = b ∧ x = y.
Proof.
  assert (Hnil : ∀ s, "" +:+ s = s) by done.
  assert (Hcons : ∀ c s s', String c s +:+ s' = String c (s +:+ s')) by done.
  revert b. induction a as [|c a IH]; intros [|c' b]; simpl;
    repeat (rewrite Hnil || rewrite Hcons).
  - intros _ _ [= ->]. done.
  - intros _. case_decide as Hc; [done|]. intros _ [= <- _]. done.
  - case_decide as Hc; [done|]. intros _ _ [= -> _]. done.
  - case_decide; [done|]. case_decide; [done|].
    intros Ha Hb [= -> Heq]. destruct (IH b Ha Hb Heq) as [-> ->]. done.
Qed.

(** [depKey] tells two dependencies apart unless a plugin or resource
    type name contains a colon. *)
Lemma depKey_inj d1 d2 :
  hasColon (dep_plugin d1) = false → hasColon (dep_resourceType d1) = false →
  hasColon (dep_plugin d2) = false → hasColon (dep_resourceType d2) = false →
  depKey d1 = depKey d2 → d1 = d2.
Proof.
  destruct d1 as [p1 t1 n1], d2 as [p2 t2 n2]. unfold depKey. simpl.
  intros Hp1 Ht1 Hp2 Ht2 Heq.
  apply append_colon_inj in Heq as [-> Heq]; [|done..].
  apply append_colon_inj in Heq as [-> ->]; done.
Qed.

Lemma depTargets_Delete w deps :
  (∀ d, d ∈ deps →
     is_Some (getResourcesManager w (dep_plugin d) (dep_resourceType d))) →
  depTargets Delete w deps =
    Returns (map (λ d, ((dep_plugin d, dep_resourceType d), dep_name d)) deps).
Proof.
  induction deps as [|d deps IH]; intros Hall; simpl; [done|].
  destruct (Hall d) as [m ->]; [by left|]. simpl.
  rewrite IH; [done|]. intros d' Hd'. apply Hall. by right.
Qed.

(** C5 on the failing input: node [x] has two registered dependents
    that differ in plugin and in resource type, [("a:b", "c", "d")] and
    [("a", "b:c", "d")], and the managers of both are registered.
    [_uniqueDeps] means to key a dependent by its plugin, resource type
    and name, but joins the three with [:] without escaping it, so the
    two get the same key [a:b:c:d]; the list [delete] cascades to holds
    only the first of them, and the second, a different resource, is
    not deleted. *)
Lemma delete_cascade_misses_a_distinct_dependent :
  mkDep "a:b" "c" "d" ≠ mkDep "a" "b:c" "d" ∧
  (managers Examples.colons !! Demo.node
     ≫= λ m, _resourceDependents m !! "x")
    = Some [mkDep "a:b" "c" "d"; mkDep "a" "b:c" "d"] ∧
  is_Some (getResourcesManager Examples.colons "a:b" "c") ∧
  is_Some (getResourcesManager Examples.colons "a" "b:c") ∧
  closureOf (delete_ Demo.node "x" emptyOptions Examples.colons).1 0
    = Some (DeleteTL Demo.node "x" emptyOptions false (Some "start")
              (Some "stop") None None (Some 5) [mkDep "a:b" "c" "d"]).
Proof.
  split; [done|]. split; [by vm_compute|].
  split; [by vm_compute; eexists|]. split; [by vm_compute; eexists|].
  by vm_compute.
Qed.

(** X22. Where no plugin or resource type name of a registered
    dependent contains a colon, the list [delete] cascades to is
    [resourceDependents[name]] followed by [directDependents[name]],
    deduplicated by [(plugin, resourceType, name)]: it has no element
    twice and the same elements as the two lists.  In every case no key
    [plugin:resourceType:name] occurs twice in it, every element is a
    registered dependent, and every registered dependent has its key
    represented.  The task 'Delete dependent resources' of the task list
    hands exactly this list to [_deleteDeps], which builds a concurrent
    task list with one task per element, each calling [delete(name, {})]
    on the manager found for the element's plugin and resource type. *)
Theorem delete_cascade_is_key_unique_and_concurrent
    (k : ManagerKey) (name : string) (options : ResourceOptions) (w : World)
    (m : Manager) :
  managers w !! k = Some m →
  let registered :=
    default [] (_resourceDependents m !! name)
      ++ default [] (_directResourceDependents m !! name) in
  let dependents := _uniqueDeps registered in
  (∃ cl, (delete_ k name options w).2 = Returns (nextRef w) ∧
         closureOf (delete_ k name options w).1 (nextRef w) = Some cl ∧
         builtBy cl = Some (Delete, k, name) ∧
         {| enabled := nonEmpty dependents;
            skip := silently (shouldSkipOf cl || negb (isSome (adapterOf m name)));
            task := Deps Delete dependents |} ∈ tasksOf cl) ∧
  NoDup (depKey <$> dependents) ∧
  (∀ d, d ∈ dependents → d ∈ registered) ∧
  (∀ d, d ∈ registered → ∃ d', d' ∈ dependents ∧ depKey d' = depKey d) ∧
  ((∀ d, d ∈ registered →
      hasColon (dep_plugin d) = false ∧
      hasColon (dep_resourceType d) = false) →
   NoDup dependents ∧ ∀ d, d ∈ dependents ↔ d ∈ registered) ∧
  (∀ w2,
     (∀ d, d ∈ dependents →
        is_Some (getResourcesManager w2 (dep_plugin d) (dep_resourceType d))) →
     ∃ targets,
       _deleteDeps dependents w2
         = ((newTaskList (DepsTL Delete targets) w2).1, Returns (nextRef w2)) ∧
       concurrent (DepsTL Delete targets) = true ∧
       map task (tasksOf (DepsTL Delete targets))
         = map (λ d, Call Delete (dep_plugin d, dep_resourceType d)
                       (dep_name d) emptyOptions) dependents).
Proof.
  intros Hm registered dependents.
  split; [|split; [|split; [|split; [|split]]]].
  - unfold delete_. rewrite Hm. simpl.
    fold registered. fold dependents.
    destruct (bool_decide (is_Some (_deleteTaskList m !! name))) eqn:Hskip;
      simpl; eexists; (split; [done|]); unfold closureOf; simpl;
      rewrite lookup_insert_eq; simpl; (split; [done|]); (split; [done|]);
      simpl; right; rewrite !elem_of_app; right; by left.
  - apply uniqBy_NoDup_keys.
  - intros d. apply uniqBy_subset.
  - intros d. apply uniqBy_covers.
  - intros Hfree. apply uniqBy_injective.
    intros x y Hx Hy. destruct (Hfree x Hx), (Hfree y Hy).
    by apply depKey_inj.
  - intros w2 Hall.
    exists (map (λ d, ((dep_plugin d, dep_resourceType d), dep_name d))
              dependents).
    unfold _deleteDeps, depsTaskList. rewrite depTargets_Delete by done.
    split; [done|]. split; [done|].
    simpl. rewrite !map_map. done.
Qed.

Lemma delete_cascade_is_key_unique_and_concurrent_witness :
  NoDup (depKey <$> _uniqueDeps
           [mkDep "p" "wallet" "w2"; mkDep "p" "wallet" "x/w1";
            mkDep "p" "wallet" "w2"; mkDep "p" "wallet" "x/w1"]) ∧
  _uniqueDeps
    [mkDep "p" "wallet" "w2"; mkDep "p" "wallet" "x/w1";
     mkDep "p" "wallet" "w2"; mkDep "p" "wallet" "x/w1"]
    = [mkDep "p" "wallet" "w2"; mkDep "p" "wallet" "x/w1"].
Proof.
  assert (Hm : managers Examples.cascade !! Demo.node
                 = Some (default (newManager Demo.nodeType "")
                           (managers Examples.cascade !! Demo.node)))
    by (vm_compute; reflexivity).
  destruct (delete_cascade_is_key_unique_and_concurrent Demo.node "x"
              emptyOptions Examples.cascade _ Hm) as (_ & Hkeys & _).
  split; [|reflexivity].
  revert Hkeys. vm_compute. exact (λ H, H).
Defined.

(** The first half of C6: [addDependent] appends, whether or not the
    dependent is in the list already. *)
Lemma addDependent_appends k name dependent w m :
  managers w !! k = Some m →
  ∃ m', managers (addDependent k name dependent w) !! k = Some m' ∧
        _resourceDependents m' !! name
          = Some (default [] (_resourceDependents m !! name) ++ [dependent]).
Proof.
  intros Hm. unfold addDependent. rewrite lookup_updManager_eq, Hm. simpl.
  eexists. split; [done|]. simpl. by rewrite lookup_insert_eq.
Qed.

(** C6 on the failing input: node [n] depends on disk [x] and was
    created, deleted and created again, which registered it twice with
    [x].  [stop] of [x] hands both entries to [_stopDeps] and the
    manager of [n] is asked to stop [n] twice; [delete] of [x], which
    goes through [_uniqueDeps], keeps one. *)
Lemma stop_delegates_twice_to_a_dependent_registered_twice :
  ∃ w, Examples.recreated = Some w ∧
    (managers w !! Demo.disk ≫= λ m, _resourceDependents m !! "x")
      = Some [mkDep "p" "node" "n"; mkDep "p" "node" "n"] ∧
    (closureOf (stop Demo.disk "x" emptyOptions w).1 (nextRef w)
       = Some (StopTL Demo.disk "x" emptyOptions false None (Some 7)
                 [mkDep "p" "node" "n"; mkDep "p" "node" "n"] [])) ∧
    (closureOf (delete_ Demo.disk "x" emptyOptions w).1 (nextRef w)
       = Some (DeleteTL Demo.disk "x" emptyOptions false (Some "start")
                 (Some "stop") None None (Some 7) [mkDep "p" "node" "n"])) ∧
    ∃ w', Examples.perform Demo.happy Stop Demo.disk "x" w = Some w' ∧
      length (filter (λ e, e = RESOURCES_MANAGER Stop Demo.node "n")
                (drop (length (trace w)) (trace w'))) = 2.
Proof.
  eexists. split; [by vm_compute|].
  split; [by vm_compute|]. split; [by vm_compute|]. split; [by vm_compute|].
  eexists. split; [by vm_compute|]. by vm_compute.
Qed.

(** ** Frames: what a step leaves untouched

    [Frame proj w w'] says that the component [proj] of every manager is
    the same in [w] and [w']. *)
Section Frame.
Context {X : Type} (proj : Manager → X).

Definition Frame (w w' : World) : Prop :=
  ∀ k, proj <$> managers w !! k = proj <$> managers w' !! k.

Lemma Frame_refl w : Frame w w.
Proof. done. Qed.

Lemma Frame_trans w1 w2 w3 : Frame w1 w2 → Frame w2 w3 → Frame w1 w3.
Proof. intros H1 H2 k. by rewrite H1. Qed.

Lemma Frame_managers w w' : managers w' = managers w → Frame w w'.
Proof. intros H k. by rewrite H. Qed.

Lemma Frame_updManager k f w :
  (∀ m, proj (f m) = proj m) → Frame w (updManager k f w).
Proof.
  intros Hf k'. rewrite lookup_updManager. case_decide; [|done].
  destruct (managers w !! k'); simpl; [|done]. by rewrite Hf.
Qed.

Lemma Frame_emit e w : Frame w (emit e w).
Proof. done. Qed.

Lemma Frame_newTaskList cl w : Frame w (newTaskList cl w).1.
Proof. done. Qed.

Lemma Frame_detach r w : Frame w (detach r w).
Proof. done. Qed.

Lemma Frame_updHeap f w : Frame w (updHeap f w).
Proof. done. Qed.

(** Steps that only write in-flight maps. *)
Section TaskLists.
Hypothesis proj_taskLists : ∀ op v m, proj (with_taskLists op v m) = proj m.

Lemma Frame_setTaskList op k name r w : Frame w (setTaskList op k name r w).
Proof. apply Frame_updManager. intros m. apply proj_taskLists. Qed.

Lemma Frame_deleteTaskList op k name w : Frame w (deleteTaskList op k name w).
Proof. apply Frame_updManager. intros m. apply proj_taskLists. Qed.

Lemma Frame_create k name options w : Frame w (create k name options w).1.
Proof.
  unfold create. destruct (managers w !! k) as [m|]; [|done]. simpl.
  destruct (bool_decide _); [done|].
  eapply Frame_trans; [|apply Frame_setTaskList]. done.
Qed.

Lemma Frame_delete k name options w : Frame w (delete_ k name options w).1.
Proof.
  unfold delete_. destruct (managers w !! k) as [m|]; [|done]. simpl.
  destruct (bool_decide _); [done|].
  eapply Frame_trans; [|apply Frame_setTaskList]. done.
Qed.

Lemma Frame_start k name options w : Frame w (start k name options w).1.
Proof.
  unfold start. destruct (managers w !! k) as [m|]; [|done]. simpl.
  destruct (crud_start _); [|done]. destruct (crud_stop _); [|done].
  destruct (_getStartDeps _ _); [|done]. simpl.
  destruct (bool_decide _); [done|].
  eapply Frame_trans; [|apply Frame_setTaskList]. done.
Qed.

Lemma Frame_stop k name options w : Frame w (stop k name options w).1.
Proof.
  unfold stop. destruct (managers w !! k) as [m|]; [|done]. simpl.
  destruct (crud_start _); [|done]. destruct (crud_stop _); [|done].
  destruct (_getStopDeps _ (_resourceDependents m !! name)); [|done].
  destruct (_getStopDeps _ (_directResourceDependents m !! name)); [|done].
  simpl. destruct (bool_decide _); [done|].
  eapply Frame_trans; [|apply Frame_setTaskList]. done.
Qed.

Lemma Frame_invoke op k name options w :
  Frame w (invoke op k name options w).1.
Proof.
  destruct op; [apply Frame_create|apply Frame_delete|apply Frame_start|
                apply Frame_stop].
Qed.

Lemma Frame_depsTaskList op deps w : Frame w (depsTaskList op deps w).1.
Proof. unfold depsTaskList. by destruct (depTargets op w deps). Qed.

Lemma Frame_fireAndForget w res :
  Frame w res.1 → Frame w (fireAndForget res).
Proof. destruct res as [w' [r|e]]; simpl; done. Qed.

(** Steps that also write the started flags. *)
Section Started.
Hypothesis proj_started :
  ∀ v m, proj (with_resourceAdaptersStarted v m) = proj m.

Lemma Frame_setStarted k name b w : Frame w (setStarted k name b w).
Proof. apply Frame_updManager. intros m. apply proj_started. Qed.

Lemma Frame_onComplete cl w : Frame w (onComplete cl w).
Proof.
  destruct cl; simpl; try done.
  eapply Frame_trans; [|apply Frame_setStarted]. done.
Qed.

Lemma Frame_onDone cl failed w : Frame w (onDone cl failed w).
Proof.
  destruct cl as [k name options shouldSkip ? ? ? ?
                 |k name options shouldSkip ? ? ? ? ? ?
                 |k name options shouldSkip ? ? ? ?
                 |k name options shouldSkip ? ? ? ?| |]; simpl; try done.
  - destruct shouldSkip; [done|].
    destruct failed.
    + apply Frame_fireAndForget.
      eapply Frame_trans; [apply Frame_deleteTaskList|apply Frame_delete].
    + apply Frame_deleteTaskList.
  - destruct shouldSkip; [done|].
    eapply Frame_trans; [apply Frame_deleteTaskList|]. done.
  - destruct shouldSkip; [done|].
    eapply Frame_trans; [|apply Frame_emit].
    eapply Frame_trans; [apply Frame_setStarted|].
    eapply Frame_trans; [apply Frame_deleteTaskList|].
    destruct failed; [|done].
    apply Frame_fireAndForget. apply Frame_stop.
  - destruct shouldSkip; [done|].
    eapply Frame_trans; [apply Frame_deleteTaskList|]. done.
Qed.

Lemma Frame_abort r w : Frame w (abort r w).
Proof.
  unfold abort. destruct (heap w !! r) as [[cl [|failed]]|]; try done.
  eapply Frame_trans; [|apply Frame_onDone]. done.
Qed.
End Started.
End TaskLists.
End Frame.

(** Steps that write the adapters and the two dependents maps. *)
Section FrameResources.
Context {X : Type} (proj : Manager → X).
Hypothesis proj_adapters : ∀ v m, proj (with_resourceAdapters v m) = proj m.
Hypothesis proj_direct :
  ∀ v m, proj (with_directResourceDependents v m) = proj m.
Hypothesis proj_dependents :
  ∀ v m, proj (with_resourceDependents v m) = proj m.

Lemma Frame_addDependent k name d w : Frame proj w (addDependent k name d w).
Proof. apply Frame_updManager. intros m. apply proj_dependents. Qed.

Lemma Frame__addDependents self deps w :
  Frame proj w (_addDependents self deps w).1.
Proof.
  revert w. induction deps as [|d deps IH]; intros w; simpl; [done|].
  destruct (getResourcesManager _ _ _); [|done].
  eapply Frame_trans; [apply Frame_addDependent|apply IH].
Qed.

Lemma Frame_setFromContext r ctx w : Frame proj w (setFromContext r ctx w).1.
Proof.
  unfold setFromContext.
  destruct (heap w !! r) as [[[] ?]|]; try done.
  destruct set; [done|].
  match goal with
  | |- context [_addDependents ?s ?d ?w0] =>
      pose proof (Frame__addDependents s d w0) as Hadd;
      destruct (_addDependents s d w0) as [w1 [e|]]
  end; simpl in *;
    (eapply Frame_trans; [|apply Hadd]);
    (eapply Frame_trans; [|apply Frame_updManager; intros; apply proj_direct]);
    (eapply Frame_trans; [|apply Frame_updManager; intros; apply proj_adapters]);
    done.
Qed.

Lemma Frame_external oracle c w : Frame proj w (external oracle c w).1.
Proof. done. Qed.

Lemma Frame__destroy oracle k name a w :
  Frame proj w (_destroy oracle k name a w).1.
Proof.
  unfold _destroy. destruct a; simpl;
    (eapply Frame_trans; [|apply Frame_updManager; intros; apply proj_adapters]);
    done.
Qed.

Lemma Frame_finalCleanup oracle k name a w :
  Frame proj w (finalCleanup oracle k name a w).1.
Proof.
  unfold finalCleanup.
  pose proof (Frame__destroy oracle k name a w) as Hd.
  destruct (_destroy oracle k name a w) as [w1 [|e]]; simpl in *; [|done].
  unfold external.
  repeat (match goal with
          | |- context [ext_error ?o ?n ?c] => destruct (ext_error o n c)
          end; simpl); try done.
  eapply Frame_trans; [apply Hd|].
  eapply Frame_trans; [|apply Frame_updManager].
  - done.
  - intros m. by rewrite proj_direct, proj_dependents.
Qed.

Lemma Frame_finalSetup oracle r k name ctx w :
  Frame proj w (finalSetup oracle r k name ctx w).1.
Proof.
  unfold finalSetup.
  pose proof (Frame_setFromContext r ctx w) as Hs.
  destruct (setFromContext r ctx w) as [w1 [e|]]; simpl in *; [done|].
  unfold external.
  repeat (match goal with
          | |- context [ext_error ?o ?n ?c] => destruct (ext_error o n c)
          end; simpl); done.
Qed.

Lemma Frame_initOne env k m name w : Frame proj w (initOne env k m name w).1.
Proof.
  unfold initOne.
  destruct (initResourceAdapter env name _) as [a|e]; simpl;
    repeat (match goal with
            | |- context [_readDeps ?f ?p] => destruct (_readDeps f p)
            end; simpl); try done;
    try (eapply Frame_trans; [|apply Frame_updManager; intros; apply proj_adapters];
         done).
  match goal with
  | |- context [_addDependents ?s ?d ?w0] =>
      pose proof (Frame__addDependents s d w0) as Hadd;
      destruct (_addDependents s d w0) as [w1 [e|]]
  end; simpl in *;
    (eapply Frame_trans; [|apply Hadd]);
    (eapply Frame_trans; [|apply Frame_updManager; intros; apply proj_direct]);
    (eapply Frame_trans; [|apply Frame_updManager; intros; apply proj_adapters]);
    done.
Qed.

Lemma Frame_initAll env k m resources w :
  Frame proj w (initAll env k m resources w).1.
Proof.
  revert w. induction resources as [|name rest IH]; intros w; simpl; [done|].
  pose proof (Frame_initOne env k m name w) as H1.
  destruct (initOne env k m name w) as [w1 res1]. simpl in H1.
  pose proof (IH w1) as H2.
  destruct (initAll env k m rest w1) as [w2 res2]. simpl in *.
  by eapply Frame_trans.
Qed.

Lemma Frame_init env k w : Frame proj w (init env k w).1.
Proof.
  unfold init. destruct (managers w !! k) as [m|]; [|done].
  destruct (ensureDir env); [done|].
  destruct (ready_getAll env) as [resources|]; [|done].
  destruct (firstDuplicate [] resources); [done|].
  match goal with
  | |- context [initAll env k m resources ?w0] =>
      pose proof (Frame_initAll env k m resources w0) as H;
      destruct (initAll env k m resources w0) as [w1 res]
  end. simpl in *.
  eapply Frame_trans; [|apply H].
  eapply Frame_trans; [|apply Frame_updManager; intros; apply proj_adapters].
  done.
Qed.
End FrameResources.

(** ** C2: the started flag *)

Lemma started_taskLists op v m :
  _resourceAdaptersStarted (with_taskLists op v m) = _resourceAdaptersStarted m.
Proof. by destruct op. Qed.

Lemma startedIn_Frame w w' k name :
  Frame _resourceAdaptersStarted w w' → startedIn w' k name = startedIn w k name.
Proof.
  intros H. specialize (H k). unfold startedIn, startedOf.
  destruct (managers w !! k), (managers w' !! k); simpl in *; try done.
  by injection H as ->.
Qed.

Lemma startedFlags_Frame w w' k :
  Frame _resourceAdaptersStarted w w' → startedFlags w' k = startedFlags w k.
Proof. intros H. unfold startedFlags. by rewrite (H k). Qed.

Lemma startedIn_setStarted k' name' b w k name :
  startedIn (setStarted k' name' b w) k name =
    if decide (k' = k ∧ name' = name ∧ is_Some (managers w !! k)) then b
    else startedIn w k name.
Proof.
  unfold startedIn, setStarted. rewrite lookup_updManager.
  destruct (decide (k' = k)) as [->|Hk].
  - destruct (managers w !! k) as [m|] eqn:Hm; simpl.
    + unfold startedOf. simpl.
      destruct (decide (name' = name)) as [->|Hn].
      * rewrite lookup_insert_eq. simpl. by rewrite decide_True by eauto.
      * rewrite lookup_insert_ne by done. rewrite decide_False; [done|].
        by intros (_ & ? & _).
    + rewrite decide_False; [done|]. by intros (_ & _ & [? ?]).
  - rewrite decide_False; [done|]. by intros (? & _).
Qed.

(** The one place where the flag is set: [onDone] of a start that was
    not a re-entry, whatever [failed] is. *)
Lemma startedIn_onDone cl failed w k name :
  startedIn (onDone cl failed w) k name =
    if decide (builtBy cl = Some (Start, k, name) ∧ shouldSkipOf cl = false
               ∧ is_Some (managers w !! k))
    then true else startedIn w k name.
Proof.
  assert (Hframe : ∀ w', Frame _resourceAdaptersStarted w w' →
            (¬ (builtBy cl = Some (Start, k, name) ∧ shouldSkipOf cl = false
                ∧ is_Some (managers w !! k))) →
            startedIn w' k name =
              if decide (builtBy cl = Some (Start, k, name)
                         ∧ shouldSkipOf cl = false
                         ∧ is_Some (managers w !! k))
              then true else startedIn w k name).
  { intros w' H Hn. rewrite decide_False by done. by apply startedIn_Frame. }
  destruct cl as [k' name' options shouldSkip ? ? ? ?
                 |k' name' options shouldSkip ? ? ? ? ? ?
                 |k' name' options shouldSkip ? ? ? ?
                 |k' name' options shouldSkip ? ? ? ?| |]; simpl.
  1,2,4,5,6: apply Hframe; [|by intros ([=] & _)].
  - destruct shouldSkip; [done|]. destruct failed.
    + apply Frame_fireAndForget.
      eapply Frame_trans; [apply Frame_deleteTaskList, started_taskLists|].
      apply Frame_delete, started_taskLists.
    + apply Frame_deleteTaskList, started_taskLists.
  - destruct shouldSkip; [done|].
    eapply Frame_trans; [apply Frame_deleteTaskList, started_taskLists|]. done.
  - destruct shouldSkip; [done|].
    eapply Frame_trans; [apply Frame_deleteTaskList, started_taskLists|]. done.
  - done.
  - done.
  - destruct shouldSkip.
    { rewrite decide_False; [done|]. by intros (_ & [=] & _). }
    set (w1 := setStarted k' name' true w).
    assert (Hrest : Frame _resourceAdaptersStarted w1
              (emit (UPDATE k')
                 (if failed
                  then fireAndForget
                         (stop k' name' options
                            (deleteTaskList Start k' name' w1))
                  else deleteTaskList Start k' name' w1))).
    { eapply Frame_trans; [apply Frame_deleteTaskList, started_taskLists|].
      destruct failed; [|done].
      eapply Frame_trans; [|apply Frame_emit].
      apply Frame_fireAndForget. apply Frame_stop, started_taskLists. }
    rewrite (startedIn_Frame _ _ _ _ Hrest). unfold w1.
    rewrite startedIn_setStarted.
    repeat case_decide; try done; naive_solver.
Qed.

(** The one place where the flag is cleared: [onComplete] of a stop. *)
Lemma startedIn_onComplete cl w k name :
  startedIn (onComplete cl w) k name =
    if decide (builtBy cl = Some (Stop, k, name) ∧ is_Some (managers w !! k))
    then false else startedIn w k name.
Proof.
  destruct cl as [k' name' ? ? ? ? ? ?|k' name' ? ? ? ? ? ? ? ?
                 |k' name' ? ? ? ? ? ?|k' name' ? ? ? ? ? ?| |]; simpl;
    try done.
  rewrite startedIn_setStarted. simpl.
  change (startedIn (emit (RESOURCE_ADAPTER_COMPLETE Stop k' name') w) k name)
    with (startedIn w k name).
  repeat case_decide; try done; naive_solver.
Qed.

Lemma Frame_started_onError cl r e ctx w :
  Frame _resourceAdaptersStarted w (onError cl r e ctx w).
Proof.
  destruct cl; simpl; try done.
  destruct shouldSkip; [done|].
  eapply Frame_trans; [|by apply Frame_setFromContext]. done.
Qed.

Lemma settle_sets_started_only_for_start r out ctx w k name :
  startedIn w k name = false →
  startedIn (settle r out ctx w) k name = true →
  ∃ cl, closureOf w r = Some cl ∧ builtBy cl = Some (Start, k, name) ∧
        shouldSkipOf cl = false.
Proof.
  intros Hbefore. unfold settle, closureOf.
  destruct (heap w !! r) as [[cl [|failed]]|]; simpl; try congruence.
  destruct out as [|e].
  - rewrite startedIn_onDone. case_decide as Hc.
    + intros _. exists cl. naive_solver.
    + change (startedIn (emit (DONE r false)
                (setStatus r (Settled false) (onComplete cl w))) k name)
        with (startedIn (onComplete cl w) k name).
      rewrite startedIn_onComplete. case_decide; congruence.
  - rewrite startedIn_onDone. case_decide as Hc.
    + intros _. exists cl. naive_solver.
    + change (startedIn (emit (DONE r true)
                (setStatus r (Settled true) (onError cl r e ctx w))) k name)
        with (startedIn (onError cl r e ctx w) k name).
      rewrite (startedIn_Frame w) by apply Frame_started_onError.
      congruence.
Qed.

Lemma abort_sets_started_only_for_start r w k name :
  startedIn w k name = false →
  startedIn (abort r w) k name = true →
  ∃ cl, closureOf w r = Some cl ∧ builtBy cl = Some (Start, k, name) ∧
        shouldSkipOf cl = false.
Proof.
  intros Hbefore. unfold abort, closureOf.
  destruct (heap w !! r) as [[cl [|failed]]|]; simpl; try congruence.
  rewrite startedIn_onDone. case_decide as Hc.
  - intros _. exists cl. naive_solver.
  - change (startedIn (emit (DONE r true) (setStatus r (Settled true) w))
              k name) with (startedIn w k name). congruence.
Qed.

Lemma invokeAction_keeps_started oracle r a ctx w k :
  (∀ target, a ≠ Abort (Some target)) →
  startedFlags (invokeAction oracle r a ctx w).1.1 k = startedFlags w k.
Proof.
  intros Hna. apply startedFlags_Frame.
  destruct a as [[t|]|op k' name options|op deps|k' name options|k' name
                |k' name options|op [a|] options|k' name a|c]; simpl;
    try done.
  - by destruct (Hna t).
  - pose proof (Frame_invoke _resourceAdaptersStarted
                  started_taskLists op k' name options w) as H.
    by destruct (invoke op k' name options w) as [w' [r'|e]].
  - pose proof (Frame_depsTaskList _resourceAdaptersStarted op deps w) as H.
    by destruct (depsTaskList op deps w) as [w' [r'|e]].
  - by apply Frame_finalSetup.
  - by apply Frame_finalCleanup.
Qed.

(** C2, as stated, fails: [adapter.start] of disk [d] fails, the start
    task list fails, and the started flag of [d] is true when the task
    list is done; it is still true after the compensating stop has run
    in the background and failed as well. *)
Lemma failed_start_sets_started :
  startedIn Examples.diskD Demo.disk "d" = false ∧
  (let '(w1, res) := start Demo.disk "d" emptyOptions Examples.diskD in
   match res with
   | Returns r =>
       match runTaskList Examples.startFails 5 r w1 with
       | Some (w2, _, out) => Some (out, startedIn w2 Demo.disk "d")
       | None => None
       end
   | Throws _ => None
   end) = Some (Failed (ExternalError None "cannot start"), true) ∧
  (λ w, startedIn w Demo.disk "d")
    <$> Examples.perform Examples.startAndStopFail Start Demo.disk "d"
          Examples.diskD
    = Some true.
Proof. split; [by vm_compute|]. split; by vm_compute. Qed.

(** C2, amended.  The started flag of a name is set to true when the task
    list of a start of that name that was not a re-entry is done, whether
    it failed or not, and nowhere else: no other task list that settles
    or is aborted, no call of an operation, no task body other than an
    abort sets it.  It is set to false when a stop task list completes.
    A manager is constructed with no flag set, and [init] leaves the
    flags as they are. *)
Theorem started_set_when_start_is_done
    (oracle : Oracle) (env : InitEnv) (w : World) (k : ManagerKey)
    (name : string) :
  (∀ cl failed,
     builtBy cl = Some (Start, k, name) → shouldSkipOf cl = false →
     is_Some (managers w !! k) →
     startedIn (onDone cl failed w) k name = true) ∧
  (∀ r out ctx,
     startedIn w k name = false →
     startedIn (settle r out ctx w) k name = true →
     ∃ cl, closureOf w r = Some cl ∧ builtBy cl = Some (Start, k, name) ∧
           shouldSkipOf cl = false) ∧
  (∀ r,
     startedIn w k name = false →
     startedIn (abort r w) k name = true →
     ∃ cl, closureOf w r = Some cl ∧ builtBy cl = Some (Start, k, name) ∧
           shouldSkipOf cl = false) ∧
  (∀ op k' name' options,
     startedFlags (invoke op k' name' options w).1 k = startedFlags w k) ∧
  (∀ r a ctx,
     (∀ target, a ≠ Abort (Some target)) →
     startedFlags (invokeAction oracle r a ctx w).1.1 k = startedFlags w k) ∧
  (∀ cl,
     builtBy cl = Some (Stop, k, name) →
     startedIn (onComplete cl w) k name = false) ∧
  (∀ k', startedFlags (init env k' w).1 k = startedFlags w k) ∧
  (∀ rt dataPath, startedOf (newManager rt dataPath) name = false).
Proof.
  split; [|split; [|split; [|split; [|split; [|split; [|split]]]]]].
  - intros cl failed Hby Hskip Hm. rewrite startedIn_onDone.
    by rewrite decide_True.
  - intros r out ctx. apply settle_sets_started_only_for_start.
  - intros r. apply abort_sets_started_only_for_start.
  - intros op k' name' options. apply startedFlags_Frame.
    apply Frame_invoke, started_taskLists.
  - intros r a ctx. apply invokeAction_keeps_started.
  - intros cl Hby. rewrite startedIn_onComplete.
    case_decide as Hc; [done|].
    unfold startedIn. destruct (managers w !! k) eqn:E; [|done].
    destruct Hc. eauto.
  - intros k'. apply startedFlags_Frame. by apply Frame_init.
  - done.
Qed.

Lemma started_set_when_start_is_done_witness :
  startedIn
    (onDone (StartTL Demo.disk "d" emptyOptions false None (Some 7) (Some false)
               [])
       true Examples.diskD) Demo.disk "d" = true.
Proof.
  apply (started_set_when_start_is_done Demo.happy
           {| ensureDir := None; ready_getAll := Returns [];
              initResourceAdapter := λ _ _, Throws TypeError;
              readJSON := λ _, Returns [] |}
           Examples.diskD Demo.disk "d").
  - reflexivity.
  - reflexivity.
  - vm_compute. eauto.
Defined.

(** ** Invariants of a run

    A run is built from three kinds of steps: a task body is called
    ([invokeAction]), a task list settles ([settle]) or is aborted
    ([abort]).  A relation that is a preorder and holds across each of
    these steps holds across a whole run.  [Inv] is an invariant the
    steps may rely on, [P] says which task lists are run and [Q] which
    task bodies are called. *)
Section RunInvariant.
Variable oracle : Oracle.
Variable Inv : World → Prop.
Variable R : World → World → Prop.
Variable P : Closure → Prop.
Variable Q : Action → Prop.

Definition runs (w : World) (r : TaskListRef) : Prop :=
  ∃ cl, closureOf w r = Some cl ∧ P cl.

Hypothesis R_refl : ∀ w, Inv w → R w w.
Hypothesis R_trans : ∀ w1 w2 w3, R w1 w2 → R w2 w3 → R w1 w3.
Hypothesis P_tasks : ∀ cl t, P cl → t ∈ tasksOf cl → Q (task t).
Hypothesis P_stable : ∀ w w' r, R w w' → runs w r → runs w' r.
Hypothesis step_invoke :
  ∀ r a ctx w, Inv w → Q a →
    Inv (invokeAction oracle r a ctx w).1.1 ∧
    R w (invokeAction oracle r a ctx w).1.1 ∧
    ∀ r', (invokeAction oracle r a ctx w).2 = inr r' →
          runs (invokeAction oracle r a ctx w).1.1 r'.
Hypothesis step_settle :
  ∀ r out ctx w, Inv w → runs w r →
    Inv (settle r out ctx w) ∧ R w (settle r out ctx w).
Hypothesis step_abort :
  ∀ r w, Inv w → runs w r → Inv (abort r w) ∧ R w (abort r w).

Definition good (rec : World → TaskListRef → Ctx → option (World * Ctx * Outcome))
    : Prop :=
  ∀ w r ctx w' ctx' out,
    Inv w → runs w r → rec w r ctx = Some (w', ctx', out) → Inv w' ∧ R w w'.

Lemma runAction_inv rec r a ctx w w' ctx' out :
  good rec → Inv w → Q a →
  runAction oracle rec r a ctx w = Some (w', ctx', out) →
  Inv w' ∧ R w w'.
Proof.
  intros Hrec HI HQ. unfold runAction.
  destruct (step_invoke r a ctx w HI HQ) as (HI1 & HR1 & Hruns).
  destruct (invokeAction oracle r a ctx w) as [[w1 ctx1] [o|r']]; simpl in *.
  - by intros [= <- <- <-].
  - intros Hrun. destruct (Hrec _ _ _ _ _ _ HI1 (Hruns r' eq_refl) Hrun).
    eauto.
Qed.

Lemma runSequential_inv rec r tasks ctx w w' ctx' out :
  good rec → Inv w → (∀ t, t ∈ tasks → Q (task t)) →
  runSequential oracle rec r tasks ctx w = Some (w', ctx', out) →
  Inv w' ∧ R w w'.
Proof.
  intros Hrec. revert ctx w.
  induction tasks as [|t tasks IH]; intros ctx w HI HQ; simpl.
  - intros [= <- <- <-]. eauto.
  - assert (HQ' : ∀ t', t' ∈ tasks → Q (task t')).
    { intros t' Ht'. apply HQ. by right. }
    destruct (enabled t w); simpl; [|by apply IH].
    destruct (skip t); [by apply IH|].
    destruct (runAction oracle rec r (task t) ctx w)
      as [[[w1 ctx1] [|e]]|] eqn:E; [| |done].
    + destruct (runAction_inv _ _ _ _ _ _ _ _ Hrec HI (HQ t ltac:(by left)) E)
        as [HI1 HR1].
      intros Hrest. destruct (IH _ _ HI1 HQ' Hrest). eauto.
    + intros [= <- <- <-].
      by apply (runAction_inv _ _ _ _ _ _ _ _ Hrec HI (HQ t ltac:(by left)) E).
Qed.

Lemma invokeAll_inv r tasks ctx w :
  Inv w → (∀ t, t ∈ tasks → Q (task t)) →
  Inv (invokeAll oracle r tasks ctx w).1.1 ∧
  R w (invokeAll oracle r tasks ctx w).1.1 ∧
  ∀ r', inr r' ∈ (invokeAll oracle r tasks ctx w).2 →
        runs (invokeAll oracle r tasks ctx w).1.1 r'.
Proof.
  revert ctx w. induction tasks as [|t tasks IH]; intros ctx w HI HQ; simpl.
  - split; [done|]. split; [eauto|]. by intros r' ?%elem_of_nil.
  - assert (HQ' : ∀ t', t' ∈ tasks → Q (task t')).
    { intros t' Ht'. apply HQ. by right. }
    destruct (enabled t w); simpl; [|by apply IH].
    destruct (skip t); [by apply IH|].
    destruct (step_invoke r (task t) ctx w HI (HQ t ltac:(by left)))
      as (HI1 & HR1 & Hruns).
    destruct (invokeAction oracle r (task t) ctx w) as [[w1 ctx1] s].
    simpl in *.
    destruct (IH ctx1 w1 HI1 HQ') as (HI2 & HR2 & Hruns2).
    destruct (invokeAll oracle r tasks ctx1 w1) as [[w2 ctx2] l].
    simpl in *. split; [done|]. split; [eauto|].
    intros r' [Heq|Hin]%elem_of_cons; [|by apply Hruns2].
    subst s. eapply P_stable; [apply HR2|by apply Hruns].
Qed.

Lemma abortAll_inv l w :
  Inv w → (∀ r', inr r' ∈ l → runs w r') →
  Inv (abortAll l w) ∧ R w (abortAll l w).
Proof.
  unfold abortAll. revert w. induction l as [|s l IH]; intros w HI Hl; simpl.
  - eauto.
  - destruct s as [o|r'].
    + apply IH; [done|]. intros r' Hr'. apply Hl. by right.
    + destruct (step_abort r' w HI (Hl r' ltac:(by left))) as [HI1 HR1].
      destruct (IH (abort r' w) HI1) as [HI2 HR2].
      * intros r'' Hr''. eapply P_stable; [done|]. apply Hl. by right.
      * eauto.
Qed.

Lemma settleAll_inv rec l ctx w w' ctx' out :
  good rec → Inv w → (∀ r', inr r' ∈ l → runs w r') →
  settleAll rec l ctx w = Some (w', ctx', out) →
  Inv w' ∧ R w w'.
Proof.
  intros Hrec. revert ctx w.
  induction l as [|s l IH]; intros ctx w HI Hl; simpl.
  - intros [= <- <- <-]. eauto.
  - destruct s as [o|r'].
    + apply IH; [done|]. intros r' Hr'. apply Hl. by right.
    + destruct (rec w r' ctx) as [[[w1 ctx1] [|e]]|] eqn:E; [| |done].
      * destruct (Hrec _ _ _ _ _ _ HI (Hl r' ltac:(by left)) E) as [HI1 HR1].
        intros Hrest. destruct (IH ctx1 w1 HI1) with (2 := Hrest); [|eauto].
        intros r'' Hr''. eapply P_stable; [done|]. apply Hl. by right.
      * destruct (Hrec _ _ _ _ _ _ HI (Hl r' ltac:(by left)) E) as [HI1 HR1].
        intros [= <- <- <-].
        destruct (abortAll_inv l w1 HI1); [|eauto].
        intros r'' Hr''. eapply P_stable; [done|]. apply Hl. by right.
Qed.

Lemma runConcurrent_inv rec r tasks ctx w w' ctx' out :
  good rec → Inv w → (∀ t, t ∈ tasks → Q (task t)) →
  runConcurrent oracle rec r tasks ctx w = Some (w', ctx', out) →
  Inv w' ∧ R w w'.
Proof.
  intros Hrec HI HQ. unfold runConcurrent.
  destruct (invokeAll_inv r tasks ctx w HI HQ) as (HI1 & HR1 & Hruns).
  destruct (invokeAll oracle r tasks ctx w) as [[w1 ctx1] l]. simpl in *.
  destruct (firstFailure l).
  - intros [= <- <- <-]. destruct (abortAll_inv l w1 HI1 Hruns). eauto.
  - intros Hs. destruct (settleAll_inv _ _ _ _ _ _ _ Hrec HI1 Hruns Hs). eauto.
Qed.

Lemma runBody_inv rec :
  good rec → good (λ w r ctx, runBody oracle rec r ctx w).
Proof.
  intros Hrec w r ctx w' ctx' out HI (cl & Hcl & HP). unfold runBody.
  unfold closureOf in Hcl.
  destruct (heap w !! r) as [[cl0 [|failed]]|] eqn:Hr; simpl in Hcl;
    [|intros [= <- <- <-]; eauto|done].
  injection Hcl as ->.
  assert (HQ : ∀ t, t ∈ tasksOf cl → Q (task t)) by eauto.
  assert (Hruns : runs w r).
  { exists cl. unfold closureOf. by rewrite Hr. }
  destruct (concurrent cl).
  - destruct (runConcurrent _ _ _ _ _ _) as [[[w1 ctx1] out1]|] eqn:E; [|done].
    intros [= <- <- <-].
    destruct (runConcurrent_inv _ _ _ _ _ _ _ _ Hrec HI HQ E) as [HI1 HR1].
    destruct (step_settle r out1 ctx1 w1 HI1); eauto.
  - destruct (runSequential _ _ _ _ _ _) as [[[w1 ctx1] out1]|] eqn:E; [|done].
    intros [= <- <- <-].
    destruct (runSequential_inv _ _ _ _ _ _ _ _ Hrec HI HQ E) as [HI1 HR1].
    destruct (step_settle r out1 ctx1 w1 HI1); eauto.
Qed.

Lemma run_inv fuel : good (run oracle fuel).
Proof.
  induction fuel as [|n IH]; intros w r ctx w' ctx' out HI Hruns; simpl.
  - done.
  - destruct (runBody oracle (run oracle n) r ctx w)
      as [[[w1 ctx1] out1]|] eqn:E; [|done].
    intros [= <- <- <-].
    eapply (runBody_inv _ IH); eauto.
Qed.

Lemma runTaskList_inv fuel r w w' ctx' out :
  Inv w → runs w r →
  runTaskList oracle fuel r w = Some (w', ctx', out) → Inv w' ∧ R w w'.
Proof.
  intros HI Hruns Hrun.
  eapply (runBody_inv _ (run_inv fuel)); eauto.
Qed.
End RunInvariant.

(** ** The four operations, unfolded once *)

Lemma create_eq k name options w m :
  managers w !! k = Some m →
  create k name options w =
    let w0 := emit (RESOURCES_MANAGER Create k name) w in
    let shouldSkip := bool_decide (is_Some (_createTaskList m !! name)) in
    let cl :=
      CreateTL k name options shouldSkip (adapterOf m name)
        (create_startOnCreate (getCRUD (resourceType m)))
        (crud_start (getCRUD (resourceType m))) false in
    let w1 := (newTaskList cl w0).1 in
    (if shouldSkip then w1 else setTaskList Create k name (nextRef w0) w1,
     Returns (nextRef w0)).
Proof. intros Hm. unfold create. rewrite Hm. reflexivity. Qed.

Lemma delete_eq k name options w m :
  managers w !! k = Some m →
  delete_ k name options w =
    let w0 := emit (RESOURCES_MANAGER Delete k name) w in
    let shouldSkip := bool_decide (is_Some (_deleteTaskList m !! name)) in
    let cl :=
      DeleteTL k name options shouldSkip (crud_start (getCRUD (resourceType m)))
        (crud_stop (getCRUD (resourceType m))) (_startTaskList m !! name)
        (_createTaskList m !! name) (adapterOf m name)
        (_uniqueDeps
           (default [] (_resourceDependents m !! name)
              ++ default [] (_directResourceDependents m !! name))) in
    let w1 := (newTaskList cl w0).1 in
    (if shouldSkip then w1 else setTaskList Delete k name (nextRef w0) w1,
     Returns (nextRef w0)).
Proof. intros Hm. unfold delete_. rewrite Hm. reflexivity. Qed.

Lemma start_eq k name options w m s t :
  managers w !! k = Some m →
  crud_start (getCRUD (resourceType m)) = Some s →
  crud_stop (getCRUD (resourceType m)) = Some t →
  start k name options w =
    let w0 := emit (RESOURCES_MANAGER Start k name) w in
    match _getStartDeps w0 (_directResourceDependents m !! name) with
    | Throws e => (w0, Throws e)
    | Returns directDependents =>
        let shouldSkip := bool_decide (is_Some (_startTaskList m !! name)) in
        let cl :=
          StartTL k name options shouldSkip (_stopTaskList m !! name)
            (adapterOf m name) (_resourceAdaptersStarted m !! name)
            directDependents in
        let w1 := (newTaskList cl w0).1 in
        (if shouldSkip then w1 else setTaskList Start k name (nextRef w0) w1,
         Returns (nextRef w0))
    end.
Proof.
  intros Hm Hs Ht. unfold start. rewrite Hm, Hs, Ht. cbv zeta.
  by destruct (_getStartDeps _ _).
Qed.

Lemma stop_eq k name options w m s t :
  managers w !! k = Some m →
  crud_start (getCRUD (resourceType m)) = Some s →
  crud_stop (getCRUD (resourceType m)) = Some t →
  stop k name options w =
    let w0 := emit (RESOURCES_MANAGER Stop k name) w in
    match _getStopDeps w0 (_resourceDependents m !! name),
          _getStopDeps w0 (_directResourceDependents m !! name) with
    | Throws e, _ => (w0, Throws e)
    | Returns _, Throws e => (w0, Throws e)
    | Returns dependents, Returns directDependents =>
        let shouldSkip := bool_decide (is_Some (_stopTaskList m !! name)) in
        let cl :=
          StopTL k name options shouldSkip (_startTaskList m !! name)
            (adapterOf m name) dependents directDependents in
        let w1 := (newTaskList cl w0).1 in
        (if shouldSkip then w1 else setTaskList Stop k name (nextRef w0) w1,
         Returns (nextRef w0))
    end.
Proof.
  intros Hm Hs Ht. unfold stop. rewrite Hm, Hs, Ht. cbv zeta.
  destruct (_getStopDeps _ (_resourceDependents m !! name)); [|done].
  by destruct (_getStopDeps _ (_directResourceDependents m !! name)).
Qed.

Lemma start_throws k name options w m :
  managers w !! k = Some m →
  crud_start (getCRUD (resourceType m)) = None ∨
  crud_stop (getCRUD (resourceType m)) = None →
  ∃ e, start k name options w
         = (emit (RESOURCES_MANAGER Start k name) w, Throws e).
Proof.
  intros Hm Hc. unfold start. rewrite Hm. cbv zeta.
  destruct (crud_start _); [|by eexists].
  destruct (crud_stop _); [|by eexists]. by destruct Hc.
Qed.

Lemma stop_throws k name options w m :
  managers w !! k = Some m →
  crud_start (getCRUD (resourceType m)) = None ∨
  crud_stop (getCRUD (resourceType m)) = None →
  ∃ e, stop k name options w
         = (emit (RESOURCES_MANAGER Stop k name) w, Throws e).
Proof.
  intros Hm Hc. unfold stop. rewrite Hm. cbv zeta.
  destruct (crud_start _); [|by eexists].
  destruct (crud_stop _); [|by eexists]. by destruct Hc.
Qed.

Lemma depsTaskList_eq op deps w :
  depsTaskList op deps w =
    match depTargets op w deps with
    | Throws e => (w, Throws e)
    | Returns targets =>
        ((newTaskList (DepsTL op targets) w).1, Returns (nextRef w))
    end.
Proof. unfold depsTaskList. by destruct (depTargets op w deps). Qed.

#[local] Arguments newTaskList : simpl never.
#[local] Arguments emit : simpl never.
#[local] Arguments setTaskList : simpl never.
#[local] Arguments deleteTaskList : simpl never.
#[local] Arguments setStarted : simpl never.
#[local] Arguments updManager : simpl never.
#[local] Arguments updHeap : simpl never.
#[local] Arguments setStatus : simpl never.
#[local] Arguments detach : simpl never.

(** ** The functions of the model as sequences of steps *)
Section StepsOf.
Variable p : Permission.
Hypothesis p_log : ∀ e, isLog e → emits p e.

Local Ltac step := eapply Steps_trans; [|first
  [ apply Steps_emit; apply p_log; exact I
  | apply Steps_new | apply Steps_detach | apply Steps_deleteTaskList
  | apply Steps_setStarted ]].

Lemma Steps_log e w : isLog e → Steps p w (emit e w).
Proof. intros. by apply Steps_emit, p_log. Qed.

Lemma closureOf_newTaskList cl w :
  closureOf (newTaskList cl w).1 (nextRef w) = Some cl.
Proof. unfold closureOf, newTaskList. simpl. by rewrite lookup_insert_eq. Qed.

Lemma Steps_create k name options w : Steps p w (create k name options w).1.
Proof.
  destruct (managers w !! k) as [m|] eqn:Hm;
    [|unfold create; rewrite Hm; apply Steps_refl].
  rewrite (create_eq _ _ _ _ _ Hm). cbv zeta. destruct (bool_decide _); cbn [fst].
  - step. by apply Steps_log.
  - eapply Steps_trans; [|eapply Steps_setTaskList;
      [apply closureOf_newTaskList|done]].
    step. by apply Steps_log.
Qed.

Lemma Steps_delete k name options w : Steps p w (delete_ k name options w).1.
Proof.
  destruct (managers w !! k) as [m|] eqn:Hm;
    [|unfold delete_; rewrite Hm; apply Steps_refl].
  rewrite (delete_eq _ _ _ _ _ Hm). cbv zeta. destruct (bool_decide _); cbn [fst].
  - step. by apply Steps_log.
  - eapply Steps_trans; [|eapply Steps_setTaskList;
      [apply closureOf_newTaskList|done]].
    step. by apply Steps_log.
Qed.

Lemma Steps_start k name options w : Steps p w (start k name options w).1.
Proof.
  destruct (managers w !! k) as [m|] eqn:Hm;
    [|unfold start; rewrite Hm; apply Steps_refl].
  destruct (crud_start (getCRUD (resourceType m))) as [s|] eqn:Hs;
    [|edestruct (start_throws k name options w m) as [e ->]; eauto;
      by apply Steps_log].
  destruct (crud_stop (getCRUD (resourceType m))) as [t|] eqn:Ht;
    [|edestruct (start_throws k name options w m) as [e ->]; eauto;
      by apply Steps_log].
  rewrite (start_eq _ _ _ _ _ _ _ Hm Hs Ht). cbv zeta.
  destruct (_getStartDeps _ _); [|by apply Steps_log].
  destruct (bool_decide _); cbn [fst].
  - step. by apply Steps_log.
  - eapply Steps_trans; [|eapply Steps_setTaskList;
      [apply closureOf_newTaskList|done]].
    step. by apply Steps_log.
Qed.

Lemma Steps_stop k name options w : Steps p w (stop k name options w).1.
Proof.
  destruct (managers w !! k) as [m|] eqn:Hm;
    [|unfold stop; rewrite Hm; apply Steps_refl].
  destruct (crud_start (getCRUD (resourceType m))) as [s|] eqn:Hs;
    [|edestruct (stop_throws k name options w m) as [e ->]; eauto;
      by apply Steps_log].
  destruct (crud_stop (getCRUD (resourceType m))) as [t|] eqn:Ht;
    [|edestruct (stop_throws k name options w m) as [e ->]; eauto;
      by apply Steps_log].
  rewrite (stop_eq _ _ _ _ _ _ _ Hm Hs Ht). cbv zeta.
  destruct (_getStopDeps _ (_resourceDependents m !! name));
    [|by apply Steps_log].
  destruct (_getStopDeps _ (_directResourceDependents m !! name));
    [|by apply Steps_log].
  destruct (bool_decide _); cbn [fst].
  - step. by apply Steps_log.
  - eapply Steps_trans; [|eapply Steps_setTaskList;
      [apply closureOf_newTaskList|done]].
    step. by apply Steps_log.
Qed.

Lemma Steps_invoke op k name options w :
  Steps p w (invoke op k name options w).1.
Proof.
  destruct op; [apply Steps_create|apply Steps_delete|apply Steps_start|
                apply Steps_stop].
Qed.

Lemma Steps_depsTaskList op deps w : Steps p w (depsTaskList op deps w).1.
Proof.
  rewrite depsTaskList_eq. destruct (depTargets op w deps);
    [apply Steps_new|apply Steps_refl].
Qed.

Lemma Steps_fireAndForget w res :
  Steps p w res.1 → Steps p w (fireAndForget res).
Proof.
  destruct res as [w' [r|e]]; simpl; [|done].
  intros. by step.
Qed.

Lemma Steps_onComplete cl w : Steps p w (onComplete cl w).
Proof.
  destruct cl; simpl; try (by apply Steps_log); try apply Steps_refl.
  step. by apply Steps_log.
Qed.

Lemma Steps_onDone cl failed w : Steps p w (onDone cl failed w).
Proof.
  destruct cl as [k name options shouldSkip ? ? ? ?
                 |k name options shouldSkip ? ? ? ? ? ?
                 |k name options shouldSkip ? ? ? ?
                 |k name options shouldSkip ? ? ? ?| |]; simpl;
    try apply Steps_refl.
  - destruct shouldSkip; [apply Steps_refl|]. destruct failed.
    + apply Steps_fireAndForget.
      eapply Steps_trans; [apply Steps_deleteTaskList|apply Steps_delete].
    + apply Steps_deleteTaskList.
  - step. destruct shouldSkip; [apply Steps_refl|apply Steps_deleteTaskList].
  - step. destruct shouldSkip; [apply Steps_refl|].
    eapply Steps_trans; [apply Steps_setStarted|].
    eapply Steps_trans; [apply Steps_deleteTaskList|].
    destruct failed; [|apply Steps_refl].
    apply Steps_fireAndForget. apply Steps_stop.
  - step. destruct shouldSkip; [apply Steps_refl|apply Steps_deleteTaskList].
Qed.

Lemma Steps_abort r w : settles p r → Steps p w (abort r w).
Proof.
  intros Hr. unfold abort.
  destruct (heap w !! r) as [[cl [|failed]]|]; try apply Steps_refl.
  eapply Steps_trans; [|apply Steps_onDone]. by apply Steps_settled.
Qed.

(** [onError] and [settle] of a task list that is not a create which
    would still install its adapter. *)
Lemma Steps_onError_plain cl r e ctx w :
  (∀ k name options ra soc st set,
     cl ≠ CreateTL k name options false ra soc st set) →
  Steps p w (onError cl r e ctx w).
Proof.
  intros Hcl. destruct cl; simpl; try (by apply Steps_log);
    try apply Steps_refl.
  destruct shouldSkip; [by apply Steps_log|]. by edestruct Hcl.
Qed.

Lemma Steps_settle_plain r out ctx w :
  settles p r →
  (∀ cl, closureOf w r = Some cl →
     ∀ k name options ra soc st set,
       cl ≠ CreateTL k name options false ra soc st set) →
  Steps p w (settle r out ctx w).
Proof.
  intros Hr Hcl. unfold settle.
  destruct (heap w !! r) as [[cl [|failed]]|] eqn:E; try apply Steps_refl.
  destruct out as [|e].
  - eapply Steps_trans; [|apply Steps_onDone].
    eapply Steps_trans; [apply Steps_onComplete|]. by apply Steps_settled.
  - eapply Steps_trans; [|apply Steps_onDone].
    eapply Steps_trans; [|by apply Steps_settled].
    apply Steps_onError_plain. apply Hcl. unfold closureOf. by rewrite E.
Qed.

Section External.
Hypothesis p_ext : ∀ c, emits p (EXT c).

Lemma Steps_external oracle c w : Steps p w (external oracle c w).1.
Proof. by apply Steps_emit. Qed.

Lemma Steps_createResourceAdapter oracle k name options w :
  Steps p w (createResourceAdapter oracle k name options w).1.1.
Proof. by apply Steps_emit. Qed.

Section Resources.
Hypothesis p_resources : resources p = true.

Lemma sameBookkeeping_adapters g :
  sameBookkeeping (λ m, with_resourceAdapters (g m) m).
Proof. intros m. repeat split; by try intros []. Qed.

Lemma sameBookkeeping_direct g :
  sameBookkeeping (λ m, with_directResourceDependents (g m) m).
Proof. intros m. repeat split; by try intros []. Qed.

Lemma sameBookkeeping_dependents g :
  sameBookkeeping (λ m, with_resourceDependents (g m) m).
Proof. intros m. repeat split; by try intros []. Qed.

Lemma Steps_addDependent k name d w : Steps p w (addDependent k name d w).
Proof.
  apply Steps_resources; [done|]. intros m. repeat split; by try intros [].
Qed.

Lemma Steps__addDependents self deps w :
  Steps p w (_addDependents self deps w).1.
Proof.
  revert w. induction deps as [|d deps IH]; intros w; simpl;
    [apply Steps_refl|].
  destruct (getResourcesManager _ _ _); [|apply Steps_refl].
  eapply Steps_trans; [apply Steps_addDependent|apply IH].
Qed.

Lemma Steps_setFromContext r ctx w : Steps p w (setFromContext r ctx w).1.
Proof.
  unfold setFromContext.
  destruct (heap w !! r) as [[[] status]|] eqn:E; try apply Steps_refl.
  destruct set; [apply Steps_refl|].
  match goal with
  | |- context [_addDependents ?s ?d ?w0] =>
      pose proof (Steps__addDependents s d w0) as Hadd;
      destruct (_addDependents s d w0) as [w1 [e|]]
  end; simpl in *;
    [|eapply Steps_trans; [|by apply Steps_log]];
    (eapply Steps_trans; [|apply Hadd]);
    (eapply Steps_trans;
       [|apply Steps_resources; [done|apply sameBookkeeping_direct]]);
    (eapply Steps_trans;
       [|apply Steps_resources; [done|apply sameBookkeeping_adapters]]);
    by eapply Steps_set.
Qed.

Lemma Steps_onError cl r e ctx w : Steps p w (onError cl r e ctx w).
Proof.
  destruct cl; simpl; try (by apply Steps_log); try apply Steps_refl.
  destruct shouldSkip; [by apply Steps_log|].
  eapply Steps_trans; [|apply Steps_setFromContext]. by apply Steps_log.
Qed.

Lemma Steps_settle r out ctx w : settles p r → Steps p w (settle r out ctx w).
Proof.
  intros Hr. unfold settle.
  destruct (heap w !! r) as [[cl [|failed]]|] eqn:E; try apply Steps_refl.
  destruct out as [|e].
  - eapply Steps_trans; [|apply Steps_onDone].
    eapply Steps_trans; [apply Steps_onComplete|]. by apply Steps_settled.
  - eapply Steps_trans; [|apply Steps_onDone].
    eapply Steps_trans; [|by apply Steps_settled]. apply Steps_onError.
Qed.

Lemma Steps_finalSetup oracle r k name ctx w :
  Steps p w (finalSetup oracle r k name ctx w).1.
Proof.
  unfold finalSetup.
  pose proof (Steps_setFromContext r ctx w) as Hs.
  destruct (setFromContext r ctx w) as [w1 [e|]]; simpl in *; [done|].
  unfold external.
  destruct (ext_error oracle _ _); simpl.
  - eapply Steps_trans; [apply Hs|]. by apply Steps_emit.
  - eapply Steps_trans; [apply Hs|].
    eapply Steps_trans; by apply Steps_emit.
Qed.

Lemma Steps__destroy oracle k name a w :
  Steps p w (_destroy oracle k name a w).1.
Proof.
  unfold _destroy. destruct a; simpl.
  - eapply Steps_trans; [|by apply Steps_emit].
    eapply Steps_trans;
      [|apply Steps_resources; [done|apply sameBookkeeping_adapters]].
    by apply Steps_log.
  - eapply Steps_trans;
      [|apply Steps_resources; [done|apply sameBookkeeping_adapters]].
    by apply Steps_log.
Qed.

Lemma Steps_finalCleanup oracle k name a w :
  Steps p w (finalCleanup oracle k name a w).1.
Proof.
  unfold finalCleanup.
  pose proof (Steps__destroy oracle k name a w) as Hd.
  destruct (_destroy oracle k name a w) as [w1 [|e]]; simpl in *; [|done].
  unfold external.
  destruct (ext_error oracle _ _); simpl.
  { eapply Steps_trans; [apply Hd|]. by apply Steps_emit. }
  destruct (ext_error oracle _ _); simpl.
  { eapply Steps_trans; [apply Hd|]. eapply Steps_trans; by apply Steps_emit. }
  eapply Steps_trans; [apply Hd|].
  eapply Steps_trans;
    [|apply Steps_resources; [done|]; intros m; repeat split;
      by try intros []].
  eapply Steps_trans; by apply Steps_emit.
Qed.
End Resources.
End External.
End StepsOf.

(** Calling a task body. *)
Lemma Steps_invokeAction_plain p oracle r a ctx w :
  (∀ e, isLog e → emits p e) → (∀ c, emits p (EXT c)) →
  (∀ t, a = Abort (Some t) → settles p t) →
  plainAction a →
  Steps p w (invokeAction oracle r a ctx w).1.1.
Proof.
  intros Hlog Hext Hab Hplain.
  destruct a as [[t|]|op k name options|op deps|k name options|k name
                |k name options|op [a|] options|k name a|c]; simpl;
    try apply Steps_refl; try done.
  - apply Steps_abort; eauto.
  - pose proof (Steps_invoke p Hlog op k name options w) as H.
    by destruct (invoke op k name options w) as [w' [r'|e]].
  - pose proof (Steps_depsTaskList p op deps w) as H.
    by destruct (depsTaskList op deps w) as [w' [r'|e]].
  - by apply Steps_emit.
  - apply Steps_new.
  - by apply Steps_emit.
  - by apply Steps_emit.
Qed.

Lemma Steps_invokeAction p oracle r a ctx w :
  (∀ e, isLog e → emits p e) → (∀ c, emits p (EXT c)) →
  (∀ t, a = Abort (Some t) → settles p t) → resources p = true →
  Steps p w (invokeAction oracle r a ctx w).1.1.
Proof.
  intros Hlog Hext Hab Hres.
  destruct a as [[t|]|op k name options|op deps|k name options|k name
                |k name options|op [a|] options|k name a|c];
    try (by apply Steps_invokeAction_plain).
  - by apply Steps_finalSetup.
  - by apply Steps_finalCleanup.
Qed.

(** ** What a sequence of steps preserves *)

Lemma Steps_heap_dom p w w' r :
  Steps p w w' → is_Some (heap w !! r) → is_Some (heap w' !! r).
Proof.
  induction 1; try done; try eauto.
  - unfold newTaskList. simpl. intros Hr.
    destruct (decide (r = nextRef w)) as [->|Hne];
      [rewrite lookup_insert_eq|rewrite lookup_insert_ne]; eauto.
  - unfold setStatus, updHeap, emit. simpl. intros Hr.
    rewrite lookup_alter. case_decide; [subst|done].
    destruct Hr as [x ->]. by eexists.
  - unfold updHeap. simpl. intros Hr.
    destruct (decide (r = r0)) as [->|Hne];
      [rewrite lookup_insert_eq|rewrite lookup_insert_ne]; eauto.
Qed.

Lemma Steps_Frame {X : Type} (proj : Manager → X) p w w' :
  (∀ op v m, proj (with_taskLists op v m) = proj m) →
  (∀ v m, proj (with_resourceAdaptersStarted v m) = proj m) →
  (resources p = true → ∀ f, sameBookkeeping f → ∀ m, proj (f m) = proj m) →
  Steps p w w' → Frame proj w w'.
Proof.
  intros Htl Hst Hres. induction 1; try done.
  - by eapply Frame_trans.
  - by apply Frame_setTaskList.
  - by apply Frame_deleteTaskList.
  - by apply Frame_setStarted.
  - apply Frame_updManager. by apply Hres.
Qed.

(** The resource types, and with them the set of managers, never
    change. *)
Lemma Steps_static p w w' : Steps p w w' → Frame resourceType w w'.
Proof.
  apply Steps_Frame.
  - by intros [].
  - done.
  - intros _ f Hf m. apply Hf.
Qed.

(** The log only grows, and a task list that was pending either still
    is or its settling was logged. *)
Lemma Steps_trace p w w' :
  Steps p w w' →
  ∃ delta, trace w' = trace w ++ delta ∧
    Forall (λ e, emits p e ∨ ∃ r failed, e = DONE r failed ∧ settles p r)
      delta ∧
    ∀ r, pendingIn w r → pendingIn w' r ∨ ∃ failed, DONE r failed ∈ delta.
Proof.
  induction 1 as [w|w1 w2 w3 H12 IH12 H23 IH23|e w He|cl w|r w
                 |op k name r cl w|op k name w|k name b w|r failed w Hr
                 |k f w|r k name options ss ra soc st set status w Hres Hr].
  - exists []. rewrite app_nil_r. split; [done|]. split; [done|]. by left.
  - destruct IH12 as (d1 & E1 & F1 & P1), IH23 as (d2 & E2 & F2 & P2).
    exists (d1 ++ d2). rewrite E2, E1, app_assoc. split; [done|].
    split; [by apply Forall_app|].
    intros r Hr. destruct (P1 r Hr) as [Hp|[f Hf]].
    + destruct (P2 r Hp) as [?|[f Hf]]; [by left|].
      right. exists f. rewrite elem_of_app. by right.
    + right. exists f. rewrite elem_of_app. by left.
  - exists [e]. split; [done|]. split; [apply Forall_singleton; by left|].
    by left.
  - exists []. rewrite app_nil_r. split; [done|]. split; [done|].
    intros r [cl' Hr]. left. unfold pendingIn, newTaskList. simpl.
    destruct (decide (r = nextRef w)) as [->|Hne];
      [rewrite lookup_insert_eq|rewrite lookup_insert_ne]; eauto.
  - exists []. rewrite app_nil_r. split; [done|]. split; [done|]. by left.
  - exists []. rewrite app_nil_r. split; [done|]. split; [done|]. by left.
  - exists []. rewrite app_nil_r. split; [done|]. split; [done|]. by left.
  - exists []. rewrite app_nil_r. split; [done|]. split; [done|]. by left.
  - exists [DONE r failed]. split; [done|].
    split; [apply Forall_singleton; right; eauto|].
    intros r' [cl' Hr']. destruct (decide (r' = r)) as [->|Hne].
    + right. exists failed. by left.
    + left. exists cl'. unfold setStatus, updHeap, emit. simpl.
      by rewrite lookup_alter_ne.
  - exists []. rewrite app_nil_r. split; [done|]. split; [done|]. by left.
  - exists []. rewrite app_nil_r. split; [done|]. split; [done|].
    intros r' [cl' Hr']. left. unfold pendingIn, updHeap. simpl.
    destruct (decide (r' = r)) as [Heq|Hne].
    + subst r'. rewrite lookup_insert_eq.
      assert (E : Some {| tl_closure := CreateTL k name options ss ra soc st set;
                          tl_status := status |}
                  = Some {| tl_closure := cl'; tl_status := Pending |})
        by (etrans; [symmetry; exact Hr|exact Hr']).
      injection E as _ ->. eauto.
    + rewrite lookup_insert_ne by done. eauto.
Qed.

(** ** What the calls return *)

Lemma trace_emit e w : trace (emit e w) = trace w ++ [e].
Proof. done. Qed.

Lemma trace_setStatus r s w : trace (setStatus r s w) = trace w.
Proof. done. Qed.

Lemma heap_setTaskList op k name r w :
  heap (setTaskList op k name r w) = heap w.
Proof. done. Qed.

Lemma invoke_returns op k name options w w' r :
  invoke op k name options w = (w', Returns r) →
  r = nextRef w ∧ nextRef w' = S (nextRef w) ∧
  trace w' = trace w ++ [RESOURCES_MANAGER op k name] ∧
  background w' = background w ∧
  ∃ cl, heap w' = <[r := {| tl_closure := cl; tl_status := Pending |}]> (heap w)
        ∧ builtBy cl = Some (op, k, name).
Proof.
  destruct (managers w !! k) as [m|] eqn:Hm;
    [|by destruct op; simpl; unfold create, delete_, start, stop, noManager;
         rewrite Hm].
  destruct op; simpl.
  - rewrite (create_eq _ _ _ _ _ Hm). cbv zeta.
    destruct (bool_decide _); intros [= <- <-]; repeat split; by eexists.
  - rewrite (delete_eq _ _ _ _ _ Hm). cbv zeta.
    destruct (bool_decide _); intros [= <- <-]; repeat split; by eexists.
  - destruct (crud_start (getCRUD (resourceType m))) as [s|] eqn:Hs;
      [|edestruct (start_throws k name options w m) as [e ->]; eauto; done].
    destruct (crud_stop (getCRUD (resourceType m))) as [t|] eqn:Ht;
      [|edestruct (start_throws k name options w m) as [e ->]; eauto; done].
    rewrite (start_eq _ _ _ _ _ _ _ Hm Hs Ht). cbv zeta.
    destruct (_getStartDeps _ _); [|done].
    destruct (bool_decide _); intros [= <- <-]; repeat split; by eexists.
  - destruct (crud_start (getCRUD (resourceType m))) as [s|] eqn:Hs;
      [|edestruct (stop_throws k name options w m) as [e ->]; eauto; done].
    destruct (crud_stop (getCRUD (resourceType m))) as [t|] eqn:Ht;
      [|edestruct (stop_throws k name options w m) as [e ->]; eauto; done].
    rewrite (stop_eq _ _ _ _ _ _ _ Hm Hs Ht). cbv zeta.
    destruct (_getStopDeps _ (_resourceDependents m !! name)); [|done].
    destruct (_getStopDeps _ (_directResourceDependents m !! name)); [|done].
    destruct (bool_decide _); intros [= <- <-]; repeat split; by eexists.
Qed.

Lemma depsTaskList_returns op deps w w' r :
  depsTaskList op deps w = (w', Returns r) →
  r = nextRef w ∧ trace w' = trace w ∧
  ∃ targets, depTargets op w deps = Returns targets ∧
    heap w' = <[r := {| tl_closure := DepsTL op targets;
                        tl_status := Pending |}]> (heap w).
Proof.
  rewrite depsTaskList_eq. destruct (depTargets op w deps); [|done].
  intros [= <- <-]. eauto.
Qed.

(** A task body that returns a task list: which one, and where from. *)
Lemma invokeAction_nested oracle r a ctx w r' :
  (invokeAction oracle r a ctx w).2 = inr r' →
  (invokeAction oracle r a ctx w).1.2 = ctx ∧
  ((∃ op k name options,
      a = Call op k name options ∧
      invoke op k name options w
        = ((invokeAction oracle r a ctx w).1.1, Returns r')) ∨
   (∃ op deps,
      a = Deps op deps ∧
      depsTaskList op deps w
        = ((invokeAction oracle r a ctx w).1.1, Returns r')) ∨
   (∃ k name options hooks,
      a = Hooks k name options ∧ r' = nextRef w ∧
      (invokeAction oracle r a ctx w).1.1
        = (newTaskList (HooksTL k name options hooks) w).1)).
Proof.
  destruct a as [[t|]|op k name options|op deps|k name options|k name
                |k name options|op [a|] options|k name a|c]; simpl;
    try done.
  - destruct (invoke op k name options w) as [w1 [r1|e]] eqn:E; simpl;
      [|done].
    intros [= ->]. split; [done|]. left. eauto 10.
  - destruct (depsTaskList op deps w) as [w1 [r1|e]] eqn:E; simpl; [|done].
    intros [= ->]. split; [done|]. right. left. eauto 10.
  - intros [= <-]. split; [done|]. right. right.
    eexists _, _, _, _. split; [done|]. split; done.
Qed.

Lemma invokeAction_nested_heap oracle r a ctx w r' :
  (invokeAction oracle r a ctx w).2 = inr r' →
  is_Some (heap (invokeAction oracle r a ctx w).1.1 !! r').
Proof.
  intros H. destruct (invokeAction_nested _ _ _ _ _ _ H)
    as (_ & [(op&k&name&options&->&E)|[(op&deps&->&E)|(k&name&options&hooks&->&->&E)]]).
  - destruct (invoke_returns _ _ _ _ _ _ _ E) as (_&_&_&_&cl&->&_).
    by rewrite lookup_insert_eq.
  - destruct (depsTaskList_returns _ _ _ _ _ E) as (_&_&t&_&->).
    by rewrite lookup_insert_eq.
  - rewrite E. unfold newTaskList. simpl. by rewrite lookup_insert_eq.
Qed.

(** ** Every run is a sequence of steps *)

Lemma runs_True w r : runs (λ _, True) w r ↔ is_Some (heap w !! r).
Proof.
  unfold runs, closureOf. destruct (heap w !! r) as [t|]; simpl.
  - split; [by eauto|]. intros _. by exists (tl_closure t).
  - split; [by intros (? & ? & _)|by intros [? ?]].
Qed.

Section AnyRun.
Variable oracle : Oracle.

Local Abbreviation good :=
  (good (λ _, True) (Steps anything) (λ _, True)).

Lemma anything_invoke r a ctx w :
  True → True →
  True ∧ Steps anything w (invokeAction oracle r a ctx w).1.1 ∧
  ∀ r', (invokeAction oracle r a ctx w).2 = inr r' →
        runs (λ _, True) (invokeAction oracle r a ctx w).1.1 r'.
Proof.
  intros _ _. split; [done|]. split.
  - by apply Steps_invokeAction.
  - intros r' H. apply runs_True. by apply invokeAction_nested_heap in H.
Qed.

Lemma anything_stable w w' r :
  Steps anything w w' → runs (λ _, True) w r → runs (λ _, True) w' r.
Proof. rewrite !runs_True. apply Steps_heap_dom. Qed.

Lemma run_Steps fuel : good (run oracle fuel).
Proof.
  apply (run_inv oracle (λ _, True) (Steps anything) (λ _, True) (λ _, True)).
  - intros. apply Steps_refl.
  - apply Steps_trans.
  - done.
  - apply anything_stable.
  - apply anything_invoke.
  - intros. split; [done|]. by apply Steps_settle.
  - intros. split; [done|]. by apply Steps_abort.
Qed.

Lemma runSequential_Steps fuel r tasks ctx w w' ctx' out :
  runSequential oracle (run oracle fuel) r tasks ctx w = Some (w', ctx', out) →
  Steps anything w w'.
Proof.
  intros H.
  eapply (runSequential_inv oracle (λ _, True) (Steps anything) (λ _, True)
            (λ _, True)); eauto using Steps_refl, Steps_trans, run_Steps.
  apply anything_invoke.
Qed.

Lemma runConcurrent_Steps fuel r tasks ctx w w' ctx' out :
  runConcurrent oracle (run oracle fuel) r tasks ctx w = Some (w', ctx', out) →
  Steps anything w w'.
Proof.
  intros H.
  eapply (runConcurrent_inv oracle (λ _, True) (Steps anything) (λ _, True)
            (λ _, True));
    eauto using Steps_refl, Steps_trans, run_Steps, anything_stable.
  - apply anything_invoke.
  - intros. split; [done|]. by apply Steps_abort.
Qed.

(** A task list that is pending when its run begins has settled when the
    run ends, and the log says so. *)
Lemma run_settles fuel w r ctx w' ctx' out :
  pendingIn w r →
  run oracle fuel w r ctx = Some (w', ctx', out) →
  Steps anything w w' ∧
  ∃ delta failed, trace w' = trace w ++ delta ∧ DONE r failed ∈ delta.
Proof.
  intros Hp Hrun.
  assert (Hsteps : Steps anything w w').
  { eapply run_Steps; eauto. apply runs_True. destruct Hp as [cl ->]. eauto. }
  split; [done|].
  destruct fuel as [|n]; [done|]. simpl in Hrun.
  destruct (runBody oracle (run oracle n) r ctx w)
    as [[[w1 ctx1] out1]|] eqn:E; [|done].
  injection Hrun as <- <- <-.
  unfold runBody in E. destruct Hp as [cl Hcl]. rewrite Hcl in E.
  assert (Htasks : ∃ w2 ctx2,
            Steps anything w w2 ∧ w1 = settle r out1 ctx2 w2).
  { destruct (concurrent cl).
    - destruct (runConcurrent _ _ _ _ _ _) as [[[w2 ctx2] out2]|] eqn:E2;
        [|done].
      injection E as <- <- <-. eauto using runConcurrent_Steps.
    - destruct (runSequential _ _ _ _ _ _) as [[[w2 ctx2] out2]|] eqn:E2;
        [|done].
      injection E as <- <- <-. eauto using runSequential_Steps. }
  destruct Htasks as (w2 & ctx2 & H2 & ->).
  destruct (Steps_trace _ _ _ H2) as (d1 & E1 & _ & P1).
  destruct (Steps_trace anything w2 (settle r out1 ctx2 w2))
    as (d2 & E2 & _ & _); [by apply Steps_settle|].
  destruct (P1 r) as [[cl2 Hcl2]|[f Hf]]; [by exists cl| |].
  - (* still pending when the tasks are through: [settle] logs it *)
    unfold settle. rewrite Hcl2. destruct out1 as [|e].
    + destruct (Steps_trace anything w2 (onComplete cl2 w2))
        as (dx & Ex & _); [by apply Steps_onComplete|].
      match goal with
      | |- context [onDone cl2 false ?w3] =>
          destruct (Steps_trace anything w3 (onDone cl2 false w3))
            as (d3 & E3 & _); [by apply Steps_onDone|]
      end.
      exists (d1 ++ dx ++ [DONE r false] ++ d3), false.
      rewrite E3, trace_emit, trace_setStatus, Ex, E1.
      split; [by rewrite <- !app_assoc|].
      rewrite !elem_of_app. right. right. left. by left.
    + destruct (Steps_trace anything w2 (onError cl2 r e ctx2 w2))
        as (dx & Ex & _); [by apply Steps_onError|].
      match goal with
      | |- context [onDone cl2 true ?w3] =>
          destruct (Steps_trace anything w3 (onDone cl2 true w3))
            as (d3 & E3 & _); [by apply Steps_onDone|]
      end.
      exists (d1 ++ dx ++ [DONE r true] ++ d3), true.
      rewrite E3, trace_emit, trace_setStatus, Ex, E1.
      split; [by rewrite <- !app_assoc|].
      rewrite !elem_of_app. right. right. left. by left.
  - exists (d1 ++ d2), f. rewrite E2, E1, app_assoc. split; [done|].
    rewrite elem_of_app. by left.
Qed.
End AnyRun.

(** ** C4: the order in which [start] starts the created resources *)

Lemma start_throws_world k name options w m w' e :
  managers w !! k = Some m →
  start k name options w = (w', Throws e) →
  w' = emit (RESOURCES_MANAGER Start k name) w.
Proof.
  intros Hm.
  destruct (crud_start (getCRUD (resourceType m))) as [s|] eqn:Hs;
    [|edestruct (start_throws k name options w m) as [e' ->]; eauto;
      by intros [= <- _]].
  destruct (crud_stop (getCRUD (resourceType m))) as [t|] eqn:Ht;
    [|edestruct (start_throws k name options w m) as [e' ->]; eauto;
      by intros [= <- _]].
  rewrite (start_eq _ _ _ _ _ _ _ Hm Hs Ht). cbv zeta.
  destruct (_getStartDeps _ _); [done|]. by intros [= <- _].
Qed.

Lemma Frame_manager_exists w w' k m :
  Frame resourceType w w' → managers w !! k = Some m →
  ∃ m', managers w' !! k = Some m' ∧ resourceType m' = resourceType m.
Proof.
  intros H Hm. specialize (H k). rewrite Hm in H.
  destruct (managers w' !! k) as [m'|]; simpl in H; [|done].
  exists m'. split; [done|]. by injection H.
Qed.

Lemma logSince_app w w' delta :
  trace w' = trace w ++ delta → logSince w w' = delta.
Proof. intros E. unfold logSince. by rewrite E, drop_app_length. Qed.

Lemma logSince_Steps p w1 w2 w3 :
  Steps p w1 w2 → Steps p w2 w3 →
  logSince w1 w3 = logSince w1 w2 ++ logSince w2 w3.
Proof.
  intros H12 H23.
  destruct (Steps_trace _ _ _ H12) as (d1 & E1 & _).
  destruct (Steps_trace _ _ _ H23) as (d2 & E2 & _).
  rewrite (logSince_app _ _ _ E1), (logSince_app _ _ _ E2).
  apply logSince_app. by rewrite E2, E1, app_assoc.
Qed.

Lemma startedInOrder_length rec ctx deps w calls w' out :
  startedInOrder rec ctx deps w calls w' out →
  (length calls ≤ length deps)%nat ∧
  (out = Completed → length calls = length deps).
Proof.
  induction 1 as [| | |ctx d deps w w1 r w2 ctx2 calls w3 out _ _ _ [IH1 IH2]];
    simpl; try (split; [lia|done]).
  split; [lia|]. intros Ho. by rewrite IH2.
Qed.

(** The tasks of the list [_startDeps] builds, run one after the other:
    the created resources are started in order; the log of each call
    begins with the call of [start] on the dependent's manager and, when
    the call returned a task list, contains the settling of that very
    list. *)
Lemma startDeps_in_order oracle n rd w0 deps :
  (∀ d, d ∈ deps → supportsStart w0 d = true) →
  ∀ ctx w w' ctx' out,
    Frame resourceType w0 w →
    runSequential oracle (run oracle n) rd
      (tasksOf (DepsTL Start
         (map (λ d, ((dep_plugin d, dep_resourceType d), dep_name d)) deps)))
      ctx w = Some (w', ctx', out) →
    Steps anything w w' ∧
    ∃ calls : list (option TaskListRef * list Event),
      startedInOrder (run oracle n) ctx deps w calls w' out ∧
      trace w' = trace w ++ concat calls.*2 ∧
      ∀ i d call,
        deps !! i = Some d → calls !! i = Some call →
        ∃ rest,
          call.2 = RESOURCES_MANAGER Start (dep_plugin d, dep_resourceType d)
                     (dep_name d) :: rest ∧
          ∀ r', call.1 = Some r' → ∃ failed, DONE r' failed ∈ rest.
Proof.
  induction deps as [|d deps IH]; intros Hall ctx w w' ctx' out Hw.
  - simpl. intros [= <- <- <-]. split; [apply Steps_refl|].
    exists []. simpl. rewrite app_nil_r.
    split; [constructor|]. split; [done|].
    intros i d call Hi. by rewrite lookup_nil in Hi.
  - assert (Hall' : ∀ d', d' ∈ deps → supportsStart w0 d' = true).
    { intros d' Hd'. apply Hall. by right. }
    assert (∃ m0, managers w0 !! (dep_plugin d, dep_resourceType d) = Some m0)
      as [m0 Hm0].
    { specialize (Hall d ltac:(by left)).
      unfold supportsStart, getResourcesManager in Hall.
      destruct (managers w0 !! _); [eauto|done]. }
    destruct (Frame_manager_exists _ _ _ _ Hw Hm0) as (m & Hm & _).
    set (kd := (dep_plugin d, dep_resourceType d)) in *.
    change (tasksOf (DepsTL Start
              (map (λ d, ((dep_plugin d, dep_resourceType d), dep_name d))
                 (d :: deps)))) with
      ({| enabled := always; skip := None;
          task := Call Start kd (dep_name d) emptyOptions |}
         :: tasksOf (DepsTL Start
              (map (λ d, ((dep_plugin d, dep_resourceType d), dep_name d))
                 deps))).
    simpl. unfold runAction. simpl.
    destruct (start kd (dep_name d) emptyOptions w) as [w1 [r'|e]] eqn:Estart.
    + (* [start] returned a task list, which runs *)
      destruct (invoke_returns Start _ _ _ _ _ _ Estart)
        as (Hr' & _ & Etr1 & _ & cl & Hheap & _).
      assert (Hp : pendingIn w1 r').
      { exists cl. by rewrite Hheap, lookup_insert_eq. }
      destruct (run oracle n w1 r' ctx) as [[[w2 ctx2] out2]|]
        eqn:Erun; [|done].
      destruct (run_settles _ _ _ _ _ _ _ _ Hp Erun)
        as (Hsteps & delta & f & Etr2 & Hdone).
      assert (Hs1 : Steps anything w w1).
      { pose proof (Steps_start anything (λ _ _, I) kd (dep_name d)
                      emptyOptions w).
        by rewrite Estart in *. }
      assert (Hlog : logSince w w2
                     = RESOURCES_MANAGER Start kd (dep_name d) :: delta).
      { apply logSince_app. rewrite Etr2, Etr1. by rewrite <- app_assoc. }
      destruct out2 as [|e].
      * intros Hrest.
        destruct (IH Hall' ctx2 w2 w' ctx' out)
          as (Hs3 & calls & Hord & E & Hcalls); [|done|].
        { eapply Frame_trans; [apply Hw|].
          eapply Frame_trans; eapply (Steps_static anything); eauto. }
        split; [eauto using Steps_trans|].
        exists ((Some r', logSince w w2) :: calls).
        split; [|split].
        -- eapply started_next; eauto.
        -- rewrite E, Hlog, Etr2, Etr1. simpl. by rewrite <- !app_assoc.
        -- intros [|i] d' call; simpl.
           ++ intros [= <-] [= <-]. simpl. exists delta. split; [done|].
              intros ? [= <-]. eauto.
           ++ apply Hcalls.
      * intros [= <- <- <-]. split; [eauto using Steps_trans|].
        exists [(Some r', logSince w w2)].
        split; [|split].
        -- eapply started_failed; eauto.
        -- rewrite Hlog, Etr2, Etr1. simpl.
           by rewrite app_nil_r, <- app_assoc.
        -- intros [|i] d' call; simpl; [|by rewrite lookup_nil].
           intros [= <-] [= <-]. simpl. exists delta. split; [done|].
           intros ? [= <-]. eauto.
    + (* [start] threw *)
      pose proof (start_throws_world _ _ _ _ _ _ _ Hm Estart) as Hw1.
      intros [= <- <- <-].
      split; [rewrite Hw1; by apply Steps_emit|].
      exists [(None, logSince w w1)].
      assert (Hlog : logSince w w1 = [RESOURCES_MANAGER Start kd (dep_name d)]).
      { apply logSince_app. by rewrite Hw1. }
      split; [|split].
      * by eapply started_threw.
      * rewrite Hlog. simpl. by rewrite Hw1.
      * intros [|i] d' call; simpl; [|by rewrite lookup_nil].
        intros [= <-] [= <-]. simpl. exists []. by split.
Qed.

Lemma isSome_bool_decide {A : Type} (o : option A) :
  bool_decide (is_Some o) = isSome o.
Proof. by destruct o. Qed.

(** [_getStartDeps] keeps, in their order, the dependencies whose
    resource type defines [start]. *)
Lemma _getStartDeps_Returns w deps l :
  _getStartDeps w deps = Returns l →
  l = filter (λ d, supportsStart w d = true) (default [] deps) ∧
  ∀ d, d ∈ l → supportsStart w d = true.
Proof.
  unfold _getStartDeps. generalize (default [] deps). clear deps.
  intros deps. revert l. induction deps as [|d deps IH]; intros l; simpl.
  - intros [= <-]. split; [done|]. by intros d ?%elem_of_nil.
  - destruct (getResourcesManager w (dep_plugin d) (dep_resourceType d))
      as [m|] eqn:Hm; [|done].
    destruct (filterDeps _ w deps) as [l'|] eqn:E; [|done].
    destruct (IH l' eq_refl) as [-> Hall].
    assert (Hd : supportsStart w d
                 = bool_decide (is_Some (crud_start (getCRUD (resourceType m))))).
    { unfold supportsStart. by rewrite Hm, isSome_bool_decide. }
    intros [= <-]. rewrite filter_cons. rewrite <- Hd.
    destruct (supportsStart w d) eqn:Hs.
    + rewrite decide_True by done. split; [done|].
      intros d' [->|?]%elem_of_cons; auto.
    + rewrite decide_False by done. split; [done|]. auto.
Qed.

Lemma depTargets_Start w deps :
  (∀ d, d ∈ deps → supportsStart w d = true) →
  depTargets Start w deps =
    Returns (map (λ d, ((dep_plugin d, dep_resourceType d), dep_name d)) deps).
Proof.
  induction deps as [|d deps IH]; intros Hall; simpl; [done|].
  pose proof (Hall d ltac:(by left)) as Hd. unfold supportsStart in Hd.
  destruct (getResourcesManager w (dep_plugin d) (dep_resourceType d));
    [|done].
  simpl. rewrite Hd. rewrite IH; [done|]. intros d' ?. apply Hall. by right.
Qed.

Lemma supportsStart_Frame w w' d :
  Frame resourceType w w' → supportsStart w' d = supportsStart w d.
Proof.
  intros H. unfold supportsStart, getResourcesManager.
  specialize (H (dep_plugin d, dep_resourceType d)).
  destruct (managers w !! _), (managers w' !! _); simpl in *; try done.
  by injection H as ->.
Qed.

(** Settling and aborting a task list call no collaborator. *)
Lemma quiet_no_EXT w w' :
  Steps quiet w w' →
  ∃ delta, trace w' = trace w ++ delta ∧ ∀ c, EXT c ∉ delta.
Proof.
  intros (delta & E & Hall & _)%Steps_trace.
  exists delta. split; [done|]. intros c Hc.
  rewrite Forall_forall in Hall.
  destruct (Hall _ Hc) as [[]|(? & ? & [=] & _)].
Qed.

Lemma quiet_settle r out ctx w :
  ∃ delta, trace (settle r out ctx w) = trace w ++ delta ∧ ∀ c, EXT c ∉ delta.
Proof. apply quiet_no_EXT. by apply Steps_settle. Qed.

Lemma quiet_abort r w :
  ∃ delta, trace (abort r w) = trace w ++ delta ∧ ∀ c, EXT c ∉ delta.
Proof. apply quiet_no_EXT. by apply Steps_abort. Qed.

Lemma runSequential_omit oracle rec r t rest ctx w :
  enabled t w = false →
  runSequential oracle rec r (t :: rest) ctx w
    = runSequential oracle rec r rest ctx w.
Proof. intros H. simpl. by rewrite H. Qed.

Lemma runSequential_run oracle rec r t rest ctx w :
  enabled t w = true → skip t = None →
  runSequential oracle rec r (t :: rest) ctx w =
    match runAction oracle rec r (task t) ctx w with
    | None => None
    | Some (w, ctx, Completed) => runSequential oracle rec r rest ctx w
    | Some (w, ctx, Failed e) => Some (w, ctx, Failed e)
    end.
Proof. intros H1 H2. simpl. by rewrite H1, H2. Qed.

(** The first task of a start that is not a re-entry: a pending stop is
    aborted. *)
Lemma start_phase_abort oracle rec r stopTaskList rest ctx w res :
  runSequential oracle rec r
    ({| enabled := λ _, isSome stopTaskList; skip := silently false;
        task := Abort stopTaskList |} :: rest) ctx w = Some res →
  ∃ w' pre,
    Steps anything w w' ∧ trace w' = trace w ++ pre ∧ (∀ c, EXT c ∉ pre) ∧
    runSequential oracle rec r rest ctx w' = Some res.
Proof.
  destruct stopTaskList as [t|].
  - rewrite runSequential_run by done. unfold runAction. simpl.
    intros Hrest. destruct (quiet_abort t w) as (pre & E & Hpre).
    exists (abort t w), pre. repeat split; try done. by apply Steps_abort.
  - rewrite runSequential_omit by done. intros Hrest.
    exists w, []. rewrite app_nil_r. repeat split; try done.
    + apply Steps_refl.
    + by intros c ?%elem_of_nil.
Qed.

(** The second task: the created resources are started one after the
    other, and then the list [_startDeps] built settles. *)
Lemma start_phase_deps oracle fuel r w0 deps rest ctx w res :
  Frame resourceType w0 w →
  (∀ d, d ∈ deps → supportsStart w0 d = true) →
  runSequential oracle (run oracle fuel) r
    ({| enabled := nonEmpty deps; skip := None;
        task := Deps Start deps |} :: rest) ctx w = Some res →
  ∃ (wa : World) (calls : list (option TaskListRef * list Event))
    (wd : World) (closing : list Event) (w' : World) (outd : Outcome),
    trace wa = trace w ∧
    startedInOrder (run oracle (pred fuel)) ctx deps wa calls wd outd ∧
    trace wd = trace wa ++ concat calls.*2 ∧
    (∀ i d call,
       deps !! i = Some d → calls !! i = Some call →
       ∃ rest',
         call.2 = RESOURCES_MANAGER Start (dep_plugin d, dep_resourceType d)
                    (dep_name d) :: rest' ∧
         ∀ r', call.1 = Some r' → ∃ failed, DONE r' failed ∈ rest') ∧
    trace w' = trace wd ++ closing ∧
    (∀ c, EXT c ∉ closing) ∧
    match outd with
    | Completed =>
        ∃ ctx', runSequential oracle (run oracle fuel) r rest ctx' w'
                  = Some res
    | Failed e => ∃ ctx', res = (w', ctx', Failed e)
    end.
Proof.
  intros Hw Hsupp.
  destruct (nonEmpty deps w) eqn:Hne; cycle 1.
  { rewrite runSequential_omit by done. intros Hrest.
    assert (deps = []) as ->.
    { unfold nonEmpty in Hne. apply bool_decide_eq_false_1 in Hne.
      destruct deps; [done|]. simpl in Hne. lia. }
    exists w, [], w, [], w, Completed. simpl.
    split; [done|]. split; [constructor|]. split; [by rewrite app_nil_r|].
    split; [intros i d call Hi; by rewrite lookup_nil in Hi|].
    split; [by rewrite app_nil_r|].
    split; [by intros c ?%elem_of_nil|]. eauto. }
  rewrite runSequential_run by done.
  unfold runAction. simpl. rewrite depsTaskList_eq.
  rewrite depTargets_Start; cycle 1.
  { intros d Hd. rewrite (supportsStart_Frame w0) by done. by apply Hsupp. }
  set (targets :=
         map (λ d, ((dep_plugin d, dep_resourceType d), dep_name d)) deps).
  set (wb := (newTaskList (DepsTL Start targets) w).1).
  destruct fuel as [|n]; [done|]. simpl.
  unfold runBody.
  assert (Hheap : heap wb !! nextRef w
            = Some {| tl_closure := DepsTL Start targets;
                      tl_status := Pending |}).
  { unfold wb, newTaskList. simpl. by rewrite lookup_insert_eq. }
  match goal with
  | |- context [@lookup ?K ?V ?M ?I ?key (heap wb)] =>
      replace (@lookup K V M I key (heap wb)) with
        (Some {| tl_closure := DepsTL Start targets; tl_status := Pending |})
        by (symmetry; exact Hheap)
  end.
  change (concurrent (DepsTL Start targets)) with false.
  change (freshContext (DepsTL Start targets)) with false. cbv iota.
  destruct (runSequential oracle (run oracle n) (nextRef w)
              (tasksOf (DepsTL Start targets)) ctx wb)
    as [[[wc ctxc] outd]|] eqn:Eseq; [|done].
  destruct (startDeps_in_order oracle n (nextRef w) w0 deps Hsupp ctx wb wc
              ctxc outd) as (_ & calls & Hord & Etr & Hcalls); [|done|].
  { eapply Frame_trans; [apply Hw|].
    apply (Frame_newTaskList resourceType (DepsTL Start targets) w). }
  destruct (quiet_settle (nextRef w) outd ctxc wc) as (dS & ES & HdS).
  destruct outd as [|e].
  - intros Hrest.
    exists wb, calls, wc, dS, (settle (nextRef w) Completed ctxc wc),
      Completed.
    do 6 (split; [done|]). eexists. exact Hrest.
  - intros [= <-].
    exists wb, calls, wc, dS, (settle (nextRef w) (Failed e) ctxc wc),
      (Failed e).
    do 6 (split; [done|]). by eexists.
Qed.

(** What [skip()] of 'Start created resources' returns when no start is
    in flight and the adapter exists: [false] for a started flag that is
    [false], [undefined] for a flag that was never set, [true] for a
    flag that is [true]. *)
Lemma startDepsSkip_values a :
  startDepsSkip false (Some a) (Some false) = SkipFalse ∧
  startDepsSkip false (Some a) None = SkipUndefined ∧
  startDepsSkip false (Some a) (Some true) = SkipTrue.
Proof. done. Qed.

(** C4. [start] of a resource that exists, is not started and has no
    start in flight, when the run-time does not read what [skip()] of
    'Start created resources' returned as a skip (with the started flag
    [false] it returns [false]; with a flag never set it returns
    [undefined], which the task lists of section 4.1 do not take for a
    skip).  Let [deps] be the created resources whose type defines
    [start], in the stored order.  The log of the run is [pre], then the
    logs of the calls, then [post].  [pre] is what aborting a pending
    stop logs and calls no collaborator.  The calls are those of
    [startedInOrder]: [start] is called on the manager of the first of
    [deps] and the task list it returned runs until it has settled,
    and only then, and only when it completed, [start] of the next one
    is called, from the world that run left; the log of a call begins
    with the call and contains the settling of the task list that this
    very call returned.  When every one of [deps] completed, there is
    one call for each of them, and [post] has [adapter.start(options)]
    of the resource itself as its only call of a collaborator; when one
    of them failed, nothing is started after it, the run fails with the
    same error, and [adapter.start] is not called. *)
Theorem start_starts_created_resources_in_order_then_adapter
    (oracle : Oracle) (fuel : nat) (k : ManagerKey) (name : string)
    (options : ResourceOptions) (w0 w1 w2 : World) (m : Manager)
    (a : ResourceAdapter) (r : TaskListRef) (ctx : Ctx) (out : Outcome) :
  managers w0 !! k = Some m →
  _startTaskList m !! name = None →
  adapterOf m name = Some a →
  startedOf m name = false →
  skipped (startDepsSkip false (Some a) (_resourceAdaptersStarted m !! name))
    = None →
  start k name options w0 = (w1, Returns r) →
  runTaskList oracle fuel r w1 = Some (w2, ctx, out) →
  ∃ (deps : list ResourceDependency) (pre : list Event)
    (calls : list (option TaskListRef * list Event)) (post : list Event)
    (wa wd : World) (outd : Outcome),
    deps = filter (λ d, supportsStart w0 d = true)
             (default [] (_directResourceDependents m !! name)) ∧
    trace w2 = trace w1 ++ pre ++ concat calls.*2 ++ post ∧
    (∀ c, EXT c ∉ pre) ∧
    trace wa = trace w1 ++ pre ∧
    startedInOrder (run oracle (pred fuel)) freshCtx deps wa calls wd outd ∧
    (∀ i d call,
       deps !! i = Some d → calls !! i = Some call →
       ∃ rest,
         call.2 = RESOURCES_MANAGER Start (dep_plugin d, dep_resourceType d)
                    (dep_name d) :: rest ∧
         ∀ r', call.1 = Some r' → ∃ failed, DONE r' failed ∈ rest) ∧
    match outd with
    | Completed =>
        length calls = length deps ∧
        ∃ closing rest,
          post = closing ++ EXT (AdapterStart a options) :: rest ∧
          (∀ c, EXT c ∉ closing) ∧ (∀ c, EXT c ∉ rest)
    | Failed e => out = Failed e ∧ ∀ c, EXT c ∉ post
    end.
Proof.
  intros Hm Hslot Ha Hstarted Hskip Hstart Hrun.
  (* the call *)
  assert (∃ s t, crud_start (getCRUD (resourceType m)) = Some s ∧
                 crud_stop (getCRUD (resourceType m)) = Some t)
    as (s & t & Hs & Ht).
  { destruct (crud_start (getCRUD (resourceType m))) eqn:Hs;
      [|edestruct (start_throws k name options w0 m) as [e He]; eauto;
        by rewrite He in Hstart].
    destruct (crud_stop (getCRUD (resourceType m))) eqn:Ht;
      [|edestruct (start_throws k name options w0 m) as [e He]; eauto;
        by rewrite He in Hstart].
    eauto. }
  pose proof (Steps_start anything (λ _ _, I) k name options w0) as Hsteps01.
  rewrite Hstart in Hsteps01. simpl in Hsteps01.
  rewrite (start_eq _ _ _ _ _ _ _ Hm Hs Ht) in Hstart. cbv zeta in Hstart.
  destruct (_getStartDeps _ _) as [deps|] eqn:Hdeps; [|done].
  rewrite Hslot, Ha in Hstart.
  rewrite bool_decide_eq_false_2 in Hstart by (by intros [? ?]).
  set (started := _resourceAdaptersStarted m !! name) in *.
  set (cl := StartTL k name options false (_stopTaskList m !! name) (Some a)
               started deps) in Hstart.
  assert (w1 = setTaskList Start k name (nextRef w0)
                 (newTaskList cl (emit (RESOURCES_MANAGER Start k name) w0)).1
          ∧ r = nextRef w0) as [Hw1 ->] by (by injection Hstart as <- <-).
  clear Hstart.
  apply _getStartDeps_Returns in Hdeps as [Hfilter Hsupp].
  assert (Hsame : ∀ d, supportsStart (emit (RESOURCES_MANAGER Start k name) w0) d
                       = supportsStart w0 d) by done.
  assert (Hsupp' : ∀ d, d ∈ deps → supportsStart w0 d = true).
  { intros d Hd. rewrite <- Hsame. by apply Hsupp. }
  exists deps.
  assert (Hheap : heap w1 !! nextRef w0
            = Some {| tl_closure := cl; tl_status := Pending |}).
  { rewrite Hw1. unfold newTaskList. simpl. by rewrite lookup_insert_eq. }
  (* the run *)
  unfold runTaskList, runBody in Hrun.
  match type of Hrun with
  | context [@lookup ?K ?V ?M ?I ?key (heap w1)] =>
      replace (@lookup K V M I key (heap w1)) with
        (Some {| tl_closure := cl; tl_status := Pending |}) in Hrun
        by (symmetry; exact Hheap)
  end.
  change (concurrent cl) with false in Hrun.
  change (freshContext cl) with true in Hrun. cbv iota in Hrun.
  change (tasksOf cl) with
    [ {| enabled := λ _, isSome (_stopTaskList m !! name);
         skip := silently false; task := Abort (_stopTaskList m !! name) |};
      {| enabled := nonEmpty deps;
         skip := skipped (startDepsSkip false (Some a) started);
         task := Deps Start deps |};
      {| enabled := always;
         skip := if default false started then Some AlreadyStarted else None;
         task := AdapterTask AStart (Some a) options |} ] in Hrun.
  unfold startedOf in Hstarted. fold started in Hstarted.
  rewrite Hskip, Hstarted in Hrun.
  destruct (runSequential _ _ _ _ _ _) as [[[w3 ctx3] out3]|] eqn:Eseq;
    [|done].
  injection Hrun as <- <- <-.
  destruct (quiet_settle (nextRef w0) out3 ctx3 w3) as (dS & ES & HdS).
  apply start_phase_abort in Eseq as (wp & pre & Hsa & Ea & Hpre & Eseq).
  apply (start_phase_deps oracle fuel (nextRef w0) w0) in Eseq
    as (wa & calls & wd & closing & we & outd & Ewa & Hord & Ewd & Hshape
        & Ewe & Hclosing & Hcont); [| |done].
  2: { eapply Frame_trans; [apply (Steps_static anything), Hsteps01|].
       by apply (Steps_static anything). }
  exists pre, calls.
  destruct outd as [|e].
  - (* every created resource was started: the adapter is called *)
    destruct Hcont as (ctx' & Hcont).
    rewrite runSequential_run in Hcont by done.
    unfold runAction in Hcont. simpl in Hcont.
    assert (Hw3 : w3 = emit (EXT (AdapterStart a options)) we).
    { destruct (ext_error oracle _ _); by injection Hcont as <- _ _. }
    exists (closing ++ EXT (AdapterStart a options) :: dS), wa, wd, Completed.
    split; [by rewrite Hfilter; f_equal|].
    split.
    { rewrite ES, Hw3, trace_emit, Ewe, Ewd, Ewa, Ea.
      rewrite <- !app_assoc. by rewrite (cons_middle _ closing dS). }
    split; [done|]. split; [by rewrite Ewa, Ea|]. split; [done|].
    split; [done|].
    split; [by apply (startedInOrder_length _ _ _ _ _ _ _ Hord)|].
    by exists closing, dS.
  - (* a created resource failed to start: the adapter is not called *)
    destruct Hcont as (ctx' & [= -> -> ->]).
    exists (closing ++ dS), wa, wd, (Failed e).
    split; [by rewrite Hfilter; f_equal|].
    split; [by rewrite ES, Ewe, Ewd, Ewa, Ea, <- !app_assoc|].
    split; [done|]. split; [by rewrite Ewa, Ea|]. split; [done|].
    split; [done|]. split; [done|].
    intros c. rewrite elem_of_app. intros [?|?];
      [by eapply Hclosing|by eapply HdS].
Qed.

Lemma start_starts_created_resources_in_order_then_adapter_witness :
  ∃ (deps : list ResourceDependency) (pre : list Event)
    (calls : list (option TaskListRef * list Event)) (post : list Event)
    (wa wd : World) (outd : Outcome),
    deps = filter (λ d, supportsStart Examples.database d = true)
             (default []
                (_directResourceDependents Examples.dbManager !! "db")) ∧
    trace Examples.dbStarted.1.1
      = trace Examples.dbStarting ++ pre ++ concat calls.*2 ++ post ∧
    (∀ c, EXT c ∉ pre) ∧
    trace wa = trace Examples.dbStarting ++ pre ∧
    startedInOrder (run Demo.happy (pred 6)) freshCtx deps wa calls wd outd ∧
    (∀ i d call,
       deps !! i = Some d → calls !! i = Some call →
       ∃ rest,
         call.2 = RESOURCES_MANAGER Start (dep_plugin d, dep_resourceType d)
                    (dep_name d) :: rest ∧
         ∀ r', call.1 = Some r' → ∃ failed, DONE r' failed ∈ rest) ∧
    match outd with
    | Completed =>
        length calls = length deps ∧
        ∃ closing rest,
          post = closing ++ EXT (AdapterStart 1 emptyOptions) :: rest ∧
          (∀ c, EXT c ∉ closing) ∧ (∀ c, EXT c ∉ rest)
    | Failed e => Examples.dbStarted.2 = Failed e ∧ ∀ c, EXT c ∉ post
    end.
Proof.
  apply (start_starts_created_resources_in_order_then_adapter Demo.happy 6
           Demo.node "db" emptyOptions Examples.database Examples.dbStarting
           Examples.dbStarted.1.1 Examples.dbManager 1 0
           Examples.dbStarted.1.2 Examples.dbStarted.2).
  - vm_compute. reflexivity.
  - vm_compute. reflexivity.
  - vm_compute. reflexivity.
  - vm_compute. reflexivity.
  - vm_compute. reflexivity.
  - vm_compute. reflexivity.
  - vm_compute. reflexivity.
Defined.

(** The log of that run: disk [d1], then disk [d2] (the wallet cannot be
    started and is left out), then the adapter of [db] itself. *)
Lemma start_of_db_log :
  drop (length (trace Examples.dbStarting)) (trace Examples.dbStarted.1.1)
    = [ RESOURCES_MANAGER Start Demo.disk "d1";
        EXT (AdapterStart 2 emptyOptions);
        RESOURCE_ADAPTER_COMPLETE Start Demo.disk "d1";
        DONE 2 false; UPDATE Demo.disk;
        RESOURCES_MANAGER Start Demo.disk "d2";
        EXT (AdapterStart 3 emptyOptions);
        RESOURCE_ADAPTER_COMPLETE Start Demo.disk "d2";
        DONE 3 false; UPDATE Demo.disk;
        DONE 1 false;
        EXT (AdapterStart 1 emptyOptions);
        RESOURCE_ADAPTER_COMPLETE Start Demo.node "db";
        DONE 0 false; UPDATE Demo.node ] ∧
  Examples.dbStarted.2 = Completed.
Proof. by vm_compute. Qed.

(** ** Well-formed worlds *)

Lemma closureOf_forgetSet_builtBy cl cl' :
  forgetSet cl' = forgetSet cl → builtBy cl' = builtBy cl.
Proof. destruct cl, cl'; simpl; try done; by intros [= -> -> -> -> -> -> ->]. Qed.

Lemma inFlight_updManager op k f w k' name :
  (∀ m, taskLists op (f m) = taskLists op m) →
  inFlight op (updManager k f w) k' name = inFlight op w k' name.
Proof.
  intros Hf. unfold inFlight. rewrite lookup_updManager.
  case_decide; [subst|done].
  destruct (managers w !! k'); simpl; [|done]. by rewrite Hf.
Qed.

(** Steps keep the heap well formed, never change which operation built
    a task list, and keep the in-flight maps typed. *)
Lemma Steps_wf p w w' :
  Steps p w w' → wfHeap w →
  wfHeap w' ∧ (nextRef w ≤ nextRef w')%nat ∧
  (∀ r cl, closureOf w r = Some cl →
           ∃ cl', closureOf w' r = Some cl' ∧ forgetSet cl' = forgetSet cl) ∧
  (slotsTyped w → slotsTyped w').
Proof.
  induction 1 as [w|w1 w2 w3 H12 IH12 H23 IH23|e w He|cl w|r w
                 |op k name r cl w Hcl Hby|op k name w|k name b w
                 |r failed w Hr|k f w Hres Hf
                 |r k name options ss ra soc st set status w Hres Hr];
    intros Hwf.
  - repeat split; eauto.
  - destruct (IH12 Hwf) as (Hwf2 & Hn2 & Hc2 & Hs2).
    destruct (IH23 Hwf2) as (Hwf3 & Hn3 & Hc3 & Hs3).
    split; [done|]. split; [lia|]. split; [|eauto].
    intros r cl Hcl. destruct (Hc2 r cl Hcl) as (cl2 & Hcl2 & E2).
    destruct (Hc3 r cl2 Hcl2) as (cl3 & Hcl3 & E3).
    exists cl3. split; [done|]. congruence.
  - repeat split; eauto.
  - assert (Hfresh : ∀ r, is_Some (heap w !! r) → r ≠ nextRef w).
    { intros r Hr%Hwf. lia. }
    split; [|split; [|split]].
    + intros r. unfold newTaskList. simpl.
      destruct (decide (r = nextRef w)) as [->|Hne].
      * intros _. lia.
      * rewrite lookup_insert_ne by done. intros Hr%Hwf. lia.
    + unfold newTaskList. simpl. lia.
    + intros r cl' Hcl'. exists cl'. split; [|done].
      unfold closureOf, newTaskList in *. simpl.
      rewrite lookup_insert_ne; [done|].
      intros Heq. apply (Hfresh r); [|done].
      destruct (heap w !! r); [eauto|done].
    + intros Hs op k name r Hin.
      destruct (Hs op k name r Hin) as (cl' & Hcl' & Hby).
      exists cl'. split; [|done].
      unfold closureOf, newTaskList in *. simpl.
      rewrite lookup_insert_ne; [done|].
      intros Heq. apply (Hfresh r); [|done].
      destruct (heap w !! r); [eauto|done].
  - repeat split; eauto.
  - split; [done|]. split; [done|]. split; [eauto|].
    intros Hs op' k' name' r'. unfold inFlight, setTaskList.
    rewrite lookup_updManager.
    destruct (decide (k = k')) as [<-|Hk]; [|apply (Hs op' k' name' r')].
    destruct (managers w !! k) as [m|] eqn:Hm; simpl; [|done].
    rewrite taskLists_with_taskLists.
    destruct (decide (op = op')) as [<-|Hop].
    + destruct (decide (name = name')) as [<-|Hn].
      * rewrite lookup_insert_eq. intros [= <-]. eauto.
      * rewrite lookup_insert_ne by done. intros Hin.
        apply (Hs op k name' r'). unfold inFlight. by rewrite Hm.
    + intros Hin. apply (Hs op' k name' r'). unfold inFlight. by rewrite Hm.
  - split; [done|]. split; [done|]. split; [eauto|].
    intros Hs op' k' name' r'. unfold inFlight, deleteTaskList.
    rewrite lookup_updManager.
    destruct (decide (k = k')) as [<-|Hk]; [|apply (Hs op' k' name' r')].
    destruct (managers w !! k) as [m|] eqn:Hm; simpl; [|done].
    rewrite taskLists_with_taskLists.
    destruct (decide (op = op')) as [<-|Hop].
    + destruct (decide (name = name')) as [<-|Hn].
      * by rewrite lookup_delete_eq.
      * rewrite lookup_delete_ne by done. intros Hin.
        apply (Hs op k name' r'). unfold inFlight. by rewrite Hm.
    + intros Hin. apply (Hs op' k name' r'). unfold inFlight. by rewrite Hm.
  - split; [done|]. split; [done|]. split; [eauto|].
    intros Hs op' k' name' r'. unfold setStarted.
    rewrite inFlight_updManager; [apply Hs|]. by intros m; destruct op'.
  - assert (Hcl : ∀ r' , closureOf
              (emit (DONE r failed) (setStatus r (Settled failed) w)) r'
              = closureOf w r').
    { intros r'. unfold closureOf, emit, setStatus, updHeap. simpl.
      rewrite lookup_alter. case_decide; [subst|done].
      by destruct (heap w !! r'). }
    split; [|split; [done|split]].
    + intros r'. unfold emit, setStatus, updHeap. simpl.
      rewrite lookup_alter. case_decide; [subst|apply Hwf].
      intros Hr'. apply Hwf. destruct (heap w !! r'); [eauto|].
      by destruct Hr'.
    + intros r' cl. rewrite Hcl. eauto.
    + intros Hs op k name r' Hin.
      destruct (Hs op k name r' Hin) as (cl & ? & ?). exists cl.
      by rewrite Hcl.
  - split; [done|]. split; [done|]. split; [eauto|].
    intros Hs op' k' name' r'.
    rewrite inFlight_updManager; [apply Hs|]. intros m. apply Hf.
  - assert (Hcl : ∀ r' cl, closureOf w r' = Some cl →
              ∃ cl', closureOf
                (updHeap
                   (<[r := {| tl_closure :=
                                CreateTL k name options ss ra soc st true;
                              tl_status := status |}]>) w) r' = Some cl'
                ∧ forgetSet cl' = forgetSet cl).
    { intros r' cl. unfold closureOf, updHeap. simpl.
      destruct (decide (r' = r)) as [Heq|Hne].
      - subst r'. rewrite lookup_insert_eq. simpl.
        assert (E : heap w !! r = Some
                 {| tl_closure := CreateTL k name options ss ra soc st set;
                    tl_status := status |}) by exact Hr.
        rewrite E. simpl. intros [= <-]. eauto.
      - rewrite lookup_insert_ne by done. eauto. }
    split; [|split; [done|split; [done|]]].
    + intros r'. unfold updHeap. simpl.
      destruct (decide (r' = r)) as [Heq|Hne].
      * subst r'. intros _. apply Hwf. by rewrite Hr.
      * rewrite lookup_insert_ne by done. apply Hwf.
    + intros Hs op k' name' r' Hin.
      destruct (Hs op k' name' r' Hin) as (cl & Hc & Hby).
      destruct (Hcl r' cl Hc) as (cl' & Hc' & E).
      exists cl'. split; [done|].
      by rewrite (closureOf_forgetSet_builtBy _ _ E).
Qed.

(** Steps that may not write the adapters and dependents maps leave
    every closure as it is, and the whole entry of a task list that may
    not settle. *)
Lemma Steps_keep p w w' :
  Steps p w w' → resources p = false → wfHeap w →
  (∀ r, is_Some (heap w !! r) → closureOf w' r = closureOf w r) ∧
  (∀ r, ¬ settles p r → is_Some (heap w !! r) → heap w' !! r = heap w !! r).
Proof.
  induction 1 as [w|w1 w2 w3 H12 IH12 H23 IH23|e w He|cl w|r w
                 |op k name r cl w Hcl Hby|op k name w|k name b w
                 |r failed w Hr|k f w Hres Hf
                 |r k name options ss ra soc st set status w Hres Hr];
    intros Hp Hwf; try done; try congruence.
  - destruct (IH12 Hp Hwf) as [Hc2 Hh2].
    destruct (Steps_wf _ _ _ H12 Hwf) as (Hwf2 & _).
    destruct (IH23 Hp Hwf2) as [Hc3 Hh3].
    split.
    + intros r Hr. rewrite Hc3, Hc2; eauto using Steps_heap_dom.
    + intros r Hns Hr. rewrite Hh3, Hh2; eauto using Steps_heap_dom.
  - assert (Hfresh : ∀ r, is_Some (heap w !! r) → r ≠ nextRef w).
    { intros r Hr%Hwf. lia. }
    split.
    + intros r Hr. unfold closureOf, newTaskList. simpl.
      rewrite lookup_insert_ne; [done|]. intros Heq. by apply (Hfresh r).
    + intros r _ Hr. unfold newTaskList. simpl.
      rewrite lookup_insert_ne; [done|]. intros Heq. by apply (Hfresh r).
  - split.
    + intros r' Hr'. unfold closureOf, emit, setStatus, updHeap. simpl.
      rewrite lookup_alter. case_decide; [subst|done].
      by destruct (heap w !! r').
    + intros r' Hns Hr'. unfold emit, setStatus, updHeap. simpl.
      rewrite lookup_alter_ne; [done|]. by intros ->.
Qed.

Lemma nested_frames r w w' :
  Steps (nested r) w w' →
  Frame _resourceAdapters w w' ∧ Frame _directResourceDependents w w' ∧
  Frame _resourceDependents w w'.
Proof.
  intros H. repeat split; (eapply Steps_Frame; [| | |exact H]);
    try done; by intros [].
Qed.

(** ** The nested runs of a create *)
Section NestedRun.
Variable oracle : Oracle.
Variable rC : TaskListRef.

Lemma creating_Steps p w w' :
  creating rC w → Steps p w w' → creating rC w'.
Proof.
  intros (Hwf & Hs & cl & k & name & Hcl & Hby) H.
  destruct (Steps_wf _ _ _ H Hwf) as (Hwf' & _ & Hc & Hs').
  split; [done|]. split; [auto|].
  destruct (Hc _ _ Hcl) as (cl' & Hcl' & E).
  exists cl', k, name. split; [done|].
  by rewrite (closureOf_forgetSet_builtBy _ _ E).
Qed.

Lemma startLike_not_create w r :
  isCreate w rC → runs (startLike rC) w r → r ≠ rC.
Proof.
  intros (cl & k & name & Hcl & Hby) (cl' & Hcl' & HP) ->.
  rewrite Hcl in Hcl'. injection Hcl' as <-.
  by destruct cl as [| | | |[]|].
Qed.

Lemma nested_stable w w' r :
  nestedSteps rC w w' → runs (startLike rC) w r → runs (startLike rC) w' r.
Proof.
  intros [Hwf H] (cl & Hcl & HP). exists cl. split; [|done].
  destruct (Steps_keep _ _ _ H eq_refl Hwf) as [Hc _].
  rewrite Hc; [done|]. unfold closureOf in Hcl.
  destruct (heap w !! r); [eauto|done].
Qed.

Lemma nested_tasks cl t :
  startLike rC cl → t ∈ tasksOf cl → startAction rC (task t).
Proof.
  destruct cl as [| |k name options ss stl ra st dd| |[] targets
                 |k name options hooks]; simpl; try done.
  - intros Hstl Ht.
    repeat (apply elem_of_cons in Ht as [->|Ht]); simpl; try done.
    + destruct stl as [t0|]; [|done]. simpl. by intros ->.
    + by apply elem_of_nil in Ht.
  - intros _ (x & -> & _)%list_elem_of_fmap. done.
  - intros _ (x & -> & _)%list_elem_of_fmap. done.
Qed.

(** [start] captures the stop task list in flight, which is not the
    create task list. *)
Lemma start_startLike k name options w w' r :
  creating rC w →
  start k name options w = (w', Returns r) →
  runs (startLike rC) w' r.
Proof.
  intros (Hwf & Hs & cl & kC & nameC & Hcl & Hby) Hstart.
  destruct (managers w !! k) as [m|] eqn:Hm;
    [|by unfold start, noManager in Hstart; rewrite Hm in Hstart].
  destruct (crud_start (getCRUD (resourceType m))) as [s|] eqn:Hcs;
    [|edestruct (start_throws k name options w m) as [e He]; eauto;
      by rewrite He in Hstart].
  destruct (crud_stop (getCRUD (resourceType m))) as [t|] eqn:Hct;
    [|edestruct (start_throws k name options w m) as [e He]; eauto;
      by rewrite He in Hstart].
  rewrite (start_eq _ _ _ _ _ _ _ Hm Hcs Hct) in Hstart. cbv zeta in Hstart.
  destruct (_getStartDeps _ _) as [deps|]; [|done].
  assert (Hstop : _stopTaskList m !! name ≠ Some rC).
  { intros Hstop.
    destruct (Hs Stop k name rC) as (cl' & Hcl' & Hby').
    { unfold inFlight. by rewrite Hm. }
    rewrite Hcl in Hcl'. injection Hcl' as <-. congruence. }
  destruct (bool_decide _); injection Hstart as <- <-; eexists; (split;
    [first [apply closureOf_newTaskList
           |unfold closureOf; rewrite heap_setTaskList;
            apply closureOf_newTaskList]
    |exact Hstop]).
Qed.

Lemma nested_invoke r a ctx w :
  creating rC w → startAction rC a →
  creating rC (invokeAction oracle r a ctx w).1.1 ∧
  nestedSteps rC w (invokeAction oracle r a ctx w).1.1 ∧
  ∀ r', (invokeAction oracle r a ctx w).2 = inr r' →
        runs (startLike rC) (invokeAction oracle r a ctx w).1.1 r'.
Proof.
  intros Hc Ha.
  assert (Hsteps : Steps (nested rC) w (invokeAction oracle r a ctx w).1.1).
  { apply Steps_invokeAction_plain; try done.
    - intros t ->. exact Ha.
    - by destruct a. }
  split; [by eapply creating_Steps|]. split; [split; [apply Hc|done]|].
  intros r' Hr'.
  destruct (invokeAction_nested _ _ _ _ _ _ Hr')
    as (_ & [(op&k&name&options&->&E)|[(op&deps&->&E)|(k&name&options&hooks&->&_)]]).
  - destruct op; try done. simpl in E. by eapply start_startLike.
  - destruct op; try done.
    destruct (depsTaskList_returns _ _ _ _ _ E) as (_ & _ & targets & _ & Hh).
    exists (DepsTL Start targets). split; [|done].
    unfold closureOf. by rewrite Hh, lookup_insert_eq.
  - destruct (invokeAction_nested _ _ _ _ _ _ Hr')
      as (_ & [(?&?&?&?&?&_)|[(?&?&?&_)|(k'&name'&options'&hooks'&E'&->&->)]]);
      try done.
    exists (HooksTL k' name' options' hooks'). split; [|done].
    apply closureOf_newTaskList.
Qed.

Lemma nested_settle r out ctx w :
  creating rC w → runs (startLike rC) w r →
  creating rC (settle r out ctx w) ∧ nestedSteps rC w (settle r out ctx w).
Proof.
  intros Hc Hr.
  assert (Hsteps : Steps (nested rC) w (settle r out ctx w)).
  { apply Steps_settle_plain; try done.
    - eapply startLike_not_create; [apply Hc|done].
    - intros cl Hcl. destruct Hr as (cl' & Hcl' & HP).
      rewrite Hcl in Hcl'. injection Hcl' as <-.
      by destruct cl. }
  split; [by eapply creating_Steps|]. split; [apply Hc|done].
Qed.

Lemma nested_abort r w :
  creating rC w → runs (startLike rC) w r →
  creating rC (abort r w) ∧ nestedSteps rC w (abort r w).
Proof.
  intros Hc Hr.
  assert (Hsteps : Steps (nested rC) w (abort r w)).
  { apply Steps_abort; [done|].
    eapply startLike_not_create; [apply Hc|done]. }
  split; [by eapply creating_Steps|]. split; [apply Hc|done].
Qed.

(** A start or the hooks, run as a task of the create task list [rC],
    take only nested steps. *)
Lemma run_nested fuel w r ctx w' ctx' out :
  creating rC w → runs (startLike rC) w r →
  run oracle fuel w r ctx = Some (w', ctx', out) →
  creating rC w' ∧ Steps (nested rC) w w'.
Proof.
  intros Hc Hr Hrun.
  assert (Hgood : good (creating rC) (nestedSteps rC) (startLike rC)
                    (run oracle fuel)).
  { apply run_inv with (Q := startAction rC).
    - intros w0 Hw0. split; [apply Hw0|apply Steps_refl].
    - intros w1 w2 w3 [Hwf1 H12] [_ H23]. split; [done|].
      by eapply Steps_trans.
    - apply nested_tasks.
    - apply nested_stable.
    - apply nested_invoke.
    - apply nested_settle.
    - apply nested_abort. }
  destruct (Hgood _ _ _ _ _ _ Hc Hr Hrun) as [Hc' [_ Hsteps]]. done.
Qed.
End NestedRun.

(** ** What [setFromContext] installs *)

Lemma known_Frame {X : Type} (proj : Manager → X) w w' d :
  Frame proj w w' → known w' d → known w d.
Proof.
  intros HF. unfold known, getResourcesManager.
  specialize (HF (dep_plugin d, dep_resourceType d)).
  destruct (managers w !! _), (managers w' !! _); try done.
Qed.

Lemma registeredWith_Frame w w' self d :
  Frame _resourceDependents w w' →
  registeredWith w self d → registeredWith w' self d.
Proof.
  intros HF (m & Hm & Hin). unfold registeredWith, getResourcesManager in *.
  specialize (HF (dep_plugin d, dep_resourceType d)). rewrite Hm in HF.
  destruct (managers w' !! _) as [m'|]; [|done].
  injection HF as HF. exists m'. split; [done|]. by rewrite <- HF.
Qed.

Lemma propagated_Frame w w' self deps :
  Frame _resourceDependents w w' →
  propagated w self deps → propagated w' self deps.
Proof.
  intros HF Hp i d Hd Hk. eapply registeredWith_Frame; [done|].
  apply (Hp i d Hd). eapply Forall_impl; [exact Hk|].
  intros d'. by apply known_Frame with (proj := _resourceDependents).
Qed.

Lemma selfDependency_Frame w w' k name :
  Frame resourceType w w' → selfDependency w' k name = selfDependency w k name.
Proof.
  intros HF. specialize (HF k). unfold selfDependency.
  destruct (managers w !! k), (managers w' !! k); try done.
  injection HF as HF. by rewrite HF.
Qed.

Lemma installed_Frame ctx k name w w' :
  Frame resourceType w w' → Frame _resourceAdapters w w' →
  Frame _directResourceDependents w w' → Frame _resourceDependents w w' →
  installed ctx k name w → installed ctx k name w'.
Proof.
  intros Ht Ha Hd Hr (m & Hm & Hma & Hmd & Hp).
  pose proof (Ha k) as Ha'. pose proof (Hd k) as Hd'.
  rewrite Hm in Ha', Hd'.
  destruct (managers w' !! k) as [m'|] eqn:Hm'; [|done].
  injection Ha' as Ha'. injection Hd' as Hd'.
  exists m'. split; [done|]. rewrite <- Ha', <- Hd'.
  repeat split; try done.
  rewrite (selfDependency_Frame _ _ _ _ Ht). by eapply propagated_Frame.
Qed.

Lemma installed_managers ctx k name w w' :
  managers w' = managers w → installed ctx k name w → installed ctx k name w'.
Proof.
  intros E. apply installed_Frame; intros k'; by rewrite E.
Qed.

Lemma _addDependents_keeps {X : Type} (proj : Manager → X) self deps w :
  (∀ v m, proj (with_resourceDependents v m) = proj m) →
  Frame proj w (_addDependents self deps w).1.
Proof.
  intros Hproj. revert w.
  induction deps as [|d deps IH]; intros w; simpl; [done|].
  destruct (getResourcesManager _ _ _); [|done].
  eapply Frame_trans; [|apply IH].
  apply Frame_updManager. intros m'. apply Hproj.
Qed.

Lemma _addDependents_heap self deps w :
  heap (_addDependents self deps w).1 = heap w.
Proof.
  revert w. induction deps as [|d deps IH]; intros w; simpl; [done|].
  destruct (getResourcesManager _ _ _); [|done]. by rewrite IH.
Qed.

Lemma registeredWith_addDependent w self d k name self' :
  registeredWith w self d → registeredWith (addDependent k name self' w) self d.
Proof.
  intros (m & Hm & Hin). unfold registeredWith, getResourcesManager in *.
  unfold addDependent. rewrite lookup_updManager.
  destruct (decide (k = (dep_plugin d, dep_resourceType d))) as [->|Hne].
  - rewrite Hm. simpl. eexists. split; [done|]. simpl.
    destruct (decide (name = dep_name d)) as [->|Hn].
    + rewrite lookup_insert_eq. simpl. apply elem_of_app. by left.
    + by rewrite lookup_insert_ne.
  - by exists m.
Qed.

Lemma addDependent_registers w self d :
  known w d →
  registeredWith
    (addDependent (dep_plugin d, dep_resourceType d) (dep_name d) self w)
    self d.
Proof.
  intros [m Hm]. unfold registeredWith, getResourcesManager in *.
  unfold addDependent. rewrite lookup_updManager_eq, Hm. simpl.
  eexists. split; [done|]. simpl. rewrite lookup_insert_eq. simpl.
  apply elem_of_app. right. by apply list_elem_of_singleton.
Qed.

Lemma registeredWith__addDependents w self d self' deps :
  registeredWith w self d →
  registeredWith (_addDependents self' deps w).1 self d.
Proof.
  revert w. induction deps as [|d' deps IH]; intros w H; simpl; [done|].
  destruct (getResourcesManager _ _ _); [|done].
  by apply IH, registeredWith_addDependent.
Qed.

Lemma _addDependents_propagated self deps w :
  propagated (_addDependents self deps w).1 self deps.
Proof.
  revert w. induction deps as [|d deps IH]; intros w; simpl.
  - by intros i d.
  - destruct (getResourcesManager w (dep_plugin d) (dep_resourceType d))
      as [md|] eqn:Hmd; simpl.
    + intros [|i] d' Hd' Hk; simpl in *.
      * injection Hd' as <-.
        apply registeredWith__addDependents, addDependent_registers.
        by exists md.
      * apply (IH _ i d' Hd'). by apply Forall_cons in Hk as [_ Hk].
    + intros i d' _ Hk. simpl in Hk. apply Forall_cons in Hk as [[m Hm] _].
      congruence.
Qed.

Lemma setFromContext_installs r k name options ss ra soc st status ctx w m :
  heap w !! r
    = Some {| tl_closure := CreateTL k name options ss ra soc st false;
              tl_status := status |} →
  managers w !! k = Some m →
  installed ctx k name (setFromContext r ctx w).1 ∧
  heap (setFromContext r ctx w).1 !! r
    = Some {| tl_closure := CreateTL k name options ss ra soc st true;
              tl_status := status |}.
Proof.
  intros Hr Hm. unfold setFromContext. rewrite Hr. cbv zeta.
  match goal with
  | |- context [_addDependents ?s ?d ?w0] =>
      pose proof (_addDependents_propagated s d w0) as Hp;
      pose proof (_addDependents_heap s d w0) as Hh;
      pose proof (_addDependents_keeps resourceType s d w0
                    (λ _ _, eq_refl)) as Ft;
      pose proof (_addDependents_keeps _resourceAdapters s d w0
                    (λ _ _, eq_refl)) as Fa;
      pose proof (_addDependents_keeps _directResourceDependents s d w0
                    (λ _ _, eq_refl)) as Fd;
      assert (Hm0 : ∃ m0, managers w0 !! k = Some m0 ∧
                 _resourceAdapters m0 !! name = Some (ctx_resourceAdapter ctx) ∧
                 _directResourceDependents m0 !! name
                   = Some (default [] (ctx_dependents ctx)));
      [|assert (Hr0 : heap w0 !! r
                  = Some {| tl_closure :=
                              CreateTL k name options ss ra soc st true;
                            tl_status := status |});
        [|destruct (_addDependents s d w0) as [w1 oe]]]
  end.
  - rewrite !lookup_updManager_eq. unfold updHeap; simpl. rewrite Hm. simpl.
    eexists. split; [done|]. simpl. by rewrite !lookup_insert_eq.
  - unfold updManager, updHeap; simpl. by rewrite lookup_insert_eq.
  - cbn [fst] in *. destruct Hm0 as (m0 & Hm0 & Ha0 & Hd0).
    assert (Hi : installed ctx k name w1).
    { pose proof (Fa k) as Fa'. pose proof (Fd k) as Fd'.
      rewrite Hm0 in Fa', Fd'.
      destruct (managers w1 !! k) as [m1|] eqn:Hm1; [|done].
      injection Fa' as Fa'. injection Fd' as Fd'.
      exists m1. rewrite <- Fa', <- Fd'. repeat split; try done.
      by rewrite (selfDependency_Frame _ _ _ _ Ft). }
    destruct oe as [e|]; simpl; (split; [|by rewrite Hh]); [done|].
    by apply (installed_managers _ _ _ w1).
Qed.

(** ** The delete a failed create schedules *)

Lemma delete_scheduled k name options w m :
  managers w !! k = Some m →
  ∃ ss st sp stl ctl deps,
    background (fireAndForget (delete_ k name options w))
      = background w ++ [{| detached_taskList := nextRef w;
                            detached_caught := true |}] ∧
    closureOf (fireAndForget (delete_ k name options w)) (nextRef w)
      = Some (DeleteTL k name options ss st sp stl ctl (adapterOf m name)
                deps) ∧
    trace (fireAndForget (delete_ k name options w))
      = trace w ++ [RESOURCES_MANAGER Delete k name].
Proof.
  intros Hm. rewrite (delete_eq _ _ _ _ _ Hm). cbv zeta.
  destruct (bool_decide _); do 6 eexists; simpl;
    (split; [done|]); (split; [|done]);
    unfold closureOf; simpl; rewrite lookup_insert_eq; simpl; reflexivity.
Qed.

Lemma settle_failed_create r k name options ra soc st set ctx e w m :
  heap w !! r
    = Some {| tl_closure := CreateTL k name options false ra soc st set;
              tl_status := Pending |} →
  managers w !! k = Some m →
  (set = true → installed ctx k name w) →
  installed ctx k name (settle r (Failed e) ctx w) ∧
  ∃ rd bg tr ss st' sp stl ctl deps,
    background (settle r (Failed e) ctx w)
      = bg ++ [{| detached_taskList := rd; detached_caught := true |}] ∧
    closureOf (settle r (Failed e) ctx w) rd
      = Some (DeleteTL k name options ss st' sp stl ctl
                (ctx_resourceAdapter ctx) deps) ∧
    trace (settle r (Failed e) ctx w)
      = tr ++ [DONE r true; RESOURCES_MANAGER Delete k name].
Proof.
  intros Hr Hm Hset. unfold settle. rewrite Hr. cbn [onError].
  set (wa := (setFromContext r ctx
                (emit (RESOURCE_ADAPTER_ERROR Create k name e) w)).1).
  assert (Ha : installed ctx k name wa).
  { destruct set.
    - unfold wa, setFromContext. change (heap (emit _ w)) with (heap w).
      rewrite Hr. simpl.
      by apply (installed_managers _ _ _ w), Hset.
    - by eapply setFromContext_installs. }
  set (wb := emit (DONE r true) (setStatus r (Settled true) wa)).
  assert (Hb : installed ctx k name wb) by by apply (installed_managers _ _ _ wa).
  split.
  - revert Hb.
    apply installed_Frame; (apply Frame_onDone; [by intros []|done]).
  - cbn [onDone]. cbv zeta.
    set (wc := deleteTaskList Create k name wb).
    destruct Hb as (mb & Hmb & Hab & _).
    assert (Hmc : managers wc !! k
                  = Some (with_taskLists Create
                            (delete name (taskLists Create mb)) mb)).
    { unfold wc, deleteTaskList. by rewrite lookup_updManager_eq, Hmb. }
    destruct (delete_scheduled k name options wc _ Hmc)
      as (ss & st' & sp & stl & ctl & deps & Hbg & Hcl & Htr).
    exists (nextRef wc), (background wc), (trace wa), ss, st', sp, stl, ctl,
      deps.
    split; [done|]. split.
    + rewrite Hcl. do 2 f_equal. unfold adapterOf. simpl. by rewrite Hab.
    + rewrite Htr. unfold wc, wb. simpl. by rewrite <- app_assoc.
Qed.

(** ** The context of a create while its last tasks run *)
Section CreateTail.
Variable oracle : Oracle.
Variable rC : TaskListRef.

Lemma run_own_ctx fuel w r ctx w' ctx' out :
  ownContext w r = true →
  run oracle fuel w r ctx = Some (w', ctx', out) → ctx' = ctx.
Proof.
  intros Hown. destruct fuel as [|n]; simpl; [done|].
  destruct (runBody _ _ _ _ _) as [[[w1 ctx1] out1]|]; [|done].
  rewrite Hown. by intros [= _ <- _].
Qed.

Lemma invokeAll_hooks r k name options hooks ctx w :
  ∃ w' l,
    invokeAll oracle r (tasksOf (HooksTL k name options hooks)) ctx w
      = (w', ctx, l) ∧
    Forall (λ s, ∃ o : Outcome, s = inl o) l.
Proof.
  simpl. revert w. induction hooks as [|h hooks IH]; intros w; simpl.
  - by exists w, [].
  - destruct (IH (emit (EXT (RunHook h name options)) w))
      as (w' & l & -> & Hl).
    eexists _, _. split; [done|]. constructor; [by eexists|done].
Qed.

Lemma settleAll_settled rec l (ctx : Ctx) (w : World) :
  Forall (λ s, ∃ o : Outcome, s = inl o) l →
  settleAll rec l ctx w = Some (w, ctx, Completed).
Proof.
  induction 1 as [|s l [o ->] _ IH]; simpl; done.
Qed.

Lemma run_hooks_ctx fuel w r k name options hooks status ctx w' ctx' out :
  heap w !! r
    = Some {| tl_closure := HooksTL k name options hooks;
              tl_status := status |} →
  run oracle fuel w r ctx = Some (w', ctx', out) → ctx' = ctx.
Proof.
  intros Hr. destruct fuel as [|n]; simpl; [done|].
  unfold runBody, ownContext. rewrite Hr.
  destruct status as [|failed]; [|by intros [= _ <- _]].
  cbn [freshContext concurrent tl_closure]. unfold runConcurrent.
  destruct (invokeAll_hooks r k name options hooks ctx w)
    as (w1 & l & -> & Hl).
  destruct (firstFailure l); [by intros [= _ <- _]|].
  rewrite (settleAll_settled _ _ _ _ Hl). by intros [= _ <- _].
Qed.

Lemma runAction_tail fuel a ctx w w' ctx' out :
  tailAction a → creating rC w →
  runAction oracle (run oracle fuel) rC a ctx w = Some (w', ctx', out) →
  creating rC w' ∧ Steps (nested rC) w w' ∧ ctx' = ctx.
Proof.
  intros Ht Hc. unfold runAction.
  assert (Ha : startAction rC a) by by destruct a as [| []| | | | | | |].
  destruct (nested_invoke oracle rC rC a ctx w Hc Ha) as (Hc1 & [_ Hs1] & Hruns).
  pose proof (invokeAction_nested oracle rC a ctx w) as Hn.
  assert (Hctx : (invokeAction oracle rC a ctx w).1.2 = ctx).
  { destruct a as [|op k name options| | | |k name options| | |]; try done.
    simpl. by destruct (invoke op k name options w) as [w1 [r'|e']]. }
  destruct (invokeAction oracle rC a ctx w) as [[w1 ctx1] [o|r']];
    simpl in *; subst ctx1.
  - by intros [= <- <- <-].
  - intros Hrun.
    destruct (run_nested oracle rC fuel w1 r' ctx w' ctx' out Hc1
                (Hruns r' eq_refl) Hrun) as [Hc' Hs'].
    split; [done|]. split; [by eapply Steps_trans|].
    destruct (Hn r' eq_refl)
      as (_ & [(op&k&name&options&->&E)|[(op&deps&->&E)
              |(k&name&options&hooks&->&->&E)]]); try done.
    + destruct (invoke_returns _ _ _ _ _ _ _ E)
        as (_ & _ & _ & _ & cl & Hh & Hby).
      eapply run_own_ctx; [|exact Hrun].
      unfold ownContext. rewrite Hh, lookup_insert_eq. simpl.
      destruct op; try done. by destruct cl.
    + eapply run_hooks_ctx; [|exact Hrun].
      rewrite E. unfold newTaskList. simpl. apply lookup_insert_eq.
Qed.

Lemma runSequential_tail fuel ts ctx w w' ctx' out :
  Forall (λ t, tailAction (task t)) ts → creating rC w →
  runSequential oracle (run oracle fuel) rC ts ctx w = Some (w', ctx', out) →
  creating rC w' ∧ Steps (nested rC) w w' ∧ ctx' = ctx.
Proof.
  intros Hts. revert w.
  induction Hts as [|t ts Ht _ IH]; intros w Hc; simpl.
  - intros [= <- <- <-]. split; [done|]. split; [apply Steps_refl|done].
  - destruct (negb (enabled t w)); [by apply IH|].
    destruct (skip t); [by apply IH|].
    destruct (runAction _ _ _ _ _ _) as [[[w1 ctx1] o1]|] eqn:E; [|done].
    destruct (runAction_tail _ _ _ _ _ _ _ Ht Hc E) as (Hc1 & Hs1 & ->).
    destruct o1 as [|e1].
    + intros Hrest. destruct (IH _ Hc1 Hrest) as (Hc' & Hs' & ->).
      split; [done|]. split; [by eapply Steps_trans|done].
    + by intros [= <- <- <-].
Qed.

Lemma runSequential_skipped rec r ts (ctx : Ctx) (w : World) :
  Forall (λ t, is_Some (skip t)) ts →
  runSequential oracle rec r ts ctx w = Some (w, ctx, Completed).
Proof.
  induction 1 as [|t ts [reason Hskip] _ IH]; simpl; [done|].
  rewrite Hskip. by destruct (negb _).
Qed.
End CreateTail.

(** ** A create whose task list fails *)

Lemma create_run_failed oracle fuel rC k name options ra soc st ctx0 w1 m1
    wS ctx e :
  creating rC w1 →
  heap w1 !! rC
    = Some {| tl_closure := CreateTL k name options false ra soc st false;
              tl_status := Pending |} →
  managers w1 !! k = Some m1 →
  runSequential oracle (run oracle fuel) rC
    (tasksOf (CreateTL k name options false ra soc st false)) ctx0 w1
    = Some (wS, ctx, Failed e) →
  ∃ set,
    heap wS !! rC
      = Some {| tl_closure := CreateTL k name options false ra soc st set;
                tl_status := Pending |} ∧
    is_Some (managers wS !! k) ∧
    (set = true → installed ctx k name wS).
Proof.
  intros Hc Hr Hm. destruct ra as [a0|].
  - rewrite runSequential_skipped; [done|]. simpl.
    destruct (soc && isSome st); simpl; repeat constructor; by eexists.
  - simpl.
    set (cctx := created_ctx oracle (length (trace w1)) k name options).
    set (wE := emit (EXT (CreateResourceAdapter k name
                            (resourcePath w1 k name) options)) w1).
    destruct (ext_error _ _ _) as [e0|].
    { intros [= <- <- <-]. exists false.
      split; [done|]. split; [by eexists|done]. }
    assert (HcE : creating rC wE).
    { eapply creating_Steps; [exact Hc|].
      by apply (Steps_emit anything). }
    assert (HF : heap (finalSetup oracle rC k name cctx wE).1 !! rC
                 = Some {| tl_closure :=
                             CreateTL k name options false None soc st true;
                           tl_status := Pending |} ∧
                 installed cctx k name (finalSetup oracle rC k name cctx wE).1
                 ∧ creating rC (finalSetup oracle rC k name cctx wE).1).
    { split; [|split].
      - unfold finalSetup.
        destruct (setFromContext_installs rC k name options false None soc st
                    Pending cctx wE m1 Hr Hm) as [_ Hh].
        destruct (setFromContext rC cctx wE) as [ws [e1|]]; [done|].
        unfold external. simpl in *.
        by repeat (destruct (ext_error _ _ _); simpl).
      - unfold finalSetup.
        destruct (setFromContext_installs rC k name options false None soc st
                    Pending cctx wE m1 Hr Hm) as [Hi _].
        destruct (setFromContext rC cctx wE) as [ws [e1|]]; [done|].
        unfold external. simpl in *.
        repeat (destruct (ext_error _ _ _); simpl);
          by apply (installed_managers _ _ _ ws).
      - eapply creating_Steps; [exact HcE|].
        by apply (Steps_finalSetup anything). }
    destruct HF as (Hh & Hi & Hc2).
    destruct (finalSetup oracle rC k name cctx wE) as [wF [|e1]];
      simpl in *.
    + intros Hrest.
      apply runSequential_tail in Hrest as (Hc' & Hs' & ->); [| |done].
      * destruct (nested_frames _ _ _ Hs') as (Fa & Fd & Fr).
        assert (Hi' : installed cctx k name wS).
        { revert Hi. apply installed_Frame; try done.
          by eapply Steps_static. }
        exists true. split; [|split; [|done]].
        -- destruct (Steps_keep _ _ _ Hs' eq_refl (proj1 Hc2)) as [_ Hk].
           rewrite Hk; [done| |by eexists]. simpl. by intros H.
        -- destruct Hi' as (m' & -> & _). by eexists.
      * destruct (soc && isSome st); simpl; by repeat constructor.
    + intros [= <- <- <-]. exists true. split; [done|]. split; [|done].
      destruct Hi as (m' & -> & _). by eexists.
Qed.

(** C3. A [create] that was not a duplicate and whose task list fails
    with an error, with a [resourceAdapter] left in the context by the
    adapter-creation step: when the task list has settled, that adapter
    is in the adapters map under [name], the dependents of the context
    are the direct dependents of [name], the resource is registered
    with the managers of its dependencies (as far as these managers are
    known), and the last thing that happened is the call of
    [delete(name, options)], whose task list captured the installed
    adapter and runs in the background with its rejection caught.  The
    world the create starts from is one the operations can reach: the
    heap holds only task lists that were constructed, and the in-flight
    maps hold task lists of their own operation. *)
Theorem failed_create_installs_adapter_then_schedules_delete
    (oracle : Oracle) (fuel : nat) (k : ManagerKey) (name : string)
    (options : ResourceOptions) (w0 w1 w2 : World) (m : Manager)
    (r : TaskListRef) (ctx : Ctx) (e : Error) (a : ResourceAdapter) :
  wfHeap w0 → slotsTyped w0 →
  managers w0 !! k = Some m → _createTaskList m !! name = None →
  create k name options w0 = (w1, Returns r) →
  runTaskList oracle fuel r w1 = Some (w2, ctx, Failed e) →
  ctx_resourceAdapter ctx = Some a →
  adaptersOf w2 k !! name = Some (Some a) ∧
  installed ctx k name w2 ∧
  ∃ rd bg tr ss st sp stl ctl deps,
    background w2
      = bg ++ [{| detached_taskList := rd; detached_caught := true |}] ∧
    closureOf w2 rd
      = Some (DeleteTL k name options ss st sp stl ctl (Some a) deps) ∧
    trace w2 = tr ++ [DONE r true; RESOURCES_MANAGER Delete k name].
Proof.
  intros Hwf Hs Hm Hslot Hcreate Hrun Ha.
  pose proof (Steps_create anything (λ _ _, I) k name options w0) as Hsteps.
  rewrite Hcreate in Hsteps. cbn [fst] in Hsteps.
  destruct (Steps_wf _ _ _ Hsteps Hwf) as (Hwf1 & _ & _ & Hs1).
  rewrite (create_eq _ _ _ _ _ Hm) in Hcreate. cbv zeta in Hcreate.
  rewrite Hslot in Hcreate.
  rewrite bool_decide_eq_false_2 in Hcreate by by intros [].
  set (cl := CreateTL k name options false (adapterOf m name)
               (create_startOnCreate (getCRUD (resourceType m)))
               (crud_start (getCRUD (resourceType m))) false) in *.
  injection Hcreate as Hw1 Hr0.
  change (nextRef (emit (RESOURCES_MANAGER Create k name) w0))
    with (nextRef w0) in Hw1, Hr0.
  assert (Hr : heap w1 !! r
               = Some {| tl_closure := cl; tl_status := Pending |}).
  { rewrite <- Hw1, <- Hr0, heap_setTaskList. unfold newTaskList. simpl.
    apply lookup_insert_eq. }
  destruct (Frame_manager_exists _ _ _ _ (Steps_static _ _ _ Hsteps) Hm)
    as (m1 & Hm1 & _).
  assert (Hc : creating r w1).
  { split; [by apply Hwf1|]. split; [by apply Hs1|].
    exists cl, k, name. split; [|done]. unfold closureOf. by rewrite Hr. }
  clear Hw1 Hr0 Hsteps.
  unfold runTaskList, runBody in Hrun. rewrite Hr in Hrun.
  cbn [freshContext concurrent cl] in Hrun.
  destruct (runSequential _ _ _ _ _ _) as [[[wS ctxS] outS]|] eqn:Hseq;
    [|done].
  injection Hrun as <- <- ->.
  destruct (create_run_failed _ _ _ _ _ _ _ _ _ _ _ _ _ _ _ Hc Hr Hm1 Hseq)
    as (set & HrS & [mS HmS] & Hset).
  destruct (settle_failed_create _ _ _ _ _ _ _ _ ctxS e _ _ HrS HmS Hset)
    as (Hi & rd & bg & tr & ss & st & sp & stl & ctl & deps & Hbg & Hcl & Htr).
  split; [|split; [done|]].
  - destruct Hi as (m2 & Hm2 & Ha2 & _). unfold adaptersOf.
    by rewrite Hm2, Ha2, Ha.
  - exists rd, bg, tr, ss, st, sp, stl, ctl, deps.
    by rewrite <- Ha.
Qed.

Lemma failed_create_installs_adapter_then_schedules_delete_witness :
  adaptersOf Examples.nFailed.1.1 Demo.node !! "n" = Some (Some 1) ∧
  installed Examples.nFailed.1.2 Demo.node "n" Examples.nFailed.1.1 ∧
  ∃ rd bg tr ss st sp stl ctl deps,
    background Examples.nFailed.1.1
      = bg ++ [{| detached_taskList := rd; detached_caught := true |}] ∧
    closureOf Examples.nFailed.1.1 rd
      = Some (DeleteTL Demo.node "n" emptyOptions ss st sp stl ctl (Some 1)
                deps) ∧
    trace Examples.nFailed.1.1
      = tr ++ [DONE 0 true; RESOURCES_MANAGER Delete Demo.node "n"].
Proof.
  apply (failed_create_installs_adapter_then_schedules_delete
           Examples.halfCreated 6 Demo.node "n" emptyOptions Demo.world0
           Examples.nCreating Examples.nFailed.1.1
           (newManager Demo.nodeType "/data/node") 0 Examples.nFailed.1.2
           (ExternalError None "cannot start") 1).
  - intros r Hx. change (is_Some ((∅ : gmap nat TaskList) !! r)) in Hx.
    by apply lookup_empty_is_Some in Hx.
  - intros op k name r. unfold inFlight. simpl.
    destruct (decide (k = Demo.node)) as [->|Hn];
      [rewrite lookup_insert_eq; by destruct op|].
    rewrite lookup_insert_ne by done.
    destruct (decide (k = Demo.wallet)) as [->|Hw];
      [rewrite lookup_insert_eq; by destruct op|].
    rewrite lookup_insert_ne by done.
    destruct (decide (k = Demo.disk)) as [->|Hd];
      [rewrite lookup_insert_eq; by destruct op|].
    by rewrite lookup_insert_ne.
  - vm_compute. reflexivity.
  - vm_compute. reflexivity.
  - vm_compute. reflexivity.
  - vm_compute. reflexivity.
  - vm_compute. reflexivity.
Defined.

(** What the failed create of node [n] left: adapter 1 under [n], the
    wallet it created as its direct dependent, [n] itself among the
    dependents of disk [d], and a stop and a delete in the background. *)
Lemma failed_create_of_n :
  adaptersOf Examples.nFailed.1.1 Demo.node !! "n" = Some (Some 1) ∧
  (_directResourceDependents <$> managers Examples.nFailed.1.1 !! Demo.node)
    ≫= (.!! "n") = Some [mkDep "p" "wallet" "w"] ∧
  (_resourceDependents <$> managers Examples.nFailed.1.1 !! Demo.disk)
    ≫= (.!! "d") = Some [mkDep "p" "node" "n"] ∧
  background Examples.nFailed.1.1
    = [ {| detached_taskList := 2; detached_caught := true |};
        {| detached_taskList := 3; detached_caught := true |} ] ∧
  builtBy <$> closureOf Examples.nFailed.1.1 3
    = Some (Some (Delete, Demo.node, "n")).
Proof. vm_compute. repeat split; reflexivity. Qed.

(** * Further properties of the manager *)

(** ** The lists of dependents an operation delegates to *)

Lemma filterDeps_spec supported (sup : ResourceDependency → bool) w deps :
  (∀ d m,
     getResourcesManager w (dep_plugin d) (dep_resourceType d) = Some m →
     sup d = supported (getCRUD (resourceType m))) →
  match filterDeps supported w deps with
  | Returns l =>
      Forall (known w) deps ∧ l = filter (λ d, sup d = true) deps
  | Throws e =>
      ∃ pre d post,
        deps = pre ++ d :: post ∧ Forall (known w) pre ∧ ¬ known w d ∧
        e = UnknownResourcesManager (dep_plugin d) (dep_resourceType d)
  end.
Proof.
  intros Hsup. induction deps as [|d deps IH]; simpl.
  - split; [constructor|done].
  - destruct (getResourcesManager w (dep_plugin d) (dep_resourceType d))
      as [m|] eqn:Hm.
    + assert (Hk : known w d) by (unfold known; rewrite Hm; by eexists).
      destruct (filterDeps supported w deps) as [l|e].
      * destruct IH as [Hall ->]. split; [by constructor|].
        rewrite filter_cons, (Hsup d m Hm).
        destruct (supported _); simpl;
          repeat case_decide; try done; congruence.
      * destruct IH as (pre & d' & post & -> & Hpre & Hd' & ->).
        exists (d :: pre), d', post. repeat split; try done.
        by constructor.
    + exists [], d, deps. repeat split; try done.
      unfold known. rewrite Hm. by intros [].
Qed.

(** X1. [_getStartDeps] and [_getStopDeps] answer for every list,
    [undefined] being the empty one: when the manager of every
    dependent is registered, the dependents whose resource type defines
    [start] (for the other, [stop]), in the order of the list; otherwise
    they throw what [getResourcesManager] throws for the first dependent
    whose manager is not registered, also when a later dependent would
    have been filtered out. *)
Theorem getStartDeps_getStopDeps_filter_or_throw
    (w : World) (deps : option (list ResourceDependency)) :
  match _getStartDeps w deps with
  | Returns l =>
      Forall (known w) (default [] deps) ∧
      l = filter (λ d, supportsStart w d = true) (default [] deps)
  | Throws e =>
      ∃ pre d post,
        default [] deps = pre ++ d :: post ∧ Forall (known w) pre ∧
        ¬ known w d ∧
        e = UnknownResourcesManager (dep_plugin d) (dep_resourceType d)
  end ∧
  match _getStopDeps w deps with
  | Returns l =>
      Forall (known w) (default [] deps) ∧
      l = filter (λ d, supportsStop w d = true) (default [] deps)
  | Throws e =>
      ∃ pre d post,
        default [] deps = pre ++ d :: post ∧ Forall (known w) pre ∧
        ¬ known w d ∧
        e = UnknownResourcesManager (dep_plugin d) (dep_resourceType d)
  end.
Proof.
  split.
  - apply filterDeps_spec. intros d m Hm. unfold supportsStart.
    rewrite Hm. by destruct (crud_start _).
  - apply filterDeps_spec. intros d m Hm. unfold supportsStop.
    rewrite Hm. by destruct (crud_stop _).
Qed.

Lemma depTargets_spec op w deps :
  match depTargets op w deps with
  | Returns targets =>
      Forall (λ d, supports op w d = true) deps ∧
      targets = targetOf <$> deps
  | Throws e =>
      ∃ pre d post,
        deps = pre ++ d :: post ∧
        Forall (λ d, supports op w d = true) pre ∧
        supports op w d = false ∧
        e = match getResourcesManager w (dep_plugin d) (dep_resourceType d)
            with
            | None =>
                UnknownResourcesManager (dep_plugin d) (dep_resourceType d)
            | Some _ => ForFlow
            end
  end.
Proof.
  induction deps as [|d deps IH]; simpl.
  - split; [constructor|done].
  - destruct (getResourcesManager w (dep_plugin d) (dep_resourceType d))
      as [m|] eqn:Hm.
    + destruct (entryDefined op (getCRUD (resourceType m))) eqn:He.
      * assert (Hs : supports op w d = true)
          by (unfold supports; by rewrite Hm).
        destruct (depTargets op w deps) as [l|e].
        -- destruct IH as [Hall ->]. split; [by constructor|done].
        -- destruct IH as (pre & d' & post & -> & Hpre & Hd' & ->).
           exists (d :: pre), d', post. repeat split; try done.
           by constructor.
      * exists [], d, deps. repeat split; try done.
        -- unfold supports. by rewrite Hm.
        -- by rewrite Hm.
    + exists [], d, deps. repeat split; try done.
      * unfold supports. by rewrite Hm.
      * by rewrite Hm.
Qed.

(** X2. [_deleteDeps], [_startDeps] and [_stopDeps] look every manager
    up while they build the task list, so they either return a new task
    list with one task per dependent, in the order of the list, each
    calling the operation with [{}] on the manager of that dependent, or
    throw and leave everything as it was: for the first dependent whose
    manager is not registered what [getResourcesManager] throws, and for
    the first one whose resource type lacks the [start] (for
    [_stopDeps], the [stop]) entry the error 'For Flow'.  [_deleteDeps]
    throws only for a manager that is not registered. *)
Theorem deps_taskList_is_built_whole_or_not_at_all
    (op : Op) (deps : list ResourceDependency) (w : World) :
  match depsTaskList op deps w with
  | (w', Returns r) =>
      Forall (λ d, supports op w d = true) deps ∧
      r = nextRef w ∧
      w' = (newTaskList (DepsTL op (targetOf <$> deps)) w).1 ∧
      task <$> tasksOf (DepsTL op (targetOf <$> deps))
        = (λ d, Call op (dep_plugin d, dep_resourceType d) (dep_name d)
                  emptyOptions) <$> deps
  | (w', Throws e) =>
      w' = w ∧
      ∃ pre d post,
        deps = pre ++ d :: post ∧
        Forall (λ d, supports op w d = true) pre ∧
        supports op w d = false ∧
        e = (if decide (known w d) then ForFlow
             else UnknownResourcesManager (dep_plugin d)
                    (dep_resourceType d)) ∧
        (op = Delete → ¬ known w d)
  end.
Proof.
  rewrite depsTaskList_eq. pose proof (depTargets_spec op w deps) as H.
  destruct (depTargets op w deps) as [targets|e].
  - destruct H as [Hall ->]. repeat split; try done.
    simpl. rewrite <- !list_fmap_compose. by apply list_fmap_ext.
  - destruct H as (pre & d & post & -> & Hpre & Hd & ->).
    split; [done|]. exists pre, d, post. repeat split; try done.
    + unfold known. destruct (getResourcesManager _ _ _) as [m|];
        case_decide as Hk; try done;
        first [by destruct Hk; eexists | by destruct Hk].
    + intros -> [m Hm]. unfold supports in Hd. by rewrite Hm in Hd.
Qed.

(** ** [init()] *)

Lemma firstDuplicate_None seen resources :
  firstDuplicate seen resources = None ↔
  NoDup resources ∧ ∀ name, name ∈ resources → name ∉ seen.
Proof.
  revert seen. induction resources as [|name rest IH]; intros seen; simpl.
  - split; [|done]. intros _. split; [constructor|].
    by intros name Hin%elem_of_nil.
  - case_decide as Hseen.
    + split; [done|]. intros [_ H]. destruct (H name); [by left|done].
    + rewrite IH. split.
      * intros [Hnd Hrest]. split.
        -- constructor; [|done]. intros Hin. apply (Hrest _ Hin). by left.
        -- intros x [->|Hx]%elem_of_cons; [done|].
           intros Hxs. apply (Hrest _ Hx). by right.
      * intros [[Hname Hnd]%NoDup_cons Hall]. split; [done|].
        intros x Hx [->|Hxs]%elem_of_cons; [done|].
        apply (Hall x); [by right|done].
Qed.




Lemma Frame_sym {X : Type} (proj : Manager → X) w w' :
  Frame proj w w' → Frame proj w' w.
Proof. intros H k. by rewrite H. Qed.

Lemma adaptersOf_Frame w w' k :
  Frame _resourceAdapters w w' → adaptersOf w' k = adaptersOf w k.
Proof.
  intros H. specialize (H k). unfold adaptersOf.
  destruct (managers w !! k), (managers w' !! k); try done.
  by injection H as ->.
Qed.

Lemma directDependentsOf_Frame w w' k :
  Frame _directResourceDependents w w' →
  directDependentsOf w' k = directDependentsOf w k.
Proof.
  intros H. specialize (H k). unfold directDependentsOf.
  destruct (managers w !! k), (managers w' !! k); try done.
  by injection H as ->.
Qed.

Lemma dependentsOf_Frame w w' k :
  Frame _resourceDependents w w' → dependentsOf w' k = dependentsOf w k.
Proof.
  intros H. specialize (H k). unfold dependentsOf.
  destruct (managers w !! k), (managers w' !! k); try done.
  by injection H as ->.
Qed.

Lemma hooksOf_Frame w w' k :
  Frame _createHooks w w' → hooksOf w' k = hooksOf w k.
Proof.
  intros H. specialize (H k). unfold hooksOf.
  destruct (managers w !! k), (managers w' !! k); try done.
  by injection H as ->.
Qed.

Lemma unknown_Frame {X : Type} (proj : Manager → X) w w' k :
  Frame proj w w' → managers w' !! k = None → managers w !! k = None.
Proof.
  intros H. specialize (H k).
  destruct (managers w !! k), (managers w' !! k); done.
Qed.

Lemma _addDependents_trace self deps w :
  trace (_addDependents self deps w).1 = trace w.
Proof.
  revert w. induction deps as [|d deps IH]; intros w; simpl; [done|].
  destruct (getResourcesManager _ _ _); [|done]. by rewrite IH.
Qed.

(** What [_addDependents] answers: it throws for the first dependency
    whose manager is not registered. *)
Lemma _addDependents_result self deps w :
  match (_addDependents self deps w).2 with
  | None => Forall (registeredWith (_addDependents self deps w).1 self) deps
  | Some e =>
      ∃ d, d ∈ deps ∧
        managers w !! (dep_plugin d, dep_resourceType d) = None ∧
        e = UnknownResourcesManager (dep_plugin d) (dep_resourceType d)
  end.
Proof.
  revert w. induction deps as [|d deps IH]; intros w; simpl; [done|].
  destruct (getResourcesManager w (dep_plugin d) (dep_resourceType d))
    as [md|] eqn:Hmd; simpl.
  - specialize (IH (addDependent (dep_plugin d, dep_resourceType d)
                      (dep_name d) self w)).
    destruct (_addDependents self deps _) as [w' [e|]] eqn:E;
      cbn [fst snd] in *.
    + destruct IH as (d' & Hd' & Hnone & ->). exists d'.
      split; [by right|]. split; [|done].
      revert Hnone. apply (unknown_Frame resourceType).
      by apply Frame_updManager.
    + constructor; [|done].
      replace w' with (_addDependents self deps
                         (addDependent (dep_plugin d, dep_resourceType d)
                            (dep_name d) self w)).1 by by rewrite E.
      apply registeredWith__addDependents, addDependent_registers.
      by exists md.
  - exists d. split; [by left|done].
Qed.

(** One resource of [init]. *)
Lemma initOne_spec env k m name w :
  is_Some (managers w !! k) →
  let w1 := (initOne env k m name w).1 in
  Frame resourceType w w1 ∧
  (∀ self d, registeredWith w self d → registeredWith w1 self d) ∧
  (∀ name', name' ≠ name →
     adaptersOf w1 k !! name' = adaptersOf w k !! name' ∧
     directDependentsOf w1 k !! name' = directDependentsOf w k !! name') ∧
  adaptersOf w1 k !! name
    = match initResourceAdapter env name
              (_dataPath m +:+ "/resources/" +:+ name) with
      | Returns a => Some (Some a)
      | Throws _ => adaptersOf w k !! name
      end ∧
  match (initOne env k m name w).2 with
  | Some err =>
      ie_resource err = name ∧
      ie_resourceType err = rt_name (resourceType m) ∧
      initFails env w m name (ie_error err)
  | None =>
      ∃ a dependencies dependents,
        initResourceAdapter env name (_dataPath m +:+ "/resources/" +:+ name)
          = Returns a ∧
        _readDeps (readJSON env) (_getDependenciesPath m name)
          = Returns dependencies ∧
        _readDeps (readJSON env) (_getDirectDependentsPath m name)
          = Returns dependents ∧
        directDependentsOf w1 k !! name = Some dependents ∧
        Forall (registeredWith w1 (selfDependency w k name)) dependencies
  end.
Proof.
  intros [m0 Hm0]. unfold initOne, logInvoke. cbv zeta.
  set (wa := emit (RESOURCE_ADAPTER_INIT k name) w).
  set (inited := initResourceAdapter env name
                   (_dataPath m +:+ "/resources/" +:+ name)).
  set (wb := match inited with
             | Returns a =>
                 updManager k (λ m1,
                   with_resourceAdapters
                     (<[name := Some a]> (_resourceAdapters m1)) m1) wa
             | Throws _ => wa
             end).
  assert (Hb : Frame resourceType w wb ∧ Frame _resourceDependents w wb ∧
               Frame _directResourceDependents w wb ∧
               (∀ name', name' ≠ name →
                  adaptersOf wb k !! name' = adaptersOf w k !! name') ∧
               adaptersOf wb k !! name
                 = match inited with
                   | Returns a => Some (Some a)
                   | Throws _ => adaptersOf w k !! name
                   end).
  { unfold wb. destruct inited as [a|e]; [|done].
    repeat split;
      try (intros k'; change (managers w) with (managers wa);
           by apply Frame_updManager).
    - intros name' Hne. unfold adaptersOf.
      rewrite lookup_updManager_eq. change (managers wa) with (managers w).
      rewrite Hm0. simpl. by rewrite lookup_insert_ne.
    - unfold adaptersOf.
      rewrite lookup_updManager_eq. change (managers wa) with (managers w).
      rewrite Hm0. simpl. by rewrite lookup_insert_eq. }
  destruct Hb as (Ft & Fr & Fd & Hother & Hname).
  assert (Hfail : ∀ e, initFails env w m name e →
    Frame resourceType w wb ∧
    (∀ self d, registeredWith w self d → registeredWith wb self d) ∧
    (∀ name', name' ≠ name →
       adaptersOf wb k !! name' = adaptersOf w k !! name' ∧
       directDependentsOf wb k !! name' = directDependentsOf w k !! name') ∧
    adaptersOf wb k !! name
      = match inited with
        | Returns a => Some (Some a)
        | Throws _ => adaptersOf w k !! name
        end ∧
    name = name ∧ rt_name (resourceType m) = rt_name (resourceType m) ∧
    initFails env w m name e).
  { intros e He. repeat split; try done.
    - intros self d. by apply registeredWith_Frame.
    - by apply Hother.
    - by rewrite (directDependentsOf_Frame _ _ _ Fd). }
  destruct inited as [a|e] eqn:Hinit; [|by apply Hfail; left].
  destruct (_readDeps (readJSON env) (_getDependenciesPath m name))
    as [dependencies|e] eqn:Hdeps; [|by apply Hfail; right; left].
  destruct (_readDeps (readJSON env) (_getDirectDependentsPath m name))
    as [dependents|e] eqn:Hdir; [|by apply Hfail; right; right; left].
  clear Hfail.
  set (wc := updManager k (λ m1,
               with_directResourceDependents
                 (<[name := dependents]> (_directResourceDependents m1)) m1)
               wb).
  assert (Hmb : is_Some (managers wb !! k)).
  { destruct (Frame_manager_exists _ _ _ _ Ft Hm0) as (mb & -> & _).
    by eexists. }
  destruct Hmb as [mb Hmb].
  assert (Hc : Frame resourceType wb wc ∧ Frame _resourceDependents wb wc ∧
               Frame _resourceAdapters wb wc ∧
               (∀ name', name' ≠ name →
                  directDependentsOf wc k !! name'
                    = directDependentsOf wb k !! name') ∧
               directDependentsOf wc k !! name = Some dependents).
  { repeat split; try (by apply Frame_updManager).
    - intros name' Hne. unfold directDependentsOf, wc.
      rewrite lookup_updManager_eq, Hmb. simpl. by rewrite lookup_insert_ne.
    - unfold directDependentsOf, wc.
      rewrite lookup_updManager_eq, Hmb. simpl. by rewrite lookup_insert_eq. }
  destruct Hc as (Ft' & Fr' & Fa' & Hother' & Hname').
  pose proof (_addDependents_result (selfDependency wc k name) dependencies wc)
    as Hres.
  pose proof (_addDependents_keeps resourceType (selfDependency wc k name)
                dependencies wc (λ _ _, eq_refl)) as Ft2.
  pose proof (_addDependents_keeps _resourceAdapters
                (selfDependency wc k name) dependencies wc (λ _ _, eq_refl))
    as Fa2.
  pose proof (_addDependents_keeps _directResourceDependents
                (selfDependency wc k name) dependencies wc (λ _ _, eq_refl))
    as Fd2.
  pose proof (λ self d,
                registeredWith__addDependents wc self d
                  (selfDependency wc k name) dependencies) as Hreg.
  assert (Hself : selfDependency wc k name = selfDependency w k name).
  { rewrite (selfDependency_Frame _ _ _ _ Ft').
    by rewrite (selfDependency_Frame _ _ _ _ Ft). }
  rewrite Hself in *.
  destruct (_addDependents (selfDependency w k name) dependencies wc)
    as [wd oe]. cbn [fst snd] in *.
  assert (Hcommon :
    Frame resourceType w wd ∧
    (∀ self d, registeredWith w self d → registeredWith wd self d) ∧
    (∀ name', name' ≠ name →
       adaptersOf wd k !! name' = adaptersOf w k !! name' ∧
       directDependentsOf wd k !! name' = directDependentsOf w k !! name') ∧
    adaptersOf wd k !! name = Some (Some a) ∧
    directDependentsOf wd k !! name = Some dependents).
  { split; [by repeat (eapply Frame_trans; [done|])|].
    split.
    { intros self d H. apply Hreg.
      apply (registeredWith_Frame wb); [done|].
      by apply (registeredWith_Frame w). }
    rewrite (adaptersOf_Frame _ _ _ Fa2), (adaptersOf_Frame _ _ _ Fa').
    rewrite (directDependentsOf_Frame _ _ _ Fd2).
    split; [|done].
    intros name' Hne. split; [by apply Hother|].
    rewrite Hother' by done. by rewrite (directDependentsOf_Frame _ _ _ Fd). }
  destruct Hcommon as (H1 & H2 & H3 & H4 & H5).
  destruct oe as [e|]; cbn [fst snd];
    refine (conj H1 (conj H2 (conj H3 (conj H4 _)))).
  - split; [done|]. split; [done|]. cbn [ie_error].
    destruct Hres as (d & Hd & Hnone & ->).
    right. right. right. exists dependencies, d.
    split; [done|]. split; [done|]. split; [|done].
    revert Hnone. apply (unknown_Frame resourceType).
    eapply Frame_trans; [exact Ft|exact Ft'].
  - by exists a, dependencies, dependents.
Qed.

Lemma initFails_Frame env w w' m name e :
  Frame resourceType w w' →
  initFails env w' m name e → initFails env w m name e.
Proof.
  intros HF [H|[H|[H|(deps & d & H1 & H2 & H3 & H4)]]];
    [by left|by right; left|by right; right; left|].
  right. right. right. exists deps, d. repeat split; try done.
  by apply (unknown_Frame resourceType _ _ _ HF).
Qed.

(** All the resources of [init]. *)
Lemma initAll_spec env k m resources :
  NoDup resources → ∀ w, is_Some (managers w !! k) →
  Frame resourceType w (initAll env k m resources w).1 ∧
  (∀ self d,
     registeredWith w self d →
     registeredWith (initAll env k m resources w).1 self d) ∧
  (∀ name, name ∉ resources →
     adaptersOf (initAll env k m resources w).1 k !! name
       = adaptersOf w k !! name ∧
     directDependentsOf (initAll env k m resources w).1 k !! name
       = directDependentsOf w k !! name) ∧
  (∀ name, name ∈ resources →
     adaptersOf (initAll env k m resources w).1 k !! name
       = match initResourceAdapter env name
               (_dataPath m +:+ "/resources/" +:+ name) with
         | Returns a => Some (Some a)
         | Throws _ => adaptersOf w k !! name
         end) ∧
  ie_resource <$> (initAll env k m resources w).2 `sublist_of` resources ∧
  Forall (λ err, ie_resourceType err = rt_name (resourceType m) ∧
                 initFails env w m (ie_resource err) (ie_error err))
    (initAll env k m resources w).2 ∧
  (∀ name,
     name ∈ resources →
     name ∉ ie_resource <$> (initAll env k m resources w).2 →
     ∃ a dependencies dependents,
       initResourceAdapter env name (_dataPath m +:+ "/resources/" +:+ name)
         = Returns a ∧
       _readDeps (readJSON env) (_getDependenciesPath m name)
         = Returns dependencies ∧
       _readDeps (readJSON env) (_getDirectDependentsPath m name)
         = Returns dependents ∧
       directDependentsOf (initAll env k m resources w).1 k !! name
         = Some dependents ∧
       Forall (registeredWith (initAll env k m resources w).1
                 (selfDependency w k name)) dependencies).
Proof.
  induction 1 as [|name rest Hname Hnd IH]; intros w Hm; simpl.
  - repeat split; try done; try by intros name Hin%elem_of_nil.
  - destruct (initOne_spec env k m name w Hm) as (A1 & A2 & A3 & A4 & A5).
    destruct (initOne env k m name w) as [w1 result]. cbn [fst snd] in *.
    assert (Hm1 : is_Some (managers w1 !! k)).
    { destruct Hm as [m0 Hm0].
      destruct (Frame_manager_exists _ _ _ _ A1 Hm0) as (m1 & -> & _).
      by eexists. }
    destruct (IH w1 Hm1) as (B1 & B2 & B3 & B4 & B5 & B6 & B7).
    destruct (initAll env k m rest w1) as [w2 results]. cbn [fst snd] in *.
    split; [by eapply Frame_trans|]. split; [by auto|].
    split; [|split; [|split; [|split]]].
    + intros name' [Hne Hrest]%not_elem_of_cons.
      destruct (B3 name' Hrest) as [-> ->]. by apply A3.
    + intros name' [->|Hin]%elem_of_cons.
      * destruct (B3 name Hname) as [-> _]. done.
      * rewrite (B4 name' Hin).
        assert (name' ≠ name) by by intros ->.
        destruct (A3 name') as [-> _]; done.
    + destruct result as [err|]; simpl.
      * destruct A5 as (-> & _). by apply sublist_skip.
      * by apply sublist_cons.
    + assert (Hrest : Forall
                (λ err, ie_resourceType err = rt_name (resourceType m) ∧
                        initFails env w m (ie_resource err) (ie_error err))
                results).
      { eapply Forall_impl; [exact B6|]. intros err [? ?]. split; [done|].
        by eapply initFails_Frame. }
      destruct result as [err|]; [|done].
      constructor; [|done]. destruct A5 as (-> & ? & ?). done.
    + intros name' Hin Hrep.
      assert (Hrep' : name' ∉ ie_resource <$> results).
      { intros H. apply Hrep. destruct result; simpl; [by right|done]. }
      apply elem_of_cons in Hin as [->|Hin].
      * destruct result as [err|].
        { destruct Hrep. simpl. destruct A5 as (-> & _). by left. }
        destruct A5 as (a & deps & dependents & ? & ? & ? & Hd & Hreg).
        exists a, deps, dependents. repeat split; try done.
        -- by destruct (B3 name Hname) as [_ ->].
        -- eapply Forall_impl; [exact Hreg|]. intros d. apply B2.
      * destruct (B7 name' Hin Hrep')
          as (a & deps & dependents & ? & ? & ? & Hd & Hreg).
        exists a, deps, dependents. repeat split; try done.
        by rewrite <- (selfDependency_Frame _ _ _ _ A1).
Qed.

(** X4. [init()] over ready names that are all different (and with
    the directories made) returns one error per resource whose [try]
    block threw, in the order of the ready names, and goes on with the
    other resources.  Afterwards the adapters map holds nothing from
    before: an entry is an adapter the master adapter returned for a
    ready name.  A resource that is not reported has its adapter in the
    map, has what its dependents file holds ([[]] when the file is
    missing) as its direct dependents, and is registered as a dependent
    with every resource its dependencies file names.  A reported
    resource carries a rejection of the master adapter or of a read, or
    the error for a dependency whose manager is not registered. *)
Theorem init_installs_each_ready_resource_or_reports_it
    (env : InitEnv) (k : ManagerKey) (w : World) (m : Manager)
    (resources : list string) :
  managers w !! k = Some m →
  ensureDir env = None →
  ready_getAll env = Returns resources →
  NoDup resources →
  ∃ w' errors,
    init env k w = (w', Returns errors) ∧
    ie_resource <$> errors `sublist_of` resources ∧
    Forall (λ err, ie_resourceType err = rt_name (resourceType m) ∧
                   initFails env w m (ie_resource err) (ie_error err))
      errors ∧
    (∀ name x,
       adaptersOf w' k !! name = Some x →
       name ∈ resources ∧
       ∃ a, x = Some a ∧
         initResourceAdapter env name
           (_dataPath m +:+ "/resources/" +:+ name) = Returns a) ∧
    (∀ name,
       name ∈ resources → name ∉ ie_resource <$> errors →
       ∃ a dependencies dependents,
         initResourceAdapter env name
           (_dataPath m +:+ "/resources/" +:+ name) = Returns a ∧
         _readDeps (readJSON env) (_getDependenciesPath m name)
           = Returns dependencies ∧
         _readDeps (readJSON env) (_getDirectDependentsPath m name)
           = Returns dependents ∧
         adaptersOf w' k !! name = Some (Some a) ∧
         directDependentsOf w' k !! name = Some dependents ∧
         Forall (registeredWith w' (selfDependency w k name)) dependencies) ∧
    trace w' = trace w ++ [RESOURCES_MANAGER_INIT k]
                 ++ ((λ name, RESOURCE_ADAPTER_INIT k name) <$> resources)
                 ++ [UPDATE k].
Proof.
  intros Hm Hdir Hready Hnd. unfold init, logInvoke. rewrite Hm, Hdir, Hready.
  assert (Hdup : firstDuplicate [] resources = None).
  { apply firstDuplicate_None. split; [done|].
    by intros name _ H%elem_of_nil. }
  rewrite Hdup.
  set (w0 := updManager k (with_resourceAdapters ∅)
               (emit (RESOURCES_MANAGER_INIT k) w)).
  assert (Hm0 : is_Some (managers w0 !! k)).
  { unfold w0. rewrite lookup_updManager_eq.
    change (managers (emit _ w)) with (managers w). rewrite Hm. by eexists. }
  assert (Ha0 : adaptersOf w0 k = ∅).
  { unfold adaptersOf, w0. rewrite lookup_updManager_eq.
    change (managers (emit _ w)) with (managers w). by rewrite Hm. }
  assert (Ft0 : Frame resourceType w w0).
  { intros k'. change (managers w) with (managers (emit (RESOURCES_MANAGER_INIT k) w)).
    by apply Frame_updManager. }
  destruct (initAll_spec env k m resources Hnd w0 Hm0)
    as (B1 & B2 & B3 & B4 & B5 & B6 & B7).
  assert (Htrace : trace (initAll env k m resources w0).1
                   = trace w0
                       ++ ((λ name, RESOURCE_ADAPTER_INIT k name)
                             <$> resources)).
  { clear. generalize w0. clear w0.
    induction resources as [|name rest IH]; intros w0; simpl.
    - by rewrite app_nil_r.
    - pose proof (IH (initOne env k m name w0).1) as IH'.
      assert (Hone : trace (initOne env k m name w0).1
                     = trace w0 ++ [RESOURCE_ADAPTER_INIT k name]).
      { unfold initOne, logInvoke. cbv zeta.
        destruct (initResourceAdapter env name _); [|done].
        destruct (_readDeps _ _); [|done].
        destruct (_readDeps _ _); [|done].
        match goal with
        | |- context [_addDependents ?s ?d ?w1] =>
            pose proof (_addDependents_trace s d w1) as Ht;
            destruct (_addDependents s d w1) as [w2 [e|]]
        end; done. }
      destruct (initOne env k m name w0) as [w1 result].
      cbn [fst] in IH', Hone.
      destruct (initAll env k m rest w1) as [w2 results].
      cbn [fst snd] in *. rewrite IH', Hone. by rewrite <- app_assoc. }
  destruct (initAll env k m resources w0) as [w' errors].
  cbn [fst snd] in *.
  exists (emit (UPDATE k) w'), errors. split; [done|]. split; [done|].
  split; [|split; [|split]].
  - eapply Forall_impl; [exact B6|]. intros err [? ?]. split; [done|].
    by eapply initFails_Frame.
  - intros name x. change (adaptersOf (emit (UPDATE k) w') k)
      with (adaptersOf w' k).
    destruct (decide (name ∈ resources)) as [Hin|Hout].
    + rewrite (B4 name Hin), Ha0, lookup_empty.
      destruct (initResourceAdapter env name _) as [a|e]; [|done].
      intros [= <-]. split; [done|]. by exists a.
    + destruct (B3 name Hout) as [-> _]. by rewrite Ha0, lookup_empty.
  - intros name Hin Hrep.
    destruct (B7 name Hin Hrep)
      as (a & deps & dependents & Hinit & ? & ? & Hd & Hreg).
    exists a, deps, dependents. repeat split; try done.
    + change (adaptersOf (emit (UPDATE k) w') k) with (adaptersOf w' k).
      by rewrite (B4 name Hin), Hinit.
    + by rewrite <- (selfDependency_Frame _ _ _ _ Ft0).
  - simpl. rewrite Htrace. unfold w0. simpl. by rewrite <- !app_assoc.
Qed.

Lemma init_installs_each_ready_resource_or_reports_it_witness :
  ∃ w' errors,
    init DemoInit.env Demo.node Examples.diskD = (w', Returns errors) ∧
    ie_resource <$> errors `sublist_of` ["a"; "b"; "c"] ∧
    Forall (λ err,
              ie_resourceType err
                = rt_name (resourceType (newManager Demo.nodeType "/data/node"))
              ∧ initFails DemoInit.env Examples.diskD
                  (newManager Demo.nodeType "/data/node")
                  (ie_resource err) (ie_error err))
      errors ∧
    (∀ name x,
       adaptersOf w' Demo.node !! name = Some x →
       name ∈ ["a"; "b"; "c"] ∧
       ∃ a, x = Some a ∧
         initResourceAdapter DemoInit.env name
           (_dataPath (newManager Demo.nodeType "/data/node")
              +:+ "/resources/" +:+ name) = Returns a) ∧
    (∀ name,
       name ∈ ["a"; "b"; "c"] → name ∉ ie_resource <$> errors →
       ∃ a dependencies dependents,
         initResourceAdapter DemoInit.env name
           (_dataPath (newManager Demo.nodeType "/data/node")
              +:+ "/resources/" +:+ name) = Returns a ∧
         _readDeps (readJSON DemoInit.env)
           (_getDependenciesPath (newManager Demo.nodeType "/data/node") name)
           = Returns dependencies ∧
         _readDeps (readJSON DemoInit.env)
           (_getDirectDependentsPath (newManager Demo.nodeType "/data/node")
              name)
           = Returns dependents ∧
         adaptersOf w' Demo.node !! name = Some (Some a) ∧
         directDependentsOf w' Demo.node !! name = Some dependents ∧
         Forall (registeredWith w'
                   (selfDependency Examples.diskD Demo.node name))
           dependencies) ∧
    trace w' = trace Examples.diskD ++ [RESOURCES_MANAGER_INIT Demo.node]
                 ++ ((λ name, RESOURCE_ADAPTER_INIT Demo.node name)
                       <$> ["a"; "b"; "c"])
                 ++ [UPDATE Demo.node].
Proof.
  apply (init_installs_each_ready_resource_or_reports_it DemoInit.env
           Demo.node Examples.diskD (newManager Demo.nodeType "/data/node")
           ["a"; "b"; "c"]).
  - vm_compute. reflexivity.
  - reflexivity.
  - reflexivity.
  - apply (bool_decide_unpack _). vm_compute. reflexivity.
Defined.

(** The run of that [init]: [a] is installed and registered with disk
    [d]; [b] is reported and absent; [c] is reported, for the manager
    that is not registered, with its adapter and its (empty) direct
    dependents in the maps all the same. *)
Lemma init_of_the_node_manager :
  (init DemoInit.env Demo.node Examples.diskD).2
    = Returns [ {| ie_resourceType := "node"; ie_resource := "b";
                   ie_error := DemoInit.corrupt |};
                {| ie_resourceType := "node"; ie_resource := "c";
                   ie_error := UnknownResourcesManager "q" "x" |} ] ∧
  map_to_list (adaptersOf (init DemoInit.env Demo.node Examples.diskD).1
                 Demo.node)
    ≡ₚ [("a", Some 10); ("c", Some 12)] ∧
  dependentsOf (init DemoInit.env Demo.node Examples.diskD).1 Demo.disk
    !! "d" = Some [mkDep "p" "node" "a"].
Proof.
  split; [by vm_compute|]. split; [|by vm_compute].
  vm_compute. apply Permutation_swap.
Qed.

(** ** Operations on a resource that is already there, or is not *)

Lemma alter_slot_roundtrip (op : Op) (k : ManagerKey) (name : string)
    (r : TaskListRef) (ms : gmap ManagerKey Manager) (m : Manager) :
  ms !! k = Some m → taskLists op m !! name = None →
  alter (λ m', with_taskLists op (delete name (taskLists op m')) m') k
    (alter (λ m', with_taskLists op (<[name := r]> (taskLists op m')) m') k
       ms)
  = ms.
Proof.
  intros Hm Hslot. apply map_eq. intros k'. rewrite !lookup_alter.
  case_decide as Hk; [subst k'|done]. rewrite Hm. simpl.
  rewrite decide_True by done. simpl. f_equal.
  rewrite taskLists_with_taskLists, decide_True by done.
  rewrite delete_insert_id by done.
  clear. destruct op, m; reflexivity.
Qed.

(** X5. [create] of a name that has an adapter (and no create in
    flight): every task of the task list is skipped, the main one with
    the reason 'already exists'; the task list completes, whatever the
    collaborators would answer; the master adapter is not called, the
    maps of every manager are afterwards what they were before the call
    (the in-flight slot is empty again), and nothing is left running in
    the background. *)
Theorem create_of_an_existing_resource_changes_nothing
    (oracle : Oracle) (fuel : nat) (k : ManagerKey) (name : string)
    (options : ResourceOptions) (w : World) (m : Manager)
    (a : ResourceAdapter) :
  managers w !! k = Some m →
  _createTaskList m !! name = None →
  adapterOf m name = Some a →
  ∃ w1 w2,
    create k name options w = (w1, Returns (nextRef w)) ∧
    (∃ t, t ∈ default [] (tasksOf <$> closureOf w1 (nextRef w)) ∧
          task t = CreateAdapter k name options ∧
          skip t = Some AlreadyExists) ∧
    runTaskList oracle fuel (nextRef w) w1 = Some (w2, freshCtx, Completed) ∧
    managers w2 = managers w ∧
    background w2 = background w ∧
    trace w2 = trace w ++ [ RESOURCES_MANAGER Create k name;
                            RESOURCE_ADAPTER_COMPLETE Create k name;
                            DONE (nextRef w) false ].
Proof.
  intros Hm Hslot Ha. rewrite (create_eq _ _ _ _ _ Hm). cbv zeta.
  rewrite Hslot, Ha. rewrite bool_decide_eq_false_2 by by intros [].
  set (cl := CreateTL k name options false (Some a)
               (create_startOnCreate (getCRUD (resourceType m)))
               (crud_start (getCRUD (resourceType m))) false).
  change (nextRef (emit (RESOURCES_MANAGER Create k name) w))
    with (nextRef w).
  set (w1 := setTaskList Create k name (nextRef w)
               (newTaskList cl (emit (RESOURCES_MANAGER Create k name) w)).1).
  assert (Hr : heap w1 !! nextRef w
               = Some {| tl_closure := cl; tl_status := Pending |}).
  { unfold w1. rewrite heap_setTaskList. unfold newTaskList. simpl.
    apply lookup_insert_eq. }
  eexists w1, _. split; [done|]. split.
  { unfold closureOf. rewrite Hr. simpl. eexists. split; [by left|done]. }
  unfold runTaskList, runBody. rewrite Hr. cbn [freshContext concurrent cl].
  rewrite runSequential_skipped.
  2: { simpl. destruct (_ && _); simpl; repeat constructor; by eexists. }
  split; [reflexivity|]. unfold settle. rewrite Hr. cbn [onComplete onDone].
  split; [|split; [done|]].
  - symmetry. etrans;
      [symmetry; apply (alter_slot_roundtrip Create k name (nextRef w)
                          (managers w) m Hm Hslot)|].
    reflexivity.
  - simpl. by rewrite <- !app_assoc.
Qed.

Lemma create_of_an_existing_resource_changes_nothing_witness :
  ∃ w1 w2,
    create Demo.disk "d" emptyOptions Examples.diskD
      = (w1, Returns (nextRef Examples.diskD)) ∧
    (∃ t, t ∈ default []
                (tasksOf <$> closureOf w1 (nextRef Examples.diskD)) ∧
          task t = CreateAdapter Demo.disk "d" emptyOptions ∧
          skip t = Some AlreadyExists) ∧
    runTaskList Examples.startFails 0 (nextRef Examples.diskD) w1
      = Some (w2, freshCtx, Completed) ∧
    managers w2 = managers Examples.diskD ∧
    background w2 = background Examples.diskD ∧
    trace w2 = trace Examples.diskD
                 ++ [ RESOURCES_MANAGER Create Demo.disk "d";
                      RESOURCE_ADAPTER_COMPLETE Create Demo.disk "d";
                      DONE (nextRef Examples.diskD) false ].
Proof.
  apply (create_of_an_existing_resource_changes_nothing Examples.startFails
           0 Demo.disk "d" emptyOptions Examples.diskD
           (default (newManager Demo.diskType "")
              (managers Examples.diskD !! Demo.disk)) 7).
  - vm_compute. reflexivity.
  - vm_compute. reflexivity.
  - vm_compute. reflexivity.
Defined.

Lemma runSequential_passed oracle rec r ts (ctx : Ctx) (w : World) :
  Forall (λ t, enabled t w = false ∨ is_Some (skip t)) ts →
  runSequential oracle rec r ts ctx w = Some (w, ctx, Completed).
Proof.
  induction 1 as [|t ts [Hoff|[reason Hskip]] _ IH]; simpl; [done| |].
  - by rewrite Hoff.
  - rewrite Hskip. by destruct (negb _).
Qed.

(** X6. [delete] of a name that has no adapter, with no delete, create
    or start of that name in flight and the name not marked started:
    none of the aborts or the stop is enabled, the remaining tasks are
    skipped, the last one with the reason 'does not exist'; the task
    list completes without an error, whatever the collaborators would
    answer; no collaborator is called and the maps of every manager are
    afterwards what they were before the call. *)
Theorem delete_of_a_missing_resource_completes_and_changes_nothing
    (oracle : Oracle) (fuel : nat) (k : ManagerKey) (name : string)
    (options : ResourceOptions) (w : World) (m : Manager) :
  managers w !! k = Some m →
  _deleteTaskList m !! name = None →
  adapterOf m name = None →
  _createTaskList m !! name = None →
  _startTaskList m !! name = None →
  startedOf m name = false →
  ∃ w1 w2,
    delete_ k name options w = (w1, Returns (nextRef w)) ∧
    (∃ t, t ∈ default [] (tasksOf <$> closureOf w1 (nextRef w)) ∧
          task t = FinalCleanup k name None ∧
          skip t = Some NotExisting) ∧
    runTaskList oracle fuel (nextRef w) w1 = Some (w2, freshCtx, Completed) ∧
    managers w2 = managers w ∧
    background w2 = background w ∧
    trace w2 = trace w ++ [ RESOURCES_MANAGER Delete k name;
                            RESOURCE_ADAPTER_COMPLETE Delete k name;
                            DONE (nextRef w) false; UPDATE k ].
Proof.
  intros Hm Hslot Ha Hcreate Hstart Hstarted.
  rewrite (delete_eq _ _ _ _ _ Hm). cbv zeta.
  rewrite Hslot, Ha, Hcreate, Hstart.
  rewrite bool_decide_eq_false_2 by by intros [].
  match goal with
  | |- context [newTaskList ?c _] => set (cl := c)
  end.
  change (nextRef (emit (RESOURCES_MANAGER Delete k name) w))
    with (nextRef w).
  set (w1 := setTaskList Delete k name (nextRef w)
               (newTaskList cl (emit (RESOURCES_MANAGER Delete k name) w)).1).
  assert (Hr : heap w1 !! nextRef w
               = Some {| tl_closure := cl; tl_status := Pending |}).
  { unfold w1. rewrite heap_setTaskList. unfold newTaskList. simpl.
    apply lookup_insert_eq. }
  assert (Hm1 : ∃ m1, managers w1 !! k = Some m1 ∧ startedOf m1 name = false).
  { unfold w1, setTaskList. rewrite lookup_updManager_eq.
    change (managers (newTaskList cl _).1) with (managers w). rewrite Hm.
    eexists. split; [done|]. exact Hstarted. }
  destruct Hm1 as (m1 & Hm1 & Hstarted1).
  eexists w1, _. split; [done|]. split.
  { unfold closureOf. rewrite Hr.
    exists {| enabled := always; skip := Some NotExisting;
              task := FinalCleanup k name None |}.
    split; [|done]. simpl. apply elem_of_cons. right.
    apply elem_of_app. right. rewrite !elem_of_cons. auto. }
  unfold runTaskList, runBody. rewrite Hr. cbn [freshContext concurrent cl].
  rewrite runSequential_passed.
  2: { simpl. constructor; [by left|]. apply Forall_app. split.
       - apply Forall_app. split.
         + destruct (crud_start _); repeat constructor.
         + destruct (crud_stop _); [|constructor].
           constructor; [|constructor]. left. cbn [enabled].
           by rewrite Hm1.
       - repeat (constructor; [right; by eexists|]). constructor. }
  split; [reflexivity|]. unfold settle. rewrite Hr. cbn [onComplete onDone].
  split; [|split; [done|]].
  - symmetry. etrans;
      [symmetry; apply (alter_slot_roundtrip Delete k name (nextRef w)
                          (managers w) m Hm Hslot)|].
    reflexivity.
  - simpl. by rewrite <- !app_assoc.
Qed.

Lemma delete_of_a_missing_resource_completes_and_changes_nothing_witness :
  ∃ w1 w2,
    delete_ Demo.node "ghost" emptyOptions Examples.diskD
      = (w1, Returns (nextRef Examples.diskD)) ∧
    (∃ t, t ∈ default []
                (tasksOf <$> closureOf w1 (nextRef Examples.diskD)) ∧
          task t = FinalCleanup Demo.node "ghost" None ∧
          skip t = Some NotExisting) ∧
    runTaskList Examples.destroyFails 0 (nextRef Examples.diskD) w1
      = Some (w2, freshCtx, Completed) ∧
    managers w2 = managers Examples.diskD ∧
    background w2 = background Examples.diskD ∧
    trace w2 = trace Examples.diskD
                 ++ [ RESOURCES_MANAGER Delete Demo.node "ghost";
                      RESOURCE_ADAPTER_COMPLETE Delete Demo.node "ghost";
                      DONE (nextRef Examples.diskD) false;
                      UPDATE Demo.node ].
Proof.
  apply (delete_of_a_missing_resource_completes_and_changes_nothing
           Examples.destroyFails 0 Demo.node "ghost" emptyOptions
           Examples.diskD (newManager Demo.nodeType "/data/node")).
  - vm_compute. reflexivity.
  - reflexivity.
  - reflexivity.
  - reflexivity.
  - reflexivity.
  - reflexivity.
Defined.

(** X7. [start] of a name that has no adapter (its resource type defines
    [start] and [stop], no start or stop of the name is in flight and the
    managers of its direct dependents, if it has any, are registered):
    the adapter task is skipped with the reason 'does not exist' and the
    task list completes without calling a collaborator; but [onDone]
    does not look at why nothing ran, so the name is marked started
    afterwards, although no adapter is installed under it. *)
Theorem start_of_a_missing_resource_marks_it_started
    (oracle : Oracle) (fuel : nat) (k : ManagerKey) (name : string)
    (options : ResourceOptions) (w : World) (m : Manager) (s t : string) :
  managers w !! k = Some m →
  crud_start (getCRUD (resourceType m)) = Some s →
  crud_stop (getCRUD (resourceType m)) = Some t →
  _startTaskList m !! name = None →
  _stopTaskList m !! name = None →
  adapterOf m name = None →
  Forall (known w) (default [] (_directResourceDependents m !! name)) →
  ∃ w1 w2,
    start k name options w = (w1, Returns (nextRef w)) ∧
    (∃ t, t ∈ default [] (tasksOf <$> closureOf w1 (nextRef w)) ∧
          task t = AdapterTask AStart None options ∧
          skip t = Some NotExisting) ∧
    runTaskList oracle fuel (nextRef w) w1 = Some (w2, freshCtx, Completed) ∧
    trace w2 = trace w ++ [ RESOURCES_MANAGER Start k name;
                            RESOURCE_ADAPTER_COMPLETE Start k name;
                            DONE (nextRef w) false; UPDATE k ] ∧
    startedIn w2 k name = true ∧
    adaptersOf w2 k !! name = adaptersOf w k !! name ∧
    inFlight Start w2 k name = None ∧
    background w2 = background w.
Proof.
  intros Hm Hs Ht Hslot Hstop Ha Hknown.
  rewrite (start_eq _ _ _ _ _ _ _ Hm Hs Ht). cbv zeta.
  pose proof (filterDeps_spec (λ c, bool_decide (is_Some (crud_start c)))
                (λ d, supportsStart w d)
                (emit (RESOURCES_MANAGER Start k name) w)
                (default [] (_directResourceDependents m !! name))) as Hdeps.
  unfold _getStartDeps.
  destruct (filterDeps _ _ _) as [deps|e].
  2: { destruct Hdeps as (pre & d & post & Hsplit & _ & Hd & _).
       { intros d' m' Hm'. unfold supportsStart.
         change (getResourcesManager (emit _ w)) with (getResourcesManager w)
           in Hm'.
         rewrite Hm'. by rewrite isSome_bool_decide. }
       rewrite Hsplit in Hknown.
       apply Forall_app in Hknown as [_ [Hd' _]%Forall_cons]. by destruct Hd. }
  clear Hdeps.
  rewrite Hslot, Hstop, Ha. rewrite bool_decide_eq_false_2 by by intros [].
  set (cl := StartTL k name options false None None
               (_resourceAdaptersStarted m !! name) deps).
  change (nextRef (emit (RESOURCES_MANAGER Start k name) w))
    with (nextRef w).
  set (w1 := setTaskList Start k name (nextRef w)
               (newTaskList cl (emit (RESOURCES_MANAGER Start k name) w)).1).
  assert (Hr : heap w1 !! nextRef w
               = Some {| tl_closure := cl; tl_status := Pending |}).
  { unfold w1. rewrite heap_setTaskList. unfold newTaskList. simpl.
    apply lookup_insert_eq. }
  eexists w1, _. split; [done|]. split.
  { unfold closureOf. rewrite Hr.
    exists {| enabled := always; skip := Some NotExisting;
              task := AdapterTask AStart None options |}.
    split; [|done]. simpl. rewrite !elem_of_cons. auto. }
  unfold runTaskList, runBody. rewrite Hr. cbn [freshContext concurrent cl].
  rewrite runSequential_passed.
  2: { simpl. constructor; [by left|].
       repeat (constructor; [right; by eexists|]). constructor. }
  split; [reflexivity|]. unfold settle. rewrite Hr. unfold cl.
  cbn [onComplete onDone].
  split; [simpl; by rewrite <- !app_assoc|].
  assert (Hm2 : ∀ w', managers w' = managers w1 →
            managers (deleteTaskList Start k name (setStarted k name true w'))
              !! k
            = Some (with_resourceAdaptersStarted
                      (<[name := true]> (_resourceAdaptersStarted m)) m)).
  { intros w' Hw'. unfold deleteTaskList, setStarted.
    rewrite !lookup_updManager_eq, Hw'. unfold w1, setTaskList.
    rewrite lookup_updManager_eq.
    change (managers (newTaskList cl _).1) with (managers w). rewrite Hm.
    simpl. f_equal. rewrite delete_insert_id by done.
    clear. by destruct m. }
  split; [|split; [|split; [|done]]].
  - unfold startedIn.
    change (managers (emit (UPDATE k) ?x)) with (managers x).
    rewrite Hm2 by done. unfold startedOf. simpl.
    by rewrite lookup_insert_eq.
  - unfold adaptersOf.
    change (managers (emit (UPDATE k) ?x)) with (managers x).
    rewrite Hm2 by done. by rewrite Hm.
  - unfold inFlight.
    change (managers (emit (UPDATE k) ?x)) with (managers x).
    rewrite Hm2 by done. done.
Qed.

Lemma start_of_a_missing_resource_marks_it_started_witness :
  ∃ w1 w2,
    start Demo.node "ghost" emptyOptions Examples.diskD
      = (w1, Returns (nextRef Examples.diskD)) ∧
    (∃ t, t ∈ default []
                (tasksOf <$> closureOf w1 (nextRef Examples.diskD)) ∧
          task t = AdapterTask AStart None emptyOptions ∧
          skip t = Some NotExisting) ∧
    runTaskList Demo.happy 0 (nextRef Examples.diskD) w1
      = Some (w2, freshCtx, Completed) ∧
    trace w2 = trace Examples.diskD
                 ++ [ RESOURCES_MANAGER Start Demo.node "ghost";
                      RESOURCE_ADAPTER_COMPLETE Start Demo.node "ghost";
                      DONE (nextRef Examples.diskD) false;
                      UPDATE Demo.node ] ∧
    startedIn w2 Demo.node "ghost" = true ∧
    adaptersOf w2 Demo.node !! "ghost"
      = adaptersOf Examples.diskD Demo.node !! "ghost" ∧
    inFlight Start w2 Demo.node "ghost" = None ∧
    background w2 = background Examples.diskD.
Proof.
  apply (start_of_a_missing_resource_marks_it_started Demo.happy 0
           Demo.node "ghost" emptyOptions Examples.diskD
           (newManager Demo.nodeType "/data/node") "start" "stop").
  - vm_compute. reflexivity.
  - reflexivity.
  - reflexivity.
  - reflexivity.
  - reflexivity.
  - reflexivity.
  - simpl. constructor.
Defined.

(** ** What no run changes *)

Lemma runTaskList_Steps oracle fuel r w w' ctx out :
  runTaskList oracle fuel r w = Some (w', ctx, out) → Steps anything w w'.
Proof.
  unfold runTaskList, runBody.
  destruct (heap w !! r) as [[cl [|failed]]|];
    [|intros [= <- _ _]; apply Steps_refl..].
  destruct (if concurrent cl then _ else _) as [[[w1 ctx1] out1]|] eqn:E;
    [|done].
  intros [= <- _ _]. eapply Steps_trans; [|by apply Steps_settle].
  destruct (concurrent cl);
    [by eapply runConcurrent_Steps|by eapply runSequential_Steps].
Qed.

(** X8. Calling an operation and running a task list never add or
    remove a manager and never change the resource type, the data path
    or the create hooks of one: these are written by the constructor and
    by [addCreateHook] only. *)
Theorem operations_and_runs_keep_the_registry
    (oracle : Oracle) (fuel : nat) (op : Op) (k : ManagerKey)
    (name : string) (options : ResourceOptions) (r : TaskListRef)
    (w w' : World) (ctx : Ctx) (out : Outcome) :
  w' = (invoke op k name options w).1 ∨
  runTaskList oracle fuel r w = Some (w', ctx, out) →
  ∀ k',
    resourceType <$> managers w' !! k' = resourceType <$> managers w !! k' ∧
    _dataPath <$> managers w' !! k' = _dataPath <$> managers w !! k' ∧
    hooksOf w' k' = hooksOf w k'.
Proof.
  intros H.
  assert (Hsteps : Steps anything w w').
  { destruct H as [->|H]; [by apply Steps_invoke|].
    by eapply runTaskList_Steps. }
  intros k'. split; [|split].
  - symmetry. by apply (Steps_static _ _ _ Hsteps).
  - symmetry. apply (Steps_Frame _dataPath anything w w'); try done.
    + by intros [].
    + intros _ f Hf m. apply Hf.
  - apply hooksOf_Frame. apply (Steps_Frame _createHooks anything w w');
      try done.
    + by intros [].
    + intros _ f Hf m. apply Hf.
Qed.

Lemma operations_and_runs_keep_the_registry_witness :
  runTaskList Examples.halfCreated 6 0 Examples.nCreating
    = Some Examples.nFailed ∧
  resourceType <$> managers Examples.nFailed.1.1 !! Demo.node
    = resourceType <$> managers Examples.nCreating !! Demo.node ∧
  _dataPath <$> managers Examples.nFailed.1.1 !! Demo.node
    = _dataPath <$> managers Examples.nCreating !! Demo.node ∧
  hooksOf Examples.nFailed.1.1 Demo.node = hooksOf Examples.nCreating Demo.node.
Proof.
  split; [by vm_compute|].
  apply (operations_and_runs_keep_the_registry Examples.halfCreated 6 Create
           Demo.node "n" emptyOptions 0 Examples.nCreating
           Examples.nFailed.1.1 Examples.nFailed.1.2 Examples.nFailed.2).
  right. vm_compute. reflexivity.
Defined.

(** X9. Two invariants of the in-flight maps, kept by every call of an
    operation and by every run of a task list: a task list is only ever
    stored under the operation, the manager and the name it was built
    for, and every reference in a map or in the heap is one that [new
    TaskList] has given out.  They hold when no task list has been
    built yet. *)
Theorem operations_and_runs_keep_the_slots_typed
    (oracle : Oracle) (fuel : nat) (op : Op) (k : ManagerKey)
    (name : string) (options : ResourceOptions) (r : TaskListRef)
    (w w' : World) (ctx : Ctx) (out : Outcome) :
  wfHeap w → slotsTyped w →
  w' = (invoke op k name options w).1 ∨
  runTaskList oracle fuel r w = Some (w', ctx, out) →
  wfHeap w' ∧ slotsTyped w' ∧ (nextRef w ≤ nextRef w')%nat ∧
  ∀ op' k' name' r',
    inFlight op' w' k' name' = Some r' → (r' < nextRef w')%nat.
Proof.
  intros Hwf Hs H.
  assert (Hsteps : Steps anything w w').
  { destruct H as [->|H]; [by apply Steps_invoke|].
    by eapply runTaskList_Steps. }
  destruct (Steps_wf _ _ _ Hsteps Hwf) as (Hwf' & Hn & _ & Hs').
  split; [done|]. split; [by apply Hs'|]. split; [done|].
  intros op' k' name' r' Hin.
  destruct (Hs' Hs op' k' name' r' Hin) as (cl & Hcl & _).
  apply Hwf'. unfold closureOf in Hcl.
  destruct (heap w' !! r'); [by eexists|done].
Qed.

Lemma world0_slotsTyped : wfHeap Demo.world0 ∧ slotsTyped Demo.world0.
Proof.
  split.
  - intros r Hx. change (is_Some ((∅ : gmap nat TaskList) !! r)) in Hx.
    by apply lookup_empty_is_Some in Hx.
  - intros op k name r. unfold inFlight. simpl.
    destruct (decide (k = Demo.node)) as [->|Hn];
      [rewrite lookup_insert_eq; by destruct op|].
    rewrite lookup_insert_ne by done.
    destruct (decide (k = Demo.wallet)) as [->|Hw];
      [rewrite lookup_insert_eq; by destruct op|].
    rewrite lookup_insert_ne by done.
    destruct (decide (k = Demo.disk)) as [->|Hd];
      [rewrite lookup_insert_eq; by destruct op|].
    by rewrite lookup_insert_ne.
Qed.

Lemma nCreating_slotsTyped :
  wfHeap Examples.nCreating ∧ slotsTyped Examples.nCreating.
Proof.
  destruct world0_slotsTyped as [Hwf Hs].
  destruct (Steps_wf _ _ _
              (Steps_create anything (λ _ _, I) Demo.node "n" emptyOptions
                 Demo.world0) Hwf) as (Hwf' & _ & _ & Hs').
  split; [exact Hwf'|exact (Hs' Hs)].
Qed.

Lemma operations_and_runs_keep_the_slots_typed_witness :
  wfHeap Examples.nFailed.1.1 ∧ slotsTyped Examples.nFailed.1.1 ∧
  (nextRef Examples.nCreating ≤ nextRef Examples.nFailed.1.1)%nat ∧
  ∀ op' k' name' r',
    inFlight op' Examples.nFailed.1.1 k' name' = Some r' →
    (r' < nextRef Examples.nFailed.1.1)%nat.
Proof.
  apply (operations_and_runs_keep_the_slots_typed Examples.halfCreated 6
           Create Demo.node "n" emptyOptions 0 Examples.nCreating
           Examples.nFailed.1.1 Examples.nFailed.1.2 Examples.nFailed.2).
  - apply nCreating_slotsTyped.
  - apply nCreating_slotsTyped.
  - right. vm_compute. reflexivity.
Defined.

(** ** A create that completes *)

Lemma runSequential_app oracle rec r ts ts' ctx w :
  runSequential oracle rec r (ts ++ ts') ctx w =
    match runSequential oracle rec r ts ctx w with
    | Some (w1, ctx1, Completed) => runSequential oracle rec r ts' ctx1 w1
    | other => other
    end.
Proof.
  revert ctx w. induction ts as [|t ts IH]; intros ctx w; simpl; [done|].
  destruct (negb (enabled t w)); [apply IH|].
  destruct (skip t); [apply IH|].
  destruct (runAction oracle rec r (task t) ctx w) as [[[w1 ctx1] [|e]]|];
    [apply IH|done..].
Qed.

(** The first two tasks of a create that goes on to its later tasks. *)
Lemma create_head_completed oracle rec rC k name options soc st ctx0 w1 m1
    rest res :
  creating rC w1 →
  heap w1 !! rC
    = Some {| tl_closure := CreateTL k name options false None soc st false;
              tl_status := Pending |} →
  managers w1 !! k = Some m1 →
  runSequential oracle rec rC
    ({| enabled := always; skip := None;
        task := CreateAdapter k name options |}
     :: {| enabled := always; skip := None; task := FinalSetup k name |}
     :: rest) ctx0 w1 = Some (res, Completed) →
  ∃ wI,
    heap wI !! rC
      = Some {| tl_closure := CreateTL k name options false None soc st true;
                tl_status := Pending |} ∧
    installed (created_ctx oracle (length (trace w1)) k name options) k name
      wI ∧
    creating rC wI ∧
    runSequential oracle rec rC rest
      (created_ctx oracle (length (trace w1)) k name options) wI
      = Some (res, Completed).
Proof.
  intros Hc Hr Hm. simpl.
  set (cctx := created_ctx oracle (length (trace w1)) k name options).
  set (wE := emit (EXT (CreateResourceAdapter k name
                          (resourcePath w1 k name) options)) w1).
  destruct (ext_error _ _ _) as [e0|]; [done|].
  assert (HcE : creating rC wE).
  { eapply creating_Steps; [exact Hc|]. by apply (Steps_emit anything). }
  assert (HF : heap (finalSetup oracle rC k name cctx wE).1 !! rC
               = Some {| tl_closure :=
                           CreateTL k name options false None soc st true;
                         tl_status := Pending |} ∧
               installed cctx k name (finalSetup oracle rC k name cctx wE).1
               ∧ creating rC (finalSetup oracle rC k name cctx wE).1).
  { split; [|split].
    - unfold finalSetup.
      destruct (setFromContext_installs rC k name options false None soc st
                  Pending cctx wE m1 Hr Hm) as [_ Hh].
      destruct (setFromContext rC cctx wE) as [ws [e1|]]; [done|].
      unfold external. simpl in *.
      by repeat (destruct (ext_error _ _ _); simpl).
    - unfold finalSetup.
      destruct (setFromContext_installs rC k name options false None soc st
                  Pending cctx wE m1 Hr Hm) as [Hi _].
      destruct (setFromContext rC cctx wE) as [ws [e1|]]; [done|].
      unfold external. simpl in *.
      repeat (destruct (ext_error _ _ _); simpl);
        by apply (installed_managers _ _ _ ws).
    - eapply creating_Steps; [exact HcE|].
      by apply (Steps_finalSetup anything). }
  destruct HF as (Hh & Hi & Hc2).
  destruct (finalSetup oracle rC k name cctx wE) as [wF [|e1]];
    simpl in *; [|done].
  intros Hrest. by exists wF.
Qed.

(** The tasks of a create, when all of them have completed. *)
Lemma create_run_completed oracle fuel rC k name options soc st ctx0 w1 m1
    wS ctx :
  creating rC w1 →
  heap w1 !! rC
    = Some {| tl_closure := CreateTL k name options false None soc st false;
              tl_status := Pending |} →
  managers w1 !! k = Some m1 →
  runSequential oracle (run oracle fuel) rC
    (tasksOf (CreateTL k name options false None soc st false)) ctx0 w1
    = Some (wS, ctx, Completed) →
  heap wS !! rC
    = Some {| tl_closure := CreateTL k name options false None soc st true;
              tl_status := Pending |} ∧
  installed ctx k name wS ∧
  ctx = created_ctx oracle (length (trace w1)) k name options.
Proof.
  intros Hc Hr Hm Hrun. cbn [tasksOf orb isSome silently app] in Hrun.
  destruct (create_head_completed _ _ _ _ _ _ _ _ _ _ _ _ _ Hc Hr Hm Hrun)
    as (wI & Hh & Hi & Hc2 & Hrest).
  apply runSequential_tail in Hrest as (Hc' & Hs' & ->); [| |done].
  - destruct (nested_frames _ _ _ Hs') as (Fa & Fd & Fr).
    split; [|split; [|done]].
    + destruct (Steps_keep _ _ _ Hs' eq_refl (proj1 Hc2)) as [_ Hk].
      rewrite Hk; [done| |by eexists]. simpl. by intros H.
    + revert Hi. apply installed_Frame; try done. by eapply Steps_static.
  - destruct (soc && isSome st); simpl; by repeat constructor.
Qed.

(** X10. A [create] that was not a duplicate, for a name without an
    adapter, whose task list completes: the context the tasks ended with
    is the one the adapter-creation step left; its adapter is in the
    adapters map under [name], its dependents are the direct dependents
    of [name] and the resource is registered with the managers of its
    dependencies; the in-flight slot of the name is empty again; and
    [getResourceAdapter(name)] returns that adapter, or throws if the
    step left none in the context.  The world the create starts from is
    one the operations can reach: its heap is well formed and its
    in-flight maps are typed. *)
Theorem completed_create_installs_what_the_context_holds
    (oracle : Oracle) (fuel : nat) (k : ManagerKey) (name : string)
    (options : ResourceOptions) (w0 w1 w2 : World) (m : Manager)
    (r : TaskListRef) (ctx : Ctx) :
  wfHeap w0 → slotsTyped w0 →
  managers w0 !! k = Some m →
  _createTaskList m !! name = None →
  adapterOf m name = None →
  create k name options w0 = (w1, Returns r) →
  runTaskList oracle fuel r w1 = Some (w2, ctx, Completed) →
  ctx = created_ctx oracle (length (trace w1)) k name options ∧
  installed ctx k name w2 ∧
  inFlight Create w2 k name = None ∧
  (∃ m2, managers w2 !! k = Some m2 ∧
         getResourceAdapter m2 name
           = match ctx_resourceAdapter ctx with
             | Some a => Returns a
             | None => Throws (DoesNotExist name)
             end) ∧
  ∃ tr, trace w2
        = tr ++ [RESOURCE_ADAPTER_COMPLETE Create k name; DONE r false].
Proof.
  intros Hwf Hs Hm Hslot Hnone Hcreate Hrun.
  pose proof (Steps_create anything (λ _ _, I) k name options w0) as Hsteps.
  rewrite Hcreate in Hsteps. cbn [fst] in Hsteps.
  destruct (Steps_wf _ _ _ Hsteps Hwf) as (Hwf1 & _ & _ & Hs1).
  rewrite (create_eq _ _ _ _ _ Hm) in Hcreate. cbv zeta in Hcreate.
  rewrite Hslot, Hnone in Hcreate.
  rewrite bool_decide_eq_false_2 in Hcreate by by intros [].
  set (cl := CreateTL k name options false None
               (create_startOnCreate (getCRUD (resourceType m)))
               (crud_start (getCRUD (resourceType m))) false) in *.
  injection Hcreate as Hw1 Hr0.
  change (nextRef (emit (RESOURCES_MANAGER Create k name) w0))
    with (nextRef w0) in Hw1, Hr0.
  assert (Hr : heap w1 !! r
               = Some {| tl_closure := cl; tl_status := Pending |}).
  { rewrite <- Hw1, <- Hr0, heap_setTaskList. unfold newTaskList. simpl.
    apply lookup_insert_eq. }
  destruct (Frame_manager_exists _ _ _ _ (Steps_static _ _ _ Hsteps) Hm)
    as (m1 & Hm1 & _).
  assert (Hc : creating r w1).
  { split; [by apply Hwf1|]. split; [by apply Hs1|].
    exists cl, k, name. split; [|done]. unfold closureOf. by rewrite Hr. }
  clear Hw1 Hr0 Hsteps.
  unfold runTaskList, runBody in Hrun. rewrite Hr in Hrun.
  cbn [freshContext concurrent cl] in Hrun.
  destruct (runSequential _ _ _ _ _ _) as [[[wS ctxS] outS]|] eqn:Hseq;
    [|done].
  injection Hrun as <- <- ->.
  destruct (create_run_completed _ _ _ _ _ _ _ _ _ _ _ _ _ Hc Hr Hm1 Hseq)
    as (HrS & Hi & Hctx).
  split; [done|]. unfold settle. rewrite HrS. cbn [onComplete onDone].
  set (wd := emit (DONE r false)
               (setStatus r (Settled false)
                  (emit (RESOURCE_ADAPTER_COMPLETE Create k name) wS))).
  assert (Hid : installed ctxS k name wd)
    by by apply (installed_managers _ _ _ wS).
  assert (Hi2 : installed ctxS k name (deleteTaskList Create k name wd)).
  { revert Hid.
    apply installed_Frame; (apply Frame_deleteTaskList; by intros []). }
  split; [done|]. split; [|split].
  - destruct Hid as (md & Hmd & _). unfold inFlight, deleteTaskList.
    rewrite lookup_updManager_eq, Hmd. simpl. apply lookup_delete_eq.
  - destruct Hi2 as (m2 & Hm2 & Ha2 & _). exists m2. split; [done|].
    unfold getResourceAdapter, adapterOf. rewrite Ha2. simpl.
    by destruct (ctx_resourceAdapter ctxS).
  - exists (trace wS). simpl. by rewrite <- app_assoc.
Qed.

Lemma completed_create_installs_what_the_context_holds_witness :
  Examples.nCreated.1.2
    = created_ctx Demo.happy (length (trace Examples.nCreating)) Demo.node
        "n" emptyOptions ∧
  installed Examples.nCreated.1.2 Demo.node "n" Examples.nCreated.1.1 ∧
  inFlight Create Examples.nCreated.1.1 Demo.node "n" = None ∧
  (∃ m2, managers Examples.nCreated.1.1 !! Demo.node = Some m2 ∧
         getResourceAdapter m2 "n"
           = match ctx_resourceAdapter Examples.nCreated.1.2 with
             | Some a => Returns a
             | None => Throws (DoesNotExist "n")
             end) ∧
  ∃ tr, trace Examples.nCreated.1.1
        = tr ++ [RESOURCE_ADAPTER_COMPLETE Create Demo.node "n";
                 DONE 0 false].
Proof.
  apply (completed_create_installs_what_the_context_holds Demo.happy 6
           Demo.node "n" emptyOptions Demo.world0 Examples.nCreating
           Examples.nCreated.1.1 (newManager Demo.nodeType "/data/node") 0
           Examples.nCreated.1.2).
  - apply world0_slotsTyped.
  - apply world0_slotsTyped.
  - vm_compute. reflexivity.
  - reflexivity.
  - reflexivity.
  - vm_compute. reflexivity.
  - vm_compute. reflexivity.
Defined.

(** ** The create hooks *)

Lemma invokeAll_hooks_trace oracle r k name options hooks ctx w :
  ∃ w' l,
    invokeAll oracle r (tasksOf (HooksTL k name options hooks)) ctx w
      = (w', ctx, l) ∧
    Forall (λ s, ∃ o : Outcome, s = inl o) l ∧
    heap w' = heap w ∧
    trace w' = trace w ++ hookCalls name options hooks.
Proof.
  simpl. revert w. induction hooks as [|h hooks IH]; intros w; simpl.
  - exists w, []. by rewrite app_nil_r.
  - destruct (IH (emit (EXT (RunHook h name options)) w))
      as (w' & l & -> & Hl & Hh & Ht).
    eexists _, _. split; [done|]. split; [constructor; [by eexists|done]|].
    split; [done|]. rewrite Ht. simpl. by rewrite <- app_assoc.
Qed.

Lemma abortAll_settled (l : list (Outcome + TaskListRef)) (w : World) :
  Forall (λ s, ∃ o : Outcome, s = inl o) l → abortAll l w = w.
Proof.
  unfold abortAll. intros H. revert w.
  induction H as [|s l [o ->] _ IH]; intros w; simpl; [done|apply IH].
Qed.

(** The task list of the hooks calls every hook, in the order of
    [_createHooks], and then settles. *)
Lemma run_hooks_trace oracle fuel w r k name options hooks ctx w' ctx' out :
  heap w !! r
    = Some {| tl_closure := HooksTL k name options hooks;
              tl_status := Pending |} →
  run oracle fuel w r ctx = Some (w', ctx', out) →
  ∃ failed,
    trace w' = trace w ++ hookCalls name options hooks ++ [DONE r failed].
Proof.
  intros Hr. destruct fuel as [|n]; simpl; [done|].
  unfold runBody. rewrite Hr.
  cbn [freshContext concurrent tl_closure]. unfold runConcurrent.
  destruct (invokeAll_hooks_trace oracle r k name options hooks ctx w)
    as (w1 & l & -> & Hl & Hh & Ht).
  assert (Hr1 : heap w1 !! r
                = Some {| tl_closure := HooksTL k name options hooks;
                          tl_status := Pending |}) by by rewrite Hh.
  destruct (firstFailure l) as [e|].
  - rewrite (abortAll_settled _ _ Hl). intros [= <- _ _].
    exists true. unfold settle. rewrite Hr1. simpl. rewrite Ht.
    by rewrite <- app_assoc.
  - rewrite (settleAll_settled _ _ _ _ Hl). intros [= <- _ _].
    exists false. unfold settle. rewrite Hr1. simpl. rewrite Ht.
    by rewrite <- app_assoc.
Qed.

Lemma finalSetup_awaits oracle r k name ctx w :
  (finalSetup oracle r k name ctx w).2 = Completed →
  EXT (AwaitResource k name) ∈ trace (finalSetup oracle r k name ctx w).1.
Proof.
  unfold finalSetup.
  destruct (setFromContext r ctx w) as [ws [e|]]; [done|].
  unfold external. simpl.
  destruct (ext_error _ _ (AwaitResource k name)); [done|]. simpl.
  intros _. rewrite !elem_of_app, !elem_of_cons. auto.
Qed.

Lemma create_head_explicit oracle rec rC k name options ctx0 w1 rest res :
  runSequential oracle rec rC
    ({| enabled := always; skip := None;
        task := CreateAdapter k name options |}
     :: {| enabled := always; skip := None; task := FinalSetup k name |}
     :: rest) ctx0 w1 = Some (res, Completed) →
  let cctx := created_ctx oracle (length (trace w1)) k name options in
  let wE :=
    emit (EXT (CreateResourceAdapter k name (resourcePath w1 k name)
                 options)) w1 in
  (finalSetup oracle rC k name cctx wE).2 = Completed ∧
  runSequential oracle rec rC rest cctx (finalSetup oracle rC k name cctx wE).1
    = Some (res, Completed).
Proof.
  simpl. destruct (ext_error _ _ _); [done|].
  by destruct (finalSetup _ _ _ _ _ _) as [wF [|e]].
Qed.

(** ** What runs before the create hooks *)

Lemma logSince_refl w : logSince w w = [].
Proof. apply logSince_app. by rewrite app_nil_r. Qed.

Lemma noEXT_notHook (delta : list Event) :
  (∀ c, EXT c ∉ delta) → Forall notHook delta.
Proof.
  intros H. apply Forall_forall. intros e He.
  destruct e as [| | | | | | |c|]; try exact I.
  by destruct (H c).
Qed.

Lemma quiet_notHook w w' : Steps quiet w w' → Forall notHook (logSince w w').
Proof.
  intros (delta & E & Hd)%quiet_no_EXT.
  rewrite (logSince_app _ _ _ E). by apply noEXT_notHook.
Qed.

Lemma hookFree_refl w : wfHeap w → hookFree w w.
Proof.
  intros Hwf. split; [done|]. split; [apply Steps_refl|].
  by rewrite logSince_refl.
Qed.

Lemma hookFree_trans w1 w2 w3 :
  hookFree w1 w2 → hookFree w2 w3 → hookFree w1 w3.
Proof.
  intros (Hwf & H12 & F12) (_ & H23 & F23). split; [done|].
  split; [by eapply Steps_trans|].
  rewrite (logSince_Steps _ _ _ _ H12 H23). by apply Forall_app.
Qed.

Lemma hookFree_step w w' :
  wfHeap w → Steps anything w w' → Forall notHook (logSince w w') →
  wfHeap w' ∧ hookFree w w'.
Proof.
  intros Hwf H F. split; [|done]. by destruct (Steps_wf _ _ _ H Hwf).
Qed.

Lemma startOnly_tasks cl t : startOnly cl → t ∈ tasksOf cl → startBody (task t).
Proof.
  destruct cl as [| |k name options ss stl ra st dd| |[] targets
                 |k name options hooks]; simpl; try done.
  - intros _ Ht.
    repeat (apply elem_of_cons in Ht as [->|Ht]); simpl; try done.
    by apply elem_of_nil in Ht.
  - intros _ (x & -> & _)%list_elem_of_fmap. done.
Qed.

Lemma startOnly_stable w w' r :
  hookFree w w' → runs startOnly w r → runs startOnly w' r.
Proof.
  intros (Hwf & H & _) (cl & Hcl & HP).
  destruct (Steps_wf _ _ _ H Hwf) as (_ & _ & Hc & _).
  destruct (Hc r cl Hcl) as (cl' & Hcl' & E).
  exists cl'. split; [done|].
  destruct cl; try done; destruct cl'; try done; by injection E as <-.
Qed.

Section BeforeTheHooks.
Variable oracle : Oracle.

Lemma startBody_invoke r a ctx w :
  wfHeap w → startBody a →
  wfHeap (invokeAction oracle r a ctx w).1.1 ∧
  hookFree w (invokeAction oracle r a ctx w).1.1 ∧
  ∀ r', (invokeAction oracle r a ctx w).2 = inr r' →
        runs startOnly (invokeAction oracle r a ctx w).1.1 r'.
Proof.
  intros Hwf Ha.
  assert (Hsteps : Steps anything w (invokeAction oracle r a ctx w).1.1)
    by by apply Steps_invokeAction.
  assert (Hlog : Forall notHook
                   (logSince w (invokeAction oracle r a ctx w).1.1)).
  { destruct a as [[t|]|[] k name options|[] deps|k name options|k name
                  |k name options|[] [a|] options|k name a|c];
      try done; simpl; try (by rewrite logSince_refl).
    - apply quiet_notHook. by apply Steps_abort.
    - pose proof (Steps_start quiet (λ _ H, H) k name options w) as H.
      apply quiet_notHook.
      by destruct (start k name options w) as [w' [r'|e]].
    - pose proof (Steps_depsTaskList quiet Start deps w) as H.
      apply quiet_notHook.
      by destruct (depsTaskList Start deps w) as [w' [r'|e]].
    - rewrite (logSince_app _ _ [EXT (AdapterStart a options)]) by done.
      by apply Forall_singleton. }
  destruct (hookFree_step _ _ Hwf Hsteps Hlog) as [Hwf' Hfree].
  split; [done|]. split; [done|].
  intros r' Hr'.
  destruct (invokeAction_nested _ _ _ _ _ _ Hr')
    as (_ & [(op&k&name&options&->&E)|[(op&deps&->&E)
             |(k&name&options&hooks&->&_)]]).
  - destruct op; try done.
    destruct (invoke_returns _ _ _ _ _ _ _ E) as (_ & _ & _ & _ & cl & Hh & Hby).
    exists cl. split; [unfold closureOf; by rewrite Hh, lookup_insert_eq|].
    by destruct cl.
  - destruct op; try done.
    destruct (depsTaskList_returns _ _ _ _ _ E) as (_ & _ & targets & _ & Hh).
    exists (DepsTL Start targets). split; [|done].
    unfold closureOf. by rewrite Hh, lookup_insert_eq.
  - done.
Qed.

Lemma startOnly_settle r out ctx w :
  wfHeap w → runs startOnly w r →
  wfHeap (settle r out ctx w) ∧ hookFree w (settle r out ctx w).
Proof.
  intros Hwf _. apply hookFree_step; [done|by apply Steps_settle|].
  apply quiet_notHook. by apply Steps_settle.
Qed.

Lemma startOnly_abort r w :
  wfHeap w → runs startOnly w r →
  wfHeap (abort r w) ∧ hookFree w (abort r w).
Proof.
  intros Hwf _. apply hookFree_step; [done|by apply Steps_abort|].
  apply quiet_notHook. by apply Steps_abort.
Qed.

(** The tasks of a start, and of the starts it delegates to, call no
    create hook. *)
Lemma startBody_hookFree fuel r tasks ctx w w' ctx' out :
  wfHeap w → (∀ t, t ∈ tasks → startBody (task t)) →
  runSequential oracle (run oracle fuel) r tasks ctx w = Some (w', ctx', out) →
  hookFree w w'.
Proof.
  intros Hwf Htasks Hrun.
  eapply (runSequential_inv oracle wfHeap hookFree startOnly startBody);
    eauto using hookFree_refl, hookFree_trans, startOnly_tasks,
      startOnly_stable, startBody_invoke, startOnly_settle, startOnly_abort.
  apply (run_inv oracle wfHeap hookFree startOnly startBody);
    eauto using hookFree_refl, hookFree_trans, startOnly_tasks,
      startOnly_stable, startBody_invoke, startOnly_settle, startOnly_abort.
Qed.

(** The final setup, when it completes: it awaits the resource and
    writes the ready file, and calls no other collaborator. *)
Lemma finalSetup_since r k name ctx w :
  (finalSetup oracle r k name ctx w).2 = Completed →
  ∃ d,
    logSince w (finalSetup oracle r k name ctx w).1
      = d ++ [EXT (AwaitResource k name);
              EXT (WriteReady k name (default [] (ctx_dependencies ctx))
                     (default [] (ctx_dependents ctx)))] ∧
    ∀ c, EXT c ∉ d.
Proof.
  unfold finalSetup.
  pose proof (Steps_setFromContext quiet (λ _ H, H) eq_refl r ctx w) as Hs.
  apply quiet_no_EXT in Hs as (d & E & Hd).
  destruct (setFromContext r ctx w) as [ws [e|]]; [done|].
  unfold external. simpl in *.
  destruct (ext_error _ _ (AwaitResource k name)); [done|]. simpl.
  intros _. exists d. split; [|done].
  apply logSince_app. rewrite !trace_emit, E. by rewrite <- !app_assoc.
Qed.
End BeforeTheHooks.

(** X11. A [create] that was not a duplicate, for a name without an
    adapter, whose task list completes, has called every create hook
    registered with the manager exactly once for each time it is
    registered, in the order of registration.  The log of the run is
    [pre], then the calls of the hooks, then [post]: [pre] has the final
    setup and the start on create, if there is one, and no call of a
    create hook; [post] has no call of a collaborator at all. *)
Theorem completed_create_has_run_the_hooks_last
    (oracle : Oracle) (fuel : nat) (k : ManagerKey) (name : string)
    (options : ResourceOptions) (w0 w1 w2 : World) (m : Manager)
    (r : TaskListRef) (ctx : Ctx) :
  wfHeap w0 →
  managers w0 !! k = Some m →
  _createTaskList m !! name = None →
  adapterOf m name = None →
  create k name options w0 = (w1, Returns r) →
  runTaskList oracle fuel r w1 = Some (w2, ctx, Completed) →
  ∃ pre post,
    trace w2
      = trace w1 ++ pre ++ hookCalls name options (_createHooks m) ++ post ∧
    (∀ h n o, EXT (RunHook h n o) ∉ pre) ∧
    (∀ c, EXT c ∉ post) ∧
    EXT (AwaitResource k name) ∈ pre.
Proof.
  intros Hwf Hm Hslot Hnone Hcreate Hrun.
  pose proof (Steps_create anything (λ _ _, I) k name options w0) as Hsteps.
  rewrite Hcreate in Hsteps. cbn [fst] in Hsteps.
  rewrite (create_eq _ _ _ _ _ Hm) in Hcreate. cbv zeta in Hcreate.
  rewrite Hslot, Hnone in Hcreate.
  rewrite bool_decide_eq_false_2 in Hcreate by by intros [].
  set (cl := CreateTL k name options false None
               (create_startOnCreate (getCRUD (resourceType m)))
               (crud_start (getCRUD (resourceType m))) false) in *.
  injection Hcreate as Hw1 Hr0.
  change (nextRef (emit (RESOURCES_MANAGER Create k name) w0))
    with (nextRef w0) in Hw1, Hr0.
  assert (Hr : heap w1 !! r
               = Some {| tl_closure := cl; tl_status := Pending |}).
  { rewrite <- Hw1, <- Hr0, heap_setTaskList. unfold newTaskList. simpl.
    apply lookup_insert_eq. }
  clear Hw1 Hr0.
  unfold runTaskList, runBody in Hrun. rewrite Hr in Hrun.
  cbn [freshContext concurrent cl] in Hrun.
  destruct (runSequential _ _ _ _ _ _) as [[[wS ctxS] outS]|] eqn:Hseq;
    [|done].
  injection Hrun as <- <- ->.
  destruct (quiet_settle r Completed ctxS wS) as (delta & -> & Hdelta).
  cbn [tasksOf orb isSome silently cl] in Hseq.
  rewrite app_assoc, runSequential_app in Hseq.
  destruct (runSequential _ _ _ (_ ++ _) _ _) as [[[w3 ctx3] [|e3]]|]
    eqn:Hfirst; [|done..].
  pose proof (runSequential_Steps _ _ _ _ _ _ _ _ _ Hfirst) as Hsteps3.
  assert (Hhooks : hooksOf w3 k = _createHooks m).
  { rewrite (hooksOf_Frame w0 w3).
    - unfold hooksOf. by rewrite Hm.
    - apply (Steps_Frame _createHooks anything); try done.
      + by intros [].
      + intros _ f Hf m'. apply Hf.
      + by eapply Steps_trans. }
  (* what was logged before the hooks *)
  assert (Hpre : ∃ pre,
            trace w3 = trace w1 ++ pre ∧
            (∀ h n o, EXT (RunHook h n o) ∉ pre) ∧
            EXT (AwaitResource k name) ∈ pre) .
  { cbn [app] in Hfirst.
    apply create_head_explicit in Hfirst as [Hfin Htail].
    set (cctx := created_ctx oracle (length (trace w1)) k name options) in *.
    set (wE := emit (EXT (CreateResourceAdapter k name
                            (resourcePath w1 k name) options)) w1) in *.
    destruct (finalSetup_since oracle r k name cctx wE Hfin)
      as (dF & EF & HdF).
    set (wF := (finalSetup oracle r k name cctx wE).1) in *.
    assert (HwfF : wfHeap wF).
    { assert (H : Steps anything w0 wF).
      { eapply Steps_trans; [exact Hsteps|].
        eapply Steps_trans; [by apply (Steps_emit anything)|].
        by apply Steps_finalSetup. }
      by destruct (Steps_wf _ _ _ H Hwf). }
    apply startBody_hookFree in Htail as (_ & H3 & F3); [|done|]; cycle 1.
    { intros t Ht.
      destruct (_ && _); [|by apply elem_of_nil in Ht].
      by apply list_elem_of_singleton in Ht as ->. }
    destruct (Steps_trace _ _ _ H3) as (d3 & E3 & _).
    rewrite (logSince_app _ _ _ E3) in F3.
    assert (EwF : trace wF = trace wE ++ logSince wE wF).
    { pose proof (Steps_finalSetup anything (λ _ _, I) (λ _, I) eq_refl
                    oracle r k name cctx wE) as HsF.
      destruct (Steps_trace _ _ _ HsF) as (d & E & _).
      fold wF in E. by rewrite (logSince_app _ _ _ E). }
    rewrite EF in EwF.
    exists ([EXT (CreateResourceAdapter k name (resourcePath w1 k name)
                    options)]
            ++ (dF ++ [EXT (AwaitResource k name);
                       EXT (WriteReady k name
                              (default [] (ctx_dependencies cctx))
                              (default [] (ctx_dependents cctx)))])
            ++ d3).
    split; [|split].
    - rewrite E3, EwF. unfold wE. rewrite trace_emit.
      by rewrite <- !app_assoc.
    - intros h n o. rewrite !elem_of_app, !elem_of_cons, elem_of_nil.
      rewrite Forall_forall in F3.
      intros [[?|[]]|[[?|[?|[?|[]]]]|?]]; try done.
      + by eapply HdF.
      + by apply (F3 (EXT (RunHook h n o))).
    - rewrite !elem_of_app, !elem_of_cons. right. left. right. by left. }
  destruct Hpre as (pre & Epre & Hnohook & Hawait).
  revert Hseq. simpl. unfold hooksOf in Hhooks.
  destruct (managers w3 !! k) as [m3|] eqn:Hm3.
  - rewrite <- Hhooks. case_bool_decide as Hlen; simpl.
    + unfold runAction, invokeAction. rewrite Hm3. simpl.
      destruct (run oracle fuel _ _ _) as [[[w4 ctx4] [|e4]]|] eqn:Hrun;
        [|done..].
      intros [= <- _].
      eapply run_hooks_trace in Hrun as [failed Ht];
        [|unfold newTaskList; simpl; apply lookup_insert_eq].
      exists pre, ([DONE (nextRef w3) failed] ++ delta).
      split; [|split; [done|split; [|done]]].
      * rewrite Ht. simpl. rewrite Epre. by rewrite <- !app_assoc.
      * intros c [[=]|Hc]%elem_of_cons. by apply (Hdelta c).
    + intros [= <- _]. exists pre, delta.
      destruct (_createHooks m3); [|simpl in Hlen; lia].
      split; [|done]. rewrite Epre. simpl. by rewrite <- !app_assoc.
  - rewrite <- Hhooks. simpl. intros [= <- _]. exists pre, delta.
    split; [|done]. rewrite Epre. simpl. by rewrite <- !app_assoc.
Qed.

Lemma hooked_wfHeap : wfHeap Examples.hooked.
Proof. intros r [t Ht]. vm_compute in Ht. discriminate Ht. Qed.

Lemma completed_create_has_run_the_hooks_last_witness :
  ∃ pre post,
    trace Examples.hookedCreated.1.1
      = trace Examples.hookedCreating ++ pre
          ++ hookCalls "n" emptyOptions
               (_createHooks
                  (with_createHooks [40; 41]
                     (newManager Demo.nodeType "/data/node")))
          ++ post ∧
    (∀ h n o, EXT (RunHook h n o) ∉ pre) ∧
    (∀ c, EXT c ∉ post) ∧
    EXT (AwaitResource Demo.node "n") ∈ pre.
Proof.
  apply (completed_create_has_run_the_hooks_last Demo.happy 6 Demo.node "n"
           emptyOptions Examples.hooked Examples.hookedCreating
           Examples.hookedCreated.1.1
           (with_createHooks [40; 41] (newManager Demo.nodeType "/data/node"))
           0 Examples.hookedCreated.1.2).
  - apply hooked_wfHeap.
  - vm_compute. reflexivity.
  - reflexivity.
  - reflexivity.
  - vm_compute. reflexivity.
  - vm_compute. reflexivity.
Defined.

(** ** A delete that completes *)

Lemma Frame_settle_completed {X : Type} (proj : Manager → X) r ctx w :
  (∀ op v m, proj (with_taskLists op v m) = proj m) →
  (∀ v m, proj (with_resourceAdaptersStarted v m) = proj m) →
  Frame proj w (settle r Completed ctx w).
Proof.
  intros H1 H2. unfold settle.
  destruct (heap w !! r) as [[cl [|failed]]|]; try done.
  eapply Frame_trans; [|by apply Frame_onDone].
  eapply Frame_trans; [by apply Frame_onComplete|]. done.
Qed.

(** The final cleanup, when it completes. *)
Lemma finalCleanup_completed oracle k name a w :
  (finalCleanup oracle k name (Some a) w).2 = Completed →
  let w' := (finalCleanup oracle k name (Some a) w).1 in
  adaptersOf w' k !! name = None ∧
  directDependentsOf w' k !! name = None ∧
  dependentsOf w' k !! name = None ∧
  trace w'
    = trace w ++ [ RESOURCE_ADAPTER_DESTROY k name; EXT (AdapterDestroy a);
                   EXT (ReleasePort (dep_plugin (selfDependency w k name))
                          (dep_resourceType (selfDependency w k name)) name);
                   EXT (RemoveReady k name) ].
Proof.
  unfold finalCleanup, _destroy, logInvoke, external. simpl.
  destruct (ext_error _ _ (AdapterDestroy a)); [done|]. simpl.
  destruct (ext_error _ _ (ReleasePort _ _ _)); [done|]. simpl.
  destruct (ext_error _ _ (RemoveReady _ _)); [done|]. simpl.
  intros _. unfold adaptersOf, directDependentsOf, dependentsOf. simpl.
  rewrite !lookup_alter, !decide_True by done.
  assert (Hself : selfDependency
                    (emit (EXT (AdapterDestroy a))
                       (updManager k
                          (λ m, with_resourceAdapters
                                  (delete name (_resourceAdapters m)) m)
                          (emit (RESOURCE_ADAPTER_DESTROY k name) w))) k name
                  = selfDependency w k name).
  { apply selfDependency_Frame. intros k'.
    change (managers w)
      with (managers (emit (RESOURCE_ADAPTER_DESTROY k name) w)).
    change (managers (emit (EXT (AdapterDestroy a)) ?x)) with (managers x).
    by apply Frame_updManager. }
  destruct (managers w !! k) as [m|]; simpl.
  - rewrite !lookup_delete_eq. repeat split; try done.
    rewrite <- !app_assoc. simpl. by rewrite Hself.
  - repeat split; try done.
    rewrite <- !app_assoc. simpl. by rewrite Hself.
Qed.

(** X12. A [delete] that was not a duplicate, of a name with an
    adapter, whose task list completes: the last calls to collaborators
    were [adapter.delete(options)], then [adapter.destroy()], the
    release of the port and the removal of the files, in this order;
    afterwards the name is in none of the adapters map, the direct
    dependents map and the dependents map of its manager, and
    [getResourceAdapter(name)] throws. *)
Theorem completed_delete_removes_the_resource
    (oracle : Oracle) (fuel : nat) (k : ManagerKey) (name : string)
    (options : ResourceOptions) (w0 w1 w2 : World) (m : Manager)
    (a : ResourceAdapter) (r : TaskListRef) (ctx : Ctx) :
  managers w0 !! k = Some m →
  _deleteTaskList m !! name = None →
  adapterOf m name = Some a →
  delete_ k name options w0 = (w1, Returns r) →
  runTaskList oracle fuel r w1 = Some (w2, ctx, Completed) →
  adaptersOf w2 k !! name = None ∧
  directDependentsOf w2 k !! name = None ∧
  dependentsOf w2 k !! name = None ∧
  (∃ m2, managers w2 !! k = Some m2 ∧
         getResourceAdapter m2 name = Throws (DoesNotExist name)) ∧
  ∃ pre post,
    trace w2
      = pre ++ [ EXT (AdapterDelete a options);
                 RESOURCE_ADAPTER_DESTROY k name; EXT (AdapterDestroy a);
                 EXT (ReleasePort (rt_plugin (resourceType m))
                        (rt_name (resourceType m)) name);
                 EXT (RemoveReady k name) ] ++ post ∧
    (∀ c, EXT c ∉ post).
Proof.
  intros Hm Hslot Ha Hdelete Hrun.
  pose proof (Steps_delete anything (λ _ _, I) k name options w0) as Hsteps.
  rewrite Hdelete in Hsteps. cbn [fst] in Hsteps.
  pose proof (runTaskList_Steps _ _ _ _ _ _ _ Hrun) as Hsteps2.
  rewrite (delete_eq _ _ _ _ _ Hm) in Hdelete. cbv zeta in Hdelete.
  rewrite Hslot, Ha in Hdelete.
  rewrite bool_decide_eq_false_2 in Hdelete by by intros [].
  match type of Hdelete with
  | context [newTaskList ?c _] => set (cl := c) in *
  end.
  injection Hdelete as Hw1 Hr0.
  change (nextRef (emit (RESOURCES_MANAGER Delete k name) w0))
    with (nextRef w0) in Hw1, Hr0.
  assert (Hr : heap w1 !! r
               = Some {| tl_closure := cl; tl_status := Pending |}).
  { rewrite <- Hw1, <- Hr0, heap_setTaskList. unfold newTaskList. simpl.
    apply lookup_insert_eq. }
  clear Hw1 Hr0.
  unfold runTaskList, runBody in Hrun. rewrite Hr in Hrun.
  cbn [freshContext concurrent cl] in Hrun.
  destruct (runSequential _ _ _ _ _ _) as [[[wS ctxS] outS]|] eqn:Hseq;
    [|done].
  injection Hrun as <- <- ->.
  destruct (quiet_settle r Completed ctxS wS) as (delta & Hdelta & Hquiet).
  cbn [tasksOf orb negb isSome silently cl] in Hseq.
  match type of Hseq with
  | runSequential _ _ _ (?A ++ ?B ++ [?d; ?t5; ?t6]) _ _ = _ =>
      replace (A ++ B ++ [d; t5; t6]) with ((A ++ B ++ [d]) ++ [t5; t6])
        in Hseq by (by rewrite <- !app_assoc)
  end.
  rewrite runSequential_app in Hseq.
  destruct (runSequential _ _ _ (_ ++ _) _ _) as [[[w3 ctx3] [|e3]]|]
    eqn:Hfirst; [|done..].
  pose proof (runSequential_Steps _ _ _ _ _ _ _ _ _ Hfirst) as Hsteps3.
  assert (Hself : selfDependency
                    (emit (EXT (AdapterDelete a options)) w3) k name
                  = mkDep (rt_plugin (resourceType m))
                      (rt_name (resourceType m)) name).
  { rewrite (selfDependency_Frame w0).
    - unfold selfDependency. by rewrite Hm.
    - assert (F : Frame resourceType w0 w3).
      { eapply Steps_static.
        eapply Steps_trans; [exact Hsteps|exact Hsteps3]. }
      exact F. }
  revert Hseq. simpl. unfold runAction. simpl.
  destruct (ext_error _ _ (AdapterDelete a options)); [done|].
  pose proof (finalCleanup_completed oracle k name a
                (emit (EXT (AdapterDelete a options)) w3)) as Hfc.
  destruct (finalCleanup oracle k name (Some a) _) as [wF [|eF]]; [|done].
  intros [= <- _]. cbn [fst snd] in Hfc.
  destruct (Hfc eq_refl) as (HA & HD & HR & HT). clear Hfc.
  rewrite Hself in HT. simpl in HT.
  assert (HA2 : adaptersOf (settle r Completed ctxS wF) k !! name = None).
  { rewrite (adaptersOf_Frame wF); [done|].
    apply Frame_settle_completed; [by intros []|done]. }
  split; [done|]. split; [|split; [|split]].
  - rewrite (directDependentsOf_Frame wF); [done|].
    apply Frame_settle_completed; [by intros []|done].
  - rewrite (dependentsOf_Frame wF); [done|].
    apply Frame_settle_completed; [by intros []|done].
  - destruct (Frame_manager_exists w0 (settle r Completed ctxS wF) k m)
      as (m2 & Hm2 & _); [|done|].
    { eapply Steps_static. eapply Steps_trans; [exact Hsteps|exact Hsteps2]. }
    exists m2. split; [done|]. revert HA2. unfold adaptersOf. rewrite Hm2.
    unfold getResourceAdapter, adapterOf. by intros ->.
  - exists (trace w3), delta. split; [|done].
    rewrite Hdelta, HT. by rewrite <- !app_assoc.
Qed.

Lemma completed_delete_removes_the_resource_witness :
  adaptersOf Examples.dDeleted.1.1 Demo.disk !! "d" = None ∧
  directDependentsOf Examples.dDeleted.1.1 Demo.disk !! "d" = None ∧
  dependentsOf Examples.dDeleted.1.1 Demo.disk !! "d" = None ∧
  (∃ m2, managers Examples.dDeleted.1.1 !! Demo.disk = Some m2 ∧
         getResourceAdapter m2 "d" = Throws (DoesNotExist "d")) ∧
  ∃ pre post,
    trace Examples.dDeleted.1.1
      = pre ++ [ EXT (AdapterDelete 7 emptyOptions);
                 RESOURCE_ADAPTER_DESTROY Demo.disk "d";
                 EXT (AdapterDestroy 7);
                 EXT (ReleasePort
                        (rt_plugin (resourceType Examples.diskManager))
                        (rt_name (resourceType Examples.diskManager)) "d");
                 EXT (RemoveReady Demo.disk "d") ] ++ post ∧
    (∀ c, EXT c ∉ post).
Proof.
  apply (completed_delete_removes_the_resource Demo.happy 6 Demo.disk "d"
           emptyOptions Examples.diskD Examples.dDeleting
           Examples.dDeleted.1.1 Examples.diskManager 7 0
           Examples.dDeleted.1.2).
  - vm_compute. reflexivity.
  - vm_compute. reflexivity.
  - vm_compute. reflexivity.
  - vm_compute. reflexivity.
  - vm_compute. reflexivity.
Defined.

(** ** The order in which [stop] and [delete] delegate *)

Lemma runConcurrent_after_invokeAll oracle n r tasks ctx w w' ctx' out :
  runConcurrent oracle (run oracle n) r tasks ctx w = Some (w', ctx', out) →
  Steps anything (invokeAll oracle r tasks ctx w).1.1 w'.
Proof.
  unfold runConcurrent.
  destruct (invokeAll_inv oracle (λ _, True) (Steps anything) (λ _, True)
              (λ _, True) (λ w _, Steps_refl _ w) (Steps_trans _)
              anything_stable (anything_invoke oracle) r tasks ctx w I
              (λ _ _, I)) as (_ & _ & Hruns).
  destruct (invokeAll oracle r tasks ctx w) as [[w1 ctx1] l]. simpl in *.
  assert (Habort : ∀ r' w0, True → runs (λ _, True) w0 r' →
            True ∧ Steps anything w0 (abort r' w0)).
  { intros. split; [done|]. by apply Steps_abort. }
  destruct (firstFailure l).
  - intros [= <- _ _].
    by apply (abortAll_inv (λ _, True) (Steps anything) (λ _, True)
                (λ w _, Steps_refl _ w) (Steps_trans _) anything_stable
                Habort l w1 I Hruns).
  - intros Hs.
    by apply (settleAll_inv (λ _, True) (Steps anything) (λ _, True)
                (λ w _, Steps_refl _ w) (Steps_trans _) anything_stable
                Habort _ _ _ _ _ _ _ (run_Steps oracle n) I Hruns Hs).
Qed.

(** A call of an operation on a registered manager logs exactly its
    entry, whether it returns or throws. *)
Lemma invoke_trace op k name options w :
  is_Some (managers w !! k) →
  trace (invoke op k name options w).1
    = trace w ++ [RESOURCES_MANAGER op k name].
Proof.
  intros [m Hm]. destruct op; simpl.
  - rewrite (create_eq _ _ _ _ _ Hm). cbv zeta. by destruct (bool_decide _).
  - rewrite (delete_eq _ _ _ _ _ Hm). cbv zeta. by destruct (bool_decide _).
  - destruct (crud_start (getCRUD (resourceType m))) as [s|] eqn:Hs;
      [|edestruct (start_throws k name options w m) as [e ->]; eauto; done].
    destruct (crud_stop (getCRUD (resourceType m))) as [t|] eqn:Ht;
      [|edestruct (start_throws k name options w m) as [e ->]; eauto; done].
    rewrite (start_eq _ _ _ _ _ _ _ Hm Hs Ht). cbv zeta.
    destruct (_getStartDeps _ _); [|done]. by destruct (bool_decide _).
  - destruct (crud_start (getCRUD (resourceType m))) as [s|] eqn:Hs;
      [|edestruct (stop_throws k name options w m) as [e ->]; eauto; done].
    destruct (crud_stop (getCRUD (resourceType m))) as [t|] eqn:Ht;
      [|edestruct (stop_throws k name options w m) as [e ->]; eauto; done].
    rewrite (stop_eq _ _ _ _ _ _ _ Hm Hs Ht). cbv zeta.
    destruct (_getStopDeps _ _); [|done].
    destruct (_getStopDeps _ _); [|done]. by destruct (bool_decide _).
Qed.

(** The bodies of a list of delegated calls, called one after the
    other, log the calls in the order of the list. *)
Lemma invokeAll_calls oracle r op targets ctx w :
  (∀ t, t ∈ targets → is_Some (managers w !! t.1)) →
  trace (invokeAll oracle r (tasksOf (DepsTL op targets)) ctx w).1.1
    = trace w ++ ((λ t, RESOURCES_MANAGER op t.1 t.2) <$> targets).
Proof.
  revert ctx w. induction targets as [|t targets IH]; intros ctx w Hk;
    simpl; [by rewrite app_nil_r|].
  pose proof (invoke_trace op t.1 t.2 emptyOptions w (Hk t ltac:(by left)))
    as Ht.
  pose proof (Steps_invoke anything (λ _ _, I) op t.1 t.2 emptyOptions w)
    as Hs.
  destruct (invoke op t.1 t.2 emptyOptions w) as [w1 [r'|e]];
    cbn [fst] in *.
  - specialize (IH ctx w1).
    destruct (invokeAll oracle r _ ctx w1) as [[w2 ctx2] l]. simpl in *.
    rewrite IH, Ht; [by rewrite <- app_assoc|].
    intros t' Ht'. destruct (Hk t' ltac:(by right)) as [m' Hm'].
    destruct (Frame_manager_exists _ _ _ _ (Steps_static _ _ _ Hs) Hm')
      as (m1 & -> & _). by eexists.
  - specialize (IH ctx w1).
    destruct (invokeAll oracle r _ ctx w1) as [[w2 ctx2] l]. simpl in *.
    rewrite IH, Ht; [by rewrite <- app_assoc|].
    intros t' Ht'. destruct (Hk t' ltac:(by right)) as [m' Hm'].
    destruct (Frame_manager_exists _ _ _ _ (Steps_static _ _ _ Hs) Hm')
      as (m1 & -> & _). by eexists.
Qed.

(** The task that delegates [stop] or [delete] to a list of dependents,
    when the run goes on after it: every dependent has been called, in
    the order of the list, before anything else happens. *)
Lemma deps_phase oracle fuel r op deps rest ctx w res :
  op ≠ Start → op ≠ Create →
  runSequential oracle (run oracle fuel) r
    ({| enabled := nonEmpty deps; skip := None; task := Deps op deps |}
     :: rest) ctx w = Some (res, Completed) →
  ∃ w' ctx' mid,
    Steps anything w w' ∧
    trace w' = trace w ++ callsOf op deps ++ mid ∧
    runSequential oracle (run oracle fuel) r rest ctx' w'
      = Some (res, Completed).
Proof.
  intros Hop Hop'. simpl. unfold nonEmpty. case_bool_decide as Hlen; simpl.
  2: { intros Hrest. exists w, ctx, []. split; [apply Steps_refl|].
       split; [|done]. destruct deps; [|simpl in Hlen; lia].
       by rewrite !app_nil_r. }
  unfold runAction, invokeAction.
  rewrite depsTaskList_eq.
  pose proof (depTargets_spec op w deps) as Hb.
  destruct (depTargets op w deps) as [targets|e]; [|done].
  destruct Hb as (Hsup & ->).
  set (w1 := (newTaskList (DepsTL op (targetOf <$> deps)) w).1).
  cbn [fst snd].
  destruct (run oracle fuel w1 _ _) as [[[w2 ctx2] [|e2]]|] eqn:Hrun;
    [|done..].
  intros Hrest. exists w2, ctx2.
  destruct fuel as [|n]; [done|]. cbn [run] in Hrun.
  unfold runBody in Hrun.
  assert (Hheap : heap w1 !! nextRef w
                  = Some {| tl_closure := DepsTL op (targetOf <$> deps);
                            tl_status := Pending |}).
  { unfold w1, newTaskList. simpl. apply lookup_insert_eq. }
  rewrite Hheap in Hrun.
  assert (Hconc : concurrent (DepsTL op (targetOf <$> deps)) = true)
    by by destruct op.
  rewrite Hconc in Hrun. cbn [freshContext] in Hrun.
  destruct (runConcurrent _ _ _ _ _ _) as [[[w3 ctx3] out3]|] eqn:Hconcrun;
    [|done].
  injection Hrun as <- _ _.
  pose proof (runConcurrent_after_invokeAll _ _ _ _ _ _ _ _ _ Hconcrun)
    as Hafter.
  pose proof (invokeAll_calls oracle (nextRef w) op (targetOf <$> deps) ctx
                w1) as Hcalls.
  destruct (Steps_trace _ _ _ Hafter) as (d1 & Hd1 & _).
  destruct (Steps_trace anything w3
              (settle (nextRef w) out3 ctx3 w3)) as (d2 & Hd2 & _).
  { by apply Steps_settle. }
  exists (d1 ++ d2). split; [|split; [|done]].
  - eapply Steps_trans; [apply Steps_new|].
    eapply Steps_trans; [|by apply Steps_settle].
    eapply runConcurrent_Steps. exact Hconcrun.
  - rewrite Hd2, Hd1, Hcalls.
    + unfold callsOf. rewrite <- list_fmap_compose.
      change (trace w1) with (trace w).
      by rewrite <- !app_assoc.
    + intros t (d & -> & Hd)%list_elem_of_fmap.
      rewrite Forall_forall in Hsup. specialize (Hsup d Hd).
      unfold supports, getResourcesManager in Hsup.
      change (managers w1) with (managers w). simpl.
      destruct (managers w !! _); [by eexists|done].
Qed.

Lemma adapter_phase oracle rec r op a options rest ctx w res :
  runSequential oracle rec r
    ({| enabled := always; skip := None;
        task := AdapterTask op (Some a) options |} :: rest) ctx w
    = Some (res, Completed) →
  runSequential oracle rec r rest ctx
    (emit (EXT (adapterCall op a options)) w) = Some (res, Completed).
Proof.
  rewrite runSequential_run by done. unfold runAction. simpl.
  by destruct (ext_error _ _ _).
Qed.

(** X13. A [stop] that was not a duplicate, of a name with an adapter,
    whose task list completes, has called [stop(name, {})] on every
    resource that depends on the name and whose type defines [stop], in
    the order of the dependents list, before it called
    [adapter.stop(options)], and on every resource the name created
    (again those whose type defines [stop], in their order) right after
    that call. *)
Theorem completed_stop_stops_dependents_then_adapter_then_created
    (oracle : Oracle) (fuel : nat) (k : ManagerKey) (name : string)
    (options : ResourceOptions) (w0 w1 w2 : World) (m : Manager)
    (a : ResourceAdapter) (r : TaskListRef) (ctx : Ctx) :
  managers w0 !! k = Some m →
  _stopTaskList m !! name = None →
  adapterOf m name = Some a →
  stop k name options w0 = (w1, Returns r) →
  runTaskList oracle fuel r w1 = Some (w2, ctx, Completed) →
  ∃ pre mid post,
    trace w2
      = pre
        ++ callsOf Stop
             (filter (λ d, supportsStop w0 d = true)
                (default [] (_resourceDependents m !! name)))
        ++ mid ++ [EXT (AdapterStop a options)]
        ++ callsOf Stop
             (filter (λ d, supportsStop w0 d = true)
                (default [] (_directResourceDependents m !! name)))
        ++ post.
Proof.
  intros Hm Hslot Ha Hstop Hrun.
  destruct (crud_start (getCRUD (resourceType m))) as [s|] eqn:Hs;
    [|edestruct (stop_throws k name options w0 m) as [e He]; eauto;
      by rewrite He in Hstop].
  destruct (crud_stop (getCRUD (resourceType m))) as [t|] eqn:Ht;
    [|edestruct (stop_throws k name options w0 m) as [e He]; eauto;
      by rewrite He in Hstop].
  rewrite (stop_eq _ _ _ _ _ _ _ Hm Hs Ht) in Hstop. cbv zeta in Hstop.
  assert (Hsup : ∀ d m',
            getResourcesManager (emit (RESOURCES_MANAGER Stop k name) w0)
              (dep_plugin d) (dep_resourceType d) = Some m' →
            supportsStop w0 d
              = bool_decide (is_Some (crud_stop (getCRUD (resourceType m'))))).
  { intros d m' Hm'. unfold supportsStop.
    change (getResourcesManager (emit _ w0)) with (getResourcesManager w0)
      in Hm'.
    rewrite Hm'. by rewrite isSome_bool_decide. }
  pose proof (filterDeps_spec
                (λ c, bool_decide (is_Some (crud_stop c)))
                (λ d, supportsStop w0 d)
                (emit (RESOURCES_MANAGER Stop k name) w0)
                (default [] (_resourceDependents m !! name)) Hsup) as H1.
  pose proof (filterDeps_spec
                (λ c, bool_decide (is_Some (crud_stop c)))
                (λ d, supportsStop w0 d)
                (emit (RESOURCES_MANAGER Stop k name) w0)
                (default [] (_directResourceDependents m !! name)) Hsup)
    as H2.
  unfold _getStopDeps in Hstop.
  destruct (filterDeps _ _ (default [] (_resourceDependents m !! name)))
    as [deps1|e]; [|done].
  destruct (filterDeps _ _ (default [] (_directResourceDependents m !! name)))
    as [deps2|e]; [|done].
  destruct H1 as [_ ->]. destruct H2 as [_ ->].
  set (dependents := filter _ (default [] (_resourceDependents m !! name)))
    in *.
  set (directDependents :=
         filter _ (default [] (_directResourceDependents m !! name))) in *.
  rewrite Hslot, Ha in Hstop.
  rewrite bool_decide_eq_false_2 in Hstop by by intros [].
  set (cl := StopTL k name options false (_startTaskList m !! name) (Some a)
               dependents directDependents) in *.
  injection Hstop as Hw1 Hr0.
  change (nextRef (emit (RESOURCES_MANAGER Stop k name) w0))
    with (nextRef w0) in Hw1, Hr0.
  assert (Hr : heap w1 !! r
               = Some {| tl_closure := cl; tl_status := Pending |}).
  { rewrite <- Hw1, <- Hr0, heap_setTaskList. unfold newTaskList. simpl.
    apply lookup_insert_eq. }
  clear Hw1 Hr0.
  unfold runTaskList, runBody in Hrun. rewrite Hr in Hrun.
  cbn [freshContext concurrent cl] in Hrun.
  destruct (runSequential _ _ _ _ _ _) as [[[wS ctxS] outS]|] eqn:Hseq;
    [|done].
  injection Hrun as <- <- ->.
  destruct (quiet_settle r Completed ctxS wS) as (delta & -> & _).
  cbn [tasksOf orb negb isSome cl] in Hseq.
  apply start_phase_abort in Hseq as (wa & pre & _ & Hta & _ & Hseq).
  apply deps_phase in Hseq as (wb & ctxb & mid & _ & Htb & Hseq); [|done..].
  apply adapter_phase in Hseq.
  apply deps_phase in Hseq as (wc & ctxc & mid2 & _ & Htc & Hseq); [|done..].
  injection Hseq as <- _.
  exists (trace w1 ++ pre), mid, (mid2 ++ delta).
  rewrite Htc. simpl. rewrite Htb, Hta. by rewrite <- !app_assoc.
Qed.

(** X14. A [delete] that was not a duplicate, of a name with an
    adapter, whose task list completes, has called [delete(name, {})]
    on every resource of the list it cascades to (the dependents and
    the created resources, without repetitions of a key), in the order
    of that list, before it called [adapter.delete(options)]. *)
Theorem completed_delete_deletes_the_dependents_first
    (oracle : Oracle) (fuel : nat) (k : ManagerKey) (name : string)
    (options : ResourceOptions) (w0 w1 w2 : World) (m : Manager)
    (a : ResourceAdapter) (r : TaskListRef) (ctx : Ctx) :
  managers w0 !! k = Some m →
  _deleteTaskList m !! name = None →
  adapterOf m name = Some a →
  delete_ k name options w0 = (w1, Returns r) →
  runTaskList oracle fuel r w1 = Some (w2, ctx, Completed) →
  ∃ pre mid post,
    trace w2
      = pre
        ++ callsOf Delete
             (_uniqueDeps
                (default [] (_resourceDependents m !! name)
                   ++ default [] (_directResourceDependents m !! name)))
        ++ mid ++ [EXT (AdapterDelete a options)] ++ post.
Proof.
  intros Hm Hslot Ha Hdelete Hrun.
  rewrite (delete_eq _ _ _ _ _ Hm) in Hdelete. cbv zeta in Hdelete.
  rewrite Hslot, Ha in Hdelete.
  rewrite bool_decide_eq_false_2 in Hdelete by by intros [].
  match type of Hdelete with
  | context [newTaskList ?c _] => set (cl := c) in *
  end.
  injection Hdelete as Hw1 Hr0.
  change (nextRef (emit (RESOURCES_MANAGER Delete k name) w0))
    with (nextRef w0) in Hw1, Hr0.
  assert (Hr : heap w1 !! r
               = Some {| tl_closure := cl; tl_status := Pending |}).
  { rewrite <- Hw1, <- Hr0, heap_setTaskList. unfold newTaskList. simpl.
    apply lookup_insert_eq. }
  clear Hw1 Hr0.
  unfold runTaskList, runBody in Hrun. rewrite Hr in Hrun.
  cbn [freshContext concurrent cl] in Hrun.
  destruct (runSequential _ _ _ _ _ _) as [[[wS ctxS] outS]|] eqn:Hseq;
    [|done].
  injection Hrun as <- <- ->.
  destruct (quiet_settle r Completed ctxS wS) as (delta & -> & _).
  cbn [tasksOf orb negb isSome silently cl] in Hseq.
  rewrite app_assoc, runSequential_app in Hseq.
  destruct (runSequential _ _ _ (_ ++ _) _ _) as [[[w3 ctx3] [|e3]]|]
    eqn:Hfirst; [|done..].
  apply deps_phase in Hseq as (wb & ctxb & mid & _ & Htb & Hseq); [|done..].
  apply adapter_phase in Hseq.
  apply runSequential_Steps in Hseq.
  destruct (Steps_trace _ _ _ Hseq) as (d1 & -> & _).
  exists (trace w3), mid, (d1 ++ delta).
  simpl. rewrite Htb. by rewrite <- !app_assoc.
Qed.

Lemma completed_stop_stops_dependents_then_adapter_then_created_witness :
  ∃ pre mid post,
    trace Examples.xStopped.1.1
      = pre
        ++ callsOf Stop
             (filter (λ d, supportsStop Examples.stopScene d = true)
                (default []
                   (_resourceDependents Examples.stopManager !! "x")))
        ++ mid ++ [EXT (AdapterStop 7 emptyOptions)]
        ++ callsOf Stop
             (filter (λ d, supportsStop Examples.stopScene d = true)
                (default []
                   (_directResourceDependents Examples.stopManager !! "x")))
        ++ post.
Proof.
  apply (completed_stop_stops_dependents_then_adapter_then_created
           Demo.happy 6 Demo.disk "x" emptyOptions Examples.stopScene
           Examples.xStopping Examples.xStopped.1.1 Examples.stopManager 7 0
           Examples.xStopped.1.2).
  - vm_compute. reflexivity.
  - vm_compute. reflexivity.
  - vm_compute. reflexivity.
  - vm_compute. reflexivity.
  - vm_compute. reflexivity.
Defined.

(** The log of that run: node [n] is told to stop before the adapter of
    [x] is, disk [y] after it, and wallet [w], whose type has no [stop],
    not at all. *)
Lemma stop_of_x_log :
  trace Examples.xStopped.1.1
    = [ RESOURCES_MANAGER Stop Demo.disk "x";
        RESOURCES_MANAGER Stop Demo.node "n";
        EXT (AdapterStop 8 emptyOptions);
        RESOURCE_ADAPTER_COMPLETE Stop Demo.node "n";
        DONE 2 false; UPDATE Demo.node; DONE 1 false;
        EXT (AdapterStop 7 emptyOptions);
        RESOURCES_MANAGER Stop Demo.disk "y";
        EXT (AdapterStop 9 emptyOptions);
        RESOURCE_ADAPTER_COMPLETE Stop Demo.disk "y";
        DONE 4 false; UPDATE Demo.disk; DONE 3 false;
        RESOURCE_ADAPTER_COMPLETE Stop Demo.disk "x";
        DONE 0 false; UPDATE Demo.disk ].
Proof. by vm_compute. Qed.

Lemma completed_delete_deletes_the_dependents_first_witness :
  ∃ pre mid post,
    trace Examples.cascadeDeleted.1.1
      = pre
        ++ callsOf Delete
             (_uniqueDeps
                (default []
                   (_resourceDependents Examples.cascadeManager !! "x")
                   ++ default []
                        (_directResourceDependents Examples.cascadeManager
                           !! "x")))
        ++ mid ++ [EXT (AdapterDelete 5 emptyOptions)] ++ post.
Proof.
  apply (completed_delete_deletes_the_dependents_first Demo.happy 6
           Demo.node "x" emptyOptions Examples.cascade
           Examples.cascadeDeleting Examples.cascadeDeleted.1.1
           Examples.cascadeManager 5 0 Examples.cascadeDeleted.1.2).
  - vm_compute. reflexivity.
  - vm_compute. reflexivity.
  - vm_compute. reflexivity.
  - vm_compute. reflexivity.
  - vm_compute. reflexivity.
Defined.

(** ** The synchronous part of an operation *)

Lemma invoke_shape op k name options w m :
  managers w !! k = Some m →
  let w0 := emit (RESOURCES_MANAGER op k name) w in
  (∃ e, (op = Start ∨ op = Stop) ∧
        invoke op k name options w = (w0, Throws e)) ∨
  (∃ cl, builtBy cl = Some (op, k, name) ∧
         invoke op k name options w
           = (if bool_decide (is_Some (taskLists op m !! name))
              then (newTaskList cl w0).1
              else setTaskList op k name (nextRef w) (newTaskList cl w0).1,
              Returns (nextRef w))).
Proof.
  intros Hm w0. subst w0. destruct op; cbn [invoke taskLists].
  - right. rewrite (create_eq _ _ _ _ _ Hm). cbv zeta.
    eexists; split; [|reflexivity]; reflexivity.
  - right. rewrite (delete_eq _ _ _ _ _ Hm). cbv zeta.
    eexists; split; [|reflexivity]; reflexivity.
  - destruct (crud_start (getCRUD (resourceType m))) as [s|] eqn:Hs;
      [|left; edestruct (start_throws k name options w m) as [e ->]; eauto].
    destruct (crud_stop (getCRUD (resourceType m))) as [t|] eqn:Ht;
      [|left; edestruct (start_throws k name options w m) as [e ->]; eauto].
    rewrite (start_eq _ _ _ _ _ _ _ Hm Hs Ht). cbv zeta.
    destruct (_getStartDeps _ _); [|left; eauto].
    right. eexists; split; [|reflexivity]; reflexivity.
  - destruct (crud_start (getCRUD (resourceType m))) as [s|] eqn:Hs;
      [|left; edestruct (stop_throws k name options w m) as [e ->]; eauto].
    destruct (crud_stop (getCRUD (resourceType m))) as [t|] eqn:Ht;
      [|left; edestruct (stop_throws k name options w m) as [e ->]; eauto].
    rewrite (stop_eq _ _ _ _ _ _ _ Hm Hs Ht). cbv zeta.
    destruct (_getStopDeps _ (_resourceDependents m !! name)); [|left; eauto].
    destruct (_getStopDeps _ (_directResourceDependents m !! name));
      [|left; eauto].
    right. eexists; split; [|reflexivity]; reflexivity.
Qed.

Lemma inFlight_setTaskList op k name r w op' k' name' :
  inFlight op' (setTaskList op k name r w) k' name'
    = if decide (op' = op ∧ k' = k ∧ name' = name ∧ is_Some (managers w !! k))
      then Some r else inFlight op' w k' name'.
Proof.
  unfold inFlight, setTaskList. rewrite lookup_updManager.
  destruct (decide (k = k')) as [->|Hk].
  - destruct (managers w !! k') as [m|] eqn:Hm; simpl.
    + rewrite taskLists_with_taskLists.
      destruct (decide (op = op')) as [->|Hop].
      * destruct (decide (name' = name)) as [->|Hn].
        -- rewrite lookup_insert_eq. by rewrite decide_True.
        -- rewrite lookup_insert_ne by done. by rewrite decide_False by tauto.
      * rewrite decide_False; [done|]. intros (-> & _). done.
    + rewrite decide_False; [done|]. intros (_ & _ & _ & H). by destruct H.
  - rewrite decide_False; [done|]. intros (_ & -> & _). done.
Qed.

(** X15. The call of an operation itself only constructs: it logs its
    entry, and unless it throws (which only [start] and [stop] do) it
    builds one new pending task list; no collaborator is called, nothing
    is put in the background, no other task list is touched, and of the
    maps of the managers only the in-flight slot of this operation and
    name may change, which keeps the list it held or else receives the
    new one.  The adapters, the dependents, the started flags and the
    create hooks change only while a task list runs. *)
Theorem calling_an_operation_only_registers_its_taskList
    (op : Op) (k : ManagerKey) (name : string) (options : ResourceOptions)
    (w : World) (m : Manager) :
  managers w !! k = Some m →
  ∃ w' res,
    invoke op k name options w = (w', res) ∧
    trace w' = trace w ++ [RESOURCES_MANAGER op k name] ∧
    background w' = background w ∧
    (∀ r, r ≠ nextRef w → heap w' !! r = heap w !! r) ∧
    (∀ k', adaptersOf w' k' = adaptersOf w k' ∧
           directDependentsOf w' k' = directDependentsOf w k' ∧
           dependentsOf w' k' = dependentsOf w k' ∧
           startedFlags w' k' = startedFlags w k' ∧
           hooksOf w' k' = hooksOf w k') ∧
    (∀ op' k' name',
       (op', k', name') ≠ (op, k, name) →
       inFlight op' w' k' name' = inFlight op' w k' name') ∧
    match res with
    | Returns r =>
        r = nextRef w ∧ pendingIn w' r ∧
        inFlight op w' k name = Some (default r (inFlight op w k name))
    | Throws e =>
        (op = Start ∨ op = Stop) ∧
        w' = emit (RESOURCES_MANAGER op k name) w
    end.
Proof.
  intros Hm.
  destruct (invoke op k name options w) as [w' res] eqn:Hinv.
  exists w', res. split; [done|].
  assert (Hw' : w' = (invoke op k name options w).1) by by rewrite Hinv.
  split; [rewrite Hw'; by apply invoke_trace|].
  assert (Hframes : ∀ k',
    adaptersOf w' k' = adaptersOf w k' ∧
    directDependentsOf w' k' = directDependentsOf w k' ∧
    dependentsOf w' k' = dependentsOf w k' ∧
    startedFlags w' k' = startedFlags w k' ∧ hooksOf w' k' = hooksOf w k').
  { intros k'. rewrite Hw'. repeat split.
    - apply adaptersOf_Frame, Frame_invoke. by intros [].
    - apply directDependentsOf_Frame, Frame_invoke. by intros [].
    - apply dependentsOf_Frame, Frame_invoke. by intros [].
    - apply startedFlags_Frame, Frame_invoke. by intros [].
    - apply hooksOf_Frame, Frame_invoke. by intros []. }
  destruct (invoke_shape op k name options w m Hm) as
    [(e & Hop & Heq)|(cl & Hcl & Heq)]; rewrite Heq in Hinv;
    injection Hinv as <- <-.
  - by repeat split.
  - assert (Hheap : ∀ w1,
      heap (if bool_decide (is_Some (taskLists op m !! name)) then w1
            else setTaskList op k name (nextRef w) w1) = heap w1)
      by (intros w1; by destruct (bool_decide _)).
    split; [by destruct (bool_decide _)|].
    split; [intros r Hr; rewrite Hheap; simpl; by rewrite lookup_insert_ne|].
    split; [apply Hframes|].
    split.
    { intros op' k' name' Hne. destruct (bool_decide _); [done|].
      rewrite inFlight_setTaskList. rewrite decide_False; [done|].
      intros (-> & -> & -> & _). done. }
    split; [done|]. split.
    { exists cl. rewrite Hheap. simpl. by rewrite lookup_insert_eq. }
    unfold inFlight at 2. rewrite Hm.
    destruct (taskLists op m !! name) as [r0|] eqn:Hr0.
    + rewrite bool_decide_eq_true_2 by eauto. simpl.
      unfold inFlight. simpl. by rewrite Hm.
    + rewrite bool_decide_eq_false_2 by (by intros [? ?]). simpl.
      rewrite inFlight_setTaskList. rewrite decide_True; [done|].
      simpl. rewrite Hm. eauto.
Qed.

Lemma calling_an_operation_only_registers_its_taskList_witness :
  ∃ w' res,
    invoke Start Demo.node "n" emptyOptions Examples.nCreated.1.1 = (w', res) ∧
    trace w' = trace Examples.nCreated.1.1
                 ++ [RESOURCES_MANAGER Start Demo.node "n"] ∧
    ∃ r, res = Returns r ∧
         inFlight Start w' Demo.node "n" = Some r ∧
         adaptersOf w' Demo.node = adaptersOf Examples.nCreated.1.1 Demo.node.
Proof.
  destruct (calling_an_operation_only_registers_its_taskList Start Demo.node
              "n" emptyOptions Examples.nCreated.1.1
              (default (newManager Demo.nodeType "/data/node")
                 (managers Examples.nCreated.1.1 !! Demo.node)))
    as (w' & res & Heq & Htr & _ & _ & Hfr & _ & Hres); [by vm_compute|].
  exists w', res. split; [done|]. split; [done|].
  assert (Hr : res = (invoke Start Demo.node "n" emptyOptions
                        Examples.nCreated.1.1).2) by by rewrite Heq.
  vm_compute in Hr. subst res. eexists. split; [done|].
  destruct Hres as (_ & _ & Hin). split; [|apply Hfr].
  rewrite Hin. by vm_compute.
Defined.

(** ** The dependents lists only grow *)

Lemma dependentsExtended_refl w : dependentsExtended w w.
Proof. by intros k name. Qed.

Lemma dependentsExtended_trans w1 w2 w3 :
  dependentsExtended w1 w2 → dependentsExtended w2 w3 →
  dependentsExtended w1 w3.
Proof.
  intros H12 H23 k name. etrans; [apply (H12 k name)|apply (H23 k name)].
Qed.

Lemma dependentsExtended_Frame w w' :
  Frame _resourceDependents w w' → dependentsExtended w w'.
Proof. intros H k name. by rewrite (dependentsOf_Frame _ _ _ H). Qed.

Lemma dependentsExtended_addDependent k name d w :
  dependentsExtended w (addDependent k name d w).
Proof.
  intros k' name'. unfold dependentsOf, addDependent.
  rewrite lookup_updManager.
  destruct (decide (k = k')) as [->|Hk]; [|done].
  destruct (managers w !! k') as [m|]; simpl; [|done].
  destruct m; simpl.
  destruct (decide (name = name')) as [->|Hn].
  - rewrite lookup_insert_eq. simpl. by apply prefix_app_r.
  - by rewrite lookup_insert_ne.
Qed.

Lemma dependentsExtended__addDependents self deps w :
  dependentsExtended w (_addDependents self deps w).1.
Proof.
  revert w. induction deps as [|d deps IH]; intros w; simpl;
    [apply dependentsExtended_refl|].
  destruct (getResourcesManager _ _ _); [|apply dependentsExtended_refl].
  eapply dependentsExtended_trans;
    [apply dependentsExtended_addDependent|apply IH].
Qed.

Lemma dependentsExtended_setFromContext r ctx w :
  dependentsExtended w (setFromContext r ctx w).1.
Proof.
  unfold setFromContext.
  destruct (heap w !! r) as [[[] ?]|]; try apply dependentsExtended_refl.
  destruct set; [apply dependentsExtended_refl|].
  match goal with
  | |- context [_addDependents ?s ?d ?w0] =>
      pose proof (dependentsExtended__addDependents s d w0) as Hadd;
      destruct (_addDependents s d w0) as [w1 [e|]]
  end; cbn [fst] in *; intros k' name';
    (etrans; [|apply (Hadd k' name')]);
    apply dependentsExtended_Frame;
    (eapply Frame_trans; [|apply Frame_updManager; by intros []]);
    (eapply Frame_trans; [|apply Frame_updManager; by intros []]);
    done.
Qed.

Lemma dependentsExtended_onError cl r e ctx w :
  dependentsExtended w (onError cl r e ctx w).
Proof.
  destruct cl; simpl; try (by apply dependentsExtended_Frame).
  destruct shouldSkip; [by apply dependentsExtended_Frame|].
  intros k' name'.
  apply (dependentsExtended_setFromContext r ctx
           (emit (RESOURCE_ADAPTER_ERROR Create k name e) w) k' name').
Qed.

Lemma dependentsExtended_settle r out ctx w :
  dependentsExtended w (settle r out ctx w).
Proof.
  unfold settle.
  destruct (heap w !! r) as [[cl [|failed]]|];
    try apply dependentsExtended_refl.
  destruct out as [|e].
  - apply dependentsExtended_Frame.
    eapply Frame_trans; [|apply Frame_onDone; by intros []].
    eapply Frame_trans; [apply Frame_onComplete; by intros []|done].
  - eapply dependentsExtended_trans;
      [|apply dependentsExtended_Frame, Frame_onDone; by intros []].
    intros k' name'. apply (dependentsExtended_onError cl r e ctx w k' name').
Qed.

Lemma dependentsKept_extended w w' :
  dependentsExtended w w' → dependentsKept w w'.
Proof. intros H k name _. apply H. Qed.

Lemma dependentsKept_trans p w1 w2 w3 :
  Steps p w1 w2 → Steps p w2 w3 →
  dependentsKept w1 w2 → dependentsKept w2 w3 → dependentsKept w1 w3.
Proof.
  intros S12 S23 H12 H23 k name Hno.
  rewrite (logSince_Steps p w1 w2 w3 S12 S23) in Hno.
  apply not_elem_of_app in Hno as [Hno1 Hno2].
  etrans; [by apply H12|by apply H23].
Qed.

Lemma finalCleanup_trace oracle k name a w :
  ∃ delta, trace (finalCleanup oracle k name a w).1
           = trace w ++ RESOURCE_ADAPTER_DESTROY k name :: delta.
Proof.
  unfold finalCleanup, _destroy, logInvoke, external. destruct a as [a|]; simpl;
    [|by eexists].
  repeat (match goal with
          | |- context [ext_error ?o ?n ?c] => destruct (ext_error o n c)
          end; simpl);
    rewrite <- ?app_assoc; simpl; by eexists.
Qed.

Lemma dependentsKept_finalCleanup oracle k name a w :
  dependentsKept w (finalCleanup oracle k name a w).1.
Proof.
  intros k' name' Hno.
  destruct (decide ((k', name') = (k, name))) as [[= -> ->]|Hne].
  - exfalso. apply Hno.
    destruct (finalCleanup_trace oracle k name a w) as [d E].
    rewrite (logSince_app _ _ _ E). by left.
  - assert (Hkeep : ∀ w0 : World,
      default [] (dependentsOf w0 k' !! name')
        = default [] (dependentsOf
            (updManager k (λ m,
               with_directResourceDependents
                 (delete name (_directResourceDependents m))
                 (with_resourceDependents
                    (delete name (_resourceDependents m)) m)) w0) k' !! name')).
    { intros w0. unfold dependentsOf. rewrite lookup_updManager.
      destruct (decide (k = k')) as [->|Hk]; [|done].
      destruct (managers w0 !! k') as [m|]; simpl; [|done].
      destruct m; simpl. rewrite lookup_delete_ne; [done|]. congruence. }
    pose proof (dependentsOf_Frame w (_destroy oracle k name a w).1 k'
                  (Frame__destroy _resourceDependents
                     ltac:(by intros []) oracle k name a w)) as Hd.
    unfold finalCleanup.
    destruct (_destroy oracle k name a w) as [w1 [|e]]; simpl in *;
      [|by rewrite Hd].
    unfold external.
    repeat (match goal with
            | |- context [ext_error ?o ?n ?c] => destruct (ext_error o n c)
            end; simpl); try (by rewrite <- Hd).
    rewrite <- Hkeep. simpl. by rewrite <- Hd.
Qed.

Lemma dependentsKept_invokeAction oracle r a ctx w :
  dependentsKept w (invokeAction oracle r a ctx w).1.1.
Proof.
  assert (Hplain : plainAction a →
            dependentsKept w (invokeAction oracle r a ctx w).1.1).
  { intros Hplain. apply dependentsKept_extended, dependentsExtended_Frame.
    apply (Steps_Frame _resourceDependents unwritten); [by intros []..|done|].
    by apply Steps_invokeAction_plain. }
  destruct a; try (by apply Hplain); clear Hplain; simpl.
  - apply dependentsKept_extended. unfold finalSetup.
    pose proof (dependentsExtended_setFromContext r ctx w) as Hs.
    destruct (setFromContext r ctx w) as [w1 [e|]]; simpl in *; [done|].
    unfold external.
    repeat (match goal with
            | |- context [ext_error ?o ?n ?c] => destruct (ext_error o n c)
            end; simpl); done.
  - apply dependentsKept_finalCleanup.
Qed.

Section DependentsKept.
Variable oracle : Oracle.

Local Abbreviation keeps :=
  (λ w w' : World, Steps anything w w' ∧ dependentsKept w w').

Lemma run_dependentsKept fuel :
  good (λ _, True) keeps (λ _, True) (run oracle fuel).
Proof.
  apply (run_inv oracle (λ _, True) keeps (λ _, True) (λ _, True)).
  - intros. split; [apply Steps_refl|].
    apply dependentsKept_extended, dependentsExtended_refl.
  - intros w1 w2 w3 [S12 K12] [S23 K23].
    split; [by eapply Steps_trans|by eapply dependentsKept_trans].
  - done.
  - intros w w' r [S _]. by apply anything_stable.
  - intros r a ctx w _ _.
    destruct (anything_invoke oracle r a ctx w I I) as (_ & S & Hruns).
    split; [done|]. split; [|done].
    split; [done|apply dependentsKept_invokeAction].
  - intros. split; [done|].
    split; [by apply Steps_settle|].
    apply dependentsKept_extended, dependentsExtended_settle.
  - intros. split; [done|].
    split; [by apply Steps_abort|].
    apply dependentsKept_extended, dependentsExtended_Frame, Frame_abort;
      by intros [].
Qed.
End DependentsKept.

(** X16. While task lists run, a dependents list changes only by
    [addDependent] appending to it, until the resource it belongs to is
    destroyed: if the log of a run has no
    [RESOURCES_MANAGER_RESOURCE_ADAPTER_DESTROY] for a manager and a
    name, the dependents list of that name after the run begins with
    the list it was before.  So deleting a resource does not take it
    off the dependents lists of the resources it depends on. *)
Theorem runs_only_append_to_the_dependents_lists
    (oracle : Oracle) (fuel : nat) (r : TaskListRef) (w w' : World)
    (ctx : Ctx) (out : Outcome) (k : ManagerKey) (name : string) :
  runTaskList oracle fuel r w = Some (w', ctx, out) →
  RESOURCE_ADAPTER_DESTROY k name ∉ logSince w w' →
  default [] (dependentsOf w k !! name)
    `prefix_of` default [] (dependentsOf w' k !! name).
Proof.
  intros Hrun. revert k name. change (dependentsKept w w').
  destruct (heap w !! r) as [t|] eqn:Hr.
  - eapply (runBody_inv oracle (λ _, True)
              (λ w w' : World, Steps anything w w' ∧ dependentsKept w w')
              (λ _, True) (λ _, True));
      [..|apply (run_dependentsKept oracle fuel)|done
       |apply runs_True; by rewrite Hr|exact Hrun].
    + intros. split; [apply Steps_refl|].
      apply dependentsKept_extended, dependentsExtended_refl.
    + intros w1 w2 w3 [S12 K12] [S23 K23].
      split; [by eapply Steps_trans|by eapply dependentsKept_trans].
    + done.
    + intros w1 w2 r' [S _]. by apply anything_stable.
    + intros r' a ctx' w1 _ _.
      destruct (anything_invoke oracle r' a ctx' w1 I I) as (_ & S & Hruns).
      split; [done|]. split; [|done].
      split; [done|apply dependentsKept_invokeAction].
    + intros. split; [done|].
      split; [by apply Steps_settle|].
      apply dependentsKept_extended, dependentsExtended_settle.
    + intros. split; [done|].
      split; [by apply Steps_abort|].
      apply dependentsKept_extended, dependentsExtended_Frame, Frame_abort;
        by intros [].
  - unfold runTaskList, runBody in Hrun. rewrite Hr in Hrun.
    injection Hrun as <- _ _.
    apply dependentsKept_extended, dependentsExtended_refl.
Qed.

Lemma runs_only_append_to_the_dependents_lists_witness :
  runTaskList Demo.happy 6 0 Examples.dependentDeleting
    = Some Examples.dependentDeleted ∧
  adaptersOf Examples.dependentDeleted.1.1 Demo.node !! "n" = None ∧
  default [] (dependentsOf Examples.dependentDeleting Demo.disk !! "x")
    = [mkDep Demo.plugin "node" "n"; mkDep Demo.plugin "wallet" "w"] ∧
  default [] (dependentsOf Examples.dependentDeleting Demo.disk !! "x")
    `prefix_of`
    default [] (dependentsOf Examples.dependentDeleted.1.1 Demo.disk !! "x").
Proof.
  split; [by vm_compute|]. split; [by vm_compute|]. split; [by vm_compute|].
  apply (runs_only_append_to_the_dependents_lists Demo.happy 6 0
           Examples.dependentDeleting Examples.dependentDeleted.1.1
           Examples.dependentDeleted.1.2 Examples.dependentDeleted.2
           Demo.disk "x").
  - by vm_compute.
  - vm_compute. intros H.
    repeat (apply elem_of_cons in H as [H|H]; [discriminate H|]).
    by apply elem_of_nil in H.
Defined.

(** ** A create that starts a resource whose type has no [stop] *)

Lemma start_throws_NoStop k name options w m s :
  managers w !! k = Some m →
  crud_start (getCRUD (resourceType m)) = Some s →
  crud_stop (getCRUD (resourceType m)) = None →
  start k name options w
    = (emit (RESOURCES_MANAGER Start k name) w,
       Throws (ResourceNoStopError (rt_plugin (resourceType m))
                 (rt_names_lower (resourceType m)))).
Proof. intros Hm Hs Ht. unfold start. by rewrite Hm, Hs, Ht. Qed.

Lemma setFromContext_error r ctx w e :
  (setFromContext r ctx w).2 = Some e →
  ∃ d, d ∈ default [] (ctx_dependencies ctx) ∧ ¬ known w d ∧
       e = UnknownResourcesManager (dep_plugin d) (dep_resourceType d).
Proof.
  unfold setFromContext.
  destruct (heap w !! r) as [[[] ?]|]; try done.
  destruct set; [done|].
  match goal with
  | |- context [_addDependents ?s ?d ?w0] =>
      pose proof (_addDependents_result s d w0) as Hres;
      assert (HF : Frame resourceType w w0);
      [|destruct (_addDependents s d w0) as [w1 [e'|]]]
  end; simpl in *; [|intros [= ->]|done].
  - eapply Frame_trans; [|apply Frame_updManager; by intros []].
    eapply Frame_trans; [|apply Frame_updManager; by intros []]. done.
  - destruct Hres as (d & Hd & Hnone & ->). exists d.
    split; [done|]. split; [|done].
    intros Hk.
    pose proof (unknown_Frame resourceType _ _ _ HF Hnone) as Hw.
    unfold known, getResourcesManager in Hk. rewrite Hw in Hk.
    by destruct Hk.
Qed.

Lemma create_tasks_without_stop oracle rec r k name options s ctx0 w m :
  managers w !! k = Some m →
  crud_start (getCRUD (resourceType m)) = Some s →
  crud_stop (getCRUD (resourceType m)) = None →
  ∃ wS e,
    runSequential oracle rec r
      (tasksOf (CreateTL k name options false None true (Some s) false))
      ctx0 w
      = Some (wS, created_ctx oracle (length (trace w)) k name options,
              Failed e) ∧
    (e = ResourceNoStopError (rt_plugin (resourceType m))
           (rt_names_lower (resourceType m)) ∨
     (∃ n c, ext_error oracle n c = Some e) ∨
     ∃ d, d ∈ default []
                (ctx_dependencies
                   (created_ctx oracle (length (trace w)) k name options)) ∧
          ¬ known w d ∧
          e = UnknownResourcesManager (dep_plugin d) (dep_resourceType d)).
Proof.
  intros Hm Hs Ht. cbn [tasksOf andb isSome orb silently app].
  cbn [runSequential enabled skip task always negb].
  unfold runAction at 1. cbn [invokeAction].
  unfold createResourceAdapter, external.
  set (cctx := created_ctx oracle (length (trace w)) k name options).
  destruct (ext_error oracle (length (trace w)) _) as [e1|] eqn:E1.
  { eexists _, _. split; [reflexivity|]. right; left; eauto. }
  set (wE := emit _ w).
  unfold runAction at 1. cbn [invokeAction fst snd]. unfold finalSetup.
  pose proof (setFromContext_error r cctx wE) as Herr.
  pose proof (Frame_setFromContext resourceType
                ltac:(by intros []) ltac:(by intros []) ltac:(by intros [])
                r cctx wE) as HF.
  destruct (setFromContext r cctx wE) as [w2 [e2|]]; cbn [fst snd] in *.
  { eexists _, _. split; [reflexivity|]. right; right.
    destruct (Herr e2 eq_refl) as (d & Hd & Hk & ->). by exists d. }
  unfold external.
  destruct (ext_error oracle (length (trace w2)) _) as [e3|] eqn:E3.
  { eexists _, _. split; [reflexivity|]. right; left; eauto. }
  cbn [fst snd].
  match goal with
  | |- context [ext_error oracle ?n (WriteReady ?a ?b ?c ?d)] =>
      destruct (ext_error oracle n (WriteReady a b c d)) as [e4|] eqn:E4
  end.
  { eexists _, _. split; [reflexivity|]. right; left; eauto. }
  cbn [fst snd].
  match goal with
  | |- context [runAction oracle rec r (Call Start k name options) cctx ?wF] =>
      assert (HmF : ∃ mF, managers wF !! k = Some mF ∧
                          resourceType mF = resourceType m)
  end.
  { specialize (HF k). change (managers wE) with (managers w) in HF.
    rewrite Hm in HF. cbn [emit managers].
    destruct (managers w2 !! k) as [mF|] eqn:HmF; [|done].
    exists mF. split; [done|]. simpl in HF. congruence. }
  destruct HmF as (mF & HmF & Hrt).
  unfold runAction. cbn [invokeAction invoke].
  rewrite (start_throws_NoStop k name options _ mF s HmF)
    by (by rewrite Hrt).
  eexists _, _. split; [reflexivity|]. left. by rewrite Hrt.
Qed.

(** X17. [create] adds its start task when the resource type has
    [startOnCreate] and defines [start], but [start] also throws when
    the type has no [stop].  So for such a type a [create] that was not
    a duplicate, of a name without an adapter, never completes: with any
    collaborators its task list fails, with the rejection of a
    collaborator, with the error for a dependency whose manager is not
    registered, or else, after the final setup, with
    [ResourceNoStopError]. *)
Theorem create_started_on_create_fails_without_stop
    (oracle : Oracle) (fuel : nat) (k : ManagerKey) (name : string)
    (options : ResourceOptions) (w0 : World) (m : Manager) (s : string) :
  managers w0 !! k = Some m →
  _createTaskList m !! name = None →
  adapterOf m name = None →
  create_startOnCreate (getCRUD (resourceType m)) = true →
  crud_start (getCRUD (resourceType m)) = Some s →
  crud_stop (getCRUD (resourceType m)) = None →
  ∃ w1 w2 e,
    create k name options w0 = (w1, Returns (nextRef w0)) ∧
    runTaskList oracle fuel (nextRef w0) w1
      = Some (w2, created_ctx oracle (length (trace w1)) k name options,
              Failed e) ∧
    (e = ResourceNoStopError (rt_plugin (resourceType m))
           (rt_names_lower (resourceType m)) ∨
     (∃ n c, ext_error oracle n c = Some e) ∨
     ∃ d, d ∈ default []
                (ctx_dependencies
                   (created_ctx oracle (length (trace w1)) k name options)) ∧
          ¬ known w0 d ∧
          e = UnknownResourcesManager (dep_plugin d) (dep_resourceType d)).
Proof.
  intros Hm Hc Ha Hsoc Hs Ht.
  rewrite (create_eq _ _ _ _ _ Hm). cbv zeta.
  rewrite bool_decide_eq_false_2 by (rewrite Hc; by intros [? ?]).
  rewrite Ha, Hsoc, Hs.
  set (cl := CreateTL k name options false None true (Some s) false).
  set (w1 := setTaskList Create k name _ _).
  assert (Hheap : heap w1 !! nextRef w0
                  = Some {| tl_closure := cl; tl_status := Pending |})
    by apply lookup_insert_eq.
  assert (Hm1 : ∃ m1, managers w1 !! k = Some m1 ∧
                      resourceType m1 = resourceType m).
  { unfold w1, setTaskList. rewrite lookup_updManager_eq. simpl.
    rewrite Hm. simpl. eexists. split; [done|]. by destruct m. }
  destruct Hm1 as (m1 & Hm1 & Hrt).
  destruct (create_tasks_without_stop oracle (run oracle fuel) (nextRef w0)
              k name options s freshCtx w1 m1 Hm1)
    as (wS & e & Hrun & He); [by rewrite Hrt..|].
  exists w1, (settle (nextRef w0) (Failed e)
                (created_ctx oracle (length (trace w1)) k name options) wS), e.
  split; [done|]. split.
  - unfold runTaskList, runBody. rewrite Hheap. unfold cl.
    cbn [freshContext concurrent]. by rewrite Hrun.
  - rewrite Hrt in He. destruct He as [He|[He|(d & Hd & Hk & He)]]; eauto.
    right; right. exists d. split; [done|]. split; [|done].
    intros Hk'. apply Hk. unfold known, getResourcesManager in *.
    unfold w1, setTaskList. rewrite lookup_updManager. simpl.
    case_decide; [|done]. destruct Hk' as [? ->]. by eexists.
Qed.

Lemma create_started_on_create_fails_without_stop_witness :
  ∃ w1 w2,
    create Examples.relay "r" emptyOptions Examples.relayWorld
      = (w1, Returns 0) ∧
    runTaskList Demo.happy 3 0 w1
      = Some (w2, created_ctx Demo.happy (length (trace w1)) Examples.relay
                    "r" emptyOptions,
              Failed (ResourceNoStopError "p" "relay")).
Proof.
  destruct (create_started_on_create_fails_without_stop Demo.happy 3
              Examples.relay "r" emptyOptions Examples.relayWorld
              (newManager Examples.relayType "/data/relay") "start")
    as (w1 & w2 & e & Hc & Hrun & He).
  1-6: vm_compute; reflexivity.
  exists w1, w2. split; [exact Hc|].
  destruct He as [->|[(n & c & Hnc)|(d & Hd & _)]].
  - exact Hrun.
  - discriminate Hnc.
  - cbn in Hd. by apply elem_of_nil in Hd.
Defined.

(** ** Entries leave the adapters map only through [_destroy] *)

Lemma entriesExtended_refl w : entriesExtended w w.
Proof. by intros k name. Qed.

Lemma entryStays_trans w1 w2 w3 k name :
  entryStays w1 w2 k name → entryStays w2 w3 k name → entryStays w1 w3 k name.
Proof. intros [A1 D1] [A2 D2]. split; eauto. Qed.

Lemma entriesExtended_trans w1 w2 w3 :
  entriesExtended w1 w2 → entriesExtended w2 w3 → entriesExtended w1 w3.
Proof. intros H12 H23 k name. by eapply entryStays_trans. Qed.

Lemma entriesExtended_Frame w w' :
  Frame _resourceAdapters w w' → Frame _directResourceDependents w w' →
  entriesExtended w w'.
Proof.
  intros Ha Hd k name. unfold entryStays.
  by rewrite (adaptersOf_Frame _ _ _ Ha), (directDependentsOf_Frame _ _ _ Hd).
Qed.

Lemma entriesExtended_setAdapter k name x w :
  entriesExtended w
    (updManager k (λ m,
       with_resourceAdapters (<[name := x]> (_resourceAdapters m)) m) w).
Proof.
  intros k' name'. split.
  - unfold adaptersOf. rewrite lookup_updManager.
    destruct (decide (k = k')) as [->|Hk]; [|done].
    destruct (managers w !! k') as [m|]; simpl; [|done].
    destruct (decide (name = name')) as [->|Hn].
    + rewrite lookup_insert_eq. by eexists.
    + by rewrite lookup_insert_ne.
  - unfold directDependentsOf. rewrite lookup_updManager.
    destruct (decide (k = k')) as [->|Hk]; [|done].
    by destruct (managers w !! k') as [m|].
Qed.

Lemma entriesExtended_setDirect k name x w :
  entriesExtended w
    (updManager k (λ m,
       with_directResourceDependents
         (<[name := x]> (_directResourceDependents m)) m) w).
Proof.
  intros k' name'. split.
  - unfold adaptersOf. rewrite lookup_updManager.
    destruct (decide (k = k')) as [->|Hk]; [|done].
    by destruct (managers w !! k') as [m|].
  - unfold directDependentsOf. rewrite lookup_updManager.
    destruct (decide (k = k')) as [->|Hk]; [|done].
    destruct (managers w !! k') as [m|]; simpl; [|done].
    destruct (decide (name = name')) as [->|Hn].
    + rewrite lookup_insert_eq. by eexists.
    + by rewrite lookup_insert_ne.
Qed.

Lemma entriesExtended_setFromContext r ctx w :
  entriesExtended w (setFromContext r ctx w).1.
Proof.
  unfold setFromContext.
  destruct (heap w !! r) as [[[] ?]|]; try apply entriesExtended_refl.
  destruct set; [apply entriesExtended_refl|].
  match goal with
  | |- context [_addDependents ?s ?d ?w0] =>
      pose proof (Frame__addDependents _resourceAdapters
                    ltac:(by intros []) s d w0) as Fa;
      pose proof (Frame__addDependents _directResourceDependents
                    ltac:(by intros []) s d w0) as Fd;
      destruct (_addDependents s d w0) as [w1 [e|]]
  end; cbn [fst] in *; intros k' name';
    (eapply entryStays_trans;
       [|apply (entriesExtended_Frame _ _ Fa Fd k' name')]);
    (eapply entryStays_trans; [|apply entriesExtended_setDirect]);
    (eapply entryStays_trans; [|apply entriesExtended_setAdapter]);
    by split.
Qed.

Lemma entriesExtended_onError cl r e ctx w :
  entriesExtended w (onError cl r e ctx w).
Proof.
  destruct cl; simpl; try (by apply entriesExtended_Frame).
  destruct shouldSkip; [by apply entriesExtended_Frame|].
  intros k' name'.
  apply (entriesExtended_setFromContext r ctx
           (emit (RESOURCE_ADAPTER_ERROR Create k name e) w) k' name').
Qed.

Lemma entriesExtended_settle r out ctx w :
  entriesExtended w (settle r out ctx w).
Proof.
  unfold settle.
  destruct (heap w !! r) as [[cl [|failed]]|];
    try apply entriesExtended_refl.
  destruct out as [|e].
  - apply entriesExtended_Frame;
      (eapply Frame_trans; [|apply Frame_onDone; by intros []]);
      (eapply Frame_trans; [apply Frame_onComplete; by intros []|done]).
  - eapply entriesExtended_trans;
      [|apply entriesExtended_Frame; apply Frame_onDone; by intros []].
    intros k' name'. apply (entriesExtended_onError cl r e ctx w k' name').
Qed.

Lemma entriesKept_extended w w' : entriesExtended w w' → entriesKept w w'.
Proof. intros H k name _. apply H. Qed.

Lemma entriesKept_trans p w1 w2 w3 :
  Steps p w1 w2 → Steps p w2 w3 →
  entriesKept w1 w2 → entriesKept w2 w3 → entriesKept w1 w3.
Proof.
  intros S12 S23 H12 H23 k name Hno.
  rewrite (logSince_Steps p w1 w2 w3 S12 S23) in Hno.
  apply not_elem_of_app in Hno as [Hno1 Hno2].
  eapply entryStays_trans; [by apply H12|by apply H23].
Qed.

Lemma entryStays_delete k name w k' name' :
  (k', name') ≠ (k, name) →
  entryStays w
    (updManager k (λ m,
       with_resourceAdapters (delete name (_resourceAdapters m)) m) w)
    k' name' ∧
  entryStays w
    (updManager k (λ m,
       with_directResourceDependents
         (delete name (_directResourceDependents m))
         (with_resourceDependents
            (delete name (_resourceDependents m)) m)) w)
    k' name'.
Proof.
  intros Hne. unfold entryStays, adaptersOf, directDependentsOf.
  rewrite !lookup_updManager.
  destruct (decide (k = k')) as [->|Hk]; [|done].
  destruct (managers w !! k') as [m|]; simpl; [|done].
  rewrite !lookup_delete_ne by congruence. done.
Qed.

Lemma entriesKept_finalCleanup oracle k name a w :
  entriesKept w (finalCleanup oracle k name a w).1.
Proof.
  intros k' name' Hno.
  destruct (decide ((k', name') = (k, name))) as [[= -> ->]|Hne].
  - exfalso. apply Hno.
    destruct (finalCleanup_trace oracle k name a w) as [d E].
    rewrite (logSince_app _ _ _ E). by left.
  - destruct (entryStays_delete k name
                (emit (RESOURCE_ADAPTER_DESTROY k name) w) k' name' Hne)
      as [Hd _].
    unfold finalCleanup, _destroy, logInvoke. destruct a as [a|]; cbn [fst]; [|exact Hd].
    unfold external.
    repeat (match goal with
            | |- context [ext_error ?o ?n ?c] => destruct (ext_error o n c)
            end; cbn [fst snd]); try exact Hd.
    eapply entryStays_trans; [exact Hd|].
    match goal with
    | |- entryStays _ (updManager _ _ ?w0) _ _ =>
        destruct (entryStays_delete k name w0 k' name' Hne) as [_ Hc]
    end.
    exact Hc.
Qed.

Lemma entriesKept_invokeAction oracle r a ctx w :
  entriesKept w (invokeAction oracle r a ctx w).1.1.
Proof.
  assert (Hplain : plainAction a →
            entriesKept w (invokeAction oracle r a ctx w).1.1).
  { intros Hplain. apply entriesKept_extended, entriesExtended_Frame;
      (apply (Steps_Frame _ unwritten); [by intros []..|done|]);
      by apply Steps_invokeAction_plain. }
  destruct a; try (by apply Hplain); clear Hplain; simpl.
  - apply entriesKept_extended. unfold finalSetup.
    pose proof (entriesExtended_setFromContext r ctx w) as Hs.
    destruct (setFromContext r ctx w) as [w1 [e|]]; simpl in *; [done|].
    unfold external.
    repeat (match goal with
            | |- context [ext_error ?o ?n ?c] => destruct (ext_error o n c)
            end; simpl); done.
  - apply entriesKept_finalCleanup.
Qed.

Lemma run_entriesKept oracle fuel :
  good (λ _, True) (λ w w' : World, Steps anything w w' ∧ entriesKept w w')
    (λ _, True) (run oracle fuel).
Proof.
  apply (run_inv oracle (λ _, True)
           (λ w w' : World, Steps anything w w' ∧ entriesKept w w')
           (λ _, True) (λ _, True)).
  - intros. split; [apply Steps_refl|].
    apply entriesKept_extended, entriesExtended_refl.
  - intros w1 w2 w3 [S12 K12] [S23 K23].
    split; [by eapply Steps_trans|by eapply entriesKept_trans].
  - done.
  - intros w w' r [S _]. by apply anything_stable.
  - intros r a ctx w _ _.
    destruct (anything_invoke oracle r a ctx w I I) as (_ & S & Hruns).
    split; [done|]. split; [|done].
    split; [done|apply entriesKept_invokeAction].
  - intros. split; [done|].
    split; [by apply Steps_settle|].
    apply entriesKept_extended, entriesExtended_settle.
  - intros. split; [done|].
    split; [by apply Steps_abort|].
    apply entriesKept_extended, entriesExtended_Frame; apply Frame_abort;
      by intros [].
Qed.

(** X18. While task lists run, a name leaves the adapters map and the
    direct dependents map only through [_destroy] and the final cleanup
    of a [delete]: if the log of a run has no
    [RESOURCES_MANAGER_RESOURCE_ADAPTER_DESTROY] for a manager and a
    name, then an entry the adapters map had for that name before the
    run is still there after it, and so is an entry of the direct
    dependents map.  So a [delete] that fails before its final cleanup,
    or is aborted, leaves the resource registered. *)
Theorem runs_drop_entries_only_through_destroy
    (oracle : Oracle) (fuel : nat) (r : TaskListRef) (w w' : World)
    (ctx : Ctx) (out : Outcome) (k : ManagerKey) (name : string) :
  runTaskList oracle fuel r w = Some (w', ctx, out) →
  RESOURCE_ADAPTER_DESTROY k name ∉ logSince w w' →
  (is_Some (adaptersOf w k !! name) → is_Some (adaptersOf w' k !! name)) ∧
  (is_Some (directDependentsOf w k !! name) →
   is_Some (directDependentsOf w' k !! name)).
Proof.
  intros Hrun. revert k name. change (entriesKept w w').
  destruct (heap w !! r) as [t|] eqn:Hr.
  - eapply (runBody_inv oracle (λ _, True)
              (λ w w' : World, Steps anything w w' ∧ entriesKept w w')
              (λ _, True) (λ _, True));
      [..|apply (run_entriesKept oracle fuel)|done
       |apply runs_True; by rewrite Hr|exact Hrun].
    + intros. split; [apply Steps_refl|].
      apply entriesKept_extended, entriesExtended_refl.
    + intros w1 w2 w3 [S12 K12] [S23 K23].
      split; [by eapply Steps_trans|by eapply entriesKept_trans].
    + done.
    + intros w1 w2 r' [S _]. by apply anything_stable.
    + intros r' a ctx' w1 _ _.
      destruct (anything_invoke oracle r' a ctx' w1 I I) as (_ & S & Hruns).
      split; [done|]. split; [|done].
      split; [done|apply entriesKept_invokeAction].
    + intros. split; [done|].
      split; [by apply Steps_settle|].
      apply entriesKept_extended, entriesExtended_settle.
    + intros. split; [done|].
      split; [by apply Steps_abort|].
      apply entriesKept_extended, entriesExtended_Frame; apply Frame_abort;
        by intros [].
  - unfold runTaskList, runBody in Hrun. rewrite Hr in Hrun.
    injection Hrun as <- _ _.
    apply entriesKept_extended, entriesExtended_refl.
Qed.

Lemma runs_drop_entries_only_through_destroy_witness :
  runTaskList Examples.deleteFails 6 0 Examples.dependentDeleting
    = Some Examples.dependentKept ∧
  Examples.dependentKept.2 = Failed (ExternalError None "cannot delete") ∧
  adaptersOf Examples.dependentDeleting Demo.node !! "n" = Some (Some 8) ∧
  (is_Some (adaptersOf Examples.dependentDeleting Demo.node !! "n") →
   is_Some (adaptersOf Examples.dependentKept.1.1 Demo.node !! "n")) ∧
  (is_Some (directDependentsOf Examples.dependentDeleting Demo.node !! "n") →
   is_Some (directDependentsOf Examples.dependentKept.1.1 Demo.node !! "n")).
Proof.
  split; [by vm_compute|]. split; [by vm_compute|]. split; [by vm_compute|].
  apply (runs_drop_entries_only_through_destroy Examples.deleteFails 6 0
           Examples.dependentDeleting Examples.dependentKept.1.1
           Examples.dependentKept.1.2 Examples.dependentKept.2
           Demo.node "n").
  - by vm_compute.
  - vm_compute. intros H.
    repeat (apply elem_of_cons in H as [H|H]; [discriminate H|]).
    by apply elem_of_nil in H.
Defined.

(** ** A create that starts the resource it created *)

Lemma start_run_calls_adapter oracle fuel wS rS k name options stl a started
    deps ctx w4 ctx4 :
  default false started = false →
  heap wS !! rS
    = Some {| tl_closure := StartTL k name options false stl (Some a) started
                              deps;
              tl_status := Pending |} →
  run oracle fuel wS rS ctx = Some (w4, ctx4, Completed) →
  ∃ d1 d2, trace w4 = trace wS ++ d1 ++ [EXT (AdapterStart a options)] ++ d2.
Proof.
  intros Hst Hr. destruct fuel as [|n]; simpl; [done|].
  unfold runBody. rewrite Hr. cbn [freshContext concurrent tl_closure].
  change (tasksOf (StartTL k name options false stl (Some a) started deps))
    with ([ {| enabled := λ _, isSome stl; skip := silently false;
               task := Abort stl |};
            {| enabled := nonEmpty deps;
               skip := skipped (startDepsSkip false (Some a) started);
               task := Deps Start deps |} ]
          ++ [ {| enabled := always;
                  skip := if default false started then Some AlreadyStarted
                          else None;
                  task := AdapterTask AStart (Some a) options |} ]).
  rewrite Hst.
  rewrite runSequential_app.
  destruct (runSequential _ _ _ [_; _] _ _) as [[[w3 ctx3] [|e]]|] eqn:Hfirst;
    [|done..].
  apply runSequential_Steps in Hfirst.
  destruct (Steps_trace _ _ _ Hfirst) as (d1 & E1 & _).
  simpl. unfold runAction. simpl.
  destruct (ext_error oracle _ _); [done|].
  intros [= <- _].
  destruct (quiet_settle rS Completed ctx3
              (emit (EXT (AdapterStart a options)) w3)) as (d2 & E2 & _).
  exists d1, d2. rewrite E2, trace_emit, E1. by rewrite <- !app_assoc.
Qed.

(** X19. A [create] that was not a duplicate, for a name without an
    adapter, of a resource type that has [startOnCreate] and defines
    [start] and [stop], with no start of the name in flight and the
    name not marked started: when its task list completes, it has
    called [start(options)] on the adapter the master adapter left in
    the context, after the final setup (which installed that adapter
    under the name) and before the create hooks of the manager, which
    are called in the order of registration. *)
Theorem completed_create_starts_the_adapter_it_installed
    (oracle : Oracle) (fuel : nat) (k : ManagerKey) (name : string)
    (options : ResourceOptions) (w0 w1 w2 : World) (m : Manager)
    (r : TaskListRef) (ctx : Ctx) (s t : string) (a : ResourceAdapter) :
  managers w0 !! k = Some m →
  _createTaskList m !! name = None →
  adapterOf m name = None →
  create_startOnCreate (getCRUD (resourceType m)) = true →
  crud_start (getCRUD (resourceType m)) = Some s →
  crud_stop (getCRUD (resourceType m)) = Some t →
  _startTaskList m !! name = None →
  startedOf m name = false →
  create k name options w0 = (w1, Returns r) →
  runTaskList oracle fuel r w1 = Some (w2, ctx, Completed) →
  ctx_resourceAdapter (created_ctx oracle (length (trace w1)) k name options)
    = Some a →
  ∃ pre mid post,
    trace w2 = pre ++ [EXT (AdapterStart a options)] ++ mid
                 ++ hookCalls name options (_createHooks m) ++ post ∧
    EXT (AwaitResource k name) ∈ pre ∧
    (∀ c, EXT c ∉ post).
Proof.
  intros Hm Hslot Hnone Hsoc Hs Ht Hstart Hstarted Hcreate Hrun Hctx.
  pose proof (Steps_create anything (λ _ _, I) k name options w0) as Hsteps01.
  rewrite Hcreate in Hsteps01. simpl in Hsteps01.
  rewrite (create_eq _ _ _ _ _ Hm) in Hcreate. cbv zeta in Hcreate.
  rewrite Hslot, Hnone, Hsoc, Hs in Hcreate.
  rewrite bool_decide_eq_false_2 in Hcreate by by intros [].
  set (cl := CreateTL k name options false None true (Some s) false) in *.
  injection Hcreate as Hw1 Hr0.
  change (nextRef (emit (RESOURCES_MANAGER Create k name) w0))
    with (nextRef w0) in Hw1, Hr0.
  assert (Hr : heap w1 !! r
               = Some {| tl_closure := cl; tl_status := Pending |}).
  { rewrite <- Hw1, <- Hr0, heap_setTaskList. unfold newTaskList. simpl.
    apply lookup_insert_eq. }
  assert (Hm1 : ∃ m1, managers w1 !! k = Some m1 ∧
                  resourceType m1 = resourceType m ∧
                  _startTaskList m1 = _startTaskList m ∧
                  _stopTaskList m1 = _stopTaskList m ∧
                  _resourceAdaptersStarted m1 = _resourceAdaptersStarted m).
  { rewrite <- Hw1. unfold setTaskList. rewrite lookup_updManager_eq. simpl.
    rewrite Hm. simpl. eexists. split; [done|]. by destruct m. }
  destruct Hm1 as (m1 & Hm1 & Hrt1 & Hst1 & Hsp1 & Hsd1).
  clear Hw1 Hr0.
  unfold runTaskList, runBody in Hrun. rewrite Hr in Hrun.
  cbn [freshContext concurrent cl] in Hrun.
  destruct (runSequential _ _ _ _ _ _) as [[[wS ctxS] outS]|] eqn:Hseq;
    [|done].
  injection Hrun as <- <- ->.
  destruct (quiet_settle r Completed ctxS wS) as (delta & -> & Hdelta).
  cbn [tasksOf orb andb isSome silently cl] in Hseq.
  rewrite app_assoc, runSequential_app in Hseq.
  destruct (runSequential _ _ _ (_ ++ _) _ _) as [[[w3 ctx3] [|e3]]|]
    eqn:Hfirst; [|done..].
  pose proof (runSequential_Steps _ _ _ _ _ _ _ _ _ Hfirst) as Hsteps3.
  assert (Hhooks : hooksOf w3 k = _createHooks m).
  { rewrite (hooksOf_Frame w0 w3).
    - unfold hooksOf. by rewrite Hm.
    - apply (Steps_Frame _createHooks anything); try done.
      + by intros [].
      + intros _ f Hf m'. apply Hf.
      + by eapply Steps_trans. }
  cbn [app] in Hfirst.
  apply create_head_explicit in Hfirst as [Hfin Htail].
  set (cctx := created_ctx oracle (length (trace w1)) k name options) in *.
  set (wE := emit (EXT (CreateResourceAdapter k name (resourcePath w1 k name)
                          options)) w1) in *.
  pose proof (finalSetup_awaits oracle r k name cctx wE Hfin) as Hawait.
  assert (HwI : ∃ ws,
            setFromContext r cctx wE = (ws, None) ∧
            managers (finalSetup oracle r k name cctx wE).1 = managers ws).
  { revert Hfin. unfold finalSetup.
    destruct (setFromContext r cctx wE) as [ws [e|]]; [done|].
    unfold external. destruct (ext_error _ _ _); [done|]. cbn [fst snd].
    destruct (ext_error _ _ _); [done|]. intros _. by exists ws. }
  destruct HwI as (ws & Hws & HmwI).
  set (wI := (finalSetup oracle r k name cctx wE).1) in *.
  assert (HmI : ∃ mI, managers wI !! k = Some mI ∧
                  resourceType mI = resourceType m ∧
                  _startTaskList mI = _startTaskList m ∧
                  _stopTaskList mI = _stopTaskList m ∧
                  _resourceAdaptersStarted mI = _resourceAdaptersStarted m ∧
                  _resourceAdapters mI !! name = Some (Some a)).
  { destruct (setFromContext_installs r k name options false None true
                (Some s) Pending cctx wE m1 Hr Hm1) as [Hinst _].
    pose proof (Frame_setFromContext resourceType
                  ltac:(by intros []) ltac:(by intros []) ltac:(by intros [])
                  r cctx wE k) as F1.
    pose proof (Frame_setFromContext _startTaskList
                  ltac:(by intros []) ltac:(by intros []) ltac:(by intros [])
                  r cctx wE k) as F2.
    pose proof (Frame_setFromContext _stopTaskList
                  ltac:(by intros []) ltac:(by intros []) ltac:(by intros [])
                  r cctx wE k) as F3.
    pose proof (Frame_setFromContext _resourceAdaptersStarted
                  ltac:(by intros []) ltac:(by intros []) ltac:(by intros [])
                  r cctx wE k) as F4.
    rewrite Hws in Hinst, F1, F2, F3, F4. cbn [fst] in *.
    change (managers wE) with (managers w1) in *.
    rewrite Hm1 in F1, F2, F3, F4.
    destruct Hinst as (mI & HmI & Had & _).
    rewrite HmI in F1, F2, F3, F4. simpl in F1, F2, F3, F4.
    exists mI. rewrite HmwI. split; [done|].
    rewrite Had, Hctx. repeat split; congruence. }
  destruct HmI as (mI & HmI & HrtI & HstI & HspI & HsdI & HadI).
  rewrite runSequential_run in Htail by done.
  unfold runAction in Htail. cbn [invokeAction invoke task] in Htail.
  rewrite (start_eq k name options wI mI s t HmI) in Htail
    by (by rewrite HrtI).
  cbv zeta in Htail.
  destruct (_getStartDeps _ _) as [deps|e]; [|done].
  rewrite HstI, Hstart in Htail.
  rewrite bool_decide_eq_false_2 in Htail by by intros [].
  assert (HaI : adapterOf mI name = Some a) by (unfold adapterOf; by rewrite HadI).
  assert (HsI : default false (_resourceAdaptersStarted mI !! name) = false)
    by (unfold startedOf in *; by rewrite HsdI).
  rewrite HaI in Htail.
  destruct (run oracle fuel _ _ _) as [[[w4 ctx4] [|e4]]|] eqn:Hrun4;
    [|done..].
  cbn [runSequential] in Htail. injection Htail as -> ->.
  apply (start_run_calls_adapter oracle fuel _ _ k name options
           (_stopTaskList mI !! name) a (_resourceAdaptersStarted mI !! name)
           deps) in Hrun4 as (d1 & d2 & Et);
    [|done|rewrite heap_setTaskList; apply lookup_insert_eq].
  match type of Et with
  | trace _ = trace ?wx ++ _ =>
      change (trace wx) with (trace wI ++ [RESOURCES_MANAGER Start k name])
        in Et
  end.
  assert (Hpre : EXT (AwaitResource k name)
                 ∈ (trace wI ++ [RESOURCES_MANAGER Start k name]) ++ d1).
  { rewrite !elem_of_app. by left; left. }
  revert Hseq. simpl. unfold hooksOf in Hhooks.
  destruct (managers w3 !! k) as [m3|] eqn:Hm3.
  - rewrite <- Hhooks. case_bool_decide as Hlen; simpl.
    + unfold runAction, invokeAction. rewrite Hm3. simpl.
      destruct (run oracle fuel _ _ _) as [[[w5 ctx5] [|e5]]|] eqn:Hrun5;
        [|done..].
      intros [= <- _].
      eapply run_hooks_trace in Hrun5 as [failed Ht5];
        [|unfold newTaskList; simpl; apply lookup_insert_eq].
      exists ((trace wI ++ [RESOURCES_MANAGER Start k name]) ++ d1), d2,
        ([DONE (nextRef w3) failed] ++ delta).
      split; [|split; [done|]].
      * rewrite Ht5. simpl. rewrite Et. by rewrite <- !app_assoc.
      * intros c [[=]|Hc]%elem_of_cons. by apply (Hdelta c).
    + intros [= <- _].
      exists ((trace wI ++ [RESOURCES_MANAGER Start k name]) ++ d1), d2, delta.
      destruct (_createHooks m3); [|simpl in Hlen; lia].
      split; [|done]. rewrite Et. simpl. by rewrite <- !app_assoc.
  - rewrite <- Hhooks. simpl. intros [= <- _].
    exists ((trace wI ++ [RESOURCES_MANAGER Start k name]) ++ d1), d2, delta.
    split; [|done]. rewrite Et. simpl. by rewrite <- !app_assoc.
Qed.

Lemma completed_create_starts_the_adapter_it_installed_witness :
  ∃ pre mid post,
    trace Examples.hookedCreated.1.1
      = pre ++ [EXT (AdapterStart 1 emptyOptions)] ++ mid
          ++ hookCalls "n" emptyOptions
               (_createHooks
                  (with_createHooks [40; 41]
                     (newManager Demo.nodeType "/data/node")))
          ++ post ∧
    EXT (AwaitResource Demo.node "n") ∈ pre ∧
    (∀ c, EXT c ∉ post).
Proof.
  apply (completed_create_starts_the_adapter_it_installed Demo.happy 6
           Demo.node "n" emptyOptions Examples.hooked Examples.hookedCreating
           Examples.hookedCreated.1.1
           (with_createHooks [40; 41] (newManager Demo.nodeType "/data/node"))
           0 Examples.hookedCreated.1.2 "start" "stop" 1).
  all: vm_compute; reflexivity.
Defined.

(** ** The task list of a duplicate call *)

Lemma duplicate_tasks_skipped cl op k name :
  shouldSkipOf cl = true → builtBy cl = Some (op, k, name) → op ≠ Delete →
  Forall (λ t, is_Some (skip t)) (tasksOf cl) ∧
  concurrent cl = false ∧ freshContext cl = true.
Proof.
  destruct cl as [k0 name0 options0 ss ra soc st set
                 |k0 name0 options0 ss ? ? ? ? ? ?
                 |k0 name0 options0 ss stl ra started dd
                 |k0 name0 options0 ss stl ra dd1 dd2| |]; simpl;
    try done.
  - intros -> _ _. split; [|done]. simpl.
    destruct (soc && isSome st); simpl; repeat constructor; by eexists.
  - by intros _ [= <- _ _] ?.
  - intros -> _ _. split; [|done]. repeat constructor; by eexists.
  - intros -> _ _. split; [|done]. repeat constructor; by eexists.
Qed.

(** X20. The task list returned by a [create], [start] or [stop] that
    was called while an operation of the same kind was in flight for
    the name skips every one of its tasks: it completes at once,
    whatever the collaborators would answer, calls none of them and
    leaves nothing in the background.  The maps of the managers are
    afterwards what they were before the call, with one exception:
    [onComplete] of a duplicate [stop] sets the started flag of the name
    to [false], although the stop in flight has not finished. *)
Theorem duplicate_run_skips_every_task
    (oracle : Oracle) (fuel : nat) (op : Op) (k : ManagerKey)
    (name : string) (options : ResourceOptions) (w w1 : World) (m : Manager)
    (r0 r : TaskListRef) :
  op ≠ Delete →
  managers w !! k = Some m →
  taskLists op m !! name = Some r0 →
  invoke op k name options w = (w1, Returns r) →
  ∃ w2,
    runTaskList oracle fuel r w1 = Some (w2, freshCtx, Completed) ∧
    trace w2 = trace w ++ [ RESOURCES_MANAGER op k name;
                            RESOURCE_ADAPTER_COMPLETE op k name;
                            DONE r false ]
                 ++ (if decide (op = Create) then [] else [UPDATE k]) ∧
    background w2 = background w ∧
    managers w2
      = managers (if decide (op = Stop) then setStarted k name false w
                  else w).
Proof.
  intros Hop Hm Hr0 Hinv.
  destruct (invoke_duplicate _ _ _ _ _ _ _ _ _ Hm Hr0 Hinv)
    as (-> & Hms & Hbg & _ & Htr & cl & Hheap & Hskip & Hby).
  destruct (duplicate_tasks_skipped cl op k name Hskip Hby Hop)
    as (Htasks & Hconc & Hfresh).
  assert (Hr : heap w1 !! nextRef w
               = Some {| tl_closure := cl; tl_status := Pending |})
    by (by rewrite Hheap, lookup_insert_eq).
  unfold runTaskList, runBody. rewrite Hr, Hconc, Hfresh.
  rewrite runSequential_passed
    by (eapply Forall_impl; [exact Htasks|]; by right).
  eexists. split; [reflexivity|].
  unfold settle. rewrite Hr.
  destruct cl as [k0 name0 options0 ss ra soc st set
                 |k0 name0 options0 ss ? ? ? ? ? ?
                 |k0 name0 options0 ss stl ra started dd
                 |k0 name0 options0 ss stl ra dd1 dd2| |];
    simpl in Hskip, Hby; try done; subst ss;
    injection Hby as <- <- <-; try done;
    cbn [onComplete onDone].
  - simpl. rewrite Htr, Hbg, Hms. by rewrite <- !app_assoc.
  - simpl. rewrite Htr, Hbg, Hms. by rewrite <- !app_assoc.
  - simpl. rewrite Htr, Hbg, Hms. by rewrite <- !app_assoc.
Qed.

Lemma duplicate_run_skips_every_task_witness :
  startedIn Examples.startedStopping Demo.disk "x" = true ∧
  ∃ w2,
    runTaskList Demo.happy 0 1
      (stop Demo.disk "x" emptyOptions Examples.startedStopping).1
      = Some (w2, freshCtx, Completed) ∧
    trace w2 = trace Examples.startedStopping
                 ++ [ RESOURCES_MANAGER Stop Demo.disk "x";
                      RESOURCE_ADAPTER_COMPLETE Stop Demo.disk "x";
                      DONE 1 false; UPDATE Demo.disk ] ∧
    inFlight Stop w2 Demo.disk "x" = Some 0 ∧
    startedIn w2 Demo.disk "x" = false.
Proof.
  split; [by vm_compute|].
  destruct (duplicate_run_skips_every_task Demo.happy 0 Stop Demo.disk "x"
              emptyOptions Examples.startedStopping
              (stop Demo.disk "x" emptyOptions Examples.startedStopping).1
              (default Examples.stopManager
                 (managers Examples.startedStopping !! Demo.disk)) 0 1)
    as (w2 & Hrun & Htr & _ & Hms); [done|by vm_compute..|].
  exists w2. split; [done|]. split; [done|].
  unfold inFlight, startedIn. rewrite Hms. by vm_compute.
Defined.

(** ** [init] and the dependents lists *)

Lemma addDependent_list k name d w k' name' :
  default [] (dependentsOf (addDependent k name d w) k' !! name')
    = default [] (dependentsOf w k' !! name')
        ++ (if decide ((k', name') = (k, name) ∧ is_Some (managers w !! k))
            then [d] else []).
Proof.
  unfold dependentsOf, addDependent. rewrite lookup_updManager.
  destruct (decide (k = k')) as [->|Hk].
  - destruct (managers w !! k') as [m|] eqn:Hm; simpl.
    + destruct m; simpl.
      destruct (decide (name = name')) as [->|Hn].
      * rewrite lookup_insert_eq. simpl. rewrite decide_True; [done|].
        split; [done|by eexists].
      * rewrite lookup_insert_ne by done.
        rewrite decide_False; [by rewrite app_nil_r|]. by intros [[= ?] _].
    + rewrite decide_False; [done|]. by intros [_ [? ?]].
  - rewrite decide_False; [by rewrite app_nil_r|]. by intros [[= ? ?] _].
Qed.

Lemma _addDependents_appended self deps w d :
  (_addDependents self deps w).2 = None → d ∈ deps →
  ∃ added,
    default [] (dependentsOf (_addDependents self deps w).1
                  (dep_plugin d, dep_resourceType d) !! dep_name d)
      = default [] (dependentsOf w (dep_plugin d, dep_resourceType d)
                      !! dep_name d) ++ added ∧
    self ∈ added.
Proof.
  revert w. induction deps as [|d0 deps IH]; intros w; simpl;
    [by intros _ ?%elem_of_nil|].
  destruct (getResourcesManager w (dep_plugin d0) (dep_resourceType d0))
    as [m0|] eqn:Hm0; [|done].
  set (w1 := addDependent (dep_plugin d0, dep_resourceType d0) (dep_name d0)
               self w).
  intros Hres Hd.
  destruct (decide (((dep_plugin d, dep_resourceType d), dep_name d)
                    = ((dep_plugin d0, dep_resourceType d0), dep_name d0)))
    as [Heq|Hne].
  - destruct (dependentsExtended__addDependents self deps w1
                (dep_plugin d, dep_resourceType d) (dep_name d)) as [l3 ->].
    unfold w1. rewrite addDependent_list.
    rewrite decide_True by (split; [done|unfold getResourcesManager in Hm0;
                                          rewrite Hm0; by eexists]).
    exists ([self] ++ l3). split; [by rewrite <- app_assoc|].
    apply elem_of_app. left. by left.
  - apply elem_of_cons in Hd as [->|Hd]; [done|].
    destruct (IH w1 Hres Hd) as (added & -> & Hin).
    exists added. split; [|done]. unfold w1. rewrite addDependent_list.
    rewrite decide_False by (by intros [? _]). by rewrite app_nil_r.
Qed.

Lemma initOne_extended env k m name w :
  dependentsExtended w (initOne env k m name w).1.
Proof.
  unfold initOne.
  destruct (initResourceAdapter env name _) as [a|e]; simpl;
    repeat (match goal with
            | |- context [_readDeps ?f ?p] => destruct (_readDeps f p)
            end; simpl);
    try (apply dependentsExtended_Frame;
         first [done
               |eapply Frame_trans; [|apply Frame_updManager; by intros []];
                done]).
  match goal with
  | |- context [_addDependents ?s ?d ?w0] =>
      pose proof (dependentsExtended__addDependents s d w0) as Hadd;
      destruct (_addDependents s d w0) as [w1 [e|]]
  end; cbn [fst] in *; intros k' name';
    (etrans; [|apply (Hadd k' name')]);
    apply dependentsExtended_Frame;
    (eapply Frame_trans; [|apply Frame_updManager; by intros []]);
    (eapply Frame_trans; [|apply Frame_updManager; by intros []]);
    done.
Qed.

Lemma initAll_extended env k m resources w :
  dependentsExtended w (initAll env k m resources w).1.
Proof.
  revert w. induction resources as [|name rest IH]; intros w; simpl;
    [apply dependentsExtended_refl|].
  pose proof (initOne_extended env k m name w) as H1.
  destruct (initOne env k m name w) as [w1 res1]. simpl in H1.
  pose proof (IH w1) as H2.
  destruct (initAll env k m rest w1) as [w2 res2]. simpl in *.
  by eapply dependentsExtended_trans.
Qed.

Lemma initOne_appended env k m name w dependencies d :
  (initOne env k m name w).2 = None →
  _readDeps (readJSON env) (_getDependenciesPath m name)
    = Returns dependencies →
  d ∈ dependencies →
  ∃ added,
    default [] (dependentsOf (initOne env k m name w).1
                  (dep_plugin d, dep_resourceType d) !! dep_name d)
      = default [] (dependentsOf w (dep_plugin d, dep_resourceType d)
                      !! dep_name d) ++ added ∧
    selfDependency w k name ∈ added.
Proof.
  unfold initOne. intros Hres Hdeps Hd. revert Hres. rewrite Hdeps.
  destruct (initResourceAdapter env name _) as [a|e]; simpl; [|done].
  destruct (_readDeps _ (_getDirectDependentsPath m name)) as [dependents|e];
    simpl; [|done].
  match goal with
  | |- context [_addDependents ?s ?dd ?w0] =>
      pose proof (_addDependents_appended s dd w0 d) as Hadd;
      assert (Hself : s = selfDependency w k name);
      [|assert (HF : Frame _resourceDependents w w0);
        [|destruct (_addDependents s dd w0) as [w1 [e|]]]]
  end; cbn [fst snd] in *; [| |done|].
  - apply selfDependency_Frame.
    eapply Frame_trans; [|apply Frame_updManager; by intros []].
    eapply Frame_trans; [|apply Frame_updManager; by intros []]. done.
  - eapply Frame_trans; [|apply Frame_updManager; by intros []].
    eapply Frame_trans; [|apply Frame_updManager; by intros []]. done.
  - intros _. destruct (Hadd eq_refl Hd) as (added & -> & Hin).
    exists added. rewrite (dependentsOf_Frame _ _ _ HF). by rewrite <- Hself.
Qed.

Lemma initOne_names env k m name w err :
  (initOne env k m name w).2 = Some err → ie_resource err = name.
Proof.
  unfold initOne.
  destruct (initResourceAdapter env name _) as [a|e]; simpl;
    repeat (match goal with
            | |- context [_readDeps ?f ?p] => destruct (_readDeps f p)
            end; simpl);
    try (by intros [= <-]).
  match goal with
  | |- context [_addDependents ?s ?d ?w0] =>
      destruct (_addDependents s d w0) as [w1 [e|]]
  end; simpl; [by intros [= <-]|done].
Qed.

Lemma initAll_appended env k m resources name dependencies d :
  ∀ w,
  name ∈ resources →
  name ∉ ie_resource <$> (initAll env k m resources w).2 →
  _readDeps (readJSON env) (_getDependenciesPath m name)
    = Returns dependencies →
  d ∈ dependencies →
  ∃ added,
    default [] (dependentsOf (initAll env k m resources w).1
                  (dep_plugin d, dep_resourceType d) !! dep_name d)
      = default [] (dependentsOf w (dep_plugin d, dep_resourceType d)
                      !! dep_name d) ++ added ∧
    selfDependency w k name ∈ added.
Proof.
  induction resources as [|name0 rest IH]; intros w Hin Hnot Hdeps Hd;
    [by apply elem_of_nil in Hin|].
  simpl in *.
  pose proof (initOne_extended env k m name0 w
                (dep_plugin d, dep_resourceType d) (dep_name d)) as [l0 E0].
  pose proof (initOne_appended env k m name0 w dependencies d) as Happ.
  pose proof (Frame_initOne resourceType ltac:(by intros [])
                ltac:(by intros []) ltac:(by intros []) env k m name0 w) as Ft.
  pose proof (initOne_names env k m name0 w) as Hspec.
  destruct (initOne env k m name0 w) as [w1 res1]. cbn [fst snd] in *.
  pose proof (initAll_extended env k m rest w1
                (dep_plugin d, dep_resourceType d) (dep_name d)) as [l1 E1].
  specialize (IH w1).
  destruct (initAll env k m rest w1) as [w2 res2]. cbn [fst snd] in *.
  destruct (decide (name = name0)) as [->|Hne].
  - destruct res1 as [err|].
    + exfalso. apply Hnot. rewrite fmap_cons. apply elem_of_cons. left.
      symmetry. by apply Hspec.
    + destruct (Happ eq_refl Hdeps Hd) as (added & Ea & Hself).
      exists (added ++ l1). rewrite E1, Ea. split; [by rewrite <- app_assoc|].
      apply elem_of_app. by left.
  - apply elem_of_cons in Hin as [?|Hin]; [done|].
    destruct (IH Hin) as (added & Ea & Hself); [|done|done|].
    { intros H. apply Hnot. destruct res1; [right|]; done. }
    exists (l0 ++ added). rewrite Ea, E0. split; [by rewrite <- app_assoc|].
    apply elem_of_app. right.
    by rewrite <- (selfDependency_Frame w w1 k name Ft).
Qed.

(** X21. [init()] replaces the adapters map by an empty one, but not
    the dependents map: every dependents list after [init()] begins
    with the list it was before, and for every ready resource that is
    not reported the resource itself is among what was appended to the
    list of each of its dependencies.  So a resource that was
    registered before, by an earlier [init()] or by its [create], is on
    those lists twice afterwards. *)
Theorem init_appends_to_the_dependents_lists
    (env : InitEnv) (k : ManagerKey) (w : World) (m : Manager)
    (resources : list string) (errors : list InitError) :
  managers w !! k = Some m →
  ready_getAll env = Returns resources →
  (init env k w).2 = Returns errors →
  (∀ k' name',
     default [] (dependentsOf w k' !! name')
       `prefix_of` default [] (dependentsOf (init env k w).1 k' !! name')) ∧
  ∀ name dependencies d,
    name ∈ resources → name ∉ ie_resource <$> errors →
    _readDeps (readJSON env) (_getDependenciesPath m name)
      = Returns dependencies →
    d ∈ dependencies →
    ∃ added,
      default [] (dependentsOf (init env k w).1
                    (dep_plugin d, dep_resourceType d) !! dep_name d)
        = default [] (dependentsOf w (dep_plugin d, dep_resourceType d)
                        !! dep_name d) ++ added ∧
      selfDependency w k name ∈ added.
Proof.
  intros Hm Hready. unfold init, logInvoke. rewrite Hm, Hready.
  destruct (ensureDir env); [done|].
  destruct (firstDuplicate [] resources); [done|].
  set (w0 := updManager k (with_resourceAdapters ∅)
               (emit (RESOURCES_MANAGER_INIT k) w)).
  assert (F0 : Frame _resourceDependents w w0).
  { eapply Frame_trans; [|apply Frame_updManager; by intros []]. done. }
  assert (Ft0 : Frame resourceType w w0).
  { eapply Frame_trans; [|apply Frame_updManager; by intros []]. done. }
  pose proof (initAll_extended env k m resources w0) as Hext.
  pose proof (initAll_appended env k m resources) as Happ.
  destruct (initAll env k m resources w0) as [w1 res] eqn:Hall.
  cbn [fst snd]. intros [= <-]. split.
  - intros k' name'. rewrite <- (dependentsOf_Frame _ _ _ F0). apply Hext.
  - intros name dependencies d Hin Hnot Hdeps Hd.
    destruct (Happ name dependencies d w0 Hin) as (added & Ea & Hself);
      [by rewrite Hall|done|done|].
    rewrite Hall in Ea. cbn [fst] in Ea.
    exists added. rewrite <- (dependentsOf_Frame _ _ _ F0).
    split; [done|]. by rewrite <- (selfDependency_Frame w w0 k name Ft0).
Qed.

Lemma init_appends_to_the_dependents_lists_witness :
  dependentsOf (init DemoInit.env Demo.node Examples.diskD).1 Demo.disk !! "d"
    = Some [mkDep "p" "node" "a"] ∧
  dependentsOf
    (init DemoInit.env Demo.node
       (init DemoInit.env Demo.node Examples.diskD).1).1 Demo.disk !! "d"
    = Some [mkDep "p" "node" "a"; mkDep "p" "node" "a"] ∧
  ∃ added,
    default []
      (dependentsOf
         (init DemoInit.env Demo.node
            (init DemoInit.env Demo.node Examples.diskD).1).1
         ("p", "disk") !! "d")
      = default []
          (dependentsOf (init DemoInit.env Demo.node Examples.diskD).1
             ("p", "disk") !! "d") ++ added ∧
    mkDep "p" "node" "a" ∈ added.
Proof.
  split; [by vm_compute|]. split; [by vm_compute|].
  destruct (init_appends_to_the_dependents_lists DemoInit.env Demo.node
              (init DemoInit.env Demo.node Examples.diskD).1
              (default (newManager Demo.nodeType "")
                 (managers (init DemoInit.env Demo.node Examples.diskD).1
                    !! Demo.node))
              ["a"; "b"; "c"]
              [ {| ie_resourceType := "node"; ie_resource := "b";
                   ie_error := DemoInit.corrupt |};
                {| ie_resourceType := "node"; ie_resource := "c";
                   ie_error := UnknownResourcesManager "q" "x" |} ])
    as [_ H]; [by vm_compute..|].
  apply (H "a" [mkDep "p" "disk" "d"] (mkDep "p" "disk" "d")).
  - by left.
  - vm_compute. intros Hin.
    repeat (apply elem_of_cons in Hin as [Hin|Hin]; [discriminate Hin|]).
    by apply elem_of_nil in Hin.
  - by vm_compute.
  - by left.
Defined.
